(* ===== verification/_CoqProject ===== *)
-Q . S2P
Prelude.v
JsNumber.v
JsValue.v
Unit.v
Encoding.v
Signature.v
ScriptNum.v
Script.v
Base58.v
ScriptText.v
Keys.v
KeysSpec.v
Hmac.v
KeyCache.v
PublicKeys.v
HDKeys.v
HDKeysSpec.v
HDDerive.v
HDCache.v
Bip32.v
Transaction.v
TxObject.v
TxVerify.v
Interpreter.v
InterpreterSpec.v
Spending.v
Multisig.v
AddressSpend.v
Channel.v
ChannelSpec.v
Settlement.v
WebClient.v
WebClientSpec.v
WebClientNext.v
ClientOpens.v
Session.v
Mobile.v
MobileSpec.v
Dashboard.v
DashboardSpec.v
Blocks.v
Merkle.v
MerkleProof.v
BlocksSpec.v
Parsing.v
