(* ===== verification/Prelude.v ===== *)
(** * BitMesh's browser client and its bitcoin library: a verification development

    BitMesh sells network access by the second: a browser page opens a bitcoin payment channel
    with a router and pays a little more of it over a websocket as time goes by.  This library
    models the page and the parts of its bundled bitcoin library that decide what happens to the
    money, and proves what they guarantee; where the code does something else than it means to, a
    theorem says what it does.

    ** The program and the files

    The sources are under [src/Sources/WebClient/js/], the last item's under
    [src/Sources/JavaClient/resources/network/bitmesh/WebServer/].

    - [bitmesh.js], the page: globals, two state machines (channel and display), a handler per
      message, timers.  [WebClient.v] has one record [Client.t] for the globals and one definition
      per function; what leaves the page is a trace of effects; [Client.step] is one event (a
      message, a socket event, a timer, a click).  [WebClientSpec.v] proves its theorems over every
      event and every reachable state, [WebClientNext.v] specifies where each event leads and proves
      that it leads there, [ClientOpens.v] proves what initiating a channel does for any funding, and
      [Session.v] runs a complete session.
    - [bitcore-channel.js], the channel: [Channel.v] has [Commitment], [Payment], [Consumer] (the
      client's side, which the page calls) and [Provider] (the other side, bundled but not used by
      the page); [ChannelSpec.v] proves what the three transactions hold and pay, [Settlement.v]
      that both parties can complete them and the interpreter accepts them.
    - [bitmesh_mobile.js], a second page on which the user pays with a wallet of his own:
      [Mobile.v] models it like the first, [MobileSpec.v] proves its theorems; [JsValue.v] has the
      strings its sums of 64-bit integers turn into.
    - [bitcore.js], the bitcoin library: [Encoding.v] ([Buffer], [BN] conversions, [BufferReader],
      [BufferWriter], [Varint]), [Signature.v] (DER and compact signatures), [ScriptNum.v] (numbers
      of the script language), [Script.v] ([Opcode], [Script], the hash, network and type of an
      address), [ScriptText.v] (scripts as text), [Transaction.v] ([Input] and its classes, [Output],
      [Transaction] with cached amounts, fees and change, [Sighash], signing), [TxObject.v] (transactions
      as plain objects), [TxVerify.v] ([verify], the order of outputs, the checked serialization), [Interpreter.v] ([Interpreter], every opcode),
      [InterpreterSpec.v], [Spending.v], [Multisig.v] and [AddressSpend.v] (what the interpreter accepts,
      of the outputs addresses stand for), [Unit.v] ([Unit], amounts in other units), [Base58.v]
      (hexadecimal and base58 text, with checksums), [Keys.v] ([Networks], the constructors and text
      forms of [Address] and [PrivateKey]) and [KeysSpec.v] (their theorems).
    - keys of [bitcore.js]: [PublicKeys.v] ([Point], [PublicKey]), [Hmac.v] ([Hash.hmac] and the
      decoding of UTF-8 its comparison of keys does), [KeyCache.v] ([HDKeyCache] and its theorems),
      [HDKeys.v] ([HDPrivateKey], [HDPublicKey], and derivation by number and by path through the
      cache); [HDKeysSpec.v] has the theorems on their texts, [HDDerive.v] those on children,
      [HDCache.v] derivation without the cache, [Bip32.v] the reference of the key tree and the
      theorems that compare the code with it.
    - blocks of [bitcore.js]: [Blocks.v] ([BlockHeader], [Block], [MerkleBlock]); [Merkle.v] has the
      reference merkle tree, [MerkleProof.v] the reference of a partial tree and the lemmas on the
      traversal, [BlocksSpec.v] the theorems, [Parsing.v] what reading arbitrary bytes guarantees.
    - [Client/js/bitmesh.js] and [Server/js/bitmesh.js], the two pages the router software serves to
      its owner: [Dashboard.v] models both ([ClientPage], [ServerPage]), their requests answered in
      any order; [DashboardSpec.v] proves their theorems.
    - [JsNumber.v] has the Number type of JavaScript, [Prelude.v] exceptions, results, the state
      and exception monad [js], record updates, and the tactics and lemmas of all files.

    The layers call downwards only: the page drives a [Consumer], the consumer builds, signs and
    verifies transactions, the interpreter checks scripts against transactions.  A Module has the
    name of the class it models and a definition the name of the method, in Rocq's spelling.

    ** How the code is read

    A [js S A] is a function on the object or globals it mutates; a throw keeps the writes made
    before it.  Numbers that the code computes with as Numbers are binary64 values ([JsNumber.v]);
    those that are integers by construction (lengths, opcodes, indices, bignums) are [Z]; bytes are
    [Z], with 32-bit conversions written out where the source has them.  The interfaces
    [Crypto], [Hashes] and [Ecdsa] stand for the bundled hash and elliptic-curve libraries and
    [KeySource] for fresh random keys, [Curve] for its points and [Digests] for SHA-256 and SHA-512
    of any bytes; their laws are [CryptoLaws] (lengths of digests),
    [EcdsaLaws] (a signature verifies under its key; keys are compressed), [DerLaws] (signatures
    are DER), [CurveLaws] (the multiples of the generator are a group of the order of the curve, and
    the coordinates give a point back) and [DigestsLaws] (lengths).  Every theorem that uses them has a witness on a concrete instance.

    ** What the theorems show

    - The page: every event leads to the channel states a specification lists for it, and no other
      ([client_next]); initiating a channel attaches all unused outputs and sends the refund, once, or
      asks for more funds ([client_initiates]); the bookkeeping of timers and funding outputs holds in every
      reachable state ([reachable_bookkeeping]); the escrow is exact, used-up outputs are depleted
      at close, replayed funding is ignored; the recursion of the state setter is bounded; two
      defects of error recovery are proved as such.
    - The mobile page: it opens ([mobile_opens]), keeps its invariant ([mobile_reachable]), and has
      two proved defects: payments are concatenated, timers pile up.
    - The channel from end to end: from compressed keys, a refund address on the client's network and
      distinct funding outputs of its own address of more than a thousand satoshis each, the client and
      the server reach an open channel with a refund the interpreter accepts ([channel_opens]), if every
      signature of the commitment is long enough to be recognised; a shorter one, which the network would
      accept, makes [setupRefund] throw ([refund_setup]); after any run of
      increments the server can complete the payment ([payments_settle]); the two signatures
      complete any transaction that spends the channel, in either order ([two_party_spend]).
    - The channel's transactions: the commitment locks all funds less the fee whatever the number of funding
      transactions, the refund spends it and nothing else and returns its value less the difference of
      two fee estimates ([refund_setup]), payments conserve its value; the
      bundled server half accepts no payment of the bundled client half.
    - Money that can be spent: every input the client signs passes the interpreter, however long its
      signature, while [isFullySigned] asks for a length ([signed_inputs_verify]); the interpreter accepts a key-hash output exactly for its key and a
      valid signature ([p2pkh_spend]) and a multisig output exactly for an ordered choice of keys
      ([multisig_spend], [checkmultisig_matches]); evaluation always ends, within the limits.
    - Keys and addresses: the base58 text of an address and the address determine each other
      ([address_text]) and the interpreter lets the key or the keys of the script spend what was paid to the text, and no key
      with another hash ([text_pays]); the text of a private key
      gives it back ([wif_roundtrip], [wif_exact]); three proved defects of the other forms.
    - Hierarchically derived keys: from the text of a key of the reference tree, a path written as text
      leads to the key at the end of the steps the code makes, which is the key BIP32 defines when no key
      with a hardened child on the path is below 2^248 ([path_derivation]), public derivation agrees with private
      derivation ([public_derivation]), seeds give the master key ([master_key]), texts are read back
      ([extended_text], [private_text_exact]), and the shared cache changes no answer
      ([cache_unseen]), is bounded ([cache_bounded]) and keeps what was used lately
      ([recently_used]), the first key apart ([first_key_lost]).  [hmac_is_rfc2104]: the keyed hash is
      the standard one although it compares the wrong thing.  Keys with leading zeros are hashed and
      written short ([hardened_child_of_small_key], [object_roundtrip]), and a public text is taken
      for a private one ([public_text_accepted]).
    - Blocks: filtered blocks are complete ([filtered_block_complete]) and sound, unless two of the
      finitely many strings hashed for the tree and by the traversal collide ([filtered_block_sound]).
    - The router's page: the button is in one of three states and a click does what its class says, which
      after a price error is not what its text says ([dashboard_reachable], [failed_button_disconnects]).
    - What signatures commit to, by hash type; the change output balances; fees round up.
    - Transactions handed over as objects are read back ([tx_object_roundtrip], on [script_text]), those
      with change are not ([change_not_reread]); what [verify] accepts ([verify_exact]), and what it
      mistakes for a double spend ([false_duplicate]).
    - Round trips: transactions, scripts, addresses, signatures, varints, script numbers.

    ** Fuel

    Loops that are not structural take fuel, each with a lemma that more changes nothing or that
    the amount passed is enough: base58 carries take 32 turns ([push_carry_spec]), parsers take as many turns as bytes ([readChunks],
    [read_times]), the height of a merkle tree 32 ([height_total]), a level as many as hashes
    ([push_level_spec]), digits as the logarithm, the interpreter as many steps as chunks
    ([evaluate_total]), the cache of keys as many turns as it has keys too many ([erase_loop_done]), [classify] the size of the nested redeem scripts ([classify_equation]) and
    [set_channel_state] four calls ([set_channel_state_terminates]).

    ** Not modelled

    Hashes, elliptic curves and bignum arithmetic (third-party libraries in the bundle), the
    protobuf runtime and the browser's DOM (messages arrive decoded, the page's elements are
    effects), the JSON text of objects, peers and URIs of bitcore (not used by the channel), the
    payment-protocol bundle, and the
    router and cloud software, which are Java.  Console output and the text an exception adds to
    [errstr] are left out.  Objects used as maps have the names every object inherits ([inherited_names]):
    looking one up as a network or a unit gives what the code gets, but the constructor of an address
    stops with an error of its own instead of storing it ([not_a_network]). *)
From stdpp Require Export base gmap strings list list_numbers.
From Stdlib Require Export ZArith Lia.

Declare Scope js_scope.
Delimit Scope js_scope with js.
#[export] Set Default Goal Selector "1".

(** ** Exceptions and results *)

(** What a JavaScript [throw] carries: the built-in error classes the sources
    use, bitcore's error classes by name, and the bare [throw {}]. *)
Inductive js_error :=
  | RangeError
  | TypeError
  | EmptyObject
  | ErrorMessage (m : string)
  | InvalidState
  | InvalidArgument
  | BitcoreError (name : string).

#[export] Instance js_error_eq_dec : EqDecision js_error.
Proof. solve_decision. Defined.

Inductive result (A : Type) :=
  | Ok (a : A)
  | Throw (e : js_error).
Arguments Ok {A} a.
Arguments Throw {A} e.

#[export] Instance result_eq_dec {A} `{EqDecision A} : EqDecision (result A).
Proof. solve_decision. Defined.

#[export] Instance result_ret : MRet result := fun A a => Ok a.
#[export] Instance result_bind : MBind result := fun A B f m =>
  match m with Ok a => f a | Throw e => Throw e end.

Definition is_ok {A} (r : result A) : bool :=
  match r with Ok _ => true | Throw _ => false end.

(** [$.checkArgument] / [$.checkState]: throw unless the condition holds. *)
Definition guard_or (e : js_error) (b : bool) : result unit :=
  if b then Ok tt else Throw e.

(** ** Stateful code that can throw

    A JavaScript [throw] does not undo the assignments made before it, so the
    state is returned in both cases. *)
Definition js (S A : Type) : Type := S -> result A * S.

Section JsMonad.
Context {S : Type}.

#[export] Instance js_ret : MRet (js S) := fun A a s => (Ok a, s).
#[export] Instance js_bind : MBind (js S) := fun A B f m s =>
  match m s with
  | (Ok a, s') => f a s'
  | (Throw e, s') => (Throw e, s')
  end.

Definition js_get : js S S := fun s => (Ok s, s).
Definition js_gets {A} (f : S -> A) : js S A := fun s => (Ok (f s), s).
Definition js_modify (f : S -> S) : js S unit := fun s => (Ok tt, f s).
Definition js_throw {A} (e : js_error) : js S A := fun s => (Throw e, s).
Definition js_lift {A} (r : result A) : js S A := fun s => (r, s).
Definition js_skip : js S unit := fun s => (Ok tt, s).

(** [try { m } catch (err) { h }] *)
Definition js_catch {A} (m : js S A) (h : js_error -> js S A) : js S A := fun s =>
  match m s with
  | (Ok a, s') => (Ok a, s')
  | (Throw e, s') => h e s'
  end.

(** [for (x of l) f(x)] *)
Fixpoint js_each {A B} (f : A -> js S B) (l : list A) : js S unit :=
  match l with
  | [] => js_skip
  | x :: l' => f x ;; js_each f l'
  end.
End JsMonad.

(** Running a sequence: the first part succeeds, or it throws. *)
Lemma js_bind_ok {S A B} (m : js S A) (f : A -> js S B) s a s' : m s = (Ok a, s') -> (m ≫= f) s = f a s'.
Proof. intros H. unfold mbind, js_bind. by rewrite H. Qed.

Lemma js_lift_ok {S A B} (r : result A) (f : A -> js S B) s a : r = Ok a -> (js_lift r ≫= f) s = f a s.
Proof. by intros ->. Qed.
Lemma js_gets_ok {S A B} (g : S -> A) (f : A -> js S B) s : (js_gets g ≫= f) s = f (g s) s.
Proof. done. Qed.
Lemma js_guard_ok {S B} e (f : unit -> js S B) s : (js_lift (guard_or e true) ≫= f) s = f tt s.
Proof. done. Qed.
Lemma js_bind_throw {S A B} (m : js S A) (f : A -> js S B) s e s' : m s = (Throw e, s') -> (m ≫= f) s = (Throw e, s').
Proof. intros H. unfold mbind, js_bind. by rewrite H. Qed.

(** Two computations that agree on every state. *)
Lemma js_bind_ext {S A B} (m m' : js S A) (f g : A -> js S B) :
  (forall s, m s = m' s) -> (forall a s, f a s = g a s) -> forall s, (m ≫= f) s = (m' ≫= g) s.
Proof. intros Hm Hf s. unfold mbind, js_bind. rewrite Hm. destruct (m' s) as [[a|e] s']; [apply Hf|done]. Qed.

(** ** What code leaves related

    [keeps proj R m]: however [m] ends, the observation [proj] of the state moves along [R]. *)
Section Keeps.
Context {S X : Type} (proj : S -> X) (R : X -> X -> Prop) `{!PreOrder R}.

Definition keeps {A} (m : js S A) : Prop := forall s, R (proj s) (proj (snd (m s))).

Lemma keeps_ret {A} (a : A) : keeps (mret a).
Proof. intros s. reflexivity. Qed.

Lemma keeps_throw {A} e : keeps (js_throw (A:=A) e).
Proof. intros s. reflexivity. Qed.

Lemma keeps_lift {A} (r : result A) : keeps (js_lift r).
Proof. intros s. reflexivity. Qed.

Lemma keeps_modify f : (forall s, R (proj s) (proj (f s))) -> keeps (js_modify f).
Proof. intros Hf s. apply Hf. Qed.

(** A change the observation does not see. *)
Lemma keeps_unseen f : (forall s, proj (f s) = proj s) -> keeps (js_modify f).
Proof. intros Hf s. cbn. by rewrite Hf. Qed.

Lemma keeps_bind {A B} (m : js S A) (f : A -> js S B) : keeps m -> (forall a, keeps (f a)) -> keeps (m ≫= f).
Proof.
  intros Hm Hf s. unfold mbind, js_bind. specialize (Hm s). destruct (m s) as [[a|e] s']; cbn in *; [|done].
  etransitivity; [exact Hm|apply Hf].
Qed.

Lemma keeps_get : keeps js_get.
Proof. intros s. reflexivity. Qed.

Lemma keeps_catch {A} (m : js S A) (h : js_error -> js S A) : keeps m -> (forall e, keeps (h e)) -> keeps (js_catch m h).
Proof.
  intros Hm Hh s. unfold js_catch. specialize (Hm s). destruct (m s) as [[a|e] s']; cbn in *; [done|].
  etransitivity; [exact Hm|apply Hh].
Qed.

Lemma keeps_each {A B} (f : A -> js S B) l : (forall x, keeps (f x)) -> keeps (js_each f l).
Proof. intros Hf. induction l as [|x l IH]; [intros s; reflexivity|]. apply keeps_bind; [apply Hf|done]. Qed.
End Keeps.

(** Follow the structure of the code; what is left are the changes the observation sees. *)
Ltac keeps_step :=
  match goal with
  | |- forall _, _ => intros ?
  | |- keeps _ _ js_get => apply keeps_get; typeclasses eauto
  | |- keeps _ _ (mbind _ _) => apply keeps_bind; [typeclasses eauto|..]
  | |- keeps _ _ (mret _) => apply keeps_ret; typeclasses eauto
  | |- keeps _ _ (js_throw _) => apply keeps_throw; typeclasses eauto
  | |- keeps _ _ (js_lift _) => apply keeps_lift; typeclasses eauto
  | |- keeps _ _ (js_catch _ _) => apply keeps_catch; [typeclasses eauto|..]
  | |- keeps _ _ (js_each _ _) => apply keeps_each; [typeclasses eauto|..]
  | |- keeps _ _ (js_modify _) => apply keeps_unseen; [typeclasses eauto|reflexivity]
  | |- keeps _ _ (match ?x with _ => _ end) => destruct x
  | |- keeps _ _ (let '(_, _) := ?x in _) => destruct x
  end.

(** ** Record update

    [s <| f := v |>] is [s] with field [f] replaced; the setter of a field is
    computed from the record's eta expansion. *)
Class Eta (R : Type) := eta : R -> R.
Class Setter {R T : Type} (proj : R -> T) := upd : (T -> T) -> R -> R.

Ltac derive_setter :=
  match goal with
  | |- @Setter ?R ?T ?proj =>
      let inst := constr:(_ : Eta R) in
      let g := fresh "g" in let r := fresh "r" in
      unfold Setter; intros g r;
      let body := eval hnf in (inst r) in
      match eval pattern (proj r) in body with
      | ?f _ => let t := eval cbv beta in (f (g (proj r))) in exact t
      end
  end.
#[export] Hint Extern 0 (Setter _) => derive_setter : typeclass_instances.

Notation "s <| f := v |>" := (upd (proj:=f) (fun _ => v) s)
  (at level 1, f at next level, left associativity) : js_scope.
Notation "s <| f ::= g |>" := (upd (proj:=f) g s)
  (at level 1, f at next level, left associativity) : js_scope.

(** ** Tactics *)

(** Split every [if], [match] and [let (_, _)] the goal or a hypothesis is stuck on. *)
Ltac case_all :=
  repeat match goal with
  | |- context [match ?x with _ => _ end] => destruct x eqn:?; simplify_eq/=
  | H : context [match ?x with _ => _ end] |- _ => destruct x eqn:?; simplify_eq/=
  end.

(** Run one fallible step of a computation: a success goes on, a throw ends it. *)
Ltac js_try :=
  match goal with
  | |- context [mbind ?f (js_lift ?r) ?s] =>
      destruct r eqn:?;
      [rewrite (js_bind_ok (js_lift (Ok _)) f s _ s eq_refl)|rewrite (js_bind_throw (js_lift (Throw _)) f s _ s eq_refl)]
  end.
Ltac js_look :=
  match goal with |- context [mbind ?f js_get ?s] => rewrite (js_bind_ok js_get f s s s eq_refl) end.
Ltac js_set :=
  match goal with |- context [mbind ?f (js_modify ?g) ?s] => rewrite (js_bind_ok (js_modify g) f s tt (g s) eq_refl) end.

(** Turn boolean comparisons on [Z] into propositions. *)
Ltac bool_to_Z :=
  rewrite ?andb_true_iff, ?andb_false_iff, ?orb_true_iff, ?orb_false_iff, ?negb_true_iff, ?negb_false_iff,
    ?Z.ltb_lt, ?Z.ltb_ge, ?Z.leb_le, ?Z.leb_gt, ?Z.eqb_eq, ?Z.eqb_neq in *.

(** Unfold the monads and the record setters, and compute. *)
Ltac js_unfold := unfold mbind, js_bind, mret, js_ret, result_bind, result_ret, js_get, js_gets,
  js_modify, js_throw, js_lift, js_skip, js_catch, upd, guard_or.
Ltac js_run := repeat (js_unfold; cbv beta iota; cbn [fst snd negb]).

(** [lia] with division and remainder by constants. *)
Ltac zlia := Z.div_mod_to_equations; lia.

Create HintDb bitmesh.
Create Rewrite HintDb bitmesh.

(** ** Lists cut by an integer length *)

Section ZLists.
Context {A : Type}.
Implicit Types l : list A.
Local Open Scope Z_scope.

Definition zlen l : Z := Z.of_nat (length l).

(** The first [n] elements (none for [n <= 0]), with the count kept in [Z]. *)
Fixpoint ztake (n : Z) (l : list A) : list A :=
  match l with
  | [] => []
  | x :: l' => if n <=? 0 then [] else x :: ztake (n - 1) l'
  end.

Fixpoint zdrop (n : Z) (l : list A) : list A :=
  match l with
  | [] => []
  | x :: l' => if n <=? 0 then l else zdrop (n - 1) l'
  end.

Lemma ztake_take n l : ztake n l = take (Z.to_nat n) l.
Proof.
  revert n; induction l as [|x l IH]; intros n; cbn; [by rewrite take_nil|].
  destruct (Z.leb_spec n 0) as [Hn|Hn].
  - by replace (Z.to_nat n) with 0%nat by lia.
  - rewrite IH. by replace (Z.to_nat n) with (S (Z.to_nat (n - 1))) by lia.
Qed.

Lemma zdrop_drop n l : zdrop n l = drop (Z.to_nat n) l.
Proof.
  revert n; induction l as [|x l IH]; intros n; cbn; [by rewrite drop_nil|].
  destruct (Z.leb_spec n 0) as [Hn|Hn].
  - by replace (Z.to_nat n) with 0%nat by lia.
  - rewrite IH. by replace (Z.to_nat n) with (S (Z.to_nat (n - 1))) by lia.
Qed.

Lemma zlen_nonneg l : 0 <= zlen l.
Proof. unfold zlen; lia. Qed.

Lemma zlen_cons x l : zlen (x :: l) = 1 + zlen l.
Proof. unfold zlen; cbn [length]; lia. Qed.

Lemma zlen_app l k : zlen (l ++ k) = zlen l + zlen k.
Proof. unfold zlen; rewrite length_app; lia. Qed.

Lemma ztake_zdrop n l : ztake n l ++ zdrop n l = l.
Proof. rewrite ztake_take, zdrop_drop. apply take_drop. Qed.

Lemma ztake_app_exact l k : ztake (zlen l) (l ++ k) = l.
Proof. rewrite ztake_take. unfold zlen. rewrite Nat2Z.id. apply take_app_length. Qed.

Lemma zdrop_app_exact l k : zdrop (zlen l) (l ++ k) = k.
Proof. rewrite zdrop_drop. unfold zlen. rewrite Nat2Z.id. apply drop_app_length. Qed.

Lemma zdrop_zdrop n m l : 0 <= n -> 0 <= m -> zdrop n (zdrop m l) = zdrop (m + n) l.
Proof. intros. rewrite !zdrop_drop, drop_drop. f_equal. lia. Qed.

Lemma zlen_zdrop n l : 0 <= n -> zlen (zdrop n l) = Z.max 0 (zlen l - n).
Proof. intros. rewrite zdrop_drop. unfold zlen. rewrite length_drop. lia. Qed.

Lemma zlen_ztake n l : 0 <= n -> zlen (ztake n l) = Z.min n (zlen l).
Proof. intros. rewrite ztake_take. unfold zlen. rewrite length_take. lia. Qed.

Lemma zdrop_0 l : zdrop 0 l = l.
Proof. by destruct l. Qed.

Lemma zdrop_all n l : zlen l <= n -> zdrop n l = [].
Proof. intros. rewrite zdrop_drop. apply drop_ge. unfold zlen in *; lia. Qed.

Lemma ztake_all n l : zlen l <= n -> ztake n l = l.
Proof. intros. rewrite ztake_take. apply take_ge. unfold zlen in *; lia. Qed.
End ZLists.

#[export] Hint Rewrite @zlen_cons @zlen_app : bitmesh.
#[export] Hint Resolve zlen_nonneg : bitmesh.

(** A filter that keeps everything *)
Lemma list_filter_all {A} (P : A -> Prop) `{!forall x, Decision (P x)} (l : list A) : (forall x, x ∈ l -> P x) -> filter P l = l.
Proof.
  induction l as [|x l IH]; intros Hl; [done|]. rewrite filter_cons_True by (apply Hl; left). f_equal. apply IH. intros y Hy. apply Hl. by right.
Qed.
