(* ===== verification/JsNumber.v ===== *)
(** * JavaScript numbers

    A JavaScript Number is an IEEE 754 binary64 value, modelled by the Standard
    Library's executable specification of floating point ([SpecFloat] at
    precision 53).  The operators the sources use on numbers are defined here
    ([+ - * / %], the comparisons, [Math.floor], [Math.ceil], [Math.round],
    ToInt32 and the 32-bit bit operations), with the lemmas that say where they
    are exact: on the integers below 2^53 in absolute value.  Satoshi amounts
    are such integers, so client theorems can be stated over [Z]. *)
From S2P Require Import Prelude.
From Stdlib Require Export SpecFloat.
Local Open Scope Z_scope.

Abbreviation number := spec_float (only parsing).

Definition prec : Z := 53.
Definition emax : Z := 1024.

Definition num_of_Z (z : Z) : number := binary_normalize prec emax z 0 false.
Definition num_nan : number := S754_nan.

Definition num_add : number -> number -> number := SFadd prec emax.
Definition num_sub : number -> number -> number := SFsub prec emax.
Definition num_mul : number -> number -> number := SFmul prec emax.
Definition num_div : number -> number -> number := SFdiv prec emax.
Definition num_neg : number -> number := SFopp.
Definition num_lt : number -> number -> bool := SFltb.
Definition num_le : number -> number -> bool := SFleb.
Definition num_gt (x y : number) : bool := num_lt y x.
Definition num_ge (x y : number) : bool := num_le y x.
(** [===] on two numbers: NaN is not equal to itself, +0 equals -0. *)
Definition num_eq : number -> number -> bool := SFeqb.

(** The sign and magnitude of the truncation of a finite number. *)
Definition trunc_mag (m : positive) (e : Z) : Z :=
  if 0 <=? e then Z.shiftl (Zpos m) e else Z.shiftr (Zpos m) (- e).

(** Truncation towards zero (NaN and the infinities give 0, as in ToInt32). *)
Definition num_trunc (x : number) : Z :=
  match x with
  | S754_finite s m e => cond_Zopp s (trunc_mag m e)
  | _ => 0
  end.

Definition num_is_finite (x : number) : bool :=
  match x with S754_zero _ | S754_finite _ _ _ => true | _ => false end.

(** Does truncation lose nothing? *)
Definition num_is_integer (x : number) : bool :=
  match x with
  | S754_zero _ => true
  | S754_finite _ m e => (0 <=? e) || (Z.shiftl (Z.shiftr (Zpos m) (- e)) (- e) =? Zpos m)
  | _ => false
  end.

(** Integer results keep the sign of zero of their argument, as [Math.floor(-0)] does. *)
Definition num_signed_of_Z (s : bool) (z : Z) : number := binary_normalize prec emax z 0 s.

Definition Math_floor (x : number) : number :=
  match x with
  | S754_finite s m e =>
      if num_is_integer x then x
      else num_signed_of_Z s (if s then - trunc_mag m e - 1 else trunc_mag m e)
  | _ => x
  end.

Definition Math_ceil (x : number) : number := num_neg (Math_floor (num_neg x)).

(** [Math.round(x)]: the nearest integer, halves towards positive infinity. *)
Definition Math_round (x : number) : number :=
  match x with
  | S754_finite s m e =>
      if num_is_integer x then x
      else num_signed_of_Z s
             (let v := cond_Zopp s (Zpos m) in Z.shiftr (2 * v + 2 ^ (- e)) (- e + 1))
  | _ => x
  end.

Definition Math_max (x y : number) : number := if num_lt x y then y else x.

(** [Math.pow(2, k)] for a non-negative integer [k] (infinite above the range). *)
Definition Math_pow2 (k : Z) : number := binary_round prec emax false 1 k.

(** ** 32-bit integers *)

Definition wrap32 (z : Z) : Z := (z + 2 ^ 31) mod 2 ^ 32 - 2 ^ 31.
Definition uwrap32 (z : Z) : Z := z mod 2 ^ 32.

(** [x | 0] and [x >>> 0] *)
Definition to_int32 (x : number) : Z := wrap32 (num_trunc x).
Definition to_uint32 (x : number) : Z := uwrap32 (num_trunc x).

(** [a % b] on numbers: the remainder of truncating division, exact. *)
Definition num_rem (x y : number) : number :=
  match x, y with
  | S754_nan, _ | _, S754_nan | S754_infinity _, _ | _, S754_zero _ => S754_nan
  | _, S754_infinity _ | S754_zero _, _ => x
  | S754_finite sx mx ex, S754_finite _ my ey =>
      let ez := Z.min ex ey in
      binary_normalize prec emax
        (Z.rem (cond_Zopp sx (Z.shiftl (Zpos mx) (ex - ez))) (Z.shiftl (Zpos my) (ey - ez)))
        ez sx
  end.

(** ** Exactness on safe integers *)

Definition safe (z : Z) : Prop := Z.abs z < 2 ^ 53.

(** The mantissa and exponent a nonzero safe integer is stored with. *)
Definition mant (a : Z) : Z := a * 2 ^ (52 - Z.log2 a).
Definition expo (a : Z) : Z := Z.log2 a - 52.

Lemma digits2_log2 m : Zpos (digits2_pos m) = Z.log2 (Zpos m) + 1.
Proof.
  induction m as [m IH|m IH|]; cbn [digits2_pos]; [| |reflexivity].
  - rewrite Pos2Z.inj_succ, IH, Pos2Z.inj_xI, Z.log2_succ_double by lia. lia.
  - rewrite Pos2Z.inj_succ, IH, Pos2Z.inj_xO, Z.log2_double by lia. lia.
Qed.

Lemma iter_pos_nat {A} (f : A -> A) p x : iter_pos f p x = Nat.iter (Pos.to_nat p) f x.
Proof.
  revert x; induction p as [p IH|p IH|]; intros x; cbn [iter_pos]; [| |reflexivity].
  - rewrite !IH, Pos2Nat.inj_xI, <-Nat.iter_add, <-Nat.iter_succ_r.
    f_equal. lia.
  - rewrite !IH, Pos2Nat.inj_xO, <-Nat.iter_add. f_equal. lia.
Qed.

Lemma shr_1_double m : shr_1 (Build_shr_record (Zpos m~0) false false) = Build_shr_record (Zpos m) false false.
Proof. reflexivity. Qed.

Lemma shr_1_iter M n :
  Nat.iter n shr_1 (Build_shr_record (Zpos M * 2 ^ Z.of_nat n) false false)
  = Build_shr_record (Zpos M) false false.
Proof.
  induction n as [|n IH]; [by rewrite Z.mul_1_r|].
  rewrite Nat.iter_succ_r, Nat2Z.inj_succ, Z.pow_succ_r by lia.
  replace (Zpos M * (2 * 2 ^ Z.of_nat n)) with (2 * (Zpos M * 2 ^ Z.of_nat n)) by lia.
  assert (0 < Zpos M * 2 ^ Z.of_nat n) as Hp by (apply Z.mul_pos_pos; lia).
  destruct (Zpos M * 2 ^ Z.of_nat n) as [|q|q]; [lia| |lia].
  change (2 * Zpos q) with (Zpos q~0). by rewrite shr_1_double.
Qed.

Lemma log2_pow2_mul a k : 0 < a -> 0 <= k -> Z.log2 (a * 2 ^ k) = Z.log2 a + k.
Proof. intros. rewrite Z.log2_mul_pow2 by lia. lia. Qed.

Section Canonical.
(** A mantissa of exactly 53 bits and an exponent in range. *)
Context (M : positive) (E : Z).
Hypothesis HM : Z.log2 (Zpos M) = 52.
Hypothesis HE : -1074 <= E <= 971.

Lemma shr_fexp_canonical k : 0 <= k ->
  shr_fexp prec emax (Zpos M * 2 ^ k) (E - k) loc_Exact = (Build_shr_record (Zpos M) false false, E).
Proof.
  intros Hk. unfold shr_fexp, fexp, emin, prec, emax.
  assert (0 < Zpos M * 2 ^ k) as Hp by (apply Z.mul_pos_pos; lia).
  assert (Zdigits2 (Zpos M * 2 ^ k) = 53 + k) as ->.
  { pose proof (log2_pow2_mul (Zpos M) k ltac:(lia) Hk) as Hl.
    destruct (Zpos M * 2 ^ k) as [|q|q]; [lia| |lia].
    cbn [Zdigits2]. rewrite digits2_log2, Hl, HM. lia. }
  rewrite Z.max_l by lia. unfold shr, shr_record_of_loc.
  replace (53 + k + (E - k) - 53 - (E - k)) with k by lia.
  destruct k as [|p|p]; [|  |lia].
  - by rewrite Z.mul_1_r, Z.sub_0_r.
  - rewrite iter_pos_nat, <-(positive_nat_Z p), shr_1_iter. f_equal. lia.
Qed.

Lemma round_aux_canonical s k : 0 <= k ->
  binary_round_aux prec emax s (Zpos M * 2 ^ k) (E - k) loc_Exact = S754_finite s M E.
Proof.
  intros Hk. unfold binary_round_aux. rewrite shr_fexp_canonical by done.
  cbn [loc_of_shr_record shr_m round_nearest_even].
  pose proof (shr_fexp_canonical 0 ltac:(lia)) as H0.
  rewrite Z.mul_1_r, Z.sub_0_r in H0. rewrite H0. cbn [shr_m].
  unfold emax, prec. destruct (Z.leb_spec E (1024 - 53)); [done|lia].
Qed.

Lemma pos_iter_xO m d : Zpos (Pos.iter xO m d) = Zpos m * 2 ^ Zpos d.
Proof.
  induction d as [|d IH] using Pos.peano_ind.
  - cbn. lia.
  - rewrite Pos.iter_succ, Pos2Z.inj_xO, IH, Pos2Z.inj_succ, Z.pow_succ_r by lia. lia.
Qed.

(** Rounding [m * 2^e] gives [M * 2^E] whenever the two are the same value. *)
Lemma binary_round_canonical s m e :
  (E <= e /\ Zpos m * 2 ^ (e - E) = Zpos M) \/ (e <= E /\ Zpos m = Zpos M * 2 ^ (E - e)) ->
  binary_round prec emax s m e = S754_finite s M E.
Proof.
  intros H. unfold binary_round, fexp, emin, prec, emax.
  assert (Z.log2 (Zpos m) + e = 52 + E) as Hlog.
  { destruct H as [[? H]|[? H]].
    - assert (Z.log2 (Zpos m * 2 ^ (e - E)) = 52) as Hl by (by rewrite H).
      rewrite log2_pow2_mul in Hl by lia. lia.
    - rewrite H, log2_pow2_mul by lia. lia. }
  rewrite digits2_log2.
  replace (Z.log2 (Zpos m) + 1 + e - 53) with E by lia. rewrite Z.max_l by lia.
  unfold shl_align. destruct H as [[Hle H]|[Hle H]].
  - pose proof (round_aux_canonical s 0 ltac:(lia)) as Hr.
    rewrite Z.mul_1_r, Z.sub_0_r in Hr.
    destruct (E - e) as [|d|d] eqn:Hd; [|lia|].
    + replace (e - E) with 0 in H by lia. rewrite Z.mul_1_r in H. injection H as ->.
      by replace e with E by lia.
    + replace (e - E) with (Zpos d) in H by lia. rewrite <-pos_iter_xO in H.
      injection H as ->. done.
  - destruct (E - e) as [|d|d] eqn:Hd; [| |lia].
    + cbv zeta iota. rewrite H. replace e with (E - 0) by lia.
      by apply round_aux_canonical.
    + rewrite H. replace e with (E - Zpos d) by lia. by apply round_aux_canonical.
Qed.
End Canonical.

Lemma log2_safe a : 0 < a -> a < 2 ^ 53 -> 0 <= Z.log2 a <= 52.
Proof.
  intros. split; [apply Z.log2_nonneg|].
  pose proof (Z.log2_lt_pow2 a 53 ltac:(lia)). lia.
Qed.

Lemma mant_log2 a : 0 < a -> a < 2 ^ 53 -> Z.log2 (mant a) = 52.
Proof.
  intros Ha Hs. pose proof (log2_safe a Ha Hs). unfold mant.
  rewrite log2_pow2_mul by lia. lia.
Qed.

(** A safe integer is stored exactly. *)
Lemma binary_round_safe s a k m :
  0 < a -> a < 2 ^ 53 -> 0 <= k -> Zpos m = a * 2 ^ k ->
  binary_round prec emax s m (- k) = S754_finite s (Z.to_pos (mant a)) (expo a).
Proof.
  intros Ha Hs Hk Hm. pose proof (log2_safe a Ha Hs) as Hl.
  assert (0 < mant a) as Hp by (unfold mant; apply Z.mul_pos_pos; lia).
  apply binary_round_canonical.
  - rewrite Z2Pos.id by done. by apply mant_log2.
  - unfold expo; lia.
  - rewrite Z2Pos.id, Hm by done. unfold mant, expo.
    destruct (Z.le_ge_cases (52 - Z.log2 a) k) as [Hc|Hc]; [right|left].
    + split; [lia|]. rewrite <-Z.mul_assoc, <-Z.pow_add_r by lia. f_equal. f_equal. lia.
    + split; [lia|]. rewrite <-Z.mul_assoc, <-Z.pow_add_r by lia. f_equal. f_equal. lia.
Qed.

Lemma num_of_Z_0 : num_of_Z 0 = S754_zero false.
Proof. reflexivity. Qed.

Lemma num_of_Z_scaled z k : safe z -> 0 <= k ->
  binary_normalize prec emax (z * 2 ^ k) (- k) false = num_of_Z z.
Proof.
  unfold safe, num_of_Z. intros Hs Hk.
  assert (0 < 2 ^ k) as Hpk by lia.
  destruct z as [|p|p]; [reflexivity| |].
  - assert (0 < Zpos p * 2 ^ k) as Hpos by (apply Z.mul_pos_pos; lia).
    destruct (Zpos p * 2 ^ k) as [|q|q] eqn:Hq; [lia| |lia]. cbn [binary_normalize].
    rewrite (binary_round_safe false (Zpos p) k q) by lia.
    change 0 with (- 0). rewrite (binary_round_safe false (Zpos p) 0 p) by lia. done.
  - assert (0 < Zpos p * 2 ^ k) as Hpos by (apply Z.mul_pos_pos; lia).
    assert (Zneg p * 2 ^ k = - (Zpos p * 2 ^ k)) as -> by lia.
    destruct (Zpos p * 2 ^ k) as [|q|q] eqn:Hq; [lia| |lia]. change (- Zpos q) with (Zneg q). cbn [binary_normalize].
    rewrite (binary_round_safe true (Zpos p) k q) by lia.
    change 0 with (- 0). rewrite (binary_round_safe true (Zpos p) 0 p) by lia. done.
Qed.

(** How a nonzero safe integer looks: sign, 53-bit mantissa, exponent. *)
Lemma num_of_Z_finite z : safe z -> z <> 0 ->
  num_of_Z z = S754_finite (z <? 0) (Z.to_pos (mant (Z.abs z))) (expo (Z.abs z)).
Proof.
  unfold safe, num_of_Z. intros Hs Hz.
  destruct z as [|p|p]; [lia| |]; cbn [binary_normalize Z.abs]; change 0 with (- 0) at 1;
    rewrite (binary_round_safe _ (Zpos p) 0 p) by lia; done.
Qed.

Lemma shl_align_safe a e k : 0 < a -> a < 2 ^ 53 -> e <= expo a -> k = - e ->
  Zpos (fst (shl_align (Z.to_pos (mant a)) (expo a) e)) = a * 2 ^ k.
Proof.
  intros Ha Hs He ->. pose proof (log2_safe a Ha Hs) as Hl. unfold expo in He.
  assert (0 < mant a) as Hp by (unfold mant; apply Z.mul_pos_pos; lia).
  unfold shl_align. destruct (e - expo a) as [|d|d] eqn:Hd; unfold expo in Hd; [|lia|]; cbn [fst].
  - rewrite Z2Pos.id by done. unfold mant. f_equal. f_equal. lia.
  - rewrite pos_iter_xO, Z2Pos.id by done. unfold mant.
    rewrite <-Z.mul_assoc, <-Z.pow_add_r by lia. f_equal. f_equal. lia.
Qed.

Lemma cond_Zopp_abs z : cond_Zopp (z <? 0) (Z.abs z) = z.
Proof. unfold cond_Zopp. destruct (Z.ltb_spec z 0); lia. Qed.

Lemma aligned_safe z e : safe z -> z <> 0 -> e <= expo (Z.abs z) ->
  cond_Zopp (z <? 0) (Zpos (fst (shl_align (Z.to_pos (mant (Z.abs z))) (expo (Z.abs z)) e)))
  = z * 2 ^ (- e).
Proof.
  intros Hs Hz He. rewrite (shl_align_safe (Z.abs z) e (- e)) by (unfold safe in *; lia).
  rewrite <-(cond_Zopp_abs z) at 3. unfold cond_Zopp. destruct (z <? 0); lia.
Qed.

Lemma expo_le_0 z : safe z -> z <> 0 -> expo (Z.abs z) <= 0.
Proof.
  intros Hs Hz. unfold safe in Hs.
  pose proof (log2_safe (Z.abs z) ltac:(lia) Hs). unfold expo. lia.
Qed.

Lemma num_add_safe a b : safe a -> safe b -> safe (a + b) ->
  num_add (num_of_Z a) (num_of_Z b) = num_of_Z (a + b).
Proof.
  intros Ha Hb Hab.
  destruct (Z.eq_dec a 0) as [->|Ha0].
  { destruct (Z.eq_dec b 0) as [->|Hb0]; [reflexivity|].
    rewrite (num_of_Z_finite b) by done. rewrite num_of_Z_0. cbn. by rewrite <-num_of_Z_finite. }
  destruct (Z.eq_dec b 0) as [->|Hb0].
  { rewrite (num_of_Z_finite a), num_of_Z_0 by done. cbn. rewrite <-num_of_Z_finite by done.
    by rewrite Z.add_0_r. }
  pose proof (expo_le_0 a Ha Ha0). pose proof (expo_le_0 b Hb Hb0).
  rewrite (num_of_Z_finite a), (num_of_Z_finite b) by done.
  unfold num_add, SFadd. rewrite !aligned_safe by (done || lia).
  rewrite <-Z.mul_add_distr_r.
  rewrite <-(num_of_Z_scaled (a + b) (- Z.min (expo (Z.abs a)) (expo (Z.abs b)))) by (done || lia).
  f_equal. lia.
Qed.

Lemma num_sub_safe a b : safe a -> safe b -> safe (a - b) ->
  num_sub (num_of_Z a) (num_of_Z b) = num_of_Z (a - b).
Proof.
  intros Ha Hb Hab.
  destruct (Z.eq_dec a 0) as [->|Ha0].
  { destruct (Z.eq_dec b 0) as [->|Hb0]; [reflexivity|].
    rewrite Z.sub_0_l, (num_of_Z_finite b), (num_of_Z_finite (- b)), num_of_Z_0, Z.abs_opp
      by (done || lia).
    unfold num_sub, SFsub. f_equal. destruct (Z.ltb_spec b 0), (Z.ltb_spec (- b) 0); cbn; lia || done. }
  destruct (Z.eq_dec b 0) as [->|Hb0].
  { rewrite (num_of_Z_finite a), num_of_Z_0 by done. cbn. rewrite <-num_of_Z_finite by done.
    by rewrite Z.sub_0_r. }
  pose proof (expo_le_0 a Ha Ha0). pose proof (expo_le_0 b Hb Hb0).
  rewrite (num_of_Z_finite a), (num_of_Z_finite b) by done.
  unfold num_sub, SFsub. rewrite !aligned_safe by (done || lia).
  rewrite <-Z.mul_sub_distr_r.
  rewrite <-(num_of_Z_scaled (a - b) (- Z.min (expo (Z.abs a)) (expo (Z.abs b)))) by (done || lia).
  f_equal. lia.
Qed.

Lemma num_mul_safe a b : safe a -> safe b -> safe (a * b) ->
  0 < a -> 0 < b ->
  num_mul (num_of_Z a) (num_of_Z b) = num_of_Z (a * b).
Proof.
  unfold safe. intros Ha Hb Hab Ha0 Hb0.
  assert (0 < a * b) as Hp by (apply Z.mul_pos_pos; lia).
  pose proof (log2_safe a ltac:(lia) ltac:(lia)). pose proof (log2_safe b ltac:(lia) ltac:(lia)).
  pose proof (log2_safe (a * b) ltac:(lia) ltac:(lia)).
  rewrite (num_of_Z_finite a), (num_of_Z_finite b), (num_of_Z_finite (a * b)) by (unfold safe; lia).
  rewrite !(proj2 (Z.ltb_ge _ _)) by lia. rewrite !Z.abs_eq by lia.
  assert (0 < mant a /\ 0 < mant b /\ 0 < mant (a * b)) as (Hma & Hmb & Hmab)
    by (unfold mant; repeat split; apply Z.mul_pos_pos; lia).
  pose proof (Z.log2_mul_below a b ltac:(lia) ltac:(lia)) as Hlog.
  unfold num_mul, SFmul. cbn [xorb].
  rewrite Pos2Z.inj_mul, !Z2Pos.id by done.
  set (k := 52 + Z.log2 (a * b) - Z.log2 a - Z.log2 b).
  replace (mant a * mant b) with (Zpos (Z.to_pos (mant (a * b))) * 2 ^ k).
  - replace (expo a + expo b) with (expo (a * b) - k) by (unfold expo, k; lia).
    apply round_aux_canonical.
    + rewrite Z2Pos.id by done. apply mant_log2; lia.
    + unfold expo; lia.
    + unfold k; lia.
  - rewrite Z2Pos.id by done. unfold mant, k.
    rewrite <-Z.mul_assoc, <-Z.pow_add_r by lia.
    replace (52 - Z.log2 (a * b) + (52 + Z.log2 (a * b) - Z.log2 a - Z.log2 b))
      with ((52 - Z.log2 a) + (52 - Z.log2 b)) by lia.
    rewrite Z.pow_add_r by lia. ring.
Qed.

(** Comparing the stored forms of two positive safe integers compares the integers. *)
Lemma compare_stored a b : 0 < a -> a < 2 ^ 53 -> 0 < b -> b < 2 ^ 53 ->
  match expo a ?= expo b with
  | Lt => Lt | Gt => Gt
  | Eq => Pos.compare_cont Eq (Z.to_pos (mant a)) (Z.to_pos (mant b))
  end = (a ?= b).
Proof.
  intros Ha Hsa Hb Hsb.
  pose proof (log2_safe a Ha Hsa). pose proof (log2_safe b Hb Hsb).
  assert (0 < mant a /\ 0 < mant b) as [Hma Hmb]
    by (unfold mant; split; apply Z.mul_pos_pos; lia).
  unfold expo. destruct (Z.compare_spec (Z.log2 a - 52) (Z.log2 b - 52)) as [He|He|He].
  - change (Pos.compare_cont Eq (Z.to_pos (mant a)) (Z.to_pos (mant b)))
      with (Zpos (Z.to_pos (mant a)) ?= Zpos (Z.to_pos (mant b))).
    rewrite !Z2Pos.id by done. unfold mant.
    replace (Z.log2 b) with (Z.log2 a) by lia.
    symmetry. apply Zmult_compare_compat_r. lia.
  - symmetry. apply Z.compare_lt_iff. apply Z.log2_lt_cancel. lia.
  - symmetry. apply Z.compare_gt_iff. apply Z.log2_lt_cancel. lia.
Qed.

Lemma num_compare_safe a b : safe a -> safe b ->
  SFcompare (num_of_Z a) (num_of_Z b) = Some (a ?= b).
Proof.
  intros Ha Hb. unfold safe in *.
  destruct (Z.eq_dec a 0) as [->|Ha0]; destruct (Z.eq_dec b 0) as [->|Hb0]; [reflexivity| | |].
  - rewrite (num_of_Z_finite b), num_of_Z_0 by (done || lia). cbn.
    by destruct b.
  - rewrite (num_of_Z_finite a), num_of_Z_0 by (done || lia). cbn.
    by destruct a.
  - rewrite (num_of_Z_finite a), (num_of_Z_finite b) by done. unfold SFcompare.
    pose proof (compare_stored (Z.abs a) (Z.abs b) ltac:(lia) Ha ltac:(lia) Hb) as Hc.
    destruct (Z.ltb_spec a 0), (Z.ltb_spec b 0).
    + rewrite !Z.abs_neq in Hc by lia. rewrite !Z.abs_neq by lia. f_equal.
      rewrite Z.compare_opp in Hc. rewrite (Z.compare_antisym b a), <-Hc.
      destruct (expo (- a) ?= expo (- b)); done.
    + f_equal. symmetry. apply Z.compare_lt_iff. lia.
    + f_equal. symmetry. apply Z.compare_gt_iff. lia.
    + rewrite !Z.abs_eq in Hc by lia. rewrite !Z.abs_eq by lia. by f_equal.
Qed.

Lemma num_lt_safe a b : safe a -> safe b -> num_lt (num_of_Z a) (num_of_Z b) = (a <? b).
Proof. intros. unfold num_lt, SFltb. rewrite num_compare_safe by done. by rewrite Z.ltb_compare. Qed.

Lemma num_le_safe a b : safe a -> safe b -> num_le (num_of_Z a) (num_of_Z b) = (a <=? b).
Proof.
  intros. unfold num_le, SFleb. rewrite num_compare_safe by done. rewrite Z.leb_compare.
  by destruct (a ?= b).
Qed.

Lemma num_eq_safe a b : safe a -> safe b -> num_eq (num_of_Z a) (num_of_Z b) = (a =? b).
Proof.
  intros. unfold num_eq, SFeqb. rewrite num_compare_safe by done. rewrite Z.eqb_compare.
  by destruct (a ?= b).
Qed.

Lemma num_trunc_safe z : safe z -> num_trunc (num_of_Z z) = z.
Proof.
  intros Hs. destruct (Z.eq_dec z 0) as [->|Hz]; [reflexivity|].
  rewrite num_of_Z_finite by done. unfold safe in Hs.
  pose proof (log2_safe (Z.abs z) ltac:(lia) Hs) as Hl.
  assert (0 < mant (Z.abs z)) as Hm by (unfold mant; apply Z.mul_pos_pos; lia).
  cbn [num_trunc]. rewrite <-(cond_Zopp_abs z) at 4. f_equal.
  unfold trunc_mag. rewrite Z2Pos.id by done. unfold expo, mant.
  destruct (Z.leb_spec 0 (Z.log2 (Z.abs z) - 52)).
  - replace (Z.log2 (Z.abs z)) with 52 by lia. rewrite Z.shiftl_mul_pow2 by lia. cbn. lia.
  - rewrite Z.shiftr_div_pow2 by lia.
    replace (- (Z.log2 (Z.abs z) - 52)) with (52 - Z.log2 (Z.abs z)) by lia.
    apply Z.div_mul. lia.
Qed.

Lemma num_of_Z_inj a b : safe a -> safe b -> num_of_Z a = num_of_Z b -> a = b.
Proof. intros Ha Hb H. rewrite <-(num_trunc_safe a), <-(num_trunc_safe b), H by done. done. Qed.

#[export] Hint Rewrite num_add_safe num_sub_safe num_lt_safe num_le_safe num_eq_safe
  num_trunc_safe using (unfold safe in *; lia) : bitmesh.

(** Push the numbers of the goal down to [Z]. *)
Ltac num_to_Z := unfold num_gt, num_ge in *;
  repeat (rewrite ?num_add_safe, ?num_sub_safe, ?num_lt_safe, ?num_le_safe, ?num_eq_safe,
            ?num_trunc_safe by (unfold safe in *; lia)).

(** Division of safe positive integers is exact when the quotient is an integer. *)
Lemma num_div_safe b c : 0 < b -> 0 < c -> safe b -> safe c -> safe (b * c) ->
  num_div (num_of_Z (b * c)) (num_of_Z b) = num_of_Z c.
Proof.
  unfold safe. intros Hb0 Hc0 Hb Hc Ha.
  assert (0 < b * c) as Ha0 by (apply Z.mul_pos_pos; lia).
  pose proof (log2_safe b ltac:(lia) ltac:(lia)). pose proof (log2_safe c ltac:(lia) ltac:(lia)).
  pose proof (log2_safe (b * c) ltac:(lia) ltac:(lia)).
  rewrite (num_of_Z_finite b), (num_of_Z_finite c), (num_of_Z_finite (b * c)) by (unfold safe; lia).
  rewrite !(proj2 (Z.ltb_ge _ _)) by lia. rewrite !Z.abs_eq by lia.
  assert (0 < mant b /\ 0 < mant c /\ 0 < mant (b * c)) as (Hmb & Hmc & Hma)
    by (unfold mant; repeat split; apply Z.mul_pos_pos; lia).
  pose proof (Z.log2_mul_above b c ltac:(lia) ltac:(lia)) as Hlog.
  unfold num_div, SFdiv, SFdiv_core_binary. cbn [xorb Zdigits2].
  rewrite !digits2_log2, !Z2Pos.id, !mant_log2 by lia.
  replace (52 + 1 + expo (b * c) - (52 + 1 + expo b)) with (Z.log2 (b * c) - Z.log2 b)
    by (unfold expo; lia).
  replace (expo (b * c) - expo b) with (Z.log2 (b * c) - Z.log2 b) by (unfold expo; lia).
  assert (Z.min (fexp prec emax (Z.log2 (b * c) - Z.log2 b)) (Z.log2 (b * c) - Z.log2 b)
          = Z.log2 (b * c) - Z.log2 b - 53) as ->
    by (unfold fexp, emin, prec, emax; lia).
  replace (Z.log2 (b * c) - Z.log2 b - (Z.log2 (b * c) - Z.log2 b - 53)) with 53 by lia.
  rewrite Z.shiftl_mul_pow2 by lia.
  set (j := 53 - Z.log2 (b * c) + Z.log2 b).
  assert (mant (b * c) * 2 ^ 53 = c * 2 ^ j * mant b) as Hm.
  { unfold mant, j.
    rewrite <-Z.mul_assoc, <-Z.pow_add_r by lia.
    replace (52 - Z.log2 (b * c) + 53) with ((53 - Z.log2 (b * c) + Z.log2 b) + (52 - Z.log2 b)) by lia.
    rewrite Z.pow_add_r by lia. ring. }
  rewrite Hm. pose proof (Z_div_mult (c * 2 ^ j) (mant b) ltac:(lia)) as Hq.
  pose proof (Z_mod_mult (c * 2 ^ j) (mant b)) as Hr.
  unfold Z.div in Hq. unfold Z.modulo in Hr.
  change IntDef.Z.div_eucl with Z.div_eucl.
  destruct (Z.div_eucl (c * 2 ^ j * mant b) (mant b)) as [q r]. subst q r.
  assert (new_location (mant b) 0 = loc_Exact) as -> by (unfold new_location; by destruct (Z.even _)).
  set (k := 1 - Z.log2 (b * c) + Z.log2 b + Z.log2 c).
  replace (c * 2 ^ j) with (Zpos (Z.to_pos (mant c)) * 2 ^ k).
  - replace (Z.log2 (b * c) - Z.log2 b - 53) with (expo c - k) by (unfold expo, k; lia).
    apply round_aux_canonical; [|unfold expo; lia|unfold k; lia].
    rewrite Z2Pos.id by done. apply mant_log2; lia.
  - rewrite Z2Pos.id by done. unfold mant, k, j. rewrite <-Z.mul_assoc, <-Z.pow_add_r by lia.
    f_equal. f_equal. lia.
Qed.

(** ** Integers too large to be exact *)

Lemma shr_1_div mrs : 0 <= shr_m mrs -> shr_m (shr_1 mrs) = shr_m mrs / 2.
Proof.
  destruct mrs as [m r s]. cbn [shr_m]. intros H.
  destruct m as [|[p|p|]|p]; [done| | |done|lia]; cbn [shr_1 shr_m].
  - rewrite Pos2Z.inj_xI, Z.mul_comm. rewrite Z.div_add_l by lia. change (1 / 2) with 0. lia.
  - rewrite Pos2Z.inj_xO, Z.mul_comm. by rewrite Z.div_mul by lia.
Qed.

Lemma shr_iter_div n mrs : 0 <= shr_m mrs -> shr_m (Nat.iter n shr_1 mrs) = shr_m mrs / 2 ^ Z.of_nat n.
Proof.
  intros H. induction n as [|n IH]; [by rewrite Z.div_1_r|].
  rewrite Nat.iter_succ, shr_1_div, IH.
  - rewrite Nat2Z.inj_succ, Z.pow_succ_r, (Z.mul_comm 2), Z.div_div by lia. done.
  - rewrite IH. apply Z.div_pos; lia.
Qed.

Lemma shr_fexp_large m e : 0 < m -> 0 <= e -> 52 <= Z.log2 m ->
  exists r s, shr_fexp prec emax m e loc_Exact
    = (Build_shr_record (m / 2 ^ (Z.log2 m - 52)) r s, e + (Z.log2 m - 52)).
Proof.
  intros Hm He Hl. unfold shr_fexp, fexp, emin, prec, emax.
  assert (Zdigits2 m = Z.log2 m + 1) as ->
    by (destruct m; [lia|cbn [Zdigits2]; by rewrite digits2_log2|lia]).
  rewrite Z.max_l by lia. replace (Z.log2 m + 1 + e - 53 - e) with (Z.log2 m - 52) by lia.
  unfold shr, shr_record_of_loc. destruct (Z.log2 m - 52) as [|p|p] eqn:Hp; [| |lia].
  - exists false, false. by rewrite Z.div_1_r, Z.add_0_r.
  - pose proof (shr_iter_div (Pos.to_nat p) (Build_shr_record m false false) ltac:(cbn; lia)) as Hd.
    rewrite iter_pos_nat. destruct (Nat.iter _ _ _) as [m' r s]. cbn [shr_m] in Hd.
    exists r, s. rewrite positive_nat_Z in Hd. by subst m'.
Qed.

Lemma shifted_bounds m : 0 < m -> 52 <= Z.log2 m ->
  2 ^ 52 <= m / 2 ^ (Z.log2 m - 52) < 2 ^ 53.
Proof.
  intros Hm Hl. pose proof (Z.log2_spec m Hm) as [Hlo Hhi]. split.
  - apply Z.div_le_lower_bound; [lia|]. rewrite <-Z.pow_add_r by lia.
    by replace (Z.log2 m - 52 + 52) with (Z.log2 m) by lia.
  - apply Z.div_lt_upper_bound; [lia|]. rewrite <-Z.pow_add_r by lia.
    by replace (Z.log2 m - 52 + 53) with (Z.succ (Z.log2 m)) by lia.
Qed.

(** An integer from 2^53 up rounds to a number that is still at least 2^53. *)
Lemma num_of_Z_large z : 2 ^ 53 <= z < 2 ^ 1000 ->
  exists m e, num_of_Z z = S754_finite false m e /\ 1 <= e /\ 2 ^ 52 <= Zpos m.
Proof.
  intros Hz. assert (53 <= Z.log2 z < 1000) as Hl.
  { split; [apply Z.log2_le_pow2; lia|apply Z.log2_lt_pow2; lia]. }
  unfold num_of_Z. destruct z as [|p|p]; [lia| |lia]. cbn [binary_normalize]. unfold binary_round.
  rewrite digits2_log2. unfold shl_align.
  assert (fexp prec emax (Z.log2 (Zpos p) + 1 + 0) - 0 = Z.log2 (Zpos p) - 52) as ->
    by (unfold fexp, emin, prec, emax; lia).
  destruct (Z.log2 (Zpos p) - 52) as [|d|d] eqn:Hd; [lia| |lia]. cbv zeta beta iota.
  unfold binary_round_aux.
  destruct (shr_fexp_large (Zpos p) 0 ltac:(lia) ltac:(lia) ltac:(lia)) as (r & s & ->).
  pose proof (shifted_bounds (Zpos p) ltac:(lia) ltac:(lia)) as Hb. cbn [shr_m].
  set (q := Zpos p / 2 ^ (Z.log2 (Zpos p) - 52)) in *.
  set (q' := round_nearest_even q _).
  assert (2 ^ 52 <= q' <= 2 ^ 53) as Hq'.
  { subst q'. unfold round_nearest_even, loc_of_shr_record.
    destruct r, s, (Z.even q); lia. }
  assert (52 <= Z.log2 q' <= 53) as Hlq.
  { split; [apply Z.log2_le_pow2; lia|]. apply Z.lt_succ_r, Z.log2_lt_pow2; lia. }
  destruct (shr_fexp_large q' (0 + (Z.log2 (Zpos p) - 52)) ltac:(lia) ltac:(lia) ltac:(lia)) as (r' & s' & ->).
  pose proof (shifted_bounds q' ltac:(lia) ltac:(lia)) as Hb'. cbn [shr_m].
  destruct (q' / 2 ^ (Z.log2 q' - 52)) as [|m|m]; [lia| |lia].
  unfold emax at 1, prec at 1. rewrite (proj2 (Z.leb_le _ _)) by lia.
  eexists _, _. split; [reflexivity|]. lia.
Qed.

Lemma num_lt_large z k : 2 ^ 53 <= z < 2 ^ 1000 -> safe k -> num_lt (num_of_Z z) (num_of_Z k) = false.
Proof.
  intros Hz Hk. destruct (num_of_Z_large z Hz) as (m & e & -> & He & Hm).
  destruct (Z.eq_dec k 0) as [->|Hk0]; [reflexivity|].
  pose proof (expo_le_0 k Hk Hk0). rewrite (num_of_Z_finite k) by done.
  unfold num_lt, SFltb, SFcompare. destruct (k <? 0); [done|].
  by rewrite (proj2 (Z.compare_gt_iff _ _)) by lia.
Qed.

(** Comparing an integer below 2^1000 with a safe constant is exact even when
    the integer itself is rounded. *)
Lemma num_lt_rounded z k : 0 <= z < 2 ^ 1000 -> safe k -> num_lt (num_of_Z z) (num_of_Z k) = (z <? k).
Proof.
  intros Hz Hk. destruct (Z.lt_ge_cases z (2 ^ 53)).
  - apply num_lt_safe; unfold safe in *; lia.
  - rewrite num_lt_large by (done || lia). symmetry. apply Z.ltb_ge. unfold safe in *. lia.
Qed.

(** ** Division by a power of two *)

Lemma num_div_pow2 z k : 0 < z < 2 ^ 53 -> 0 <= k <= 52 ->
  num_div (num_of_Z z) (num_of_Z (2 ^ k)) = S754_finite false (Z.to_pos (mant z)) (expo z - k).
Proof.
  intros Hz Hk. assert (0 < 2 ^ k) as Hp by lia.
  assert (2 ^ k < 2 ^ 53) as Hp2 by (apply Z.pow_lt_mono_r; lia).
  pose proof (log2_safe z ltac:(lia) ltac:(lia)) as Hl.
  assert (Z.log2 (2 ^ k) = k) as Hlk by (apply Z.log2_pow2; lia).
  rewrite (num_of_Z_finite z), (num_of_Z_finite (2 ^ k)) by (unfold safe; lia).
  rewrite !(proj2 (Z.ltb_ge _ _)), !Z.abs_eq by lia.
  assert (mant (2 ^ k) = 2 ^ 52) as Hmk.
  { unfold mant. rewrite Hlk, <-Z.pow_add_r by lia. f_equal. lia. }
  assert (0 < mant z) as Hmz by (unfold mant; apply Z.mul_pos_pos; lia).
  unfold num_div, SFdiv, SFdiv_core_binary. cbn [xorb Zdigits2].
  rewrite !digits2_log2, !Z2Pos.id, !mant_log2 by lia.
  replace (52 + 1 + expo z - (52 + 1 + expo (2 ^ k))) with (Z.log2 z - k) by (unfold expo; lia).
  replace (expo z - expo (2 ^ k)) with (Z.log2 z - k) by (unfold expo; lia).
  assert (Z.min (fexp prec emax (Z.log2 z - k)) (Z.log2 z - k) = Z.log2 z - k - 53) as ->
    by (unfold fexp, emin, prec, emax; lia).
  replace (Z.log2 z - k - (Z.log2 z - k - 53)) with 53 by lia. rewrite Z.shiftl_mul_pow2, Hmk by lia.
  replace (mant z * 2 ^ 53) with (mant z * 2 * 2 ^ 52) by lia.
  pose proof (Z_div_mult (mant z * 2) (2 ^ 52) ltac:(lia)) as Hq.
  pose proof (Z_mod_mult (mant z * 2) (2 ^ 52)) as Hr.
  unfold Z.div in Hq. unfold Z.modulo in Hr. change IntDef.Z.div_eucl with Z.div_eucl.
  destruct (Z.div_eucl (mant z * 2 * 2 ^ 52) (2 ^ 52)) as [q r]. subst q r.
  assert (new_location (2 ^ 52) 0 = loc_Exact) as -> by done.
  replace (mant z * 2) with (Zpos (Z.to_pos (mant z)) * 2 ^ 1) by (rewrite Z2Pos.id by done; lia).
  replace (Z.log2 z - k - 53) with (expo z - k - 1) by (unfold expo; lia).
  apply round_aux_canonical; [|unfold expo; lia|lia].
  rewrite Z2Pos.id by done. apply mant_log2; lia.
Qed.

(** Dividing by a power of two and truncating is a shift. *)
Lemma num_div_pow2_trunc z k : 0 <= z < 2 ^ 53 -> 0 <= k <= 52 ->
  num_trunc (num_div (num_of_Z z) (num_of_Z (2 ^ k))) = z / 2 ^ k.
Proof.
  intros Hz Hk. destruct (Z.eq_dec z 0) as [->|Hz0].
  { rewrite Z.div_0_l by lia. assert (0 < 2 ^ k) by lia. assert (2 ^ k < 2 ^ 53) by (apply Z.pow_lt_mono_r; lia).
    rewrite (num_of_Z_finite (2 ^ k)) by (unfold safe; lia). done. }
  rewrite num_div_pow2 by lia. pose proof (log2_safe z ltac:(lia) ltac:(lia)) as Hl.
  assert (0 < mant z) as Hmz by (unfold mant; apply Z.mul_pos_pos; lia).
  unfold num_trunc, trunc_mag, cond_Zopp, expo. rewrite Z2Pos.id by done. unfold mant.
  destruct (Z.leb_spec 0 (Z.log2 z - 52 - k)).
  - replace (52 - Z.log2 z) with 0 by lia. replace (Z.log2 z - 52 - k) with 0 by lia.
    replace k with 0 by lia. rewrite Z.shiftl_0_r, Z.div_1_r. lia.
  - rewrite Z.shiftr_div_pow2 by lia.
    replace (- (Z.log2 z - 52 - k)) with ((52 - Z.log2 z) + k) by lia. rewrite Z.pow_add_r by lia.
    rewrite (Z.mul_comm z), Z.div_mul_cancel_l by lia. done.
Qed.

(** ** Inexact division *)

Lemma Zdigits2_log2 m : 0 < m -> Zdigits2 m = Z.log2 m + 1.
Proof. intros. destruct m; [lia|cbn [Zdigits2]; apply digits2_log2|lia]. Qed.

Lemma shr_m_of_loc m l : shr_m (shr_record_of_loc m l) = m.
Proof. by destruct l as [|[]]. Qed.

(** A mantissa of 53 or 54 bits is shifted by at most one. *)
Lemma shr_fexp_near q e l : 2 ^ 52 <= q < 2 ^ 54 -> -1000 <= e <= 910 ->
  exists r s k, shr_fexp prec emax q e l = (Build_shr_record (q / 2 ^ k) r s, e + k)
    /\ ((k = 0 /\ q < 2 ^ 53) \/ (k = 1 /\ 2 ^ 53 <= q)).
Proof.
  intros Hq He. unfold shr_fexp, fexp, emin, prec, emax. rewrite Zdigits2_log2 by lia.
  assert ((Z.log2 q = 52 /\ q < 2 ^ 53) \/ (Z.log2 q = 53 /\ 2 ^ 53 <= q)) as Hl.
  { destruct (Z.lt_ge_cases q (2 ^ 53)).
    - left. split; [|done]. apply Z.log2_unique; lia.
    - right. split; [|done]. apply Z.log2_unique; lia. }
  rewrite Z.max_l by lia. pose proof (shr_m_of_loc q l) as Hm. unfold shr.
  destruct (shr_record_of_loc q l) as [m r s]. cbn [shr_m] in Hm. subst m.
  destruct Hl as [[Hl Hlt]|[Hl Hge]]; rewrite Hl.
  - replace (52 + 1 + e - 53 - e) with 0 by lia. exists r, s, 0. rewrite Z.div_1_r, Z.add_0_r. auto.
  - replace (53 + 1 + e - 53 - e) with 1 by lia. cbn [iter_pos].
    pose proof (shr_1_div (Build_shr_record q r s) ltac:(cbn; lia)) as Hd.
    destruct (shr_1 (Build_shr_record q r s)) as [m' r' s']. cbn [shr_m] in Hd. subst m'.
    exists r', s', 1. auto.
Qed.

Lemma round_nearest_even_near m l : m <= round_nearest_even m l <= m + 1.
Proof. unfold round_nearest_even. destruct l as [|[]]; [|destruct (Z.even m)|..]; lia. Qed.

(** Rounding such a mantissa moves its value by at most two units. *)
Lemma round_aux_near q e l : 2 ^ 52 <= q < 2 ^ 54 -> -1000 <= e <= 900 ->
  exists M k, binary_round_aux prec emax false q e l = S754_finite false M (e + k)
    /\ 0 <= k <= 2 /\ - 2 <= Zpos M * 2 ^ k - q <= 2.
Proof.
  intros Hq He. unfold binary_round_aux.
  destruct (shr_fexp_near q e l Hq ltac:(lia)) as (r & s & k & -> & Hk). cbn [shr_m].
  set (l' := loc_of_shr_record _). pose proof (round_nearest_even_near (q / 2 ^ k) l') as Hr.
  set (m := round_nearest_even _ _) in *.
  assert (2 ^ 52 <= m <= 2 ^ 53 /\ - 2 <= m * 2 ^ k - q <= 2) as [Hm Hmq].
  { destruct Hk as [[-> Hk]|[-> Hk]]; [rewrite Z.div_1_r in Hr; lia|].
    change (2 ^ 1) with 2 in *. zlia. }
  destruct (shr_fexp_near m (e + k) loc_Exact) as (r2 & s2 & k2 & -> & Hk2); [lia..|]. cbn [shr_m].
  assert (0 < m / 2 ^ k2) as Hpos by (apply Z.div_str_pos; destruct Hk2 as [[-> ?]|[-> ?]]; lia).
  assert (m / 2 ^ k2 * 2 ^ k2 = m) as Hexact.
  { destruct Hk2 as [[-> ?]|[-> ?]]; [rewrite Z.div_1_r; lia|]. assert (m = 2 ^ 53) as -> by lia. done. }
  destruct (m / 2 ^ k2) as [|M|M] eqn:HM; [lia| |lia].
  unfold emax, prec. rewrite (proj2 (Z.leb_le _ _)) by lia.
  exists M, (k + k2). rewrite Z.add_assoc. split; [done|]. split; [lia|].
  rewrite Z.pow_add_r, (Z.mul_comm (2 ^ k)), Z.mul_assoc, Hexact by lia. lia.
Qed.

(** The quotient of two safe positive integers, up to two units of its last place. *)
Lemma num_div_near a b : 0 < a < 2 ^ 53 -> 0 < b < 2 ^ 53 ->
  let e := Z.log2 a - Z.log2 b - 53 in
  exists M k q, num_div (num_of_Z a) (num_of_Z b) = S754_finite false M (e + k)
    /\ 0 <= k <= 2 /\ - 2 <= Zpos M * 2 ^ k - q <= 2
    /\ b * q <= a * 2 ^ (53 - Z.log2 a + Z.log2 b) < b * (q + 1).
Proof.
  intros Ha Hb e. pose proof (log2_safe a ltac:(lia) ltac:(lia)) as Hla. pose proof (log2_safe b ltac:(lia) ltac:(lia)) as Hlb.
  rewrite (num_of_Z_finite a), (num_of_Z_finite b) by (unfold safe; lia).
  rewrite !(proj2 (Z.ltb_ge _ _)), !Z.abs_eq by lia.
  assert (0 < mant a /\ 0 < mant b) as [Hma Hmb] by (unfold mant; split; apply Z.mul_pos_pos; lia).
  assert (2 ^ 52 <= mant a < 2 ^ 53 /\ 2 ^ 52 <= mant b < 2 ^ 53) as [Hma2 Hmb2].
  { pose proof (Z.log2_spec (mant a) Hma) as H1. pose proof (Z.log2_spec (mant b) Hmb) as H2.
    rewrite mant_log2 in H1, H2 by lia. split; assumption. }
  unfold num_div, SFdiv, SFdiv_core_binary. cbn [xorb Zdigits2].
  rewrite !digits2_log2, !Z2Pos.id, !mant_log2 by lia.
  replace (52 + 1 + expo a - (52 + 1 + expo b)) with (Z.log2 a - Z.log2 b) by (unfold expo; lia).
  replace (expo a - expo b) with (Z.log2 a - Z.log2 b) by (unfold expo; lia).
  assert (Z.min (fexp prec emax (Z.log2 a - Z.log2 b)) (Z.log2 a - Z.log2 b) = e) as ->
    by (unfold fexp, emin, prec, emax, e; lia).
  replace (Z.log2 a - Z.log2 b - e) with 53 by (unfold e; lia). rewrite Z.shiftl_mul_pow2 by lia.
  pose proof (Z_div_mod (mant a * 2 ^ 53) (mant b) ltac:(lia)) as Hdm.
  change IntDef.Z.div_eucl with Z.div_eucl. destruct (Z.div_eucl (mant a * 2 ^ 53) (mant b)) as [q r].
  destruct Hdm as [Hq Hr].
  assert (2 ^ 52 <= q < 2 ^ 54) as Hqb by nia.
  destruct (round_aux_near q e (new_location (mant b) r) Hqb) as (M & k & HM & Hk & Hnear); [unfold e; lia|].
  exists M, k, q. split; [exact HM|]. split; [done|]. split; [done|].
  (* the same inequality, scaled *)
  assert (mant a * 2 ^ 53 = a * 2 ^ (53 - Z.log2 a + Z.log2 b) * 2 ^ (52 - Z.log2 b)) as Hsa.
  { unfold mant. rewrite <-!Z.mul_assoc, <-!Z.pow_add_r by lia. f_equal. f_equal. lia. }
  assert (mant b = b * 2 ^ (52 - Z.log2 b)) as Hsb by done.
  assert (0 < 2 ^ (52 - Z.log2 b)) as Hs0 by lia. set (s := 2 ^ (52 - Z.log2 b)) in *.
  set (A := a * 2 ^ (53 - Z.log2 a + Z.log2 b)) in *. rewrite Hsa, Hsb in Hq. rewrite Hsb in Hr. clear -Hq Hr Hs0.
  split.
  - apply (Z.mul_le_mono_pos_r _ _ s Hs0). lia.
  - apply (Z.mul_lt_mono_pos_r s _ _ Hs0). lia.
Qed.

(** [Math.ceil(a / b)] is the integer ceiling while the quotient keeps enough fraction bits. *)
Lemma num_div_ceil a b : 0 < a < 2 ^ 40 -> 0 < b < 2 ^ 10 ->
  Math_ceil (num_div (num_of_Z a) (num_of_Z b)) = num_of_Z (- (- a / b)).
Proof.
  intros Ha Hb. destruct (Z.eq_dec (a mod b) 0) as [Hz|Hnz].
  { assert (a = b * (a / b)) as Hab by zlia. assert (0 < a / b) as Hp by nia.
    rewrite Hab at 1. rewrite num_div_safe by (unfold safe; nia).
    replace (- (- a / b)) with (a / b) by (rewrite Z.div_opp_l_z by lia; lia).
    set (c := a / b) in *. unfold Math_ceil. rewrite (num_of_Z_finite c) by (unfold safe; nia).
    cbn [num_neg SFopp]. unfold Math_floor.
    assert (num_is_integer (S754_finite (negb (c <? 0)) (Z.to_pos (mant (Z.abs c))) (expo (Z.abs c))) = true) as ->.
    { assert (0 < c < 2 ^ 53) as Hc by nia. pose proof (log2_safe c ltac:(lia) ltac:(lia)) as Hl.
      unfold num_is_integer. destruct (Z.leb_spec 0 (expo (Z.abs c))); [done|]. cbn [orb].
      rewrite Z.abs_eq, Z2Pos.id by (try (unfold mant; apply Z.mul_pos_pos); lia).
      apply Z.eqb_eq. rewrite Z.shiftr_div_pow2, Z.shiftl_mul_pow2 by (rewrite Z.abs_eq in * by lia; lia).
      unfold mant, expo. replace (- (Z.log2 c - 52)) with (52 - Z.log2 c) by lia. rewrite Z.div_mul by lia. lia. }
    unfold num_neg, SFopp. by rewrite ?negb_involutive. }
  destruct (num_div_near a b) as (M & k & q & -> & Hk & Hnear & Hq); [lia..|].
  pose proof (Z.log2_nonneg a) as Hla0. pose proof (Z.log2_nonneg b) as Hlb0.
  assert (Z.log2 a < 40) as Hla by (apply Z.log2_lt_pow2; lia).
  assert (Z.log2 b < 10) as Hlb by (apply Z.log2_lt_pow2; lia).
  set (p := 53 - Z.log2 a + Z.log2 b) in *. replace (Z.log2 a - Z.log2 b - 53 + k) with (k - p) by (unfold p; lia).
  assert (13 < p) as Hp by (unfold p; lia).
  set (t := a / b). assert (0 <= t) as Ht by (apply Z.div_pos; lia).
  set (V := Zpos M * 2 ^ k) in *.
  assert (2 ^ 14 <= 2 ^ p) as HP by (apply Z.pow_le_mono_r; lia).
  assert (t * 2 ^ p < V < (t + 1) * 2 ^ p) as HV.
  { assert (a = b * t + a mod b) as Hab by (unfold t; zlia). pose proof (Z.mod_pos_bound a b ltac:(lia)) as Hr.
    set (r := a mod b) in *. set (P := 2 ^ p) in *. clearbody V P r t. split; nia. }
  assert (Z.shiftr (Zpos M) (p - k) = t) as Hshr.
  { rewrite Z.shiftr_div_pow2 by lia. symmetry.
    assert (2 ^ p = 2 ^ (p - k) * 2 ^ k) as Hpk by (rewrite <-Z.pow_add_r by lia; f_equal; lia).
    assert (0 < 2 ^ k /\ 0 < 2 ^ (p - k)) as [Hk0 Hpk0] by lia.
    apply (Z.div_unique_pos _ _ _ (Zpos M - 2 ^ (p - k) * t)); [|lia].
    unfold V in HV. rewrite Hpk in HV. clear -HV Hk0 Hpk0. split; nia. }
  unfold Math_ceil. cbn [num_neg SFopp negb]. unfold Math_floor.
  assert (num_is_integer (S754_finite true M (k - p)) = false) as ->.
  { unfold num_is_integer. rewrite (proj2 (Z.leb_gt 0 (k - p))) by lia. cbn [orb].
    replace (- (k - p)) with (p - k) by lia. rewrite Hshr, Z.shiftl_mul_pow2 by lia. apply Z.eqb_neq. intros Heq.
    assert (2 ^ p = 2 ^ (p - k) * 2 ^ k) as Hpk by (rewrite <-Z.pow_add_r by lia; f_equal; lia).
    unfold V in HV. rewrite <-Heq, Hpk in HV. lia. }
  unfold trunc_mag. rewrite (proj2 (Z.leb_gt 0 (k - p))) by lia. replace (- (k - p)) with (p - k) by lia. rewrite Hshr.
  replace (- t - 1) with (- (t + 1)) by lia. replace (- (- a / b)) with (t + 1).
  2:{ rewrite Z.div_opp_l_nz by lia. unfold t. lia. }
  unfold num_signed_of_Z, num_of_Z. destruct (t + 1) as [|u|u] eqn:Hu; [lia| |lia].
  change (- Zpos u) with (Zneg u). cbn [binary_normalize].
  assert (Zpos u < 2 ^ 53) as Hub. { assert (t <= a) by (unfold t; apply Z.div_le_upper_bound; nia). lia. }
  change 0 with (- 0). rewrite !(binary_round_safe _ (Zpos u) 0 u) by lia. done.
Qed.
