(* ===== verification/JsValue.v ===== *)
(** * JavaScript values that are numbers or strings

    A 64-bit integer of a decoded message is an object, and adding it to a number concatenates
    the two as text.  This file has the values such sums take and the conversions the pages apply to
    them: [+], [parseInt] and ToNumber.  Numbers are integers here (what the conversions of the
    pages produce), kept as the integer the binary64 value is. *)
From S2P Require Import Prelude JsNumber.
From Stdlib Require Import Ascii String.
Local Open Scope Z_scope.

(** ** Objects used as maps *)

(** The names every plain object inherits from [Object.prototype] *)
Definition inherited_names : list string :=
  ["constructor"; "toString"; "toLocaleString"; "valueOf"; "hasOwnProperty"; "isPrototypeOf"; "propertyIsEnumerable"; "__proto__";
   "__defineGetter__"; "__defineSetter__"; "__lookupGetter__"; "__lookupSetter__"]%string.

(** ** Decimal text *)

Definition digit (d : Z) : ascii := ascii_of_N (Z.to_N (48 + d)).
Definition digit_value (c : ascii) : option Z :=
  let n := Z.of_N (N_of_ascii c) in if (48 <=? n) && (n <=? 57) then Some (n - 48) else None.

Fixpoint digits (fuel : nat) (n : Z) (acc : string) : string :=
  match fuel with
  | O => acc
  | S fuel => let acc := String (digit (n mod 10)) acc in if n <? 10 then acc else digits fuel (n / 10) acc
  end.

(** The decimal digits of a non-negative integer: no more than its binary digits *)
Definition decimal (n : Z) : string := digits (S (Z.to_nat (Z.log2 n))) n "".

(** An integer in decimal, as [Long.toString] prints it *)
Definition decimal_signed (z : Z) : string := if z <? 0 then String "-" (decimal (- z)) else decimal z.

(** The value of a string of digits, [acc] being what was read before *)
Fixpoint read_digits (acc : Z) (s : string) : option Z :=
  match s with
  | EmptyString => Some acc
  | String c s => match digit_value c with Some d => read_digits (10 * acc + d) s | None => None end
  end.

(** The longest prefix of digits, if there is one *)
Fixpoint read_prefix (acc : Z) (s : string) : Z :=
  match s with
  | EmptyString => acc
  | String c s => match digit_value c with Some d => read_prefix (10 * acc + d) s | None => acc end
  end.
Definition digit_prefix (s : string) : option Z :=
  match s with
  | String c _ => match digit_value c with Some _ => Some (read_prefix 0 s) | None => None end
  | EmptyString => None
  end.

(** ** Values *)

(** A number that is NaN, an infinity or an integer; or a string *)
Inductive jsval := JNaN | JInfinity (negative : bool) | JInt (z : Z) | JStr (s : string).

(** The number next to an integer, as a value *)
Definition round_int (z : Z) : jsval :=
  match num_of_Z z with
  | S754_infinity s => JInfinity s
  | S754_nan => JNaN
  | n => JInt (num_trunc n)
  end.

(** *** Number to string

    The shortest decimal digits that read back as the number: [k] digits are tried from [k] on,
    of the two candidates the nearer one first. *)
Definition reads_back (z c : Z) : bool := match round_int c with JInt z' => z' =? z | _ => false end.

Fixpoint shortest (fuel : nat) (z len k : Z) : Z * Z :=
  match fuel with
  | O => (z, 0)
  | S fuel =>
      let p := 10 ^ (len - k) in
      let lo := z / p in
      let near := if 2 * (z - lo * p) <=? p then [lo; lo + 1] else [lo + 1; lo] in
      match List.find (fun d => reads_back z (d * p)) near with
      | Some d => (d, len - k)
      | None => shortest fuel z len (k + 1)
      end
  end.

Definition number_to_string (z : Z) : string :=
  if z =? 0 then "0"
  else
    let m := Z.abs z in
    let len := Z.of_nat (String.length (decimal m)) in
    let '(d, e) := shortest 17 m len 1 in
    let text :=
      if m <? 10 ^ 21 then decimal (d * 10 ^ e)
      else match decimal d with
           | String c EmptyString => (String c "e+" ++ decimal e)%string
           | String c rest => (String c (String "." rest) ++ "e+" ++ decimal (e + Z.of_nat (String.length rest)))%string
           | EmptyString => EmptyString
           end in
    if z <? 0 then String "-" text else text.

Definition to_string (v : jsval) : string :=
  match v with
  | JNaN => "NaN"
  | JInfinity s => if s then "-Infinity" else "Infinity"
  | JInt z => number_to_string z
  | JStr s => s
  end.

(** *** String to number

    ToNumber of the strings that concatenations of integers and [null] give: digits, or not a
    number.  Blanks, fractions, exponents and prefixes of other bases do not occur. *)
Definition string_number (s : string) : number :=
  match s with
  | EmptyString => num_of_Z 0
  | _ => match read_digits 0 s with Some z => num_of_Z z | None => num_nan end
  end.

Definition to_number (v : jsval) : number :=
  match v with
  | JNaN => num_nan
  | JInfinity s => S754_infinity s
  | JInt z => num_of_Z z
  | JStr s => string_number s
  end.

(** [Number(text)] of any text of 8-bit characters: blanks around it, a number in base 2, 8 or 16, or a
    sign and a decimal number with fraction and exponent, or [Infinity]. *)
Definition is_blank (c : ascii) : bool :=
  let n := Z.of_N (N_of_ascii c) in ((9 <=? n) && (n <=? 13)) || (n =? 32) || (n =? 160).
Fixpoint skip_blanks (l : list ascii) : list ascii :=
  match l with c :: l' => if is_blank c then skip_blanks l' else l | [] => [] end.
Definition trim_blanks (s : string) : list ascii := rev (skip_blanks (rev (skip_blanks (list_ascii_of_string s)))).

(** The value of a character as a digit, whatever the base *)
Definition any_digit (c : ascii) : Z :=
  let n := Z.of_N (N_of_ascii c) in
  if (48 <=? n) && (n <=? 57) then n - 48 else if (97 <=? n) && (n <=? 122) then n - 87
  else if (65 <=? n) && (n <=? 90) then n - 55 else 99.
(** The digits in front: their value, their number and what follows *)
Fixpoint digit_run (base : Z) (l : list ascii) (acc : Z) (count : Z) : Z * Z * list ascii :=
  match l with
  | c :: l' => if any_digit c <? base then digit_run base l' (acc * base + any_digit c) (count + 1) else (acc, count, l)
  | [] => (acc, count, [])
  end.

(** The number nearest to [m * 10 ^ e]: below one a quotient with more bits than a number has, and a
    last bit for what is left of the division. *)
Definition num_of_decimal (m e : Z) : number :=
  if m =? 0 then num_of_Z 0
  else if 0 <=? e then (if 400 <? e then S754_infinity false else num_of_Z (m * 10 ^ e))
  else if 400 + Z.log2 m <? - e then num_of_Z 0
  else
    let d := 10 ^ (- e) in
    let k := Z.max 0 (70 + Z.log2 d - Z.log2 m) in
    let q := m * 2 ^ k / d in
    let sticky := if m * 2 ^ k mod d =? 0 then 0 else 1 in
    binary_normalize prec emax (2 * q + sticky) (- k - 1) false.

Definition decimal_literal (l : list ascii) : number :=
  let '(ip, n1, r) := digit_run 10 l 0 0 in
  let '(m, n2, r) := match r with c :: r' => if bool_decide (c = "."%char) then digit_run 10 r' ip 0 else (ip, 0, r) | [] => (ip, 0, []) end in
  if n1 + n2 =? 0 then num_nan
  else
    match r with
    | [] => num_of_decimal m (- n2)
    | c :: r =>
        if bool_decide (c = "e"%char) || bool_decide (c = "E"%char) then
          let '(negative, r) := match r with
            | c :: r' => if bool_decide (c = "-"%char) then (true, r') else if bool_decide (c = "+"%char) then (false, r') else (false, r)
            | [] => (false, []) end in
          let '(x, n3, r) := digit_run 10 r 0 0 in
          match r with
          | [] => if n3 =? 0 then num_nan else num_of_decimal m ((if negative : bool then - x else x) - n2)
          | _ => num_nan
          end
        else num_nan
    end.

Definition Number (text : string) : number :=
  match trim_blanks text with
  | [] => num_of_Z 0
  | (c :: r) as l =>
      let radix := match r with
        | x :: r' =>
            if bool_decide (c = "0"%char) then
              if bool_decide (x = "x"%char) || bool_decide (x = "X"%char) then Some (16, r')
              else if bool_decide (x = "o"%char) || bool_decide (x = "O"%char) then Some (8, r')
              else if bool_decide (x = "b"%char) || bool_decide (x = "B"%char) then Some (2, r')
              else None
            else None
        | [] => None end in
      match radix with
      | Some (base, r) =>
          let '(v, n, rest) := digit_run base r 0 0 in
          match rest with [] => if n =? 0 then num_nan else num_of_Z v | _ => num_nan end
      | None =>
          let '(negative, l) := if bool_decide (c = "-"%char) then (true, r) else if bool_decide (c = "+"%char) then (false, r) else (false, l) in
          let v := if bool_decide (l = list_ascii_of_string "Infinity") then S754_infinity false else decimal_literal l in
          if negative : bool then num_neg v else v
      end
  end.

(** [parseInt(text)] of any text of 8-bit characters: blanks, a sign and the digits in front, in base 16
    after [0x] *)
Definition parse_int (text : string) : jsval :=
  let l := skip_blanks (list_ascii_of_string text) in
  let '(negative, l) := match l with
    | c :: r => if bool_decide (c = "-"%char) then (true, r) else if bool_decide (c = "+"%char) then (false, r) else (false, l)
    | [] => (false, l) end in
  let '(base, l) := match l with
    | c :: x :: r =>
        if bool_decide (c = "0"%char) && (bool_decide (x = "x"%char) || bool_decide (x = "X"%char)) then (16, r) else (10, l)
    | _ => (10, l) end in
  let '(v, n, _) := digit_run base l 0 0 in
  if n =? 0 then JNaN else round_int (if negative : bool then - v else v).

(** [parseInt(v)]: the digits after an optional sign *)
Definition parseInt (v : jsval) : jsval :=
  let s := to_string v in
  let '(negative, s) :=
    match s with
    | String c r => if Ascii.eqb c "-" then (true, r) else if Ascii.eqb c "+" then (false, r) else (false, s)
    | EmptyString => (false, s)
    end in
  match digit_prefix s with
  | Some z => round_int (if negative : bool then - z else z)
  | None => JNaN
  end.

(** [v + x] where [x] is a 64-bit integer object, or [null] *)
Definition plus (v : jsval) (x : option Z) : jsval :=
  match v, x with
  | JStr s, None => JStr (s ++ "null")
  | v, None => v
  | v, Some z => JStr (to_string v ++ decimal_signed z)
  end.

(** ** Lemmas *)

Lemma digit_value_digit d : 0 <= d < 10 -> digit_value (digit d) = Some d.
Proof.
  intros Hd. unfold digit_value, digit. rewrite N_ascii_embedding by lia. rewrite Z2N.id by lia.
  replace (48 <=? 48 + d) with true by (symmetry; apply Z.leb_le; lia).
  replace (48 + d <=? 57) with true by (symmetry; apply Z.leb_le; lia). cbn [andb]. f_equal. lia.
Qed.

Lemma read_digits_app s t acc : read_digits acc (s ++ t) = match read_digits acc s with Some v => read_digits v t | None => None end.
Proof.
  revert acc. induction s as [|c s IH]; intros acc; [done|].
  change (String c s ++ t)%string with (String c (s ++ t)). cbn [read_digits]. destruct (digit_value c); [apply IH|done].
Qed.

(** Reading back what [digits] prints *)
Lemma read_digits_digits fuel n s acc : 0 <= n < 2 ^ Z.of_nat fuel -> fuel <> O -> 
  exists k, 0 < k /\ n < 10 ^ k /\ (0 < n -> 10 ^ (k - 1) <= n) /\ Z.of_nat (String.length (digits fuel n s)) = k + Z.of_nat (String.length s)
    /\ read_digits acc (digits fuel n s) = read_digits (10 ^ k * acc + n) s.
Proof.
  revert n s acc. induction fuel as [|fuel IH]; intros n s acc Hn Hf; [done|]. cbn [digits].
  pose proof (Z.mod_pos_bound n 10 ltac:(lia)) as Hm. destruct (Z.ltb_spec n 10) as [Hlt|Hge].
  - exists 1. cbn [read_digits String.length]. rewrite digit_value_digit by lia. rewrite Z.mod_small by lia. split_and!; try lia. done.
  - rewrite Nat2Z.inj_succ, Z.pow_succ_r in Hn by lia. assert (0 < n / 10 < 2 ^ Z.of_nat fuel) as Hq by zlia.
    assert (fuel <> O) as Hf0 by (intros ->; cbn in Hq; lia).
    destruct (IH (n / 10) (String (digit (n mod 10)) s) acc ltac:(lia) Hf0) as (k & Hk & Hb & Hb' & Hlen & Hr).
    specialize (Hb' ltac:(lia)). exists (k + 1). rewrite Hr, Hlen. cbn [read_digits String.length]. rewrite digit_value_digit by lia.
    replace (k + 1 - 1) with k by lia. rewrite Z.pow_add_r by lia. change (10 ^ 1) with 10.
    assert (10 ^ k = 10 * 10 ^ (k - 1)) as Hp by (rewrite <-Z.pow_succ_r by lia; f_equal; lia).
    split_and!; try zlia. f_equal. zlia.
Qed.

Lemma decimal_fuel n : 0 <= n -> 0 <= n < 2 ^ Z.of_nat (S (Z.to_nat (Z.log2 n))).
Proof.
  intros Hn. split; [done|]. rewrite Nat2Z.inj_succ, Z2Nat.id by apply Z.log2_nonneg.
  destruct (Z.eq_dec n 0) as [->|]; [done|]. apply Z.log2_spec. lia.
Qed.

(** Appending the digits of [n] shifts what was read and adds [n]. *)
Lemma read_decimal n acc : 0 <= n -> read_digits acc (decimal n) = Some (10 ^ Z.of_nat (String.length (decimal n)) * acc + n).
Proof.
  intros Hn. unfold decimal. destruct (read_digits_digits (S (Z.to_nat (Z.log2 n))) n "" acc (decimal_fuel n Hn)) as (k & _ & _ & _ & Hl & ->); [done|].
  cbn [read_digits]. rewrite Hl. cbn [String.length]. by rewrite Z.add_0_r.
Qed.

Lemma decimal_length n : 0 <= n -> let len := Z.of_nat (String.length (decimal n)) in
  0 < len /\ n < 10 ^ len /\ (0 < n -> 10 ^ (len - 1) <= n).
Proof.
  intros Hn. destruct (read_digits_digits (S (Z.to_nat (Z.log2 n))) n "" 0 (decimal_fuel n Hn)) as (k & Hk & Hb & Hb' & Hl & _); [done|].
  fold (decimal n) in Hl. cbn [String.length] in Hl. rewrite Z.add_0_r in Hl. cbv zeta. by rewrite Hl.
Qed.

(** *** Digits as a number *)

Lemma digit_char c d : digit_value c = Some d -> any_digit c = d /\ 0 <= d < 10 /\ is_blank c = false.
Proof.
  unfold digit_value, any_digit, is_blank. set (n := Z.of_N (N_of_ascii c)).
  destruct (Z.leb_spec 48 n), (Z.leb_spec n 57); cbn [andb]; try done. intros [= <-]. split; [done|]. split; [lia|].
  rewrite (proj2 (Z.leb_gt n 13)), andb_false_r by lia. rewrite !(proj2 (Z.eqb_neq n _)) by lia. done.
Qed.

Lemma read_digits_run s acc v count : read_digits acc s = Some v ->
  digit_run 10 (list_ascii_of_string s) acc count = (v, count + Z.of_nat (String.length s), [])
  /\ Forall (fun c => exists d, digit_value c = Some d) (list_ascii_of_string s).
Proof.
  revert acc count. induction s as [|c s IH]; intros acc count; cbn [read_digits list_ascii_of_string digit_run String.length].
  - intros [= ->]. split; [by rewrite Z.add_0_r|by apply Forall_nil].
  - destruct (digit_value c) as [d|] eqn:E; [|done]. intros Hr. destruct (digit_char c d E) as (Ha & Hd & _).
    rewrite Ha, (proj2 (Z.ltb_lt d 10)) by lia. replace (acc * 10 + d) with (10 * acc + d) by lia.
    destruct (IH _ (count + 1) Hr) as [Hrun Hall]. split; [rewrite Hrun; do 2 f_equal; lia|]. constructor; eauto.
Qed.

(** The characters of a decimal number are digits. *)
Lemma decimal_chars z : 0 <= z -> Forall (fun c => exists d, digit_value c = Some d) (list_ascii_of_string (decimal z)).
Proof. intros Hz. eapply (read_digits_run _ 0 _ 0), read_decimal, Hz. Qed.

Lemma chars_app s t : list_ascii_of_string (s ++ t)%string = list_ascii_of_string s ++ list_ascii_of_string t.
Proof. induction s as [|c s IH]; [done|]. change ((String c s ++ t)%string) with (String c (s ++ t)). cbn. by rewrite IH. Qed.

Lemma skip_blanks_digits l : Forall (fun c => exists d, digit_value c = Some d) l -> skip_blanks l = l.
Proof. destruct 1 as [|c l [d Hc] _]; [done|]. cbn [skip_blanks]. by rewrite (proj2 (proj2 (digit_char c d Hc))). Qed.

(** A text of digits is the number they stand for. *)
Lemma Number_digits s z : s <> EmptyString -> read_digits 0 s = Some z -> Number s = num_of_Z z.
Proof.
  intros Hs Hr. destruct (read_digits_run s 0 z 0 Hr) as [Hrun Hall]. unfold Number, trim_blanks.
  rewrite (skip_blanks_digits _ Hall), (skip_blanks_digits _ (Forall_rev Hall)), rev_involutive.
  assert (0 < Z.of_nat (String.length s)) as Hlen by (destruct s; [done|cbn [String.length]; lia]).
  destruct (list_ascii_of_string s) as [|c r] eqn:E; [by destruct s|]. rewrite <-E in *.
  pose proof Hall as Hall'. rewrite E in Hall'. apply Forall_cons in Hall' as [[d Hc] Hr'].
  assert (forall x, digit_value x = None -> c <> x) as Hne by (intros x Hx ->; congruence).
  assert ((match r with
    | x :: r' => if bool_decide (c = "0"%char) then
        if bool_decide (x = "x"%char) || bool_decide (x = "X"%char) then Some (16, r')
        else if bool_decide (x = "o"%char) || bool_decide (x = "O"%char) then Some (8, r')
        else if bool_decide (x = "b"%char) || bool_decide (x = "B"%char) then Some (2, r') else None
      else None
    | [] => None end : option (Z * list ascii)) = None) as Hradix.
  { destruct Hr' as [|x r [d' Hx] _]; [done|]. destruct (bool_decide (c = "0"%char)); [|done].
    rewrite !bool_decide_false by (intros ->; discriminate). done. }
  rewrite Hradix. rewrite (bool_decide_false (c = "-"%char)), (bool_decide_false (c = "+"%char)) by (by apply Hne).
  rewrite bool_decide_false.
  2:{ intros Hi. rewrite E in Hi. injection Hi as -> _. discriminate. }
  unfold decimal_literal. rewrite Hrun. cbn [digit_run]. rewrite (proj2 (Z.eqb_neq _ 0)) by lia.
  unfold num_of_decimal. destruct (Z.eqb_spec z 0) as [->|]; [done|]. change (- 0) with 0. cbn [Z.leb Z.ltb Z.compare]. by rewrite Z.mul_1_r.
Qed.

Lemma parse_int_digits s z : s <> EmptyString -> read_digits 0 s = Some z -> parse_int s = round_int z.
Proof.
  intros Hs Hr. destruct (read_digits_run s 0 z 0 Hr) as [Hrun Hall]. unfold parse_int. rewrite (skip_blanks_digits _ Hall).
  assert (0 < Z.of_nat (String.length s)) as Hlen by (destruct s; [done|cbn [String.length]; lia]).
  destruct (list_ascii_of_string s) as [|c r] eqn:E; [by destruct s|].
  apply Forall_cons in Hall as [[d Hc] Hr'].
  assert (forall x, digit_value x = None -> c <> x) as Hne by (intros x Hx ->; congruence).
  rewrite (bool_decide_false (c = "-"%char)), (bool_decide_false (c = "+"%char)) by (by apply Hne).
  assert ((match r with
    | x :: r' => if bool_decide (c = "0"%char) && (bool_decide (x = "x"%char) || bool_decide (x = "X"%char)) then (16, r') else (10, c :: r)
    | [] => (10, c :: r) end) = (10, c :: r)) as ->.
  { destruct Hr' as [|x r [d' Hx] _]; [done|]. rewrite !(bool_decide_false (x = _)) by (intros ->; discriminate). by rewrite andb_false_r. }
  rewrite Hrun, (proj2 (Z.eqb_neq _ 0)) by lia. done.
Qed.

(** *** Safe integers print as their digits *)

Lemma num_trunc_large z : safe z -> round_int z = JInt z.
Proof.
  intros Hz. unfold round_int. pose proof (num_trunc_safe z Hz) as Ht. destruct (Z.eq_dec z 0) as [->|H0]; [done|].
  rewrite num_of_Z_finite in * by done. by rewrite Ht.
Qed.

Lemma reads_back_safe z c : safe z -> safe c -> reads_back z c = (c =? z).
Proof. intros Hz Hc. unfold reads_back. by rewrite num_trunc_large. Qed.

Lemma shortest_safe fuel z len k : 0 < z -> 10 ^ (len - 1) <= z < 10 ^ len -> len <= 15 -> 1 <= k -> len <= k + Z.of_nat fuel ->
  k <= len -> let '(d, e) := shortest fuel z len k in d * 10 ^ e = z.
Proof.
  intros Hz Hlen Hmax. revert k. induction fuel as [|fuel IH]; intros k Hk Hf Hkl; cbn [shortest].
  { lia. }
  set (p := 10 ^ (len - k)). set (lo := z / p).
  assert (0 < p) as Hp by (apply Z.pow_pos_nonneg; lia). assert (10 ^ len <= 10 ^ 15) as Hb by (apply Z.pow_le_mono_r; lia).
  assert (lo * p <= z < lo * p + p) as Hlo by (unfold lo; pose proof (Z.mul_div_le z p Hp); pose proof (Z.mul_succ_div_gt z p Hp); lia).
  assert ((lo + 1) * p <= 10 ^ len) as Hhi.
  { assert (10 ^ len = 10 ^ k * p) as -> by (unfold p; rewrite <-Z.pow_add_r by lia; f_equal; lia).
    apply Z.mul_le_mono_nonneg_r; [lia|]. assert (lo < 10 ^ k); [|lia]. apply Z.div_lt_upper_bound; [done|].
    rewrite Z.mul_comm. unfold p. rewrite <-Z.pow_add_r by lia. replace (k + (len - k)) with len by lia. lia. }
  change (10 ^ 15) with 1000000000000000 in Hb. assert (safe z) as Hsz by (unfold safe; lia).
  assert (0 <= lo * p) as Hlo0 by (apply Z.mul_nonneg_nonneg; [apply Z.div_pos; lia|lia]).
  set (near := if 2 * (z - lo * p) <=? p then [lo; lo + 1] else [lo + 1; lo]).
  assert (forall d, d ∈ near -> 0 <= d * p < 2 ^ 53) as Hnear.
  { intros d Hd. assert (d = lo \/ d = lo + 1) as [->| ->]; [|lia|lia].
    unfold near in Hd. destruct (2 * (z - lo * p) <=? p); apply elem_of_cons in Hd as [->|Hd%list_elem_of_singleton]; auto. }
  destruct (List.find _ near) as [d|] eqn:Hfind.
  - apply List.find_some in Hfind as [Hin Hd]. apply list_elem_of_In in Hin. rewrite reads_back_safe in Hd by (done || specialize (Hnear d Hin); unfold safe; lia).
    by apply Z.eqb_eq.
  - destruct (Z.eq_dec k len) as [->|Hne]; [|apply IH; lia].
    exfalso. assert (p = 1) as Hp1 by (unfold p; by rewrite Z.sub_diag). assert (lo = z) as Hz' by lia.
    assert (z ∈ near) as Hin by (unfold near; rewrite Hz'; destruct (2 * (z - z * p) <=? p); [left|right; left]).
    pose proof (List.find_none _ _ Hfind z (proj1 (list_elem_of_In _ _) Hin)) as Hn. cbn beta in Hn.
    rewrite reads_back_safe, Hp1, Z.mul_1_r, Z.eqb_refl in Hn by (done || rewrite Hp1, Z.mul_1_r; done). done.
Qed.

Lemma number_to_string_safe z : 0 <= z < 10 ^ 15 -> number_to_string z = decimal z.
Proof.
  intros Hz. unfold number_to_string. destruct (Z.eqb_spec z 0) as [->|H0]; [done|]. rewrite Z.abs_eq by lia.
  destruct (decimal_length z ltac:(lia)) as (Hl & Hhi & Hlo). specialize (Hlo ltac:(lia)).
  set (len := Z.of_nat (String.length (decimal z))) in *.
  assert (len <= 15) as Hl15. { destruct (Z.le_gt_cases len 15) as [|Hgt]; [done|]. assert (10 ^ 15 <= 10 ^ (len - 1)) by (apply Z.pow_le_mono_r; lia). lia. }
  pose proof (shortest_safe 17 z len 1 ltac:(lia) ltac:(lia) Hl15 ltac:(lia) ltac:(lia) ltac:(lia)) as Hs.
  destruct (shortest 17 z len 1) as [d e]. rewrite Hs. replace (z <? 10 ^ 21) with true by (symmetry; apply Z.ltb_lt; lia).
  by replace (z <? 0) with false by (symmetry; apply Z.ltb_ge; lia).
Qed.

Lemma read_prefix_digits acc s z : read_digits acc s = Some z -> read_prefix acc s = z.
Proof.
  revert acc. induction s as [|c s IH]; intros acc; cbn [read_digits read_prefix]; [by intros [= ->]|].
  destruct (digit_value c); [apply IH|done].
Qed.

(** A string of digits is read whole. *)
Lemma parseInt_digits s z : s <> EmptyString -> read_digits 0 s = Some z -> parseInt (JStr s) = round_int z.
Proof.
  intros Hs Hr. unfold parseInt. cbn [to_string]. destruct s as [|c r]; [done|].
  assert (exists d, digit_value c = Some d) as [d Hd] by (cbn [read_digits] in Hr; destruct (digit_value c); [by eexists|done]).
  assert (Ascii.eqb c "-" = false /\ Ascii.eqb c "+" = false) as [-> ->].
  { split; apply Ascii.eqb_neq; intros ->; discriminate. }
  unfold digit_prefix. rewrite Hd, (read_prefix_digits 0 (String c r) z Hr). done.
Qed.

Lemma decimal_nonempty n : 0 <= n -> decimal n <> EmptyString.
Proof. intros Hn He. destruct (decimal_length n Hn) as [Hl _]. by rewrite He in Hl. Qed.

Lemma parseInt_safe z : 0 <= z < 10 ^ 15 -> parseInt (JInt z) = JInt z.
Proof.
  intros Hz. change (parseInt (JInt z)) with (parseInt (JStr (number_to_string z))). rewrite number_to_string_safe by done.
  rewrite (parseInt_digits _ z); [apply num_trunc_large; unfold safe; lia|apply decimal_nonempty; lia|].
  rewrite read_decimal by lia. f_equal. lia.
Qed.
