(* ===== verification/Unit.v ===== *)
(** * Units of bitcoin

    Models module 39 ([Unit]) of [src/Sources/WebClient/js/bitcore.js]: an amount is kept in satoshis, as
    the integer that [toFixed] and [parseInt] make of it, and is given in another unit as the number that
    [toFixed] and [parseFloat] make of a quotient. *)
From S2P Require Import Prelude JsNumber JsValue.
From Stdlib Require Import Ascii String.
Local Open Scope Z_scope.
Local Open Scope js_scope.

(** ** Numbers as decimal texts *)

(** [x.toFixed(f)] for [|x| < 10^21]: the sign and the digits, without the point.  The magnitude is rounded
    to the nearest, halves up; NaN, the infinities and larger numbers have no such text. *)
Definition toFixed (f : Z) (x : number) : option (bool * Z) :=
  match x with
  | S754_zero _ => Some (false, 0)
  | S754_finite s m e =>
      let scaled := Zpos m * 10 ^ f in
      let small := if 0 <=? e then Zpos m * 2 ^ e <? 10 ^ 21 else Zpos m <? 10 ^ 21 * 2 ^ (- e) in
      if small then Some (s, if 0 <=? e then scaled * 2 ^ e else (2 * scaled + 2 ^ (- e)) / (2 * 2 ^ (- e))) else None
  | _ => None
  end.

(** The number nearest to [n / d], with a sign *)
Definition ratio (s : bool) (n d : Z) : number :=
  match n, d with
  | Zpos n, Zpos d => num_div (S754_finite s n 0) (S754_finite false d 0)
  | _, _ => S754_zero s
  end.

(** [parseFloat(x.toFixed(f))]: a number without fixed digits is written out in full and read back. *)
Definition parseFloat_toFixed (f : Z) (x : number) : number :=
  match toFixed f x with Some (s, n) => ratio s n (10 ^ f) | None => x end.

(** [parseInt(x.toFixed())].  The text of a number of 10^21 or more has an exponent, which [parseInt] does
    not read; such numbers are left out and give NaN, as the infinities do. *)
Definition parseInt_toFixed (x : number) : number :=
  match toFixed 0 x with Some (s, n) => ratio s n 1 | None => num_nan end.

(** ** Units *)
Module Unit.

(** The codes, and any other text *)
Inductive code := BTC | mBTC | uBTC | bits | satoshis | Unknown (s : string).

(** [UNITS[code]]: how many satoshis, and how many decimals.  An inherited property has no elements: both are
    undefined, NaN in the product and none in [toFixed]. *)
Definition UNITS (c : code) : option (number * Z) :=
  match c with
  | BTC => Some (num_of_Z (10 ^ 8), 8)
  | mBTC => Some (num_of_Z (10 ^ 5), 5)
  | uBTC | bits => Some (num_of_Z (10 ^ 2), 2)
  | satoshis => Some (num_of_Z 1, 0)
  | Unknown s => if bool_decide (s ∈ inherited_names) then Some (num_nan, 0) else None
  end.

(** A unit, or an exchange rate *)
Inductive rate := Code (c : code) | Rate (r : number).

(** The field [_value] *)
Record t := mk { _value : number }.

Definition UnknownCode : js_error := BitcoreError "Unit.UnknownCode".
Definition InvalidRate : js_error := BitcoreError "Unit.InvalidRate".

Definition _from (amount : number) (c : code) : result number :=
  match UNITS c with
  | None => Throw UnknownCode
  | Some (factor, _) => Ok (parseInt_toFixed (num_mul amount factor))
  end.

(** [new Unit(amount, code)] *)
Definition new (amount : number) (c : rate) : result t :=
  match c with
  | Rate r =>
      guard_or InvalidRate (negb (num_le r (num_of_Z 0)));;
      v ← _from (num_div amount r) BTC;
      Ok (mk v)
  | Code c => v ← _from amount c; Ok (mk v)
  end.

Definition fromBTC (amount : number) : result t := new amount (Code BTC).
Definition fromMilis (amount : number) : result t := new amount (Code mBTC).
Definition fromBits (amount : number) : result t := new amount (Code bits).
Definition fromSatoshis (amount : number) : result t := new amount (Code satoshis).
Definition fromFiat (amount r : number) : result t := new amount (Rate r).

Definition to_code (c : code) (u : t) : result number :=
  match UNITS c with
  | None => Throw UnknownCode
  | Some (factor, decimals) => Ok (parseFloat_toFixed decimals (num_div (_value u) factor))
  end.

Definition to (c : rate) (u : t) : result number :=
  match c with
  | Rate r =>
      guard_or InvalidRate (negb (num_le r (num_of_Z 0)));;
      b ← to_code BTC u;
      Ok (parseFloat_toFixed 2 (num_mul b r))
  | Code c => to_code c u
  end.

Definition toBTC (u : t) : result number := to (Code BTC) u.
Definition toMilis (u : t) : result number := to (Code mBTC) u.
Definition toBits (u : t) : result number := to (Code bits) u.
Definition toSatoshis (u : t) : result number := to (Code satoshis) u.
Definition atRate (r : number) (u : t) : result number := to (Rate r) u.

(** [toObject()]: the amount in bitcoins and its code; [fromJSON] on such an object *)
Definition toObject (u : t) : result (number * code) := b ← toBTC u; Ok (b, BTC).
Definition fromJSON (o : number * rate) : result t := new (fst o) (snd o).

End Unit.
