(* ===== verification/Encoding.v ===== *)
(** * Byte encodings of bitcore: Buffer, BN, BufferReader, BufferWriter, Varint

    Models the byte-level modules of [src/Sources/WebClient/js/bitcore.js] that
    every transaction the client signs or parses goes through: the [Buffer] shim
    (module 45: bounds checks, [slice] with its ToInt32 conversions, fixed-width
    reads and writes), the conversions of [BN] to and from bytes (module 6; a
    [BN] is a [Z]), [BufferReader] (14), [BufferWriter] (15) and [Varint] (16).

    A byte is a [Z] in [0, 256), a buffer a list of them.  A read past the end of
    a buffer throws [RangeError], a write of an out-of-range value [TypeError]. *)
From S2P Require Import Prelude JsNumber.
Local Open Scope Z_scope.
Local Open Scope js_scope.

Abbreviation bytes := (list Z) (only parsing).

Definition byte_ok (b : Z) : Prop := 0 <= b < 256.
Abbreviation bytes_ok := (Forall byte_ok) (only parsing).

Definition byte_at (b : list Z) (i : Z) : Z := nth (Z.to_nat i) b 0.

(** ** Buffer *)
Module Buf.

(** [Buffer.prototype.slice]: both ends go through [~~], negative ends count from
    the end, and the range is clamped to the buffer. *)
Definition slice (start end_ : Z) (b : list Z) : list Z :=
  let len := zlen b in
  let start := wrap32 start in
  let end_ := wrap32 end_ in
  let start :=
    if start <? 0 then (if start + len <? 0 then 0 else start + len)
    else if start >? len then len else start in
  let end_ :=
    if end_ <? 0 then (if end_ + len <? 0 then 0 else end_ + len)
    else if end_ >? len then len else end_ in
  let end_ := if end_ <? start then start else end_ in
  ztake (end_ - start) (zdrop start b).

(** [slice(start)]: the end left out is the length itself. *)
Definition slice_from (start : Z) (b : list Z) : list Z :=
  let len := zlen b in
  let start := wrap32 start in
  let start :=
    if start <? 0 then (if start + len <? 0 then 0 else start + len)
    else if start >? len then len else start in
  zdrop start b.

(** [checkOffset] (offsets here are integers, so the [% 1] test never fires). *)
Definition checkOffset (offset ext length : Z) : result unit :=
  guard_or RangeError (negb (offset <? 0));;
  guard_or RangeError (negb (offset + ext >? length)).

Definition readUInt8 (b : list Z) (offset : Z) : result Z :=
  checkOffset offset 1 (zlen b);;
  Ok (byte_at b offset).

Definition readUInt16LE (b : list Z) (offset : Z) : result Z :=
  checkOffset offset 2 (zlen b);;
  Ok (Z.lor (byte_at b offset) (Z.shiftl (byte_at b (offset + 1)) 8)).

Definition readUInt16BE (b : list Z) (offset : Z) : result Z :=
  checkOffset offset 2 (zlen b);;
  Ok (Z.lor (Z.shiftl (byte_at b offset) 8) (byte_at b (offset + 1))).

Definition readUInt32LE (b : list Z) (offset : Z) : result Z :=
  checkOffset offset 4 (zlen b);;
  Ok (Z.lor (Z.lor (byte_at b offset) (Z.shiftl (byte_at b (offset + 1)) 8))
        (Z.shiftl (byte_at b (offset + 2)) 16)
      + byte_at b (offset + 3) * 0x1000000).

Definition readUInt32BE (b : list Z) (offset : Z) : result Z :=
  checkOffset offset 4 (zlen b);;
  Ok (byte_at b offset * 0x1000000
      + Z.lor (Z.lor (Z.shiftl (byte_at b (offset + 1)) 16) (Z.shiftl (byte_at b (offset + 2)) 8))
          (byte_at b (offset + 3))).

(** [checkInt]: the range test of the fixed-width writes. *)
Definition checkInt (value max min : Z) : result unit :=
  guard_or TypeError (negb ((value >? max) || (value <? min))).

(** The fixed-width writes, each into a buffer of exactly that width: an
    assignment to a byte keeps the low 8 bits. *)
Definition writeUInt8 (value : Z) : result (list Z) :=
  checkInt value 0xff 0;; Ok [value mod 256].

Definition writeUInt16LE (value : Z) : result (list Z) :=
  checkInt value 0xffff 0;; Ok [value mod 256; Z.shiftr value 8 mod 256].

Definition writeUInt16BE (value : Z) : result (list Z) :=
  checkInt value 0xffff 0;; Ok [Z.shiftr value 8 mod 256; value mod 256].

Definition writeUInt32LE (value : Z) : result (list Z) :=
  checkInt value 0xffffffff 0;;
  Ok [value mod 256; Z.shiftr value 8 mod 256; Z.shiftr value 16 mod 256; Z.shiftr value 24 mod 256].

Definition writeUInt32BE (value : Z) : result (list Z) :=
  checkInt value 0xffffffff 0;;
  Ok [Z.shiftr value 24 mod 256; Z.shiftr value 16 mod 256; Z.shiftr value 8 mod 256; value mod 256].

Definition writeInt32LE (value : Z) : result (list Z) :=
  checkInt value 0x7fffffff (-0x80000000);;
  Ok [value mod 256; Z.shiftr value 8 mod 256; Z.shiftr value 16 mod 256; Z.shiftr value 24 mod 256].

End Buf.

(** ** BN *)
Module BN.

(** [new BN(n)] on a number: at most two 26-bit words are kept. *)
Definition fromNumber (n : number) : Z :=
  let '(sign, n) := if num_lt n (num_of_Z 0) then (true, num_neg n) else (false, n) in
  let mag :=
    if num_lt n (num_of_Z 0x4000000) then Z.land (to_int32 n) 0x3ffffff
    else Z.land (to_int32 n) 0x3ffffff
         + 2 ^ 26 * Z.land (to_int32 (num_div n (num_of_Z 0x4000000))) 0x3ffffff in
  if sign then - mag else mag.

(** [_parseBase(number, 10, start)]: [ch | 0] is the digit, and 0 for a character that is none;
    the digits are taken in words of seven. *)
Definition digit10 (c : Ascii.ascii) : Z :=
  let n := Z.of_nat (Ascii.nat_of_ascii c) in if (48 <=? n) && (n <=? 57) then n - 48 else 0.
Fixpoint parseBase (number : string) (this word q : Z) : Z :=
  match number with
  | EmptyString => if q =? 1 then this else this * q + word
  | String c number =>
      let word := word * 10 + digit10 c in
      let q := q * 10 in
      if q >? 0xfffff then parseBase number (this * q + word) 0 1 else parseBase number this word q
  end.

(** [new BN(number)] on a string without spaces or sign: the base defaults to 10. *)
Definition fromString (number : string) : Z := parseBase number 0 0 1.

(** [BN.fromBuffer]: the buffer read as a big-endian integer. *)
Definition fromBuffer (b : list Z) : Z := fold_left (fun acc x => acc * 256 + x) b 0.

(** [bn.toNumber()]: [parseInt] of the decimal digits, that is, the nearest number. *)
Definition toNumber (bn : Z) : number := num_of_Z bn.

(** The base-256 digits of a non-negative integer, least significant first
    (one digit for zero); [fuel] bounds the digit count. *)
Fixpoint le_digits (fuel : nat) (n : Z) : list Z :=
  match fuel with
  | O => []
  | S f => if n <? 256 then [n] else n mod 256 :: le_digits f (n / 256)
  end.

(** The minimal little-endian bytes of a number that is not negative. *)
Definition le_bytes (bn : Z) : list Z := le_digits (S (Z.to_nat (Z.log2 bn / 8))) bn.

(** [new Buffer(bn.toString(16, 2), 'hex')]: the minimal big-endian bytes.  The
    minus sign of a negative number makes the hexadecimal string odd, which the
    Buffer constructor rejects. *)
Definition hexBytes (bn : Z) : result (list Z) :=
  if bn <? 0 then Throw (ErrorMessage "Invalid hex string") else Ok (rev (le_bytes bn)).

(** [BN.trim] slices from [natlen - buf.length], which is 0: nothing is dropped. *)
Definition trim (b : list Z) (natlen : Z) : list Z := Buf.slice (natlen - zlen b) (zlen b) b.

Definition pad (b : list Z) (natlen size : Z) : list Z := repeat 0 (Z.to_nat (size - natlen)) ++ b.

(** [bn.toBuffer({size: size})] *)
Definition toBuffer (size : Z) (bn : Z) : result (list Z) :=
  buf ← hexBytes bn;
  let natlen := zlen buf in
  Ok (if natlen =? size then buf
      else if natlen >? size then trim buf natlen
      else pad buf natlen size).

(** *** Numbers of the script language: a sign bit and a magnitude *)

(** [BN.fromSM(buf, {endian: 'little'})], on a reversed copy of the bytes *)
Definition fromSM (b : list Z) : Z :=
  match rev b with
  | [] => 0
  | b0 :: rest =>
      if negb (Z.land b0 0x80 =? 0) then - fromBuffer (Z.land b0 0x7f :: rest) else fromBuffer (b0 :: rest)
  end.

(** [bn.toSMBigEndian()] *)
Definition toSMBigEndian (bn : Z) : list Z :=
  let buf :=
    if bn <? 0 then
      match rev (le_bytes (- bn)) with
      | [] => []
      | b0 :: rest => if negb (Z.land b0 0x80 =? 0) then 0x80 :: b0 :: rest else Z.lor b0 0x80 :: rest
      end
    else
      match rev (le_bytes bn) with
      | [] => []
      | b0 :: rest => if negb (Z.land b0 0x80 =? 0) then 0 :: b0 :: rest else b0 :: rest
      end in
  if (zlen buf =? 1) && (byte_at buf 0 =? 0) then [] else buf.

(** [bn.toSM({endian: 'little'})] *)
Definition toSM (bn : Z) : list Z := rev (toSMBigEndian bn).

(** [BN.fromScriptNumBuffer(buf, fRequireMinimal)] *)
Definition fromScriptNumBuffer (b : list Z) (fRequireMinimal : bool) : result Z :=
  guard_or InvalidArgument (zlen b <=? 4);;
  guard_or (ErrorMessage "non-minimally encoded script number")
    (negb (fRequireMinimal && (0 <? zlen b) && (Z.land (byte_at b (zlen b - 1)) 0x7f =? 0)
           && ((zlen b <=? 1) || (Z.land (byte_at b (zlen b - 2)) 0x80 =? 0))));;
  Ok (fromSM b).

(** [bn.toScriptNumBuffer()] *)
Definition toScriptNumBuffer (bn : Z) : list Z := toSM bn.

End BN.

(** ** BufferReader *)
Module BufferReader.

Record t := mk { buf : list Z; pos : Z }.
#[global] Instance eta_t : Eta t := fun r => mk (buf r) (pos r).

(** [new BufferReader(buffer)] *)
Definition new (b : list Z) : t := mk b 0.

Definition eof (r : t) : bool := pos r >=? zlen (buf r).
Definition finished : t -> bool := eof.

(** Move the cursor. *)
Definition skip (n : Z) : js t unit := js_modify (fun r => r <| pos ::= Z.add n |>).

Definition read (len : Z) : js t (list Z) :=
  r ← js_get;
  let b := Buf.slice (pos r) (pos r + len) (buf r) in
  skip len;; mret b.

Definition readAll : js t (list Z) :=
  r ← js_get;
  let b := Buf.slice (pos r) (zlen (buf r)) (buf r) in
  js_modify (fun r => r <| pos := zlen (buf r) |>);; mret b.

(** The fixed-width reads: [this.buf.readX(this.pos)], then the cursor moves. *)
Definition read_fixed (f : list Z -> Z -> result Z) (width : Z) : js t Z :=
  r ← js_get;
  val ← js_lift (f (buf r) (pos r));
  skip width;; mret val.

Definition readUInt8 : js t Z := read_fixed Buf.readUInt8 1.
Definition readUInt16BE : js t Z := read_fixed Buf.readUInt16BE 2.
Definition readUInt16LE : js t Z := read_fixed Buf.readUInt16LE 2.
Definition readUInt32BE : js t Z := read_fixed Buf.readUInt32BE 4.
Definition readUInt32LE : js t Z := read_fixed Buf.readUInt32LE 4.

Definition readUInt64BEBN : js t Z :=
  r ← js_get;
  let b := Buf.slice (pos r) (pos r + 8) (buf r) in
  skip 8;; mret (BN.fromBuffer b).

Definition readUInt64LEBN : js t Z :=
  r ← js_get;
  let b := Buf.slice (pos r) (pos r + 8) (buf r) in
  skip 8;; mret (BN.fromBuffer (rev b)).

Definition readVarintNum : js t Z :=
  first ← readUInt8;
  if first =? 0xFD then readUInt16LE
  else if first =? 0xFE then readUInt32LE
  else if first =? 0xFF then
    bn ← readUInt64LEBN;
    let n := BN.toNumber bn in
    if num_le n (num_of_Z (2 ^ 53)) then mret (num_trunc n)
    else js_throw (ErrorMessage "number too large to retain precision - use readVarintBN")
  else mret first.

Definition readVarLengthBuffer : js t (list Z) :=
  len ← readVarintNum;
  b ← read len;
  js_lift (guard_or InvalidState (zlen b =? len));; mret b.

Definition readVarintBuf : js t (list Z) :=
  r ← js_get;
  first ← js_lift (Buf.readUInt8 (buf r) (pos r));
  if first =? 0xFD then read (1 + 2)
  else if first =? 0xFE then read (1 + 4)
  else if first =? 0xFF then read (1 + 8)
  else read 1.

Definition readVarintBN : js t Z :=
  first ← readUInt8;
  if first =? 0xFD then readUInt16LE
  else if first =? 0xFE then readUInt32LE
  else if first =? 0xFF then readUInt64LEBN
  else mret first.

Definition reverse : js t unit := js_modify (fun r => r <| buf ::= @rev Z |>).

Definition readReverse (len : option Z) : js t (list Z) :=
  r ← js_get;
  let len := match len with Some n => n | None => zlen (buf r) end in
  let b := Buf.slice (pos r) (pos r + len) (buf r) in
  skip len;; mret (rev b).

End BufferReader.

(** ** BufferWriter *)
Module BufferWriter.

(** [this.bufs], the pieces written so far, in order. *)
Definition t := list (list Z).
Definition new : t := [].

Definition concat (w : t) : list Z := mjoin w.
Definition toBuffer (w : t) : list Z := concat w.

Definition write (b : list Z) (w : t) : t := w ++ [b].
Definition writeReverse (b : list Z) (w : t) : t := w ++ [rev b].

(** Run a fallible conversion and write its bytes. *)
Definition write_result (r : result (list Z)) (w : t) : result t := b ← r; Ok (write b w).

Definition writeUInt8 (n : Z) : t -> result t := write_result (Buf.writeUInt8 n).
Definition writeUInt16BE (n : Z) : t -> result t := write_result (Buf.writeUInt16BE n).
Definition writeUInt16LE (n : Z) : t -> result t := write_result (Buf.writeUInt16LE n).
Definition writeUInt32BE (n : Z) : t -> result t := write_result (Buf.writeUInt32BE n).
Definition writeInt32LE (n : Z) : t -> result t := write_result (Buf.writeInt32LE n).
Definition writeUInt32LE (n : Z) : t -> result t := write_result (Buf.writeUInt32LE n).

Definition writeUInt64BEBN (bn : Z) : t -> result t := write_result (BN.toBuffer 8 bn).
Definition writeUInt64LEBN (bn : Z) : t -> result t :=
  write_result (b ← BN.toBuffer 8 bn; Ok (rev b)).

Definition varintBufNum (n : Z) : result (list Z) :=
  if n <? 253 then Buf.writeUInt8 n
  else if n <? 0x10000 then
    a ← Buf.writeUInt8 253; b ← Buf.writeUInt16LE n; Ok (a ++ b)
  else if n <? 0x100000000 then
    a ← Buf.writeUInt8 254; b ← Buf.writeUInt32LE n; Ok (a ++ b)
  else
    a ← Buf.writeUInt8 255;
    b ← Buf.writeInt32LE (wrap32 n);
    c ← Buf.writeUInt32LE (n / 0x100000000);
    Ok (a ++ b ++ c).

(** The comparisons are made on [bn.toNumber()], the nearest number. *)
Definition varintBufBN (bn : Z) : result (list Z) :=
  let n := BN.toNumber bn in
  if num_lt n (num_of_Z 253) then Buf.writeUInt8 (num_trunc n)
  else if num_lt n (num_of_Z 0x10000) then
    a ← Buf.writeUInt8 253; b ← Buf.writeUInt16LE (num_trunc n); Ok (a ++ b)
  else if num_lt n (num_of_Z 0x100000000) then
    a ← Buf.writeUInt8 254; b ← Buf.writeUInt32LE (num_trunc n); Ok (a ++ b)
  else
    bw ← writeUInt8 255 new;
    bw ← writeUInt64LEBN bn bw;
    Ok (concat bw).

Definition writeVarintNum (n : Z) : t -> result t := write_result (varintBufNum n).
Definition writeVarintBN (bn : Z) : t -> result t := write_result (varintBufBN bn).

End BufferWriter.

(** ** Varint *)
Module Varint.

(** A [Varint] object is its buffer. *)
Definition t := list Z.

Definition fromNumber (n : Z) : result t :=
  w ← BufferWriter.writeVarintNum n BufferWriter.new; Ok (BufferWriter.concat w).
Definition fromBN (bn : Z) : result t :=
  w ← BufferWriter.writeVarintBN bn BufferWriter.new; Ok (BufferWriter.concat w).
Definition fromBufferReader : js BufferReader.t t := BufferReader.readVarintBuf.
Definition toBuffer (v : t) : list Z := v.
Definition toBN (v : t) : result Z := fst (BufferReader.readVarintBN (BufferReader.new v)).
Definition toNumber (v : t) : result Z := fst (BufferReader.readVarintNum (BufferReader.new v)).

End Varint.

(** ** Lemmas: bytes as digits *)

Lemma lor_disjoint a b k : 0 <= a < 2 ^ k -> 0 <= k -> Z.lor a (Z.shiftl b k) = a + b * 2 ^ k.
Proof.
  intros Ha Hk. rewrite <-Z.shiftl_mul_pow2 by done.
  rewrite <-Z.lxor_lor.
  - symmetry. apply Z.add_nocarry_lxor.
    apply Z.bits_inj'. intros i Hi. rewrite Z.land_spec, Z.bits_0.
    destruct (Z.lt_ge_cases i k).
    + rewrite Z.shiftl_spec_low by done. by rewrite andb_false_r.
    + rewrite <-(Z.mod_small a (2 ^ k)) by done. by rewrite Z.mod_pow2_bits_high by lia.
  - apply Z.bits_inj'. intros i Hi. rewrite Z.land_spec, Z.bits_0.
    destruct (Z.lt_ge_cases i k).
    + rewrite Z.shiftl_spec_low by done. by rewrite andb_false_r.
    + rewrite <-(Z.mod_small a (2 ^ k)) by done. by rewrite Z.mod_pow2_bits_high by lia.
Qed.

(** The value of little-endian digits. *)
Fixpoint le_value (l : list Z) : Z :=
  match l with [] => 0 | b :: l' => b + 256 * le_value l' end.

Lemma le_value_app l k : le_value (l ++ k) = le_value l + 256 ^ zlen l * le_value k.
Proof.
  induction l as [|b l IH]; cbn [le_value app].
  - change (zlen (@nil Z)) with 0. lia.
  - rewrite IH, zlen_cons, Z.pow_add_r by (pose proof (zlen_nonneg l); lia). lia.
Qed.

Lemma fromBuffer_acc l acc :
  fold_left (fun acc x => acc * 256 + x) l acc = acc * 256 ^ zlen l + le_value (rev l).
Proof.
  revert acc; induction l as [|b l IH]; intros acc; cbn [fold_left rev].
  - change (zlen (@nil Z)) with 0. cbn. lia.
  - rewrite IH, zlen_cons, le_value_app, Z.pow_add_r by (pose proof (zlen_nonneg l); lia).
    unfold zlen. rewrite length_rev. cbn [le_value]. change (256 ^ 1) with 256. ring.
Qed.

Lemma fromBuffer_le_value l : BN.fromBuffer l = le_value (rev l).
Proof. unfold BN.fromBuffer. rewrite fromBuffer_acc. lia. Qed.

Lemma le_digits_value fuel n : 0 <= n -> n < 256 ^ Z.of_nat fuel -> le_value (BN.le_digits fuel n) = n.
Proof.
  revert n; induction fuel as [|f IH]; intros n Hn Hlt; [cbn in *; lia|].
  cbn [BN.le_digits]. destruct (Z.ltb_spec n 256); [cbn; lia|].
  rewrite Nat2Z.inj_succ, Z.pow_succ_r in Hlt by lia.
  cbn [le_value]. rewrite IH; [zlia|apply Z.div_pos; lia|apply Z.div_lt_upper_bound; lia].
Qed.

Lemma le_digits_ok fuel n : 0 <= n -> Forall byte_ok (BN.le_digits fuel n).
Proof.
  revert n; induction fuel as [|f IH]; intros n Hn; cbn [BN.le_digits]; [done|].
  destruct (Z.ltb_spec n 256); constructor; unfold byte_ok; try zlia; auto.
  apply IH, Z.div_pos; lia.
Qed.

Lemma hexBytes_fuel n : 0 <= n -> n < 256 ^ Z.of_nat (S (Z.to_nat (Z.log2 n / 8))).
Proof.
  intros Hn. rewrite Nat2Z.inj_succ, Z2Nat.id by (apply Z.div_pos; pose proof (Z.log2_nonneg n); lia).
  change 256 with (2 ^ 8). rewrite <-Z.pow_mul_r by (pose proof (Z.log2_nonneg n); zlia).
  destruct (Z.eq_dec n 0) as [->|Hn0]; [by vm_compute|].
  pose proof (Z.log2_spec n ltac:(lia)) as [_ Hhi].
  eapply Z.lt_le_trans; [exact Hhi|]. apply Z.pow_le_mono_r; [lia|zlia].
Qed.

Lemma le_digits_length fuel n k : 0 <= n -> n < 256 ^ Z.of_nat k -> (1 <= k)%nat ->
  (length (BN.le_digits fuel n) <= k)%nat.
Proof.
  revert n k; induction fuel as [|f IH]; intros n k Hn Hlt Hk; cbn [BN.le_digits]; [cbn; lia|].
  destruct (Z.ltb_spec n 256); [cbn; lia|].
  destruct k as [|k]; [lia|]. rewrite Nat2Z.inj_succ, Z.pow_succ_r in Hlt by lia.
  destruct k as [|k]; [cbn in Hlt; lia|].
  cbn [length]. apply le_n_S, IH; [apply Z.div_pos; lia|apply Z.div_lt_upper_bound; lia|lia].
Qed.

Lemma le_value_zeros l n : le_value (l ++ repeat 0 n) = le_value l.
Proof.
  rewrite le_value_app. assert (le_value (repeat 0 n) = 0) as -> by (induction n; cbn; lia). lia.
Qed.

Lemma slice_all b : zlen b < 2 ^ 31 -> Buf.slice 0 (zlen b) b = b.
Proof.
  intros H. pose proof (zlen_nonneg b). unfold Buf.slice, wrap32.
  rewrite !Z.mod_small by lia. case_all; bool_to_Z; rewrite ?zdrop_0; try lia;
  apply ztake_all; lia.
Qed.

Lemma wrap32_small n : - 2 ^ 31 <= n < 2 ^ 31 -> wrap32 n = n.
Proof. intros Hn. unfold wrap32. rewrite Z.mod_small; lia. Qed.

(** Cutting a buffer before its last [n] bytes *)
Lemma slice_init n l c : 0 < n < 2 ^ 31 -> zlen c = n -> Buf.slice 0 (- n) (l ++ c) = l.
Proof.
  intros Hn Hc. unfold Buf.slice. cbv zeta. rewrite zlen_app, Hc. pose proof (zlen_nonneg l).
  rewrite (wrap32_small (- n)), (wrap32_small 0) by lia.
  rewrite (proj2 (Z.ltb_lt (- n) 0)), (proj2 (Z.ltb_ge (- n + (zlen l + n)) 0)) by lia. cbn [Z.ltb Z.compare].
  rewrite Z.gtb_ltb, (proj2 (Z.ltb_ge (zlen l + n) 0)), (proj2 (Z.ltb_ge (- n + (zlen l + n)) 0)) by lia. rewrite zdrop_0.
  replace (- n + (zlen l + n) - 0) with (zlen l) by lia. apply ztake_app_exact.
Qed.

Lemma slice_from_last n l c : 0 < n < 2 ^ 31 -> zlen c = n -> Buf.slice_from (- n) (l ++ c) = c.
Proof.
  intros Hn Hc. unfold Buf.slice_from. cbv zeta. rewrite zlen_app, Hc. pose proof (zlen_nonneg l).
  rewrite (wrap32_small (- n)) by lia.
  rewrite (proj2 (Z.ltb_lt (- n) 0)), (proj2 (Z.ltb_ge (- n + (zlen l + n)) 0)) by lia.
  replace (- n + (zlen l + n)) with (zlen l) by lia. apply zdrop_app_exact.
Qed.

Lemma slice_take n l : 0 <= n < 2 ^ 31 -> n <= zlen l -> Buf.slice 0 n l = ztake n l.
Proof.
  intros Hn Hl. unfold Buf.slice. cbv zeta. rewrite (wrap32_small n), (wrap32_small 0) by lia.
  rewrite !Z.gtb_ltb, (proj2 (Z.ltb_ge n 0)), (proj2 (Z.ltb_ge (zlen l) n)), (proj2 (Z.ltb_ge (zlen l) 0)) by lia. cbn [Z.ltb Z.compare].
  rewrite (proj2 (Z.ltb_ge n 0)) by lia. by rewrite zdrop_0, Z.sub_0_r.
Qed.

(** An integer below 256^k is written as exactly [k] bytes that read back to it. *)
Lemma toBuffer_size k bn : (1 <= k)%nat -> 0 <= bn < 256 ^ Z.of_nat k ->
  exists b, BN.toBuffer (Z.of_nat k) bn = Ok b /\ zlen b = Z.of_nat k /\ BN.fromBuffer b = bn /\ Forall byte_ok b.
Proof.
  intros Hk Hb. unfold BN.toBuffer, BN.hexBytes, BN.le_bytes. rewrite (proj2 (Z.ltb_ge bn 0)) by lia.
  pose proof (le_digits_length (S (Z.to_nat (Z.log2 bn / 8))) bn k ltac:(lia) ltac:(lia) ltac:(lia)) as Hlen.
  set (d := BN.le_digits _ _) in *.
  assert (le_value d = bn) as Hv by (apply le_digits_value; [lia|apply hexBytes_fuel; lia]).
  assert (Forall byte_ok d) as Hok by (apply le_digits_ok; lia).
  assert (zlen (rev d) = zlen d) as Hrev by (unfold zlen; by rewrite length_rev).
  cbn [mbind result_bind]. rewrite Hrev.
  destruct (Z.eqb_spec (zlen d) (Z.of_nat k)) as [He|He].
  - exists (rev d). rewrite fromBuffer_le_value, rev_involutive, Hrev. repeat split; try done.
    by apply Forall_rev.
  - rewrite Z.gtb_ltb, (proj2 (Z.ltb_ge _ _)) by (unfold zlen; lia). unfold BN.pad.
    exists (repeat 0 (Z.to_nat (Z.of_nat k - zlen d)) ++ rev d). repeat split.
    + rewrite zlen_app, Hrev. unfold zlen in *. rewrite repeat_length. lia.
    + rewrite fromBuffer_le_value, rev_app_distr, rev_involutive, rev_repeat, le_value_zeros. done.
    + apply Forall_app. split; [|by apply Forall_rev].
      generalize (Z.to_nat (Z.of_nat k - zlen d)) as n. intros n.
      induction n; constructor; [unfold byte_ok; lia|done].
Qed.

Lemma toBuffer_8 bn : 0 <= bn < 2 ^ 64 ->
  exists b, BN.toBuffer 8 bn = Ok b /\ zlen b = 8 /\ BN.fromBuffer b = bn /\ Forall byte_ok b.
Proof. intros Hb. apply (toBuffer_size 8); [lia|done]. Qed.

(** ** Lemmas: reading what lies ahead of the cursor *)
Module ReaderLemmas.
Import BufferReader.

(** The bytes [l] lie ahead of the reader's cursor (and the buffer is small
    enough for [slice]'s 32-bit arithmetic). *)
Definition at_ (r : t) (l : list Z) : Prop :=
  0 <= pos r <= zlen (buf r) /\ zdrop (pos r) (buf r) = l /\ zlen (buf r) < 2 ^ 31.

Definition adv (r : t) (n : Z) : t := mk (buf r) (n + pos r).

Lemma at_new b : zlen b < 2 ^ 31 -> at_ (new b) b.
Proof. intros. pose proof (zlen_nonneg b). unfold at_, new. cbn. rewrite zdrop_0. repeat split; lia || done. Qed.

Lemma at_len r l : at_ r l -> zlen l = zlen (buf r) - pos r.
Proof. intros (H1 & <- & _). rewrite zlen_zdrop by lia. lia. Qed.

Lemma at_adv r w l : at_ r (w ++ l) -> at_ (adv r (zlen w)) l.
Proof.
  intros H. pose proof (at_len _ _ H) as Hl. rewrite zlen_app in Hl.
  pose proof (zlen_nonneg w) as Hw0. pose proof (zlen_nonneg l) as Hl0.
  destruct H as (H1 & H2 & H3). unfold at_, adv. cbn [buf pos]. repeat split; try lia.
  rewrite (Z.add_comm (zlen w)), <-zdrop_zdrop, H2, zdrop_app_exact by lia. done.
Qed.

Lemma byte_at_at r l i : at_ r l -> 0 <= i -> byte_at (buf r) (pos r + i) = nth (Z.to_nat i) l 0.
Proof.
  intros (H1 & <- & _) Hi. unfold byte_at. rewrite zdrop_drop.
  rewrite <-(take_drop (Z.to_nat (pos r)) (buf r)) at 1.
  unfold zlen in H1. rewrite app_nth2; rewrite length_take; [|lia]. f_equal. lia.
Qed.

Lemma slice_at r w l : at_ r (w ++ l) -> Buf.slice (pos r) (pos r + zlen w) (buf r) = w.
Proof.
  intros H. pose proof (at_len _ _ H) as Hl. rewrite zlen_app in Hl.
  pose proof (zlen_nonneg w) as Hw0. pose proof (zlen_nonneg l) as Hl0.
  destruct H as (H1 & H2 & H3). unfold Buf.slice, wrap32. rewrite !Z.mod_small by lia.
  replace (pos r + 2 ^ 31 - 2 ^ 31) with (pos r) by lia.
  replace (pos r + zlen w + 2 ^ 31 - 2 ^ 31) with (pos r + zlen w) by lia.
  rewrite !Z.gtb_ltb.
  rewrite (proj2 (Z.ltb_ge (pos r) 0)), (proj2 (Z.ltb_ge (zlen (buf r)) (pos r))),
    (proj2 (Z.ltb_ge (pos r + zlen w) 0)), (proj2 (Z.ltb_ge (zlen (buf r)) (pos r + zlen w))),
    (proj2 (Z.ltb_ge (pos r + zlen w) (pos r))) by lia.
  rewrite H2. replace (pos r + zlen w - pos r) with (zlen w) by lia. apply ztake_app_exact.
Qed.

Lemma read_at r w l n : at_ r (w ++ l) -> n = zlen w -> read n r = (Ok w, adv r n).
Proof. intros H ->. unfold read, skip. js_run. by rewrite (slice_at r w l H). Qed.

Lemma checkOffset_at r l n : at_ r l -> n <= zlen l -> Buf.checkOffset (pos r) n (zlen (buf r)) = Ok tt.
Proof.
  intros H Hn. pose proof (at_len _ _ H). destruct H as (H1 & _). unfold Buf.checkOffset.
  rewrite (proj2 (Z.ltb_ge _ _)), Z.gtb_ltb, (proj2 (Z.ltb_ge _ _)) by lia. done.
Qed.

(** A fixed-width read applies its decoder to the bytes ahead. *)
Lemma read_fixed_at f n r v : f (buf r) (pos r) = Ok v -> read_fixed f n r = (Ok v, adv r n).
Proof. intros H. unfold read_fixed, skip. js_run. by rewrite H. Qed.

Lemma readUInt8_at r b l : at_ r (b :: l) -> readUInt8 r = (Ok b, adv r 1).
Proof.
  intros H. apply read_fixed_at. unfold Buf.readUInt8.
  rewrite (checkOffset_at r _ 1 H) by (rewrite zlen_cons; pose proof (zlen_nonneg l); lia).
  cbn [mbind result_bind]. f_equal. rewrite <-(Z.add_0_r (pos r)). by rewrite (byte_at_at r _ 0 H).
Qed.

Lemma readUInt16LE_at r b0 b1 l : at_ r (b0 :: b1 :: l) -> byte_ok b0 ->
  readUInt16LE r = (Ok (b0 + b1 * 256), adv r 2).
Proof.
  intros H Hb. apply read_fixed_at. unfold Buf.readUInt16LE.
  rewrite (checkOffset_at r _ 2 H) by (rewrite !zlen_cons; pose proof (zlen_nonneg l); lia).
  cbn [mbind result_bind]. f_equal. rewrite <-(Z.add_0_r (pos r)) at 1.
  rewrite (byte_at_at r _ 0 H), (byte_at_at r _ 1 H) by lia.
  change (Z.to_nat 0) with 0%nat. change (Z.to_nat 1) with 1%nat. cbn [nth].
  rewrite lor_disjoint by (unfold byte_ok in *; lia). done.
Qed.

Lemma readUInt32LE_at r b0 b1 b2 b3 l : at_ r (b0 :: b1 :: b2 :: b3 :: l) ->
  byte_ok b0 -> byte_ok b1 ->
  readUInt32LE r = (Ok (b0 + b1 * 256 + b2 * 65536 + b3 * 16777216), adv r 4).
Proof.
  intros H Hb0 Hb1. apply read_fixed_at. unfold Buf.readUInt32LE.
  rewrite (checkOffset_at r _ 4 H) by (rewrite !zlen_cons; pose proof (zlen_nonneg l); lia).
  cbn [mbind result_bind]. f_equal. rewrite <-(Z.add_0_r (pos r)) at 1.
  rewrite (byte_at_at r _ 0 H), (byte_at_at r _ 1 H), (byte_at_at r _ 2 H), (byte_at_at r _ 3 H) by lia.
  change (Z.to_nat 0) with 0%nat. change (Z.to_nat 1) with 1%nat.
  change (Z.to_nat 2) with 2%nat. change (Z.to_nat 3) with 3%nat. cbn [nth].
  unfold byte_ok in *. rewrite (lor_disjoint b0) by lia.
  rewrite lor_disjoint by lia. lia.
Qed.

Lemma readUInt64LEBN_at r w l : at_ r (w ++ l) -> zlen w = 8 ->
  readUInt64LEBN r = (Ok (BN.fromBuffer (rev w)), adv r 8).
Proof.
  intros H Hw. unfold readUInt64LEBN, skip. js_run.
  rewrite <-Hw at 1. by rewrite (slice_at r w l H).
Qed.

(** Reading where nothing is left throws, and the cursor stays. *)
Lemma readUInt8_end r : at_ r [] -> readUInt8 r = (Throw RangeError, r).
Proof.
  intros H. pose proof (at_len _ _ H) as Hl. destruct H as (H1 & _).
  change (zlen (@nil Z)) with 0 in Hl.
  unfold readUInt8, read_fixed, Buf.readUInt8, Buf.checkOffset. js_run.
  rewrite (proj2 (Z.ltb_ge (pos r) 0)), Z.gtb_ltb, (proj2 (Z.ltb_lt (zlen (buf r)) (pos r + 1))) by lia.
  done.
Qed.

End ReaderLemmas.

(** ** Lemmas: [new BN(n)] *)

(** An amount below 2^52 satoshis survives the two 26-bit words. *)
Lemma BN_fromNumber_small z : 0 <= z < 2 ^ 52 -> BN.fromNumber (num_of_Z z) = z.
Proof.
  intros Hz. assert (safe z /\ safe 0 /\ safe 0x4000000) as (Hs & Hs0 & Hs1) by (unfold safe; lia).
  assert (forall a, 0 <= a -> Z.land (wrap32 a) 0x3ffffff = a mod 2 ^ 26) as Hland.
  { intros a Ha. change 0x3ffffff with (Z.ones 26). rewrite Z.land_ones by lia. unfold wrap32.
    change (2 ^ 31) with (32 * 2 ^ 26). change (2 ^ 32) with (64 * 2 ^ 26).
    rewrite <-Zminus_mod_idemp_l. pose proof (Z.mod_pos_bound (a + 32 * 2 ^ 26) (64 * 2 ^ 26)). zlia. }
  unfold BN.fromNumber. rewrite num_lt_safe by done. rewrite (proj2 (Z.ltb_ge z 0)) by lia.
  rewrite num_lt_safe by done. unfold to_int32. change 0x4000000 with (2 ^ 26).
  rewrite num_div_pow2_trunc, num_trunc_safe by (done || lia).
  destruct (Z.ltb_spec z (2 ^ 26)); rewrite !Hland by zlia; zlia.
Qed.

(** ** Theorems *)
Section VarintTheorems.
Import BufferReader ReaderLemmas BufferWriter.

Lemma checkInt_ok v max min : min <= v <= max -> Buf.checkInt v max min = Ok tt.
Proof.
  intros. unfold Buf.checkInt. rewrite Z.gtb_ltb.
  by rewrite (proj2 (Z.ltb_ge _ _)), (proj2 (Z.ltb_ge _ _)) by lia.
Qed.

Lemma num_le_2p53 n : 0 <= n < 2 ^ 53 -> num_le (num_of_Z n) (num_of_Z (2 ^ 53)) = true.
Proof.
  intros Hn. destruct (Z.eq_dec n 0) as [->|Hn0]; [reflexivity|].
  assert (safe n) as Hs by (unfold safe; lia).
  pose proof (expo_le_0 n Hs Hn0) as He. rewrite num_of_Z_finite by done.
  rewrite (proj2 (Z.ltb_ge n 0)) by lia.
  change (num_of_Z (2 ^ 53)) with (S754_finite false 4503599627370496 1).
  unfold num_le, SFleb, SFcompare. by rewrite (proj2 (Z.compare_lt_iff _ _)) by lia.
Qed.

(** Four little-endian bytes. *)
Definition le4 (v : Z) : list Z :=
  [v mod 256; Z.shiftr v 8 mod 256; Z.shiftr v 16 mod 256; Z.shiftr v 24 mod 256].

Lemma le4_ok v : Forall byte_ok (le4 v).
Proof. repeat constructor; unfold byte_ok; try apply Z.mod_pos_bound; lia. Qed.

Lemma le4_value v : le_value (le4 v) = v mod 2 ^ 32.
Proof. unfold le4. cbn [le_value]. rewrite !Z.shiftr_div_pow2 by lia. zlia. Qed.

Lemma writeUInt32LE_ok v : 0 <= v < 2 ^ 32 -> Buf.writeUInt32LE v = Ok (le4 v).
Proof. intros. unfold Buf.writeUInt32LE. by rewrite checkInt_ok by lia. Qed.

Lemma writeInt32LE_wrap v : Buf.writeInt32LE (wrap32 v) = Ok (le4 (wrap32 v)).
Proof.
  unfold Buf.writeInt32LE. rewrite checkInt_ok; [done|].
  unfold wrap32. pose proof (Z.mod_pos_bound (v + 2 ^ 31) (2 ^ 32)). lia.
Qed.

Lemma readUInt32LE_le4 r v l : at_ r (le4 v ++ l) -> readUInt32LE r = (Ok (v mod 2 ^ 32), adv r 4).
Proof.
  intros H. pose proof (le4_ok v) as Hok. pose proof (le4_value v) as Hv.
  unfold le4 in *. cbn [app] in H. cbn [le_value] in Hv.
  apply Forall_cons in Hok as [Hb0 Hok]. apply Forall_cons in Hok as [Hb1 _].
  rewrite (readUInt32LE_at _ _ _ _ _ _ H) by done. f_equal. f_equal. lia.
Qed.

Lemma writeUInt16LE_ok v : 0 <= v < 2 ^ 16 ->
  Buf.writeUInt16LE v = Ok [v mod 256; v / 256] /\ byte_ok (v / 256).
Proof.
  intros. unfold Buf.writeUInt16LE. rewrite checkInt_ok by lia. cbn [mbind result_bind].
  rewrite Z.shiftr_div_pow2 by lia. rewrite (Z.mod_small (v / 2 ^ 8)) by zlia.
  split; [done|]. unfold byte_ok. zlia.
Qed.

Lemma writeUInt8_ok v : 0 <= v < 256 -> Buf.writeUInt8 v = Ok [v].
Proof.
  intros. unfold Buf.writeUInt8. rewrite checkInt_ok by lia. cbn [mbind result_bind].
  by rewrite Z.mod_small by lia.
Qed.

Lemma adv_adv r n m : adv (adv r n) m = adv r (n + m).
Proof. unfold adv. cbn. f_equal. lia. Qed.

(** The eight bytes the 64-bit branch of [varintBufNum] writes. *)
Definition le8 (n : Z) : list Z := le4 (wrap32 n) ++ le4 (n / 2 ^ 32).

Lemma le8_value n : 0 <= n < 2 ^ 64 -> le_value (le8 n) = n.
Proof.
  intros. unfold le8. rewrite le_value_app, !le4_value.
  change (256 ^ zlen (le4 (wrap32 n))) with (2 ^ 32).
  unfold wrap32. rewrite Zminus_mod_idemp_l. zlia.
Qed.

(** The shape of every encoding. *)
Lemma varintBufNum_cases n : 0 <= n < 2 ^ 64 ->
  varintBufNum n = Ok (if n <? 253 then [n]
                       else if n <? 2 ^ 16 then [253; n mod 256; n / 256]
                       else if n <? 2 ^ 32 then 254 :: le4 n
                       else 255 :: le8 n).
Proof.
  intros Hn. unfold varintBufNum. change 0x10000 with (2 ^ 16). change 0x100000000 with (2 ^ 32).
  destruct (Z.ltb_spec n 253); [by apply writeUInt8_ok; lia|].
  destruct (Z.ltb_spec n (2 ^ 16)).
  { rewrite writeUInt8_ok by lia. by rewrite (proj1 (writeUInt16LE_ok n ltac:(lia))). }
  destruct (Z.ltb_spec n (2 ^ 32)).
  { rewrite writeUInt8_ok by lia. by rewrite writeUInt32LE_ok by lia. }
  rewrite writeUInt8_ok, writeInt32LE_wrap, writeUInt32LE_ok by zlia. done.
Qed.

(** The length of an encoding depends only on the size class of the number. *)
Definition varint_size (n : Z) : Z :=
  if n <? 253 then 1 else if n <? 2 ^ 16 then 3 else if n <? 2 ^ 32 then 5 else 9.

Lemma varintBufNum_len n b : 0 <= n < 2 ^ 64 -> varintBufNum n = Ok b -> zlen b = varint_size n.
Proof.
  intros Hn Hb. rewrite varintBufNum_cases in Hb by done. injection Hb as <-. unfold varint_size.
  by repeat case_match.
Qed.

Lemma varint_size_bound n : 1 <= varint_size n <= 9.
Proof. unfold varint_size. repeat case_match; lia. Qed.

(** Reading a varint by its first byte, the three multi-byte forms. *)
Lemma varint_first r b l : at_ r (b :: l) -> readUInt8 r = (Ok b, adv r 1) /\ at_ (adv r 1) l.
Proof.
  intros H. split; [by eapply readUInt8_at|]. apply (at_adv r [b] l). done.
Qed.

Lemma readVarintNum_at n b r l : 0 <= n < 2 ^ 53 -> varintBufNum n = Ok b -> at_ r (b ++ l) ->
  readVarintNum r = (Ok n, adv r (zlen b)).
Proof.
  intros Hn Hb Hat. rewrite varintBufNum_cases in Hb by lia. unfold readVarintNum.
  destruct (Z.ltb_spec n 253).
  { injection Hb as <-. cbn [app] in Hat. destruct (varint_first _ _ _ Hat) as [Hr _]. js_run. rewrite Hr.
    rewrite !(proj2 (Z.eqb_neq _ _)) by lia. done. }
  destruct (Z.ltb_spec n (2 ^ 16)).
  { injection Hb as <-. cbn [app] in Hat. destruct (varint_first _ _ _ Hat) as [Hr Hat']. js_run. rewrite Hr.
    change (253 =? 253) with true. cbv beta iota.
    rewrite (readUInt16LE_at _ _ _ _ Hat') by (unfold byte_ok; apply Z.mod_pos_bound; lia).
    rewrite adv_adv. f_equal. f_equal. zlia. }
  destruct (Z.ltb_spec n (2 ^ 32)).
  { injection Hb as <-. cbn [app] in Hat. destruct (varint_first _ _ _ Hat) as [Hr Hat']. js_run. rewrite Hr.
    change (254 =? 253) with false. change (254 =? 254) with true. cbv beta iota.
    rewrite (readUInt32LE_le4 _ _ _ Hat'), adv_adv. f_equal. f_equal. apply Z.mod_small. lia. }
  injection Hb as <-. cbn [app] in Hat. destruct (varint_first _ _ _ Hat) as [Hr Hat']. js_run. rewrite Hr.
  change (255 =? 253) with false. change (255 =? 254) with false. change (255 =? 255) with true. cbv beta iota.
  rewrite (readUInt64LEBN_at _ (le8 n) l Hat' eq_refl), fromBuffer_le_value, rev_involutive, le8_value by lia.
  unfold BN.toNumber. rewrite num_le_2p53, num_trunc_safe by (unfold safe; lia). by rewrite adv_adv.
Qed.

(** [readVarintNum] undoes [varintBufNum] on every integer below 2^53, and leaves
    the cursor on the byte after the encoding. *)
Theorem varint_num_roundtrip n rest :
  0 <= n < 2 ^ 53 -> zlen rest < 2 ^ 30 ->
  exists b, varintBufNum n = Ok b
    /\ readVarintNum (BufferReader.new (b ++ rest)) = (Ok n, mk (b ++ rest) (zlen b)).
Proof.
  intros Hn Hr. pose proof (varintBufNum_cases n ltac:(lia)) as Hb.
  eexists. split; [exact Hb|]. set (b := if n <? 253 then _ else _) in *.
  rewrite (readVarintNum_at n b _ rest Hn Hb); [unfold adv; cbn [buf pos BufferReader.new]; by rewrite Z.add_0_r|].
  apply at_new. rewrite zlen_app, (varintBufNum_len n b) by (done || lia).
  pose proof (varint_size_bound n). lia.
Qed.

(** The comparisons of [varintBufBN] see the integer itself. *)
Lemma varintBufBN_cases bn : 0 <= bn < 2 ^ 64 ->
  exists b8, BN.toBuffer 8 bn = Ok b8 /\
  varintBufBN bn = Ok (if bn <? 253 then [bn]
                       else if bn <? 2 ^ 16 then [253; bn mod 256; bn / 256]
                       else if bn <? 2 ^ 32 then 254 :: le4 bn
                       else 255 :: rev b8).
Proof.
  intros Hn. destruct (toBuffer_8 bn Hn) as (b8 & Hb8 & _). exists b8. split; [done|].
  unfold varintBufBN, BN.toNumber. change 0x10000 with (2 ^ 16). change 0x100000000 with (2 ^ 32).
  rewrite !num_lt_rounded by (unfold safe; lia).
  destruct (Z.ltb_spec bn 253); [rewrite num_trunc_safe by (unfold safe; lia); by apply writeUInt8_ok; lia|].
  destruct (Z.ltb_spec bn (2 ^ 16)).
  { rewrite num_trunc_safe by (unfold safe; lia).
    rewrite writeUInt8_ok by lia. by rewrite (proj1 (writeUInt16LE_ok bn ltac:(lia))). }
  destruct (Z.ltb_spec bn (2 ^ 32)).
  { rewrite num_trunc_safe by (unfold safe; lia).
    rewrite writeUInt8_ok by lia. by rewrite writeUInt32LE_ok by lia. }
  unfold writeUInt8, writeUInt64LEBN, write_result. rewrite writeUInt8_ok by lia. cbn [mbind result_bind].
  rewrite Hb8. cbn [mbind result_bind]. unfold concat, write, new. cbn. by rewrite app_nil_r.
Qed.

Lemma readVarintBN_at bn b r l : 0 <= bn < 2 ^ 64 -> varintBufBN bn = Ok b -> at_ r (b ++ l) ->
  readVarintBN r = (Ok bn, adv r (zlen b)).
Proof.
  intros Hn Hb Hat. destruct (toBuffer_8 bn Hn) as (b8 & Hb8 & Hlen & Hval & _).
  destruct (varintBufBN_cases bn Hn) as (b8' & Hb8' & Hc). rewrite Hc in Hb.
  assert (b8' = b8) as -> by congruence. unfold readVarintBN.
  destruct (Z.ltb_spec bn 253).
  { injection Hb as <-. cbn [app] in Hat. destruct (varint_first _ _ _ Hat) as [Hr _]. js_run. rewrite Hr.
    rewrite !(proj2 (Z.eqb_neq _ _)) by lia. done. }
  destruct (Z.ltb_spec bn (2 ^ 16)).
  { injection Hb as <-. cbn [app] in Hat. destruct (varint_first _ _ _ Hat) as [Hr Hat']. js_run. rewrite Hr.
    change (253 =? 253) with true. cbv beta iota.
    rewrite (readUInt16LE_at _ _ _ _ Hat') by (unfold byte_ok; apply Z.mod_pos_bound; lia).
    rewrite adv_adv. f_equal. f_equal. zlia. }
  destruct (Z.ltb_spec bn (2 ^ 32)).
  { injection Hb as <-. cbn [app] in Hat. destruct (varint_first _ _ _ Hat) as [Hr Hat']. js_run. rewrite Hr.
    change (254 =? 253) with false. change (254 =? 254) with true. cbv beta iota.
    rewrite (readUInt32LE_le4 _ _ _ Hat'), adv_adv. f_equal. f_equal. apply Z.mod_small. lia. }
  injection Hb as <-. cbn [app] in Hat. destruct (varint_first _ _ _ Hat) as [Hr Hat']. js_run. rewrite Hr.
  change (255 =? 253) with false. change (255 =? 254) with false. change (255 =? 255) with true. cbv beta iota.
  assert (zlen (rev b8) = 8) as Hrev by (unfold zlen in *; by rewrite length_rev).
  rewrite (readUInt64LEBN_at _ _ l Hat' Hrev), rev_involutive, Hval, adv_adv.
  by rewrite zlen_cons, Hrev.
Qed.

(** [readVarintBN] undoes [varintBufBN] on the whole unsigned 64-bit range. *)
Theorem varint_bn_roundtrip bn rest :
  0 <= bn < 2 ^ 64 -> zlen rest < 2 ^ 30 ->
  exists b, varintBufBN bn = Ok b
    /\ readVarintBN (BufferReader.new (b ++ rest)) = (Ok bn, mk (b ++ rest) (zlen b)).
Proof.
  intros Hn Hr. destruct (toBuffer_8 bn Hn) as (b8 & Hb8 & Hlen & _).
  destruct (varintBufBN_cases bn Hn) as (b8' & Hb8' & Hb). assert (b8' = b8) as -> by congruence.
  eexists. split; [exact Hb|]. set (b := if bn <? 253 then _ else _) in *.
  rewrite (readVarintBN_at bn b _ rest Hn Hb); [unfold adv; cbn [buf pos BufferReader.new]; by rewrite Z.add_0_r|].
  apply at_new. rewrite zlen_app. enough (zlen b <= 9) by lia. subst b.
  repeat case_match; try done. rewrite zlen_cons. unfold zlen in *. rewrite length_rev. lia.
Qed.

(** a varint that announces more than 2^53 is refused, but 2^53 + 1 slips through the
    precision test and is read as 2^53: the test is made on the rounded number. *)
Theorem varint_precision_gap :
  exists b, varintBufBN (2 ^ 53 + 1) = Ok b
    /\ fst (readVarintNum (BufferReader.new b)) = Ok (2 ^ 53)
    /\ fst (readVarintBN (BufferReader.new b)) = Ok (2 ^ 53 + 1).
Proof. eexists. split; [vm_compute; reflexivity|]. split; vm_compute; reflexivity. Qed.

(** Numbers outside the range of the encoding are refused by the fixed-width writes. *)
Theorem varint_num_errors n :
  n < 0 \/ 2 ^ 64 <= n -> varintBufNum n = Throw TypeError.
Proof.
  intros Hn. unfold varintBufNum. destruct (Z.ltb_spec n 253).
  { unfold Buf.writeUInt8, Buf.checkInt. rewrite (proj2 (Z.ltb_lt n 0)), orb_true_r by lia. done. }
  rewrite (proj2 (Z.ltb_ge n 0x10000)), (proj2 (Z.ltb_ge n 0x100000000)) by lia.
  rewrite writeUInt8_ok, writeInt32LE_wrap by lia. cbn [mbind result_bind].
  unfold Buf.writeUInt32LE, Buf.checkInt. rewrite Z.gtb_ltb, (proj2 (Z.ltb_lt 0xffffffff _)) by zlia. done.
Qed.

Lemma readVarLengthBuffer_at w b r l : zlen w < 2 ^ 31 -> varintBufNum (zlen w) = Ok b -> at_ r (b ++ w ++ l) ->
  readVarLengthBuffer r = (Ok w, adv r (zlen b + zlen w)).
Proof.
  intros Hw Hb Hat. pose proof (zlen_nonneg w). unfold readVarLengthBuffer. js_run.
  rewrite (readVarintNum_at (zlen w) b r (w ++ l)) by (done || lia).
  rewrite (read_at _ w l) by (done || by apply at_adv). rewrite Z.eqb_refl, adv_adv. done.
Qed.

Lemma varint_num_roundtrip_witness : exists b, varintBufNum 70000 = Ok b
  /\ readVarintNum (BufferReader.new (b ++ [1])) = (Ok 70000, mk (b ++ [1]) (zlen b)).
Proof. apply (varint_num_roundtrip 70000 [1]); vm_compute; split || reflexivity; discriminate || reflexivity. Defined.

Lemma varint_bn_roundtrip_witness : exists b, varintBufBN (2 ^ 63) = Ok b
  /\ readVarintBN (BufferReader.new (b ++ [1])) = (Ok (2 ^ 63), mk (b ++ [1]) (zlen b)).
Proof. apply (varint_bn_roundtrip (2 ^ 63) [1]); vm_compute; split || reflexivity; discriminate || reflexivity. Defined.

Lemma varint_num_errors_witness : varintBufNum (-1) = Throw TypeError.
Proof. apply (varint_num_errors (-1)). left. reflexivity. Defined.
End VarintTheorems.

(** ** Writers and readers of the same bytes

    [writes f w]: the writer [f] appends exactly [w].  [reads m w v]: the reader [m], standing
    before [w], returns [v] and stops right after it.  Both compose along [bind], so a codec
    is proved field by field. *)
Module Codec.
Import BufferReader ReaderLemmas.

Definition writes (f : BufferWriter.t -> result BufferWriter.t) (w : list Z) : Prop :=
  forall bw, exists bw', f bw = Ok bw' /\ BufferWriter.concat bw' = BufferWriter.concat bw ++ w.

Definition reads {A} (m : js BufferReader.t A) (w : list Z) (v : A) : Prop :=
  forall r l, at_ r (w ++ l) -> m r = (Ok v, adv r (zlen w)).

Lemma concat_write w bw : BufferWriter.concat (BufferWriter.write w bw) = BufferWriter.concat bw ++ w.
Proof. unfold BufferWriter.concat, BufferWriter.write. rewrite join_app. cbn. by rewrite app_nil_r. Qed.

Lemma writes_ret : writes Ok [].
Proof. intros bw. exists bw. by rewrite app_nil_r. Qed.

Lemma writes_write b : writes (fun bw => Ok (BufferWriter.write b bw)) b.
Proof. intros bw. eexists. split; [done|]. apply concat_write. Qed.

Lemma writes_result (r : result (list Z)) w : r = Ok w -> writes (BufferWriter.write_result r) w.
Proof. intros -> bw. unfold BufferWriter.write_result. eexists. split; [done|]. apply concat_write. Qed.

Lemma writes_bind f g w w' : writes f w -> writes g w' -> writes (fun bw => bw' ← f bw; g bw') (w ++ w').
Proof.
  intros Hf Hg bw. destruct (Hf bw) as (b1 & H1 & Hc1). destruct (Hg b1) as (b2 & H2 & Hc2).
  exists b2. rewrite H1. split; [done|]. by rewrite Hc2, Hc1, <-app_assoc.
Qed.

Lemma writes_concat f w : writes f w -> (bw ← f BufferWriter.new; Ok (BufferWriter.concat bw)) = Ok w.
Proof. intros Hf. destruct (Hf BufferWriter.new) as (bw & -> & Hc). cbn. by rewrite Hc. Qed.

Lemma adv_0 r : adv r 0 = r.
Proof. by destruct r. Qed.

Lemma reads_ret {A} (v : A) : reads (mret v) [] v.
Proof. intros r l _. change (zlen (@nil Z)) with 0. by rewrite adv_0. Qed.

Lemma reads_bind {A B} (m : js BufferReader.t A) (k : A -> js BufferReader.t B) w w' v v' :
  reads m w v -> reads (k v) w' v' -> reads (m ≫= k) (w ++ w') v'.
Proof.
  intros Hm Hk r l Hat. rewrite <-app_assoc in Hat. unfold mbind, js_bind. rewrite (Hm r (w' ++ l) Hat).
  rewrite (Hk (adv r (zlen w)) l) by (by apply at_adv). by rewrite adv_adv, zlen_app.
Qed.

Lemma reads_fresh {A} (m : js BufferReader.t A) w v : reads m w v -> zlen w < 2 ^ 31 ->
  fst (m (BufferReader.new w)) = Ok v.
Proof. intros Hm Hw. rewrite (Hm _ []); [done|]. rewrite app_nil_r. by apply at_new. Qed.

(** The primitive codecs. *)
Lemma writes_u32 n : 0 <= n < 2 ^ 32 -> writes (BufferWriter.writeUInt32LE n) (le4 n).
Proof. intros. by apply writes_result, writeUInt32LE_ok. Qed.

Lemma reads_u32 n : 0 <= n < 2 ^ 32 -> reads BufferReader.readUInt32LE (le4 n) n.
Proof. intros Hn r l Hat. by rewrite (readUInt32LE_le4 _ _ _ Hat), Z.mod_small by lia. Qed.

(** The bytes of a varint. *)
Definition varint_bytes (n : Z) : list Z :=
  if n <? 253 then [n] else if n <? 2 ^ 16 then [253; n mod 256; n / 256]
  else if n <? 2 ^ 32 then 254 :: le4 n else 255 :: le8 n.

Lemma zlen_varint_bytes n : zlen (varint_bytes n) = varint_size n.
Proof. unfold varint_bytes, varint_size. by repeat case_match. Qed.

Lemma writes_varint n : 0 <= n < 2 ^ 64 -> writes (BufferWriter.writeVarintNum n) (varint_bytes n).
Proof. intros. by apply writes_result, varintBufNum_cases. Qed.

Lemma reads_varint n : 0 <= n < 2 ^ 53 -> reads readVarintNum (varint_bytes n) n.
Proof. intros Hn r l Hat. apply (readVarintNum_at n _ _ l Hn); [|done]. apply varintBufNum_cases. lia. Qed.

Lemma reads_read b n : n = zlen b -> reads (read n) b b.
Proof. intros -> r l Hat. by apply (read_at r b l). Qed.

Lemma reads_readReverse b n : n = zlen b -> reads (readReverse (Some n)) b (rev b).
Proof. intros -> r l Hat. unfold readReverse, skip. js_run. by rewrite (slice_at r b l Hat). Qed.

Lemma reads_var_buffer b : zlen b < 2 ^ 31 -> reads readVarLengthBuffer (varint_bytes (zlen b) ++ b) b.
Proof.
  intros Hb r l Hat. rewrite <-app_assoc in Hat. pose proof (zlen_nonneg b).
  rewrite (readVarLengthBuffer_at b (varint_bytes (zlen b)) r l); [by rewrite zlen_app|done| |done].
  apply varintBufNum_cases. lia.
Qed.

(** The eight bytes of a 64-bit amount. *)
Lemma u64_codec n : 0 <= n < 2 ^ 64 -> exists w, zlen w = 8 /\ bytes_ok w
  /\ writes (BufferWriter.writeUInt64LEBN n) w /\ reads readUInt64LEBN w n.
Proof.
  intros Hn. destruct (toBuffer_8 n Hn) as (b & Hb & Hlen & Hval & Hok). exists (rev b).
  assert (zlen (rev b) = 8) as Hrev by (unfold zlen in *; by rewrite length_rev).
  split; [done|]. split; [by apply Forall_rev|]. split.
  - apply writes_result. by rewrite Hb.
  - intros r l Hat. rewrite (readUInt64LEBN_at _ _ l Hat Hrev), rev_involutive, Hval. by rewrite Hrev.
Qed.
End Codec.
