(* ===== verification/Signature.v ===== *)
(** * Signatures: DER and compact encodings

    Models [Signature] of [src/Sources/WebClient/js/bitcore.js]: the DER encoding a signature
    travels in, the strict and lenient parsers, the format check of the script interpreter and
    the compact encoding. *)
From S2P Require Import Prelude JsNumber Encoding.
Local Open Scope Z_scope.
Local Open Scope js_scope.

Module Signature.

(** [r], [s], the recovery index, whether the recovered key is compressed, and the hash type of
    a signature read from a transaction *)
Record t := mk { r : Z; s : Z; i : option Z; compressed : option bool; nhashtype : option Z }.

Definition new (r s : Z) : t := mk r s None None None.

Definition SIGHASH_ALL := 1.
Definition SIGHASH_NONE := 2.
Definition SIGHASH_SINGLE := 3.
Definition SIGHASH_ANYONECANPAY := 0x80.

Definition byte_is (b : list Z) (k : Z) (v : Z) : bool := bool_decide (b !! Z.to_nat k = Some v).

(** What [parseDER] returns. *)
Record parsed := mkParsed {
  length_ : Z;
  rlength : Z; rneg : bool; rbuf : list Z; r_ : Z;
  slength : Z; sneg : bool; sbuf : list Z; s_ : Z;
}.

(** [Signature.parseDER(buf, strict)]: reading past the end gives [undefined], which equals
    nothing.  [sneg] is read from the third byte of [s] instead of the first. *)
Definition parseDER (b : list Z) (strict : bool) : result parsed :=
  guard_or InvalidArgument (byte_is b 0 0x30);;
  let buflength := zlen (Buf.slice 2 (zlen b) b) in
  guard_or InvalidArgument (negb strict || byte_is b 1 buflength);;
  let length := match b !! 1%nat with Some l => if l <? buflength then l else buflength | None => buflength end in
  guard_or InvalidArgument (byte_is b 2 0x02);;
  match b !! 3%nat with
  | None => Throw InvalidArgument
  | Some rlength =>
      let rbuf := Buf.slice 4 (4 + rlength) b in
      let rneg := byte_is b 4 0x00 in
      guard_or InvalidArgument (rlength =? zlen rbuf);;
      guard_or InvalidArgument (byte_is b (4 + rlength) 0x02);;
      match b !! Z.to_nat (5 + rlength) with
      | None => Throw InvalidArgument
      | Some slength =>
          let sbuf := Buf.slice (6 + rlength) (6 + rlength + slength) b in
          let sneg := byte_is b (8 + rlength) 0x00 in
          guard_or InvalidArgument (slength =? zlen sbuf);;
          guard_or InvalidArgument (length =? 6 + rlength + slength - 2);;
          Ok (mkParsed length rlength rneg rbuf (BN.fromBuffer rbuf) slength sneg sbuf (BN.fromBuffer sbuf))
      end
  end.

(** [Signature.fromDER(buf, strict)] *)
Definition fromDER (b : list Z) (strict : bool) : result t := p ← parseDER b strict; Ok (new (r_ p) (s_ p)).

(** [sig.toDER()], also [sig.toBuffer()] *)
Definition toDER (x : t) : result (list Z) :=
  rnbuf ← BN.hexBytes (r x);
  snbuf ← BN.hexBytes (s x);
  let neg b := negb (Z.land (byte_at b 0) 0x80 =? 0) in
  let rbuf := if neg rnbuf then 0 :: rnbuf else rnbuf in
  let sbuf := if neg snbuf then 0 :: snbuf else snbuf in
  let rlength := zlen rbuf in
  let slength := zlen sbuf in
  let length := 2 + rlength + 2 + slength in
  Ok ([0x30; length mod 256; 0x02; rlength mod 256] ++ rbuf ++ [0x02; slength mod 256] ++ sbuf).

(** [Signature.fromTxFormat(buf)] and [sig.toTxFormat()] *)
Definition fromTxFormat (b : list Z) : result t :=
  nhashtype ← Buf.readUInt8 b (zlen b - 1);
  x ← fromDER (Buf.slice 0 (zlen b - 1) b) false;
  Ok (mk (r x) (s x) (i x) (compressed x) (Some nhashtype)).

Definition toTxFormat (x : t) : result (list Z) :=
  der ← toDER x;
  match nhashtype x with
  | None => Throw TypeError
  | Some n => h ← Buf.writeUInt8 n; Ok (der ++ h)
  end.

(** [Signature.isTxDER(buf)] *)
Definition isTxDER (b : list Z) : bool :=
  let len := zlen b in
  if len <? 9 then false
  else if len >? 73 then false
  else if negb (byte_at b 0 =? 0x30) then false
  else if negb (byte_at b 1 =? len - 3) then false
  else
    let nLenR := byte_at b 3 in
    if 5 + nLenR >=? len then false
    else
      let nLenS := byte_at b (5 + nLenR) in
      if negb (nLenR + nLenS + 7 =? len) then false
      else
        let R := Buf.slice 4 len b in
        if negb (byte_at b 2 =? 0x02) then false
        else if nLenR =? 0 then false
        else if negb (Z.land (byte_at R 0) 0x80 =? 0) then false
        else if (nLenR >? 1) && (byte_at R 0 =? 0) && (Z.land (byte_at R 1) 0x80 =? 0) then false
        else
          let S := Buf.slice (6 + nLenR) len b in
          if negb (byte_at b (4 + nLenR) =? 0x02) then false
          else if nLenS =? 0 then false
          else if negb (Z.land (byte_at S 0) 0x80 =? 0) then false
          else if (nLenS >? 1) && (byte_at S 0 =? 0) && (Z.land (byte_at S 1) 0x80 =? 0) then false
          else true.

(** [sig.hasLowS()]: the limit is written in hexadecimal and read without a base. *)
Definition low_s_limit : Z := BN.fromString "7FFFFFFFFFFFFFFFFFFFFFFFFFFFFFFF5D576E7357A4501DDFE92F46681B20A0".
Definition hasLowS (x : t) : bool := negb ((s x <? 1) || (s x >? low_s_limit)).

(** [sig.hasDefinedHashtype()]; an absent type is 0 under [&]. *)
Definition hasDefinedHashtype (x : t) : bool :=
  let hashtype := Z.land (match nhashtype x with Some n => n | None => 0 end) 0xf in
  negb ((hashtype <? SIGHASH_ALL) || (hashtype >? SIGHASH_SINGLE)).

(** [sig.toCompact(i, compressed)], the arguments given or taken from the signature *)
Definition toCompact (i_arg : option Z) (c_arg : option bool) (x : t) : result (list Z) :=
  let i := match i_arg with Some _ => i_arg | None => i x end in
  let compressed := match c_arg with Some _ => c_arg | None => compressed x end in
  match i with
  | Some i =>
      if (i =? 0) || (i =? 1) || (i =? 2) || (i =? 3) then
        let val := i + 27 + 4 in
        let val := if bool_decide (compressed = Some false) then val - 4 else val in
        b2 ← BN.toBuffer 32 (r x);
        b3 ← BN.toBuffer 32 (s x);
        Ok (val mod 256 :: b2 ++ b3)
      else Throw (ErrorMessage "i must be equal to 0, 1, 2, or 3")
  | None => Throw (ErrorMessage "i must be equal to 0, 1, 2, or 3")
  end.

(** [Signature.fromCompact(buf)]: always marked compressed. *)
Definition fromCompact (b : list Z) : result t :=
  match Buf.slice 0 1 b !! 0%nat with
  | None => Throw InvalidArgument
  | Some v =>
      let i := v - 27 - 4 in
      let b2 := Buf.slice 1 33 b in
      let b3 := Buf.slice 33 65 b in
      guard_or InvalidArgument ((i =? 0) || (i =? 1) || (i =? 2) || (i =? 3));;
      guard_or InvalidArgument (zlen b2 =? 32);;
      guard_or InvalidArgument (zlen b3 =? 32);;
      Ok (mk (BN.fromBuffer b2) (BN.fromBuffer b3) (Some i) (Some true) None)
  end.

End Signature.

(** ** Lemmas *)
Module DerLemmas.
Import Signature.

(** A byte and a range of a buffer cut in pieces. *)
Lemma byte_at_mid p x q n : zlen p = n -> byte_at (p ++ x :: q) n = x.
Proof. intros <-. unfold byte_at, zlen. rewrite Nat2Z.id, app_nth2, Nat.sub_diag by lia. done. Qed.

Lemma lookup_mid (p : list Z) x q n : zlen p = n -> (p ++ x :: q) !! Z.to_nat n = Some x.
Proof. intros <-. unfold zlen. rewrite Nat2Z.id. by apply list_lookup_middle. Qed.

Lemma byte_is_mid p x q n v : zlen p = n -> byte_is (p ++ x :: q) n v = (x =? v).
Proof.
  intros Hp. unfold byte_is. rewrite lookup_mid by done. case_bool_decide as H; destruct (Z.eqb_spec x v); congruence.
Qed.

Lemma slice_mid p w q n m : zlen p = n -> m = n + zlen w -> zlen (p ++ w ++ q) < 2 ^ 31 -> Buf.slice n m (p ++ w ++ q) = w.
Proof.
  intros Hp -> Hlen. pose proof (zlen_nonneg p). pose proof (zlen_nonneg w). pose proof (zlen_nonneg q).
  apply (ReaderLemmas.slice_at (BufferReader.mk (p ++ w ++ q) n) w q). rewrite !zlen_app in *.
  split; [cbn; rewrite !zlen_app; lia|]. split; [cbn; by rewrite <-Hp, zdrop_app_exact|cbn; rewrite !zlen_app; lia].
Qed.

Lemma slice_tail p w n : zlen p = n -> zlen (p ++ w) < 2 ^ 31 -> Buf.slice n (zlen (p ++ w)) (p ++ w) = w.
Proof.
  intros Hp Hl. pose proof (slice_mid p w [] n (zlen (p ++ w)) Hp) as H. rewrite app_nil_r in H.
  apply H; [rewrite zlen_app; lia|done].
Qed.

(** The last digit of a positive number is not zero. *)
Lemma le_digits_last fuel n : 0 < n -> n < 256 ^ Z.of_nat fuel -> exists l d, BN.le_digits fuel n = l ++ [d] /\ d <> 0.
Proof.
  revert n; induction fuel as [|f IH]; intros n Hn Hlt; [cbn in Hlt; lia|]. cbn [BN.le_digits].
  destruct (Z.ltb_spec n 256); [exists [], n; by split; [|lia]|].
  rewrite Nat2Z.inj_succ, Z.pow_succ_r in Hlt by lia.
  destruct (IH (n / 256)) as (l & d & -> & Hd); [zlia|apply Z.div_lt_upper_bound; lia|]. by exists (n mod 256 :: l), d.
Qed.

Lemma top_bit b : byte_ok b -> (Z.land b 0x80 =? 0) = (b <? 0x80).
Proof.
  intros Hb. assert (Forall (fun b => (Z.land b 0x80 =? 0) = (b <? 0x80)) (seqZ 0 256)) as H.
  { apply (bool_decide_unpack _). by vm_compute. }
  rewrite Forall_forall in H. apply H. rewrite elem_of_seqZ. unfold byte_ok in Hb. lia.
Qed.

(** The minimal big-endian bytes of a positive number below 2^256. *)
Lemma hexBytes_spec n : 0 < n < 2 ^ 256 -> exists d b,
  BN.hexBytes n = Ok (d :: b) /\ byte_ok d /\ bytes_ok b /\ d <> 0 /\ 1 <= zlen (d :: b) <= 32 /\ BN.fromBuffer (d :: b) = n.
Proof.
  intros Hn. unfold BN.hexBytes, BN.le_bytes. rewrite (proj2 (Z.ltb_ge n 0)) by lia.
  set (f := S (Z.to_nat (Z.log2 n / 8))). pose proof (hexBytes_fuel n ltac:(lia)) as Hf. fold f in Hf.
  destruct (le_digits_last f n ltac:(lia) Hf) as (l & d & Hl & Hd).
  pose proof (le_digits_ok f n ltac:(lia)) as Hok. rewrite Hl in Hok. apply Forall_app in Hok as [Hok Hdo].
  apply Forall_cons in Hdo as [Hdo _].
  pose proof (le_digits_length f n 32 ltac:(lia) ltac:(change (256 ^ Z.of_nat 32) with (2 ^ 256); lia) ltac:(lia)) as Hlen.
  rewrite Hl, length_app in Hlen. cbn [length] in Hlen.
  exists d, (rev l). rewrite Hl, rev_app_distr. cbn [rev app].
  split; [done|]. split; [done|]. split; [by apply Forall_rev|]. split; [done|]. split.
  - rewrite zlen_cons. unfold zlen. rewrite length_rev. lia.
  - rewrite fromBuffer_le_value. cbn [rev]. rewrite rev_involutive, <-Hl. apply le_digits_value; [lia|done].
Qed.

(** An integer of a DER signature: a zero byte goes before a byte with the top bit set. *)
Definition der_int (d : Z) (b : list Z) : list Z := if 0x80 <=? d then 0 :: d :: b else d :: b.

Lemma der_int_neg d b : byte_ok d ->
  (if negb (Z.land (byte_at (d :: b) 0) 0x80 =? 0) then 0 :: d :: b else d :: b) = der_int d b.
Proof. intros Hd. change (byte_at (d :: b) 0) with d. rewrite top_bit by done. unfold der_int. by rewrite Z.ltb_antisym, negb_involutive. Qed.

(** Such an integer is not negative, not padded, and keeps its value. *)
Lemma der_int_spec d b : byte_ok d -> bytes_ok b -> d <> 0 -> 1 <= zlen (d :: b) <= 32 -> exists h l,
  der_int d b = h :: l /\ h < 0x80 /\ byte_ok h /\ bytes_ok (h :: l) /\ 1 <= zlen (h :: l) <= 33
  /\ BN.fromBuffer (h :: l) = BN.fromBuffer (d :: b)
  /\ (h = 0 -> exists x l', l = x :: l' /\ 0x80 <= x).
Proof.
  intros Hd Hb Hne Hlen. pose proof Hd as Hd'. unfold byte_ok in Hd'. unfold der_int. destruct (Z.leb_spec 0x80 d).
  - exists 0, (d :: b). rewrite !(zlen_cons 0). split; [done|]. split; [lia|]. split; [unfold byte_ok; lia|].
    split; [apply Forall_cons; split; [unfold byte_ok; lia|by apply Forall_cons]|]. split; [lia|]. split; [done|].
    intros _. by exists d, b.
  - exists d, b. split; [done|]. split; [lia|]. split; [done|]. split; [by apply Forall_cons|]. split; [lia|]. split; [done|lia].
Qed.
End DerLemmas.

(** ** Theorems *)
Section SignatureTheorems.
Import Signature DerLemmas.

(** The encoding of two positive integers below 2^256, taken apart. *)
Definition der_bytes (rb sb : list Z) : list Z :=
  [0x30; 4 + zlen rb + zlen sb; 0x02; zlen rb] ++ rb ++ [0x02; zlen sb] ++ sb.

Lemma toDER_eq r s : 0 < r < 2 ^ 256 -> 0 < s < 2 ^ 256 -> exists hr lr hs ls,
  toDER (new r s) = Ok (der_bytes (hr :: lr) (hs :: ls))
  /\ (hr < 0x80 /\ bytes_ok (hr :: lr) /\ 1 <= zlen (hr :: lr) <= 33 /\ BN.fromBuffer (hr :: lr) = r
      /\ (hr = 0 -> exists x l', lr = x :: l' /\ 0x80 <= x))
  /\ (hs < 0x80 /\ bytes_ok (hs :: ls) /\ 1 <= zlen (hs :: ls) <= 33 /\ BN.fromBuffer (hs :: ls) = s
      /\ (hs = 0 -> exists x l', ls = x :: l' /\ 0x80 <= x)).
Proof.
  intros Hr Hs. destruct (hexBytes_spec r Hr) as (dr & br & Hbr & Hdr & Hokr & Hnr & Hlr & Hvr).
  destruct (hexBytes_spec s Hs) as (ds & bs & Hbs & Hds & Hoks & Hns & Hls & Hvs).
  destruct (der_int_spec dr br Hdr Hokr Hnr Hlr) as (hr & lr & Her & Hhr & _ & Hor & Hlenr & Hvr' & Hpr).
  destruct (der_int_spec ds bs Hds Hoks Hns Hls) as (hs & ls & Hes & Hhs & _ & Hos & Hlens & Hvs' & Hps).
  exists hr, lr, hs, ls. split; [|split; (split; [done|split; [done|split; [done|split; [congruence|done]]]])].
  unfold toDER. cbn [Signature.r Signature.s new]. rewrite Hbr, Hbs. cbn [mbind result_bind].
  rewrite (der_int_neg dr br Hdr), (der_int_neg ds bs Hds), Her, Hes. cbv zeta.
  rewrite !Z.mod_small by lia. unfold der_bytes. do 4 f_equal. lia.
Qed.

(** The bytes of an encoding, followed by [t]. *)
Lemma der_pieces l rb sb t : zlen (rb ++ sb ++ t) < 2 ^ 30 ->
  let b := [0x30; l; 0x02; zlen rb] ++ rb ++ [0x02; zlen sb] ++ sb ++ t in
  zlen b = 6 + zlen rb + zlen sb + zlen t
  /\ Buf.slice 2 (zlen b) b = [0x02; zlen rb] ++ rb ++ [0x02; zlen sb] ++ sb ++ t
  /\ Buf.slice 4 (zlen b) b = rb ++ [0x02; zlen sb] ++ sb ++ t
  /\ Buf.slice 4 (4 + zlen rb) b = rb
  /\ byte_is b (4 + zlen rb) 0x02 = true /\ byte_at b (4 + zlen rb) = 0x02
  /\ b !! Z.to_nat (5 + zlen rb) = Some (zlen sb) /\ byte_at b (5 + zlen rb) = zlen sb
  /\ Buf.slice (6 + zlen rb) (6 + zlen rb + zlen sb) b = sb
  /\ Buf.slice (6 + zlen rb) (zlen b) b = sb ++ t.
Proof.
  intros Ht b. rewrite !zlen_app in Ht. pose proof (zlen_nonneg rb). pose proof (zlen_nonneg sb). pose proof (zlen_nonneg t).
  assert (zlen b = 6 + zlen rb + zlen sb + zlen t) as Hb.
  { unfold b. rewrite !zlen_app. change (zlen [48; l; 2; zlen rb]) with 4. change (zlen [2; zlen sb]) with 2. lia. }
  assert (b = ([0x30; l; 0x02; zlen rb] ++ rb ++ [0x02]) ++ zlen sb :: sb ++ t) as E1 by (unfold b; by rewrite <-!app_assoc).
  assert (b = ([0x30; l; 0x02; zlen rb] ++ rb ++ [0x02; zlen sb]) ++ sb ++ t) as E2 by (unfold b; by rewrite <-!app_assoc).
  assert (zlen ([0x30; l; 0x02; zlen rb] ++ rb) = 4 + zlen rb) as L0 by (by rewrite zlen_app).
  assert (zlen ([0x30; l; 0x02; zlen rb] ++ rb ++ [0x02]) = 5 + zlen rb) as L1.
  { rewrite !zlen_app. change (zlen [48; l; 2; zlen rb]) with 4. change (zlen [2]) with 1. lia. }
  assert (zlen ([0x30; l; 0x02; zlen rb] ++ rb ++ [0x02; zlen sb]) = 6 + zlen rb) as L2.
  { rewrite !zlen_app. change (zlen [48; l; 2; zlen rb]) with 4. change (zlen [2; zlen sb]) with 2. lia. }
  split; [done|]. split; [apply (slice_tail [0x30; l]); [done|change (zlen b < 2 ^ 31); lia]|].
  split; [apply (slice_tail [0x30; l; 0x02; zlen rb]); [done|change (zlen b < 2 ^ 31); lia]|].
  split; [apply (slice_mid [0x30; l; 0x02; zlen rb]); [done|lia|change (zlen b < 2 ^ 31); lia]|].
  split; [apply (byte_is_mid ([0x30; l; 0x02; zlen rb] ++ rb)); done|].
  split; [apply (byte_at_mid ([0x30; l; 0x02; zlen rb] ++ rb)); done|].
  split; [rewrite E1; by apply lookup_mid|]. split; [rewrite E1; by apply byte_at_mid|].
  split; [rewrite E2; apply slice_mid; [done|lia|rewrite <-E2; lia]|].
  rewrite E2. apply slice_tail; [done|rewrite <-E2; lia].
Qed.

Lemma not_padded h l t : bytes_ok l -> (h = 0 -> exists x l', l = x :: l' /\ 0x80 <= x) ->
  (1 <? zlen (h :: l)) && (h =? 0) && (Z.land (byte_at ((h :: l) ++ t) 1) 0x80 =? 0) = false.
Proof.
  intros Hok Hp. destruct (Z.eqb_spec h 0) as [Hh|]; [|by rewrite andb_false_r].
  destruct (Hp Hh) as (x & l' & -> & Hx). change (byte_at ((h :: x :: l') ++ t) 1) with x.
  apply Forall_cons in Hok as [Hok _]. rewrite top_bit by done. rewrite (proj2 (Z.ltb_ge x 128)) by lia. by rewrite andb_false_r.
Qed.

Lemma der_bytes_ok rb sb : bytes_ok rb -> bytes_ok sb -> zlen rb + zlen sb < 252 -> bytes_ok (der_bytes rb sb).
Proof.
  intros Hr Hs Hl. pose proof (zlen_nonneg rb). pose proof (zlen_nonneg sb). unfold der_bytes.
  rewrite !Forall_app. split; [|split; [done|split; [|done]]]; repeat (apply Forall_cons_2; [unfold byte_ok; lia|]); apply Forall_nil_2.
Qed.

(** The codec of two positive integers below 2^256. *)
Lemma der_codec r s : 0 < r < 2 ^ 256 -> 0 < s < 2 ^ 256 -> exists b, toDER (new r s) = Ok b
  /\ (forall strict, fromDER b strict = Ok (new r s)) /\ 8 <= zlen b <= 72 /\ bytes_ok b /\ (forall ty, isTxDER (b ++ [ty]) = true).
Proof.
  intros Hr Hs. destruct (toDER_eq r s Hr Hs) as (hr & lr & hs & ls & Hb & (Hhr & Hokr & Hlr & Hvr & Hpr) & (Hhs & Hoks & Hls & Hvs & Hps)).
  exists (der_bytes (hr :: lr) (hs :: ls)). split; [done|].
  set (L := 4 + zlen (hr :: lr) + zlen (hs :: ls)) in *.
  assert (zlen ((hr :: lr) ++ (hs :: ls) ++ []) < 2 ^ 30) as H0 by (rewrite !zlen_app; change (zlen (@nil Z)) with 0; lia).
  destruct (der_pieces L _ _ _ H0) as (Hlen & Hs2 & _ & Hsr & His & _ & Hsl & _ & Hss & _). rewrite app_nil_r in *.
  change ([48; L; 2; zlen (hr :: lr)] ++ (hr :: lr) ++ [2; zlen (hs :: ls)] ++ hs :: ls) with (der_bytes (hr :: lr) (hs :: ls)) in *.
  change (zlen (@nil Z)) with 0 in Hlen. split; [intros strict|split; [lia|split; [|intros ty]]].
  - unfold fromDER, parseDER. rewrite Hs2. change (byte_is (der_bytes (hr :: lr) (hs :: ls)) 0 48) with true.
    assert (zlen ([2; zlen (hr :: lr)] ++ (hr :: lr) ++ [2; zlen (hs :: ls)] ++ hs :: ls) = L) as ->.
    { rewrite !zlen_app. change (zlen [2; zlen (hr :: lr)]) with 2. change (zlen [2; zlen (hs :: ls)]) with 2. unfold L. lia. }
    assert (byte_is (der_bytes (hr :: lr) (hs :: ls)) 1 L = true) as -> by (unfold byte_is; by rewrite bool_decide_true).
    change (der_bytes (hr :: lr) (hs :: ls) !! 1%nat) with (Some L). change (byte_is (der_bytes (hr :: lr) (hs :: ls)) 2 2) with true.
    change (der_bytes (hr :: lr) (hs :: ls) !! 3%nat) with (Some (zlen (hr :: lr))).
    rewrite orb_true_r. cbn [guard_or mbind result_bind]. rewrite Hsr, His, Hsl, Hss, !Z.eqb_refl. cbn [guard_or mbind result_bind].
    rewrite Z.ltb_irrefl. assert ((L =? 6 + zlen (hr :: lr) + zlen (hs :: ls) - 2) = true) as -> by (apply Z.eqb_eq; lia).
    cbn [guard_or mbind result_bind r_ s_]. by rewrite Hvr, Hvs.
  - apply der_bytes_ok; done || lia.
  - assert (zlen ((hr :: lr) ++ (hs :: ls) ++ [ty]) < 2 ^ 30) as H1 by (rewrite !zlen_app; change (zlen [ty]) with 1; lia).
    destruct (der_pieces L _ _ _ H1) as (Hlen1 & _ & HsR & _ & _ & Hb4 & _ & Hb5 & _ & HsS).
    assert (der_bytes (hr :: lr) (hs :: ls) ++ [ty] = [48; L; 2; zlen (hr :: lr)] ++ (hr :: lr) ++ [2; zlen (hs :: ls)] ++ (hs :: ls) ++ [ty]) as ->
      by (unfold der_bytes; by rewrite <-!app_assoc).
    set (b := [48; L; 2; zlen (hr :: lr)] ++ _) in *. unfold isTxDER. change (zlen [ty]) with 1 in Hlen1. rewrite Hlen1 in HsR, HsS |- *.
    change (byte_at b 0) with 48. change (byte_at b 1) with L. change (byte_at b 2) with 2. change (byte_at b 3) with (zlen (hr :: lr)).
    rewrite !Z.gtb_ltb, !Z.geb_leb, HsR, HsS, Hb4, Hb5.
    change (byte_at ((hr :: lr) ++ _) 0) with hr. change (byte_at ((hs :: ls) ++ _) 0) with hs.
    rewrite (proj2 (Z.ltb_ge _ 9)), (proj2 (Z.ltb_ge 73 _)), (proj2 (Z.leb_gt _ (5 + zlen (hr :: lr)))) by lia.
    assert ((L =? 6 + zlen (hr :: lr) + zlen (hs :: ls) + 1 - 3) = true) as -> by (apply Z.eqb_eq; lia).
    assert ((zlen (hr :: lr) + zlen (hs :: ls) + 7 =? 6 + zlen (hr :: lr) + zlen (hs :: ls) + 1) = true) as -> by (apply Z.eqb_eq; lia).
    rewrite (proj2 (Z.eqb_neq (zlen (hr :: lr)) 0)), (proj2 (Z.eqb_neq (zlen (hs :: ls)) 0)) by lia.
    apply Forall_cons in Hokr as [Hokr Hokr']. apply Forall_cons in Hoks as [Hoks Hoks'].
    rewrite (top_bit hr), (top_bit hs) by done. rewrite (proj2 (Z.ltb_lt hr 128)), (proj2 (Z.ltb_lt hs 128)) by lia. cbn [negb].
    rewrite (not_padded hr lr _ Hokr' Hpr), (not_padded hs ls _ Hoks' Hps). done.
Qed.

(** Read back from a transaction, with its hash type *)
Lemma fromTxFormat_der r s ty b : 0 < r < 2 ^ 256 -> 0 < s < 2 ^ 256 -> toDER (new r s) = Ok b -> byte_ok ty ->
  fromTxFormat (b ++ [ty]) = Ok (mk r s None None (Some ty)).
Proof.
  intros Hr Hs Hb Hty. destruct (der_codec r s Hr Hs) as (b' & Hb' & Hf & Hlen & _). rewrite Hb in Hb'. injection Hb' as <-.
  unfold fromTxFormat. rewrite zlen_app. change (zlen [ty]) with 1. replace (zlen b + 1 - 1) with (zlen b) by lia.
  assert (Buf.readUInt8 (b ++ [ty]) (zlen b) = Ok ty) as ->.
  { unfold Buf.readUInt8, Buf.checkOffset. rewrite zlen_app. change (zlen [ty]) with 1.
    rewrite (proj2 (Z.ltb_ge _ 0)), Z.gtb_ltb, Z.ltb_irrefl by lia. cbn [negb guard_or mbind result_bind]. f_equal. by apply byte_at_mid. }
  assert (Buf.slice 0 (zlen b) (b ++ [ty]) = b) as ->.
  { pose proof (slice_mid [] b [ty] 0 (zlen b)) as Hsl. apply Hsl; [done|lia|]. rewrite !zlen_app. change (zlen [ty]) with 1. change (zlen (@nil Z)) with 0. lia. }
  cbn [mbind result_bind]. by rewrite Hf.
Qed.

(** every signature with 0 < r, s < 2^256 survives the DER encoding, parsed strictly or
    leniently; the encoding has 8 to 72 bytes, and with a hash type appended it is canonical for
    the interpreter. *)
Theorem der_roundtrip r s ty strict : 0 < r < 2 ^ 256 -> 0 < s < 2 ^ 256 ->
  exists b, toDER (new r s) = Ok b /\ fromDER b strict = Ok (new r s) /\ 8 <= zlen b <= 72 /\ isTxDER (b ++ [ty]) = true.
Proof.
  intros Hr Hs. destruct (der_codec r s Hr Hs) as (b & ? & ? & ? & _ & ?). by exists b.
Qed.

(** a compact signature gives back [r], [s] and the recovery index, and is marked as
    compressed. *)
Theorem compact_roundtrip r s i : 0 <= r < 2 ^ 256 -> 0 <= s < 2 ^ 256 -> 0 <= i <= 3 ->
  exists b, toCompact (Some i) None (new r s) = Ok b /\ zlen b = 65 /\ fromCompact b = Ok (mk r s (Some i) (Some true) None).
Proof.
  intros Hr Hs Hi. destruct (toBuffer_size 32 r) as (br & Hbr & Hlr & Hvr & _); [lia|done|].
  destruct (toBuffer_size 32 s) as (bs & Hbs & Hls & Hvs & _); [lia|done|]. change (Z.of_nat 32) with 32 in *.
  assert ((i =? 0) || (i =? 1) || (i =? 2) || (i =? 3) = true) as Hi3.
  { destruct (decide (i = 0)) as [->|]; [done|]. destruct (decide (i = 1)) as [->|]; [done|].
    destruct (decide (i = 2)) as [->|]; [done|]. by assert (i = 3) as -> by lia. }
  exists ((i + 31) :: br ++ bs). unfold toCompact. rewrite Hi3. cbn [compressed Signature.r Signature.s new]. rewrite Hbr, Hbs.
  cbn [mbind result_bind]. rewrite bool_decide_false by done. rewrite Z.mod_small by lia.
  replace (i + 27 + 4) with (i + 31) by lia. split; [done|]. split; [rewrite zlen_cons, zlen_app; lia|]. unfold fromCompact.
  assert (zlen ([i + 31] ++ br ++ bs) < 2 ^ 31) as Hlen by (rewrite !zlen_app; change (zlen [i + 31]) with 1; lia).
  assert (Buf.slice 0 1 (i + 31 :: br ++ bs) = [i + 31]) as -> by (by apply (slice_mid [] [i + 31] (br ++ bs))).
  assert (Buf.slice 1 33 (i + 31 :: br ++ bs) = br) as -> by (apply (slice_mid [i + 31] br bs); [done|lia|done]).
  assert (Buf.slice 33 65 (i + 31 :: br ++ bs) = bs) as ->.
  { pose proof (slice_mid ([i + 31] ++ br) bs [] 33 65) as H. rewrite app_nil_r, <-app_assoc in H. apply H; [|lia|].
    - rewrite zlen_app. change (zlen [i + 31]) with 1. lia.
    - rewrite !zlen_app. change (zlen [i + 31]) with 1. lia. }
  cbn [lookup list_lookup]. replace (i + 31 - 27 - 4) with i by lia. rewrite Hi3, Hlr, Hls. cbn [guard_or mbind result_bind Z.eqb].
  by rewrite Hvr, Hvs.
Qed.

(** the sign flag [parseDER] reports for [s] is read from the third byte of [s]: a padded [s]
    is reported as not padded, and an [s] whose third byte is zero as padded. *)
Theorem sneg_wrong_byte :
  (exists p, parseDER [0x30; 9; 2; 1; 1; 2; 4; 0; 0x80; 5; 5] true = Ok p /\ sbuf p = [0; 0x80; 5; 5] /\ sneg p = false)
  /\ (exists p, parseDER [0x30; 9; 2; 1; 1; 2; 4; 5; 5; 0; 5] true = Ok p /\ sbuf p = [5; 5; 0; 5] /\ sneg p = true).
Proof. split; eexists; (split; [vm_compute; reflexivity|done]). Qed.

(** the limit of [hasLowS], half the order of the curve in hexadecimal, is read in base 10 with
    its letters as zeros: of the signatures with an [s] up to half the order only those below
    2^213 have a low [s]. *)
Theorem low_s_limit_misread s : 2 ^ 213 <= s <= 0x7FFFFFFFFFFFFFFFFFFFFFFFFFFFFFFF5D576E7357A4501DDFE92F46681B20A0 ->
  forall r, hasLowS (new r s) = false.
Proof.
  intros [Hs _] r. unfold hasLowS. change (Signature.s (new r s)) with s.
  assert (low_s_limit < 2 ^ 213) by (vm_compute; done).
  destruct (Z.gtb_spec s low_s_limit); [by rewrite orb_true_r|lia].
Qed.
End SignatureTheorems.

(** ** Witnesses *)
Lemma der_roundtrip_witness : exists b,
  Signature.toDER (Signature.new 0x80 7) = Ok b /\ Signature.fromDER b true = Ok (Signature.new 0x80 7).
Proof.
  destruct (der_roundtrip 0x80 7 1 true) as (b & Hb & Hp & _); [lia|lia|]. exists b. split; [exact Hb|exact Hp].
Defined.

Lemma compact_roundtrip_witness : exists b, Signature.toCompact (Some 2) None (Signature.new 1 (2 ^ 255)) = Ok b
  /\ Signature.fromCompact b = Ok (Signature.mk 1 (2 ^ 255) (Some 2) (Some true) None).
Proof.
  destruct (compact_roundtrip 1 (2 ^ 255) 2) as (b & Hb & _ & Hp); [lia|lia|lia|]. exists b. split; [exact Hb|exact Hp].
Defined.

Lemma low_s_limit_misread_witness : Signature.hasLowS (Signature.new 1 (2 ^ 250)) = false.
Proof. apply low_s_limit_misread. split; by vm_compute. Defined.
