(* ===== verification/ScriptNum.v ===== *)
(** * The numbers of the script language

    What [BN.toScriptNumBuffer] and [BN.fromScriptNumBuffer] of
    [src/Sources/WebClient/js/bitcore.js] promise: a sign bit and a minimal magnitude, at most four
    bytes when read. *)
From S2P Require Import Prelude JsNumber Encoding Signature.
Local Open Scope Z_scope.
Local Open Scope js_scope.

Module ScriptNumLemmas.
Import DerLemmas.

(** The minimal big-endian bytes of a positive number: the first is not zero. *)
Lemma le_bytes_spec n : 0 < n -> exists d b, rev (BN.le_bytes n) = d :: b /\ byte_ok d /\ bytes_ok b /\ d <> 0
  /\ BN.fromBuffer (d :: b) = n.
Proof.
  intros Hn. unfold BN.le_bytes. set (f := S (Z.to_nat (Z.log2 n / 8))).
  pose proof (hexBytes_fuel n ltac:(lia)) as Hf. fold f in Hf.
  destruct (le_digits_last f n Hn Hf) as (l & d & Hl & Hd).
  pose proof (le_digits_ok f n ltac:(lia)) as Hok. rewrite Hl in Hok. apply Forall_app in Hok as [Hok Hdo].
  apply Forall_cons in Hdo as [Hdo _]. exists d, (rev l). rewrite Hl, rev_app_distr. cbn [rev app].
  split; [done|]. split; [done|]. split; [by apply Forall_rev|]. split; [done|].
  rewrite fromBuffer_le_value. cbn [rev]. rewrite rev_involutive, <-Hl. apply le_digits_value; [lia|done].
Qed.

Lemma fromBuffer_cons d b : BN.fromBuffer (d :: b) = d * 256 ^ zlen b + BN.fromBuffer b.
Proof.
  unfold BN.fromBuffer. cbn [fold_left]. rewrite !fromBuffer_acc. lia.
Qed.

Lemma fromBuffer_bound b : bytes_ok b -> 0 <= BN.fromBuffer b < 256 ^ zlen b.
Proof.
  induction b as [|d b IH]; intros Hb; [by vm_compute|].
  apply Forall_cons in Hb as [Hd Hb]. specialize (IH Hb). rewrite fromBuffer_cons, zlen_cons.
  pose proof (zlen_nonneg b). rewrite Z.pow_add_r, Z.pow_1_r by lia. unfold byte_ok in Hd. nia.
Qed.

(** Numbers are determined by their minimal bytes. *)
Lemma fromBuffer_inj d b d' b' : byte_ok d -> byte_ok d' -> bytes_ok b -> bytes_ok b' -> d <> 0 -> d' <> 0 ->
  BN.fromBuffer (d :: b) = BN.fromBuffer (d' :: b') -> d :: b = d' :: b'.
Proof.
  intros Hd Hd' Hb Hb' Hn Hn' He.
  assert (forall l l', bytes_ok l -> bytes_ok l' -> zlen l = zlen l' -> BN.fromBuffer l = BN.fromBuffer l' -> l = l') as Hinj.
  { induction l as [|x l IH]; intros [|y l'] Hl Hl' Hlen Hv; rewrite ?zlen_cons in Hlen; [done|..].
    1: pose proof (zlen_nonneg l'); change (zlen (@nil Z)) with 0 in *; lia.
    1: pose proof (zlen_nonneg l); change (zlen (@nil Z)) with 0 in *; lia.
    apply Forall_cons in Hl as [Hx Hl]. apply Forall_cons in Hl' as [Hy Hl']. rewrite !fromBuffer_cons in Hv.
    pose proof (fromBuffer_bound l Hl). pose proof (fromBuffer_bound l' Hl'). assert (zlen l' = zlen l) as Hll by lia. rewrite Hll in *.
    unfold byte_ok in *. assert (x = y) as -> by nia. f_equal. apply IH; [done..|lia]. }
  apply Hinj; [by apply Forall_cons..| |done].
  rewrite !fromBuffer_cons in He. rewrite !zlen_cons. f_equal.
  pose proof (fromBuffer_bound b Hb). pose proof (fromBuffer_bound b' Hb'). pose proof (zlen_nonneg b). pose proof (zlen_nonneg b').
  unfold byte_ok in *. destruct (Z.lt_trichotomy (zlen b) (zlen b')) as [Hlt|[Heq|Hgt]]; [|done|]; exfalso.
  - assert (256 ^ (zlen b + 1) <= 256 ^ zlen b') as Hp by (apply Z.pow_le_mono_r; lia).
    rewrite Z.pow_add_r, Z.pow_1_r in Hp by lia. nia.
  - assert (256 ^ (zlen b' + 1) <= 256 ^ zlen b) as Hp by (apply Z.pow_le_mono_r; lia).
    rewrite Z.pow_add_r, Z.pow_1_r in Hp by lia. nia.
Qed.

(** The sign bit *)
Lemma sign_bit b : 0 <= b < 0x80 -> Z.lor b 0x80 = b + 0x80 /\ Z.land (b + 0x80) 0x7f = b /\ Z.land b 0x7f = b.
Proof.
  intros Hb. assert (Forall (fun b => Z.lor b 0x80 = b + 0x80 /\ Z.land (b + 0x80) 0x7f = b /\ Z.land b 0x7f = b) (seqZ 0 128)) as H.
  { apply (bool_decide_unpack _). by vm_compute. }
  rewrite Forall_forall in H. apply H. rewrite elem_of_seqZ. lia.
Qed.

(** [toSM] of a number that is not zero: a first byte with the sign, and the magnitude. *)
Definition signed (neg : bool) (d : Z) (b : list Z) : list Z :=
  if d <? 0x80 then (if neg then d + 0x80 else d) :: b else (if neg then 0x80 else 0) :: d :: b.

Lemma toSM_spec n : n <> 0 -> exists d b, BN.toSM n = rev (signed (n <? 0) d b) /\ byte_ok d /\ bytes_ok b /\ d <> 0
  /\ BN.fromBuffer (d :: b) = Z.abs n.
Proof.
  intros Hn. destruct (le_bytes_spec (Z.abs n)) as (d & b & Hdb & Hd & Hb & Hd0 & Hv); [lia|].
  exists d, b. split; [|done]. unfold BN.toSM. f_equal. unfold BN.toSMBigEndian.
  replace (if n <? 0 then - n else n) with (Z.abs n) by (destruct (Z.ltb_spec n 0); lia).
  assert (forall c l, c <> 0 -> (if (zlen (c :: l) =? 1) && (byte_at (c :: l) 0 =? 0) then [] else c :: l) = c :: l) as Hkeep.
  { intros c l Hc. change (byte_at (c :: l) 0) with c. by rewrite (proj2 (Z.eqb_neq c 0) Hc), andb_false_r. }
  assert (forall c x l, (if (zlen (c :: x :: l) =? 1) && (byte_at (c :: x :: l) 0 =? 0) then [] else c :: x :: l) = c :: x :: l) as Hlong.
  { intros c x l. rewrite !zlen_cons. pose proof (zlen_nonneg l). by rewrite (proj2 (Z.eqb_neq (1 + (1 + zlen l)) 1)) by lia. }
  unfold signed. destruct (Z.ltb_spec n 0).
  - replace (- n) with (Z.abs n) by lia. rewrite Hdb, top_bit by done. unfold byte_ok in Hd.
    destruct (Z.ltb_spec d 0x80); cbn [negb]; [|apply Hlong].
    destruct (sign_bit d ltac:(lia)) as [-> _]. apply Hkeep. lia.
  - replace n with (Z.abs n) by lia. rewrite Hdb, top_bit by done.
    destruct (Z.ltb_spec d 0x80); cbn [negb]; [apply Hkeep; done|apply Hlong].
Qed.

(** Reading the signed bytes back *)
Lemma fromSM_signed neg d b : byte_ok d ->
  BN.fromSM (rev (signed neg d b)) = if neg then - BN.fromBuffer (d :: b) else BN.fromBuffer (d :: b).
Proof.
  intros Hd. unfold BN.fromSM. rewrite rev_involutive. unfold signed. unfold byte_ok in Hd. destruct (Z.ltb_spec d 0x80).
  - destruct neg.
    + rewrite top_bit by (unfold byte_ok; lia). rewrite (proj2 (Z.ltb_ge _ _)) by lia. cbn [negb].
      by destruct (sign_bit d ltac:(lia)) as [_ [-> _]].
    + rewrite top_bit by (unfold byte_ok; lia). by rewrite (proj2 (Z.ltb_lt _ _)).
  - destruct neg; reflexivity.
Qed.

Lemma signed_length neg d b : byte_ok d -> d <> 0 -> bytes_ok b ->
  (zlen (signed neg d b) <= 4 <-> BN.fromBuffer (d :: b) < 2 ^ 31).
Proof.
  intros Hd Hd0 Hb. rewrite fromBuffer_cons. pose proof (fromBuffer_bound b Hb) as Hv. pose proof (zlen_nonneg b) as Hn.
  unfold byte_ok in Hd. unfold signed. destruct (Z.ltb_spec d 0x80); rewrite !zlen_cons.
  - destruct (Z.le_gt_cases (zlen b) 3) as [Hle|Hgt].
    + assert (256 ^ zlen b <= 256 ^ 3) by (apply Z.pow_le_mono_r; lia). split; [nia|lia].
    + assert (256 ^ 4 <= 256 ^ zlen b) by (apply Z.pow_le_mono_r; lia). split; [lia|nia].
  - destruct (Z.le_gt_cases (zlen b) 2) as [Hle|Hgt].
    + assert (256 ^ zlen b <= 256 ^ 2) by (apply Z.pow_le_mono_r; lia). split; [nia|lia].
    + assert (256 ^ 3 <= 256 ^ zlen b) by (apply Z.pow_le_mono_r; lia). split; [lia|nia].
Qed.

(** The two bytes [fromScriptNumBuffer] looks at, in big-endian order *)
Lemma byte_at_rev_last d b : byte_at (rev (d :: b)) (zlen (rev (d :: b)) - 1) = d.
Proof. cbn [rev]. rewrite zlen_app. apply byte_at_mid. change (zlen [d]) with 1. lia. Qed.

Lemma byte_at_rev_second d x b : byte_at (rev (d :: x :: b)) (zlen (rev (d :: x :: b)) - 2) = x.
Proof. cbn [rev]. rewrite <-app_assoc, zlen_app. apply byte_at_mid. change (zlen ([x] ++ [d])) with 2. lia. Qed.

Lemma zlen_rev {A} (l : list A) : zlen (rev l) = zlen l.
Proof. unfold zlen. by rewrite length_rev. Qed.

(** The minimality test never fires on them. *)
Lemma signed_minimal minimal neg d b : byte_ok d -> d <> 0 -> let l := signed neg d b in
  minimal && (0 <? zlen l) && (Z.land (byte_at (rev l) (zlen l - 1)) 0x7f =? 0)
  && ((zlen l <=? 1) || (Z.land (byte_at (rev l) (zlen l - 2)) 0x80 =? 0)) = false.
Proof.
  intros Hd Hd0 l. unfold l, signed. pose proof Hd as Hd'. unfold byte_ok in Hd'. pose proof (zlen_nonneg b).
  destruct (Z.ltb_spec d 0x80) as [Hs|Hs].
  - rewrite <-(zlen_rev (_ :: b)), byte_at_rev_last. destruct (sign_bit d ltac:(lia)) as (_ & H1 & H2).
    destruct neg; rewrite ?H1, ?H2, (proj2 (Z.eqb_neq d 0) Hd0), !andb_false_r; done.
  - rewrite <-(zlen_rev (_ :: d :: b)), byte_at_rev_second, top_bit, (proj2 (Z.ltb_ge d 0x80) Hs), zlen_rev, !zlen_cons by done.
    rewrite (proj2 (Z.leb_gt (1 + (1 + zlen b)) 1)) by lia. by rewrite !andb_false_r.
Qed.

(** Bytes that pass the test are a sign and minimal magnitude. *)
Lemma minimal_signed x l : byte_ok x -> bytes_ok l ->
  (Z.land x 0x7f =? 0) && match l with [] => true | y :: _ => Z.land y 0x80 =? 0 end = false ->
  exists neg d b, x :: l = signed neg d b /\ byte_ok d /\ d <> 0 /\ bytes_ok b.
Proof.
  intros Hx Hl Ht. unfold signed. unfold byte_ok in Hx.
  assert (exists neg c, 0 <= c < 0x80 /\ x = (if neg : bool then c + 0x80 else c) /\ Z.land x 0x7f = c) as (neg & c & Hc & -> & Hland).
  { destruct (Z.ltb_spec x 0x80).
    - exists false, x. split; [lia|]. split; [done|]. apply sign_bit; lia.
    - exists true, (x - 0x80). destruct (sign_bit (x - 0x80) ltac:(lia)) as (_ & Hs & _). split; [lia|]. split; [lia|].
      by replace x with (x - 0x80 + 0x80) at 1 by lia. }
  rewrite Hland in Ht. destruct (Z.eqb_spec c 0) as [->|Hc0]; cbn [andb] in Ht.
  - destruct l as [|y l]; [done|]. apply Forall_cons in Hl as [Hy Hl]. rewrite top_bit in Ht by done.
    exists neg, y, l. rewrite Ht. apply Z.ltb_ge in Ht. split; [by destruct neg|]. split; [done|]. split; [lia|done].
  - exists neg, c, l. rewrite (proj2 (Z.ltb_lt c 0x80)) by lia. split; [done|]. split; [unfold byte_ok; lia|]. split; [done|done].
Qed.
End ScriptNumLemmas.

(** ** Theorems *)
Section ScriptNumTheorems.
Import ScriptNumLemmas DerLemmas.

(** a script number reads back as itself, minimality required or not, up to 31 bits; a longer
    one (the result of an addition may be) is refused, never truncated. *)
Theorem scriptnum_roundtrip n minimal :
  BN.fromScriptNumBuffer (BN.toScriptNumBuffer n) minimal = if Z.abs n <? 2 ^ 31 then Ok n else Throw InvalidArgument.
Proof.
  destruct (Z.eq_dec n 0) as [->|Hn]; [by destruct minimal|].
  destruct (toSM_spec n Hn) as (d & b & Hsm & Hd & Hb & Hd0 & Hv).
  unfold BN.fromScriptNumBuffer, BN.toScriptNumBuffer. rewrite Hsm, zlen_rev.
  pose proof (signed_length (n <? 0) d b Hd Hd0 Hb) as Hlen. rewrite Hv in Hlen.
  destruct (Z.ltb_spec (Z.abs n) (2 ^ 31)).
  - rewrite (proj2 (Z.leb_le (zlen (signed _ _ _)) 4)) by lia. cbn [guard_or mbind result_bind].
    rewrite (fromSM_signed _ _ _ Hd), Hv, (signed_minimal _ _ _ _ Hd Hd0). cbn [negb guard_or mbind result_bind]. f_equal.
    destruct (Z.ltb_spec n 0); lia.
  - by rewrite (proj2 (Z.leb_gt (zlen (signed _ _ _)) 4)) by lia.
Qed.

(** the minimal encoding of a number is unique: bytes that are read under the minimality flag
    are the ones the number is written as. *)
Theorem scriptnum_canonical b n : bytes_ok b -> BN.fromScriptNumBuffer b true = Ok n -> BN.toScriptNumBuffer n = b.
Proof.
  intros Hb Hn. unfold BN.fromScriptNumBuffer in Hn.
  destruct (zlen b <=? 4); [|discriminate]. cbn [guard_or mbind result_bind] in Hn.
  destruct (negb _) eqn:Hmin; [|discriminate]. cbn [guard_or mbind result_bind] in Hn. injection Hn as <-.
  apply negb_true_iff in Hmin. rewrite <-(rev_involutive b) in *. apply Forall_rev in Hb. rewrite rev_involutive in Hb.
  destruct (rev b) as [|x l]; [done|]. apply Forall_cons in Hb as [Hx Hl].
  assert (exists neg d b', x :: l = signed neg d b' /\ byte_ok d /\ d <> 0 /\ bytes_ok b') as (neg & d & b' & -> & Hd & Hd0 & Hb').
  { apply minimal_signed; [done..|]. rewrite byte_at_rev_last in Hmin. destruct l as [|y l]; [exact Hmin|].
    rewrite byte_at_rev_second, zlen_rev, !zlen_cons in Hmin. pose proof (zlen_nonneg l).
    by rewrite (proj2 (Z.leb_gt _ _)), (proj2 (Z.ltb_lt 0 _)) in Hmin by lia. }
  rewrite fromSM_signed by done. set (v := BN.fromBuffer (d :: b')).
  assert (0 < v) as Hv.
  { unfold v. rewrite fromBuffer_cons. pose proof (fromBuffer_bound b' Hb'). unfold byte_ok in Hd. pose proof (zlen_nonneg b').
    assert (0 < 256 ^ zlen b') by lia. nia. }
  destruct (toSM_spec (if neg then - v else v)) as (d' & b2 & Hsm & Hd' & Hb2 & Hd0' & Hv'); [destruct neg; lia|].
  unfold BN.toScriptNumBuffer. rewrite Hsm. replace (_ <? 0) with neg by (destruct neg; [symmetry; apply Z.ltb_lt|symmetry; apply Z.ltb_ge]; lia).
  assert (d' :: b2 = d :: b') as [= -> ->]; [|done].
  apply fromBuffer_inj; [done..|]. rewrite Hv'. fold v. destruct neg; lia.
Qed.
End ScriptNumTheorems.

(** ** Witnesses *)
Lemma scriptnum_canonical_witness : BN.fromScriptNumBuffer [0xff; 0x80] true = Ok (-255) /\ BN.toScriptNumBuffer (-255) = [0xff; 0x80].
Proof.
  split; [reflexivity|]. apply scriptnum_canonical; [|reflexivity]. apply (bool_decide_unpack _). by vm_compute.
Defined.
