(* ===== verification/Script.v ===== *)
(** * bitcore's Opcode and Script

    Models module 23 ([Opcode]) and module 28 ([Script]) of
    [src/Sources/WebClient/js/bitcore.js]: the opcode table, the chunk
    representation of scripts, [fromBuffer] / [toBuffer], the classification
    predicates, the builders of the standard scripts, [findAndDelete] and
    [checkMinimalPush].  The public-key validity test and the hash functions are
    the cryptographic interface [Crypto] below. *)
From S2P Require Import Prelude JsNumber Encoding.
Local Open Scope Z_scope.
Local Open Scope js_scope.

(** ** Opcode *)
Module Opcode.

Definition OP_FALSE := 0.
Definition OP_0 := 0.
Definition OP_PUSHDATA1 := 76.
Definition OP_PUSHDATA2 := 77.
Definition OP_PUSHDATA4 := 78.
Definition OP_1NEGATE := 79.
Definition OP_RESERVED := 80.
Definition OP_TRUE := 81.
Definition OP_1 := 81.
Definition OP_2 := 82.
Definition OP_3 := 83.
Definition OP_4 := 84.
Definition OP_5 := 85.
Definition OP_6 := 86.
Definition OP_7 := 87.
Definition OP_8 := 88.
Definition OP_9 := 89.
Definition OP_10 := 90.
Definition OP_11 := 91.
Definition OP_12 := 92.
Definition OP_13 := 93.
Definition OP_14 := 94.
Definition OP_15 := 95.
Definition OP_16 := 96.
Definition OP_NOP := 97.
Definition OP_VER := 98.
Definition OP_IF := 99.
Definition OP_NOTIF := 100.
Definition OP_VERIF := 101.
Definition OP_VERNOTIF := 102.
Definition OP_ELSE := 103.
Definition OP_ENDIF := 104.
Definition OP_VERIFY := 105.
Definition OP_RETURN := 106.
Definition OP_TOALTSTACK := 107.
Definition OP_FROMALTSTACK := 108.
Definition OP_2DROP := 109.
Definition OP_2DUP := 110.
Definition OP_3DUP := 111.
Definition OP_2OVER := 112.
Definition OP_2ROT := 113.
Definition OP_2SWAP := 114.
Definition OP_IFDUP := 115.
Definition OP_DEPTH := 116.
Definition OP_DROP := 117.
Definition OP_DUP := 118.
Definition OP_NIP := 119.
Definition OP_OVER := 120.
Definition OP_PICK := 121.
Definition OP_ROLL := 122.
Definition OP_ROT := 123.
Definition OP_SWAP := 124.
Definition OP_TUCK := 125.
Definition OP_CAT := 126.
Definition OP_SUBSTR := 127.
Definition OP_LEFT := 128.
Definition OP_RIGHT := 129.
Definition OP_SIZE := 130.
Definition OP_INVERT := 131.
Definition OP_AND := 132.
Definition OP_OR := 133.
Definition OP_XOR := 134.
Definition OP_EQUAL := 135.
Definition OP_EQUALVERIFY := 136.
Definition OP_RESERVED1 := 137.
Definition OP_RESERVED2 := 138.
Definition OP_1ADD := 139.
Definition OP_1SUB := 140.
Definition OP_2MUL := 141.
Definition OP_2DIV := 142.
Definition OP_NEGATE := 143.
Definition OP_ABS := 144.
Definition OP_NOT := 145.
Definition OP_0NOTEQUAL := 146.
Definition OP_ADD := 147.
Definition OP_SUB := 148.
Definition OP_MUL := 149.
Definition OP_DIV := 150.
Definition OP_MOD := 151.
Definition OP_LSHIFT := 152.
Definition OP_RSHIFT := 153.
Definition OP_BOOLAND := 154.
Definition OP_BOOLOR := 155.
Definition OP_NUMEQUAL := 156.
Definition OP_NUMEQUALVERIFY := 157.
Definition OP_NUMNOTEQUAL := 158.
Definition OP_LESSTHAN := 159.
Definition OP_GREATERTHAN := 160.
Definition OP_LESSTHANOREQUAL := 161.
Definition OP_GREATERTHANOREQUAL := 162.
Definition OP_MIN := 163.
Definition OP_MAX := 164.
Definition OP_WITHIN := 165.
Definition OP_RIPEMD160 := 166.
Definition OP_SHA1 := 167.
Definition OP_SHA256 := 168.
Definition OP_HASH160 := 169.
Definition OP_HASH256 := 170.
Definition OP_CODESEPARATOR := 171.
Definition OP_CHECKSIG := 172.
Definition OP_CHECKSIGVERIFY := 173.
Definition OP_CHECKMULTISIG := 174.
Definition OP_CHECKMULTISIGVERIFY := 175.
Definition OP_NOP1 := 176.
Definition OP_NOP2 := 177.
Definition OP_NOP3 := 178.
Definition OP_NOP4 := 179.
Definition OP_NOP5 := 180.
Definition OP_NOP6 := 181.
Definition OP_NOP7 := 182.
Definition OP_NOP8 := 183.
Definition OP_NOP9 := 184.
Definition OP_NOP10 := 185.
Definition OP_PUBKEYHASH := 253.
Definition OP_PUBKEY := 254.
Definition OP_INVALIDOPCODE := 255.

(** [Opcode.map], in the order of the source (two names may share a number). *)
Definition table : list (string * Z) :=
  [("OP_FALSE", 0); ("OP_0", 0); ("OP_PUSHDATA1", 76); ("OP_PUSHDATA2", 77); ("OP_PUSHDATA4", 78);
   ("OP_1NEGATE", 79); ("OP_RESERVED", 80); ("OP_TRUE", 81); ("OP_1", 81); ("OP_2", 82); ("OP_3", 83);
   ("OP_4", 84); ("OP_5", 85); ("OP_6", 86); ("OP_7", 87); ("OP_8", 88); ("OP_9", 89); ("OP_10", 90);
   ("OP_11", 91); ("OP_12", 92); ("OP_13", 93); ("OP_14", 94); ("OP_15", 95); ("OP_16", 96);
   ("OP_NOP", 97); ("OP_VER", 98); ("OP_IF", 99); ("OP_NOTIF", 100); ("OP_VERIF", 101);
   ("OP_VERNOTIF", 102); ("OP_ELSE", 103); ("OP_ENDIF", 104); ("OP_VERIFY", 105); ("OP_RETURN", 106);
   ("OP_TOALTSTACK", 107); ("OP_FROMALTSTACK", 108); ("OP_2DROP", 109); ("OP_2DUP", 110);
   ("OP_3DUP", 111); ("OP_2OVER", 112); ("OP_2ROT", 113); ("OP_2SWAP", 114); ("OP_IFDUP", 115);
   ("OP_DEPTH", 116); ("OP_DROP", 117); ("OP_DUP", 118); ("OP_NIP", 119); ("OP_OVER", 120);
   ("OP_PICK", 121); ("OP_ROLL", 122); ("OP_ROT", 123); ("OP_SWAP", 124); ("OP_TUCK", 125);
   ("OP_CAT", 126); ("OP_SUBSTR", 127); ("OP_LEFT", 128); ("OP_RIGHT", 129); ("OP_SIZE", 130);
   ("OP_INVERT", 131); ("OP_AND", 132); ("OP_OR", 133); ("OP_XOR", 134); ("OP_EQUAL", 135);
   ("OP_EQUALVERIFY", 136); ("OP_RESERVED1", 137); ("OP_RESERVED2", 138); ("OP_1ADD", 139);
   ("OP_1SUB", 140); ("OP_2MUL", 141); ("OP_2DIV", 142); ("OP_NEGATE", 143); ("OP_ABS", 144);
   ("OP_NOT", 145); ("OP_0NOTEQUAL", 146); ("OP_ADD", 147); ("OP_SUB", 148); ("OP_MUL", 149);
   ("OP_DIV", 150); ("OP_MOD", 151); ("OP_LSHIFT", 152); ("OP_RSHIFT", 153); ("OP_BOOLAND", 154);
   ("OP_BOOLOR", 155); ("OP_NUMEQUAL", 156); ("OP_NUMEQUALVERIFY", 157); ("OP_NUMNOTEQUAL", 158);
   ("OP_LESSTHAN", 159); ("OP_GREATERTHAN", 160); ("OP_LESSTHANOREQUAL", 161);
   ("OP_GREATERTHANOREQUAL", 162); ("OP_MIN", 163); ("OP_MAX", 164); ("OP_WITHIN", 165);
   ("OP_RIPEMD160", 166); ("OP_SHA1", 167); ("OP_SHA256", 168); ("OP_HASH160", 169);
   ("OP_HASH256", 170); ("OP_CODESEPARATOR", 171); ("OP_CHECKSIG", 172); ("OP_CHECKSIGVERIFY", 173);
   ("OP_CHECKMULTISIG", 174); ("OP_CHECKMULTISIGVERIFY", 175); ("OP_NOP1", 176); ("OP_NOP2", 177);
   ("OP_NOP3", 178); ("OP_NOP4", 179); ("OP_NOP5", 180); ("OP_NOP6", 181); ("OP_NOP7", 182);
   ("OP_NOP8", 183); ("OP_NOP9", 184); ("OP_NOP10", 185); ("OP_PUBKEYHASH", 253); ("OP_PUBKEY", 254);
   ("OP_INVALIDOPCODE", 255)]%string.

(** [Opcode.map[name]] *)
Definition map (name : string) : option Z :=
  snd <$> find (fun p => bool_decide (fst p = name)) table.

(** [Opcode.reverseMap]: filled in table order, so the last name of a number wins. *)
Definition reverseMap (num : Z) : option string :=
  fold_left (fun acc p => if snd p =? num then Some (fst p) else acc) table None.

(** [Opcode.fromString] *)
Definition fromString (name : string) : result Z :=
  match map name with Some n => Ok n | None => Throw TypeError end.

(** [Opcode.prototype.toString] *)
Definition toString (num : Z) : result string :=
  match reverseMap num with
  | Some s => Ok s
  | None => Throw (ErrorMessage "Opcode does not have a string representation")
  end.

Definition smallInt (n : Z) : result Z :=
  guard_or InvalidArgument ((0 <=? n) && (n <=? 16));;
  Ok (if n =? 0 then OP_0 else OP_1 + n - 1).

Definition isSmallIntOp (opcode : Z) : bool :=
  (opcode =? OP_0) || ((opcode >=? OP_1) && (opcode <=? OP_16)).

End Opcode.

(** ** Networks and addresses *)

Inductive network := livenet | testnet.
#[export] Instance network_eq_dec : EqDecision network.
Proof. solve_decision. Defined.

(** [Networks.defaultNetwork] *)
Definition defaultNetwork : network := livenet.

Inductive address_type := PayToPublicKeyHash | PayToScriptHash.
#[export] Instance address_type_eq_dec : EqDecision address_type.
Proof. solve_decision. Defined.

Record Address := mkAddress { hashBuffer : list Z; addr_network : network; addr_type : address_type }.
#[export] Instance Address_eq_dec : EqDecision Address.
Proof. solve_decision. Defined.

(** The cryptographic primitives the scripts are built on: hash.js's RIPEMD160(SHA256(_)),
    SHA256(SHA256(_)), and the validity test of an encoded public key (elliptic). *)
Class Crypto := {
  sha256ripemd160 : list Z -> list Z;
  sha256sha256 : list Z -> list Z;
  PublicKey_isValid : list Z -> bool;
}.

(** What the digests promise: their length and that they are bytes. *)
Class CryptoLaws `{Crypto} := {
  hash160_length b : zlen (sha256ripemd160 b) = 20;
  hash160_ok b : bytes_ok (sha256ripemd160 b);
  hash256_length b : zlen (sha256sha256 b) = 32;
  hash256_ok b : bytes_ok (sha256sha256 b);
}.

(** ** Script *)
Module Script.

(** A chunk: its opcode, and for a push the data read and the length announced. *)
Record chunk := mkChunk { opcodenum : Z; push : option (list Z * Z) }.
#[export] Instance chunk_eq_dec : EqDecision chunk.
Proof. solve_decision. Defined.

(** [chunk.buf] *)
Definition buf (c : chunk) : option (list Z) := fst <$> push c.

Record t := mk { chunks : list chunk; _network : option network }.
#[global] Instance eta_t : Eta t := fun s => mk (chunks s) (_network s).
#[export] Instance t_eq_dec : EqDecision t.
Proof. solve_decision. Defined.

(** [new Script()] *)
Definition empty : t := mk [] None.

Abbreviation op n := (mkChunk n None) (only parsing).

(** *** Parsing *)

(** The chunk of a push whose length is known. *)
Definition readPush (opcodenum len : Z) : js BufferReader.t chunk :=
  b ← BufferReader.read len;
  mret (mkChunk opcodenum (Some (b, len))).

(** One turn of [fromBuffer]'s loop. *)
Definition readChunk : js BufferReader.t chunk :=
  opcodenum ← BufferReader.readUInt8;
  if (0 <? opcodenum) && (opcodenum <? Opcode.OP_PUSHDATA1) then readPush opcodenum opcodenum
  else if opcodenum =? Opcode.OP_PUSHDATA1 then
    len ← BufferReader.readUInt8; readPush opcodenum len
  else if opcodenum =? Opcode.OP_PUSHDATA2 then
    len ← BufferReader.readUInt16LE; readPush opcodenum len
  else if opcodenum =? Opcode.OP_PUSHDATA4 then
    len ← BufferReader.readUInt32LE; readPush opcodenum len
  else mret (mkChunk opcodenum None).

(** The [while (!br.finished())] loop; every turn consumes at least a byte. *)
Fixpoint readChunks (fuel : nat) (br : BufferReader.t) : result (list chunk) :=
  match fuel with
  | O => Ok []
  | S fuel =>
      if BufferReader.finished br then Ok []
      else match readChunk br with
           | (Ok c, br) => cs ← readChunks fuel br; Ok (c :: cs)
           | (Throw RangeError, _) => Throw (BitcoreError "Script.InvalidBuffer")
           | (Throw e, _) => Throw e
           end
  end.

Definition fromBuffer (b : list Z) : result t :=
  cs ← readChunks (length b) (BufferReader.new b); Ok (mk cs None).

(** *** Printing *)

Definition writeChunk (c : chunk) (bw : BufferWriter.t) : result BufferWriter.t :=
  bw ← BufferWriter.writeUInt8 (opcodenum c) bw;
  match push c with
  | None => Ok bw
  | Some (b, len) =>
      if opcodenum c <? Opcode.OP_PUSHDATA1 then Ok (BufferWriter.write b bw)
      else if opcodenum c =? Opcode.OP_PUSHDATA1 then
        bw ← BufferWriter.writeUInt8 len bw; Ok (BufferWriter.write b bw)
      else if opcodenum c =? Opcode.OP_PUSHDATA2 then
        bw ← BufferWriter.writeUInt16LE len bw; Ok (BufferWriter.write b bw)
      else if opcodenum c =? Opcode.OP_PUSHDATA4 then
        bw ← BufferWriter.writeUInt32LE len bw; Ok (BufferWriter.write b bw)
      else Ok bw
  end.

Fixpoint writeChunks (cs : list chunk) (bw : BufferWriter.t) : result BufferWriter.t :=
  match cs with
  | [] => Ok bw
  | c :: cs => bw ← writeChunk c bw; writeChunks cs bw
  end.

Definition toBuffer (s : t) : result (list Z) :=
  bw ← writeChunks (chunks s) BufferWriter.new; Ok (BufferWriter.concat bw).

(** *** Building *)

(** [_insertAtPosition] *)
Definition insertAtPosition (c : chunk) (prepend : bool) (s : t) : t :=
  s <| chunks := if prepend then c :: chunks s else chunks s ++ [c] |>.

(** [_addOpcode] on a number *)
Definition addOpcode (opcode : Z) (prepend : bool) (s : t) : t := insertAtPosition (op opcode) prepend s.

(** [_addBuffer] *)
Definition addBuffer (b : list Z) (prepend : bool) (s : t) : result t :=
  let len := zlen b in
  opcodenum ←
    (if (0 <=? len) && (len <? Opcode.OP_PUSHDATA1) then Ok len
     else if len <? 2 ^ 8 then Ok Opcode.OP_PUSHDATA1
     else if len <? 2 ^ 16 then Ok Opcode.OP_PUSHDATA2
     else if len <? 2 ^ 32 then Ok Opcode.OP_PUSHDATA4
     else Throw (ErrorMessage "You can't push that much data"));
  Ok (insertAtPosition (mkChunk opcodenum (Some (b, len))) prepend s).

(** What [add] and [prepend] accept: a number or Opcode, a buffer, a chunk object. *)
Inductive item := IOp (n : Z) | IBuf (b : list Z) | IChunk (c : chunk).

(** [_addByType] *)
Definition addByType (o : item) (prepend : bool) (s : t) : result t :=
  match o with
  | IOp n => Ok (addOpcode n prepend s)
  | IBuf b => addBuffer b prepend s
  | IChunk c => Ok (insertAtPosition c prepend s)
  end.

Definition add (o : item) (s : t) : result t := addByType o false s.
Definition prepend (o : item) (s : t) : result t := addByType o true s.

(** A chain [s.add(a).add(b)...]. *)
Fixpoint adds (os : list item) (s : t) : result t :=
  match os with [] => Ok s | o :: os => s ← add o s; adds os s end.

Definition removeCodeseparators (s : t) : t :=
  s <| chunks := filter (fun c => opcodenum c <> Opcode.OP_CODESEPARATOR) (chunks s) |>.

(** [equals]: a chunk of [s] with data needs equal data, and then the opcodes must agree;
    the data of the argument's chunk is not looked at when [s]'s chunk has none. *)
Definition chunk_equals (c d : chunk) : bool :=
  match buf c, buf d with
  | Some _, None => false
  | Some b, Some b' => bool_decide (b = b') && (opcodenum c =? opcodenum d)
  | None, _ => opcodenum c =? opcodenum d
  end.

Fixpoint chunks_equal (cs ds : list chunk) : bool :=
  match cs, ds with
  | c :: cs, d :: ds => chunk_equals c d && chunks_equal cs ds
  | _, _ => true
  end.

Definition equals (s s' : t) : bool :=
  bool_decide (length (chunks s) = length (chunks s')) && chunks_equal (chunks s) (chunks s').

(** *** The standard scripts *)

(** [buildMultisigOut(publicKeys, threshold, {noSorting: true})]; the sorting variant
    orders the keys by their hexadecimal form, which for equal-length keys is the
    lexicographic order of the bytes. *)
Fixpoint lex_lt (a b : list Z) : bool :=
  match a, b with
  | _, [] => false
  | [], _ :: _ => true
  | x :: a, y :: b => (x <? y) || ((x =? y) && lex_lt a b)
  end.

Fixpoint insert_sorted (k : list Z) (ks : list (list Z)) : list (list Z) :=
  match ks with
  | [] => [k]
  | k' :: ks' => if lex_lt k k' then k :: ks else k' :: insert_sorted k ks'
  end.

(** [_.sortBy], a stable sort. *)
Definition sort_keys (ks : list (list Z)) : list (list Z) :=
  fold_left (fun acc k => insert_sorted k acc) ks [].

Definition buildMultisigOut (publicKeys : list (list Z)) (threshold : Z) (noSorting : bool) : result t :=
  guard_or InvalidArgument (threshold <=? zlen publicKeys);;
  m ← Opcode.smallInt threshold;
  s ← add (IOp m) empty;
  let sorted := if noSorting then publicKeys else sort_keys publicKeys in
  s ← adds (IBuf <$> sorted) s;
  n ← Opcode.smallInt (zlen publicKeys);
  s ← add (IOp n) s;
  add (IOp Opcode.OP_CHECKMULTISIG) s.

Definition buildP2SHMultisigIn (pubkeys : list (list Z)) (threshold : Z) (signatures : list (list Z))
    (cachedMultisig : option t) (noSorting : bool) : result t :=
  s ← add (IOp Opcode.OP_0) empty;
  s ← adds (IBuf <$> signatures) s;
  redeem ← match cachedMultisig with
           | Some r => Ok r
           | None => buildMultisigOut pubkeys threshold noSorting
           end;
  b ← toBuffer redeem;
  add (IBuf b) s.

(** [buildPublicKeyHashOut] for an address *)
Definition buildPublicKeyHashOut (to_ : Address) : result t :=
  s ← adds [IOp Opcode.OP_DUP; IOp Opcode.OP_HASH160; IBuf (hashBuffer to_);
            IOp Opcode.OP_EQUALVERIFY; IOp Opcode.OP_CHECKSIG] empty;
  Ok (s <| _network := Some (addr_network to_) |>).

Definition buildPublicKeyOut (pubkey : list Z) : result t :=
  adds [IBuf pubkey; IOp Opcode.OP_CHECKSIG] empty.

Definition buildDataOut (data : option (list Z)) : result t :=
  s ← add (IOp Opcode.OP_RETURN) empty;
  match data with None => Ok s | Some d => add (IBuf d) s end.

(** [buildPublicKeyHashIn(publicKey, signature, sigtype)], the signature in DER form *)
Definition buildPublicKeyHashIn (publicKey signature : list Z) (sigtype : option Z) : result t :=
  let ty := match sigtype with None | Some 0 => 1 | Some n => n end in
  adds [IBuf (signature ++ [ty mod 256]); IBuf publicKey] empty.

Section WithCrypto.
Context `{Crypto}.

(** [buildScriptHashOut] for a redeem script and for an address *)
Definition buildScriptHashOut (script : t) : result t :=
  b ← toBuffer script;
  s ← adds [IOp Opcode.OP_HASH160; IBuf (sha256ripemd160 b); IOp Opcode.OP_EQUAL] empty;
  Ok (s <| _network := _network script |>).

Definition buildScriptHashOut_address (a : Address) : result t :=
  guard_or InvalidArgument (bool_decide (addr_type a = PayToScriptHash));;
  s ← adds [IOp Opcode.OP_HASH160; IBuf (hashBuffer a); IOp Opcode.OP_EQUAL] empty;
  Ok (s <| _network := Some (addr_network a) |>).

Definition toScriptHashOut (s : t) : result t := buildScriptHashOut s.

Definition fromAddress (a : Address) : result t :=
  match addr_type a with
  | PayToScriptHash => buildScriptHashOut_address a
  | PayToPublicKeyHash => buildPublicKeyHashOut a
  end.

(** *** Classification *)

Definition buf_is (P : list Z -> bool) (c : chunk) : bool :=
  match buf c with Some b => P b | None => false end.

Definition isPublicKeyHashOut (s : t) : bool :=
  match chunks s with
  | [c0; c1; c2; c3; c4] =>
      (opcodenum c0 =? Opcode.OP_DUP) && (opcodenum c1 =? Opcode.OP_HASH160)
      && buf_is (fun b => zlen b =? 20) c2
      && (opcodenum c3 =? Opcode.OP_EQUALVERIFY) && (opcodenum c4 =? Opcode.OP_CHECKSIG)
  | _ => false
  end.

Definition isPublicKeyHashIn (s : t) : bool :=
  match chunks s with
  | [c0; c1] => buf_is (fun b => (zlen b >=? 0x47) && (zlen b <=? 0x49)) c0 && buf_is PublicKey_isValid c1
  | _ => false
  end.

Definition getPublicKeyHash (s : t) : result (list Z) :=
  guard_or InvalidState (isPublicKeyHashOut s);;
  match chunks s !! 2%nat ≫= buf with Some b => Ok b | None => Throw TypeError end.

Definition isPublicKeyOut (s : t) : bool :=
  match chunks s with
  | [c0; c1] => buf_is PublicKey_isValid c0 && (opcodenum c1 =? Opcode.OP_CHECKSIG)
  | _ => false
  end.

Definition isPublicKeyIn (s : t) : bool :=
  match chunks s with [c0] => buf_is (fun b => zlen b =? 0x47) c0 | _ => false end.

Definition isScriptHashOut (s : t) : result bool :=
  b ← toBuffer s;
  Ok ((zlen b =? 23) && (byte_at b 0 =? Opcode.OP_HASH160) && (byte_at b 1 =? 0x14)
      && (byte_at b (zlen b - 1) =? Opcode.OP_EQUAL)).

Definition isMultisigOut (s : t) : bool :=
  let cs := chunks s in
  let n := length cs in
  (3 <? Z.of_nat n)
  && match cs !! 0%nat with Some c => Opcode.isSmallIntOp (opcodenum c) | None => false end
  && forallb (buf_is (fun _ => true)) (take (n - 2 - 1) (drop 1 cs))
  && match cs !! (n - 2)%nat with Some c => Opcode.isSmallIntOp (opcodenum c) | None => false end
  && match cs !! (n - 1)%nat with Some c => opcodenum c =? Opcode.OP_CHECKMULTISIG | None => false end.

Definition isMultisigIn (s : t) : bool :=
  match chunks s with
  | c0 :: c1 :: cs => (opcodenum c0 =? 0) && forallb (buf_is (fun b => zlen b =? 0x47)) (c1 :: cs)
  | _ => false
  end.

Definition OP_RETURN_STANDARD_SIZE := 80.

(** The last conjunct of the source compares two absent properties and is always true. *)
Definition isDataOut (s : t) : bool :=
  match chunks s with
  | c0 :: rest =>
      (opcodenum c0 =? Opcode.OP_RETURN)
      && match rest with
         | [] => true
         | [c1] => buf_is (fun b => zlen b <=? OP_RETURN_STANDARD_SIZE) c1
         | _ => false
         end
  | [] => false
  end.

Definition isPushOnly (s : t) : bool := forallb (fun c => opcodenum c <=? Opcode.OP_16) (chunks s).

(** [Script.types] *)
Inductive script_type :=
  | UNKNOWN | PUBKEY_OUT | PUBKEY_IN | PUBKEYHASH_OUT | PUBKEYHASH_IN
  | SCRIPTHASH_OUT | SCRIPTHASH_IN | MULTISIG_OUT | MULTISIG_IN | DATA_OUT.
#[local] Instance script_type_eq_dec : EqDecision script_type.
Proof. solve_decision. Defined.

(** [isScriptHashIn] and [classify] call each other: the redeem script is parsed out of the
    last push and classified.  A parsed push is shorter than the buffer it came from, so the
    recursion is bounded by the size of that push. *)
Fixpoint classify_fuel (fuel : nat) (s : t) : result script_type :=
  if isPublicKeyOut s then Ok PUBKEY_OUT
  else if isPublicKeyIn s then Ok PUBKEY_IN
  else if isPublicKeyHashOut s then Ok PUBKEYHASH_OUT
  else if isPublicKeyHashIn s then Ok PUBKEYHASH_IN
  else if isMultisigOut s then Ok MULTISIG_OUT
  else if isMultisigIn s then Ok MULTISIG_IN
  else
    sho ← isScriptHashOut s;
    if sho : bool then Ok SCRIPTHASH_OUT
    else
      shi ← match fuel with
            | O => Ok false
            | S fuel =>
                match last (chunks s) ≫= buf with
                | None => Ok false
                | Some redeemBuf =>
                    match fromBuffer redeemBuf with
                    | Ok redeemScript =>
                        ty ← classify_fuel fuel redeemScript;
                        Ok (negb (bool_decide (ty = UNKNOWN)))
                    | Throw e =>
                        if bool_decide (e = BitcoreError "Script.InvalidBuffer") then Ok false else Throw e
                    end
                end
            end;
      if shi : bool then Ok SCRIPTHASH_IN
      else if isDataOut s then Ok DATA_OUT
      else Ok UNKNOWN.

(** The size of the redeem push. *)
Definition redeem_size (s : t) : nat :=
  match last (chunks s) ≫= buf with Some b => length b | None => 0 end.

Definition classify (s : t) : result script_type := classify_fuel (S (redeem_size s)) s.

Definition isScriptHashIn (s : t) : result bool :=
  match last (chunks s) ≫= buf with
  | None => Ok false
  | Some redeemBuf =>
      match fromBuffer redeemBuf with
      | Ok redeemScript => ty ← classify redeemScript; Ok (negb (bool_decide (ty = UNKNOWN)))
      | Throw e => if bool_decide (e = BitcoreError "Script.InvalidBuffer") then Ok false else Throw e
      end
  end.

Definition isStandard (s : t) : result bool :=
  ty ← classify s; Ok (negb (bool_decide (ty = UNKNOWN))).

(** [new Buffer(this.chunks[i].buf)] throws on a chunk without data. *)
Definition chunk_data (i : nat) (s : t) : result (list Z) :=
  match chunks s !! i ≫= buf with Some b => Ok b | None => Throw TypeError end.

Definition getData (s : t) : result (list Z) :=
  let scripthash_or_pkh :=
    sho ← isScriptHashOut s;
    if sho : bool then chunk_data 1 s
    else if isPublicKeyHashOut s then chunk_data 2 s
    else Throw (ErrorMessage "Unrecognized script type to get data from") in
  if isDataOut s then chunk_data 1 s else scripthash_or_pkh.

Definition getAddressInfo (s : t) : result (option (list Z * address_type)) :=
  sho ← isScriptHashOut s;
  if sho : bool then h ← getData s; Ok (Some (h, PayToScriptHash))
  else if isPublicKeyHashOut s then h ← getData s; Ok (Some (h, PayToPublicKeyHash))
  else if isPublicKeyHashIn s then
    b ← chunk_data 1 s; Ok (Some (sha256ripemd160 b, PayToPublicKeyHash))
  else
    shi ← isScriptHashIn s;
    if shi : bool then
      b ← match last (chunks s) ≫= buf with Some b => Ok b | None => Throw TypeError end;
      Ok (Some (sha256ripemd160 b, PayToScriptHash))
    else Ok None.

(** [toAddress(network)]: [None] is the [false] of the source. *)
Definition toAddress (net : option network) (s : t) : result (option Address) :=
  let net := match net with
             | Some n => n
             | None => match _network s with Some n => n | None => defaultNetwork end
             end in
  info ← getAddressInfo s;
  Ok (match info with Some (h, ty) => Some (mkAddress h net ty) | None => None end).

End WithCrypto.

(** *** [findAndDelete] and [checkMinimalPush] *)

(** The loop: on a match the chunk at [i] is spliced out and [i] moves on, so the chunk that
    takes its place is not examined. *)
Fixpoint findAndDelete_loop (b : list Z) (cs : list chunk) : result (list chunk) :=
  match cs with
  | [] => Ok []
  | c :: rest =>
      b2 ← toBuffer (mk [c] None);
      if bool_decide (b = b2) then
        match rest with
        | [] => Ok []
        | next :: rest' => cs' ← findAndDelete_loop b rest'; Ok (next :: cs')
        end
      else cs' ← findAndDelete_loop b rest; Ok (c :: cs')
  end.

Definition findAndDelete (script : t) (s : t) : result t :=
  b ← toBuffer script;
  cs ← findAndDelete_loop b (chunks s);
  Ok (s <| chunks := cs |>).

Definition chunk_minimal (c : chunk) : bool :=
  match buf c with
  | None => true
  | Some b =>
      let len := zlen b in
      let b0 := byte_at b 0 in
      if len =? 0 then opcodenum c =? Opcode.OP_0
      else if (len =? 1) && (b0 >=? 1) && (b0 <=? 16) then opcodenum c =? Opcode.OP_1 + (b0 - 1)
      else if (len =? 1) && (b0 =? 0x81) then opcodenum c =? Opcode.OP_1NEGATE
      else if len <=? 75 then opcodenum c =? len
      else if len <=? 255 then opcodenum c =? Opcode.OP_PUSHDATA1
      else if len <=? 65535 then opcodenum c =? Opcode.OP_PUSHDATA2
      else true
  end.

(** An index out of range reads a property of [undefined]. *)
Definition checkMinimalPush (i : nat) (s : t) : result bool :=
  match chunks s !! i with Some c => Ok (chunk_minimal c) | None => Throw TypeError end.

End Script.

(** ** Lemmas: one chunk *)
Module ScriptLemmas.
Import BufferReader ReaderLemmas Codec Script.

(** The bytes ahead of a cursor that may have run past the end. *)
Definition ahead (r : BufferReader.t) : list Z := zdrop (pos r) (BufferReader.buf r).

Lemma zlen_ahead r : 0 <= pos r -> zlen (ahead r) = Z.max 0 (zlen (BufferReader.buf r) - pos r).
Proof. intros. unfold ahead. by apply zlen_zdrop. Qed.

Lemma at_ahead r : 0 <= pos r -> zlen (BufferReader.buf r) < 2 ^ 31 -> ahead r <> [] -> at_ r (ahead r).
Proof.
  intros Hp Hb Hne. unfold at_. repeat split; try done.
  destruct (Z.lt_ge_cases (zlen (BufferReader.buf r)) (pos r)); [|lia].
  destruct Hne. unfold ahead. apply zdrop_all. lia.
Qed.

Lemma slice_range b p n : 0 <= p -> 0 <= n -> p + n < 2 ^ 31 -> zlen b < 2 ^ 31 ->
  Buf.slice p (p + n) b = ztake n (zdrop p b).
Proof.
  intros Hp Hn Hpn Hb. pose proof (zlen_nonneg b) as Hb0. unfold Buf.slice, wrap32.
  rewrite !Z.mod_small by lia.
  replace (p + 2 ^ 31 - 2 ^ 31) with p by lia. replace (p + n + 2 ^ 31 - 2 ^ 31) with (p + n) by lia.
  rewrite !Z.gtb_ltb, (proj2 (Z.ltb_ge p 0)), (proj2 (Z.ltb_ge (p + n) 0)) by lia.
  destruct (Z.ltb_spec (zlen b) p) as [Hlt|Hge].
  - rewrite (zdrop_all p), zdrop_all by lia. by rewrite !ztake_take, !take_nil.
  - destruct (Z.ltb_spec (zlen b) (p + n)).
    + rewrite (proj2 (Z.ltb_ge _ _)) by lia. rewrite !ztake_all; [done| |]; rewrite zlen_zdrop by lia; lia.
    + rewrite (proj2 (Z.ltb_ge _ _)) by lia. f_equal. lia.
Qed.

Lemma read_ahead r n : 0 <= pos r -> 0 <= n -> n + pos r < 2 ^ 31 -> zlen (BufferReader.buf r) < 2 ^ 31 ->
  read n r = (Ok (ztake n (ahead r)), adv r n) /\ ahead r = ztake n (ahead r) ++ ahead (adv r n).
Proof.
  intros. unfold read, skip. js_run. rewrite slice_range by lia. split; [done|].
  unfold ahead, adv. cbn [pos BufferReader.buf]. rewrite (Z.add_comm n), <-zdrop_zdrop by lia.
  by rewrite ztake_zdrop.
Qed.

Lemma ahead_ok r : bytes_ok (BufferReader.buf r) -> bytes_ok (ahead r).
Proof. intros. unfold ahead. rewrite zdrop_drop. by apply Forall_drop. Qed.

(** Fixed-width reads that succeed, read backwards: the bytes they consumed. *)
Lemma checkOffset_inv o n len : Buf.checkOffset o n len = Ok tt -> 0 <= o /\ o + n <= len.
Proof. unfold Buf.checkOffset. js_run. intros. case_all. bool_to_Z. rewrite Z.gtb_ltb in *. bool_to_Z. lia. Qed.

Lemma read_fixed_inv f n r v r' :
  (forall b o v, f b o = Ok v -> Buf.checkOffset o n (zlen b) = Ok tt) ->
  read_fixed f n r = (Ok v, r') ->
  f (BufferReader.buf r) (pos r) = Ok v /\ r' = adv r n /\ 0 <= pos r /\ n + pos r <= zlen (BufferReader.buf r).
Proof.
  intros Hf. unfold read_fixed, skip. js_run. destruct (f _ _) as [v'|e] eqn:Hv; [|done].
  intros [= -> <-]. apply Hf in Hv as Hc. apply checkOffset_inv in Hc. repeat split; try done; lia.
Qed.

(** Every fixed-width read starts with its bounds check. *)
Definition checked (f : list Z -> Z -> result Z) (n : Z) : Prop :=
  forall b o v, f b o = Ok v -> Buf.checkOffset o n (zlen b) = Ok tt.

Lemma fixed8 : checked Buf.readUInt8 1.
Proof. intros b o v. unfold Buf.readUInt8. js_run. by destruct (Buf.checkOffset _ _ _) as [[]|]. Qed.

Lemma fixed16 : checked Buf.readUInt16LE 2.
Proof. intros b o v. unfold Buf.readUInt16LE. js_run. by destruct (Buf.checkOffset _ _ _) as [[]|]. Qed.

Lemma fixed32 : checked Buf.readUInt32LE 4.
Proof. intros b o v. unfold Buf.readUInt32LE. js_run. by destruct (Buf.checkOffset _ _ _) as [[]|]. Qed.

Lemma cons_ahead r n : 0 < n -> 0 <= pos r -> n + pos r <= zlen (BufferReader.buf r) ->
  exists w, zlen w = n /\ ahead r = w ++ ahead (adv r n).
Proof.
  intros Hn Hp Hl. exists (ztake n (ahead r)). split.
  - rewrite zlen_ztake, zlen_ahead by lia. lia.
  - unfold ahead, adv. cbn [pos BufferReader.buf]. rewrite (Z.add_comm n), <-zdrop_zdrop by lia.
    by rewrite ztake_zdrop.
Qed.

(** The header a fixed-width read consumed is what the matching write produces. *)
Lemma readUInt8_inv r v r' : zlen (BufferReader.buf r) < 2 ^ 31 -> bytes_ok (BufferReader.buf r) ->
  readUInt8 r = (Ok v, r') ->
  r' = adv r 1 /\ ahead r = [v] ++ ahead r' /\ 0 <= v < 256 /\ 0 <= pos r /\ 1 + pos r <= zlen (BufferReader.buf r).
Proof.
  intros Hb Hok Hr. pose proof Hr as Hr'. apply read_fixed_inv in Hr' as (_ & -> & Hp & Hl); [|exact fixed8].
  destruct (cons_ahead r 1) as (w & Hw & Ha); [lia..|].
  destruct w as [|x [|y w]]; [by rewrite ?zlen_cons in Hw..| |].
  2:{ rewrite !zlen_cons in Hw. pose proof (zlen_nonneg w). lia. }
  assert (at_ r (x :: ahead (adv r 1))) as Hat.
  { cbn [app] in Ha. rewrite <-Ha. apply at_ahead; try lia. by rewrite Ha. }
  rewrite (readUInt8_at _ _ _ Hat) in Hr. injection Hr as ->.
  pose proof (ahead_ok r Hok) as Hx. rewrite Ha in Hx. apply Forall_app in Hx as [Hx _].
  apply Forall_cons in Hx as [Hx _]. repeat split; try done; apply Hx.
Qed.

Lemma readUInt16LE_inv r v r' : zlen (BufferReader.buf r) < 2 ^ 31 -> bytes_ok (BufferReader.buf r) ->
  readUInt16LE r = (Ok v, r') ->
  exists w, Buf.writeUInt16LE v = Ok w /\ r' = adv r 2 /\ ahead r = w ++ ahead r' /\ 0 <= v < 2 ^ 16
    /\ 0 <= pos r /\ 2 + pos r <= zlen (BufferReader.buf r).
Proof.
  intros Hb Hok Hr. pose proof Hr as Hr'. apply read_fixed_inv in Hr' as (_ & -> & Hp & Hl); [|exact fixed16].
  destruct (cons_ahead r 2) as (w & Hw & Ha); [lia..|].
  destruct w as [|x [|y [|z w]]]; try (rewrite ?zlen_cons in Hw; done).
  2:{ rewrite !zlen_cons in Hw. pose proof (zlen_nonneg w). lia. }
  pose proof (ahead_ok r Hok) as Hx. rewrite Ha in Hx. apply Forall_app in Hx as [Hx _].
  apply Forall_cons in Hx as [Hx Hy]. apply Forall_cons in Hy as [Hy _].
  assert (at_ r (x :: y :: ahead (adv r 2))) as Hat.
  { cbn [app] in Ha. rewrite <-Ha. apply at_ahead; try lia. by rewrite Ha. }
  rewrite (readUInt16LE_at _ _ _ _ Hat Hx) in Hr. injection Hr as <-.
  exists [x; y]. unfold byte_ok in *.
  rewrite (proj1 (writeUInt16LE_ok (x + y * 256) ltac:(lia))). repeat split; try done; try lia.
  f_equal. f_equal; [zlia|]. f_equal. zlia.
Qed.

Lemma readUInt32LE_inv r v r' : zlen (BufferReader.buf r) < 2 ^ 31 -> bytes_ok (BufferReader.buf r) ->
  readUInt32LE r = (Ok v, r') ->
  exists w, Buf.writeUInt32LE v = Ok w /\ r' = adv r 4 /\ ahead r = w ++ ahead r' /\ 0 <= v < 2 ^ 32
    /\ 0 <= pos r /\ 4 + pos r <= zlen (BufferReader.buf r).
Proof.
  intros Hb Hok Hr. pose proof Hr as Hr'. apply read_fixed_inv in Hr' as (_ & -> & Hp & Hl); [|exact fixed32].
  destruct (cons_ahead r 4) as (w & Hw & Ha); [lia..|].
  destruct w as [|x [|y [|z [|u [|v' w]]]]]; try (rewrite ?zlen_cons in Hw; done).
  2:{ rewrite !zlen_cons in Hw. pose proof (zlen_nonneg w). lia. }
  pose proof (ahead_ok r Hok) as Hx. rewrite Ha in Hx. apply Forall_app in Hx as [Hx _].
  repeat (apply Forall_cons in Hx as [? Hx]).
  assert (at_ r (x :: y :: z :: u :: ahead (adv r 4))) as Hat.
  { cbn [app] in Ha. rewrite <-Ha. apply at_ahead; try lia. by rewrite Ha. }
  rewrite (readUInt32LE_at _ _ _ _ _ _ Hat) in Hr by done. injection Hr as <-.
  exists [x; y; z; u]. unfold byte_ok in *.
  rewrite writeUInt32LE_ok by lia. repeat split; try done; try lia.
  unfold le4. rewrite !Z.shiftr_div_pow2 by lia. f_equal. repeat (f_equal; [zlia|]). f_equal. zlia.
Qed.

(** The announced length of a push. *)
Definition chunk_len (c : chunk) : Z := match push c with Some (_, len) => len | None => 0 end.

(** Writing a chunk appends bytes that do not depend on what was written before. *)
Lemma writeChunk_frame c bw :
  match toBuffer (mk [c] None) with
  | Ok w => exists bw', writeChunk c bw = Ok bw' /\ BufferWriter.concat bw' = BufferWriter.concat bw ++ w
  | Throw e => writeChunk c bw = Throw e
  end.
Proof.
  unfold toBuffer, writeChunks, writeChunk, BufferWriter.writeUInt8, BufferWriter.writeUInt16LE,
    BufferWriter.writeUInt32LE, BufferWriter.write_result. cbn [chunks]. js_run.
  destruct (Buf.writeUInt8 (opcodenum c)) as [w|e]; [|done].
  destruct (push c) as [[b len]|]; [|eexists; split; [done|]; by rewrite !concat_write].
  destruct (opcodenum c <? Opcode.OP_PUSHDATA1); [eexists; split; [done|]; by rewrite !concat_write, <-app_assoc|].
  destruct (opcodenum c =? Opcode.OP_PUSHDATA1).
  { destruct (Buf.writeUInt8 len); [|done]. eexists; split; [done|]; by rewrite !concat_write, <-!app_assoc. }
  destruct (opcodenum c =? Opcode.OP_PUSHDATA2).
  { destruct (Buf.writeUInt16LE len); [|done]. eexists; split; [done|]; by rewrite !concat_write, <-!app_assoc. }
  destruct (opcodenum c =? Opcode.OP_PUSHDATA4).
  { destruct (Buf.writeUInt32LE len); [|done]. eexists; split; [done|]; by rewrite !concat_write, <-!app_assoc. }
  eexists; split; [done|]; by rewrite !concat_write.
Qed.

Lemma writeChunks_frame cs bw :
  match toBuffer (mk cs None) with
  | Ok w => exists bw', writeChunks cs bw = Ok bw' /\ BufferWriter.concat bw' = BufferWriter.concat bw ++ w
  | Throw e => writeChunks cs bw = Throw e
  end.
Proof.
  revert bw; induction cs as [|c cs IH]; intros bw; cbn.
  { eexists; split; [done|]. by rewrite app_nil_r. }
  unfold toBuffer. cbn [chunks writeChunks]. js_run.
  pose proof (writeChunk_frame c BufferWriter.new) as H0. pose proof (writeChunk_frame c bw) as H1.
  destruct (toBuffer (mk [c] None)) as [w|e]; [|by rewrite H0, H1].
  destruct H0 as (b0 & -> & Hb0). destruct H1 as (b1 & -> & Hb1).
  pose proof (IH b0) as H0. pose proof (IH b1) as H1.
  destruct (toBuffer (mk cs None)) as [w'|e]; [|by rewrite H0, H1].
  destruct H0 as (b0' & -> & Hb0'). destruct H1 as (b1' & -> & Hb1').
  eexists; split; [done|]. rewrite Hb0', Hb1', Hb0, Hb1. by rewrite <-app_assoc.
Qed.

Lemma toBuffer_cons c cs :
  toBuffer (mk (c :: cs) None) = w ← toBuffer (mk [c] None); w' ← toBuffer (mk cs None); Ok (w ++ w').
Proof.
  unfold toBuffer at 1. cbn [chunks writeChunks]. pose proof (writeChunk_frame c BufferWriter.new) as H0. js_run.
  destruct (toBuffer (mk [c] None)) as [w|e]; [|by rewrite H0].
  destruct H0 as (b0 & -> & Hb0). pose proof (writeChunks_frame cs b0) as H1.
  destruct (toBuffer (mk cs None)) as [w'|e]; [|by rewrite H1].
  destruct H1 as (b1 & -> & Hb1). by rewrite Hb1, Hb0.
Qed.

Lemma toBuffer_network cs n : toBuffer (mk cs n) = toBuffer (mk cs None).
Proof. done. Qed.


(** The bytes of one chunk. *)
Lemma toBuffer_op n : 0 <= n < 256 -> toBuffer (mk [op n] None) = Ok [n].
Proof.
  intros. unfold toBuffer, writeChunks, writeChunk, BufferWriter.writeUInt8, BufferWriter.write_result.
  cbn [chunks opcodenum push]. rewrite writeUInt8_ok by lia. done.
Qed.

Lemma toBuffer_push n b len :
  toBuffer (mk [mkChunk n (Some (b, len))] None) =
    (w ← Buf.writeUInt8 n;
     h ← (if n <? 76 then Ok [] else if n =? 76 then Buf.writeUInt8 len
          else if n =? 77 then Buf.writeUInt16LE len else if n =? 78 then Buf.writeUInt32LE len else Ok []);
     Ok (w ++ h ++ if n <? 79 then b else [])).
Proof.
  unfold toBuffer, writeChunks, writeChunk, BufferWriter.writeUInt8, BufferWriter.writeUInt16LE,
    BufferWriter.writeUInt32LE, BufferWriter.write_result, Opcode.OP_PUSHDATA1, Opcode.OP_PUSHDATA2, Opcode.OP_PUSHDATA4.
  cbn [chunks opcodenum push]. js_run. destruct (Buf.writeUInt8 n) as [w|e]; [|done].
  destruct (Z.ltb_spec n 76).
  { rewrite !concat_write, (proj2 (Z.ltb_lt n 79)) by lia. done. }
  destruct (Z.eqb_spec n 76) as [->|].
  { destruct (Buf.writeUInt8 len); [|done]. by rewrite !concat_write, <-app_assoc. }
  destruct (Z.eqb_spec n 77) as [->|].
  { destruct (Buf.writeUInt16LE len); [|done]. by rewrite !concat_write, <-app_assoc. }
  destruct (Z.eqb_spec n 78) as [->|].
  { destruct (Buf.writeUInt32LE len); [|done]. by rewrite !concat_write, <-app_assoc. }
  rewrite (proj2 (Z.ltb_ge n 79)) by lia. by rewrite !concat_write, app_nil_r.
Qed.

Lemma readPush_inv r n len c r' : 0 <= pos r <= zlen (BufferReader.buf r) -> 0 <= len ->
  zlen (BufferReader.buf r) < 2 ^ 31 -> readPush n len r = (Ok c, r') ->
  chunk_len c + zlen (BufferReader.buf r) < 2 ^ 31 ->
  exists b, c = mkChunk n (Some (b, len)) /\ ahead r = b ++ ahead r' /\ r' = adv r len.
Proof.
  intros Hp Hlen Hb. unfold readPush. js_run. destruct (read len r) as [[b|e] r2] eqn:Hrd; [|done].
  intros [= <- <-] Hc. cbn [chunk_len push] in Hc.
  destruct (read_ahead r len) as [Hrd' Ha]; [lia..|]. rewrite Hrd' in Hrd. simplify_eq. eauto.
Qed.

(** Parsing a chunk consumes exactly the bytes it prints as, also when the data is cut short. *)
Lemma readChunk_inv r c r' : zlen (BufferReader.buf r) < 2 ^ 31 -> bytes_ok (BufferReader.buf r) ->
  readChunk r = (Ok c, r') -> chunk_len c + zlen (BufferReader.buf r) < 2 ^ 31 ->
  exists w, toBuffer (mk [c] None) = Ok w /\ ahead r = w ++ ahead r'
    /\ BufferReader.buf r' = BufferReader.buf r /\ 0 <= pos r < pos r'.
Proof.
  intros Hb Hok Hr Hlen. unfold readChunk, mbind, js_bind, mret, js_ret in Hr.
  destruct (readUInt8 r) as [[n|e] r1] eqn:H1; [|done].
  apply readUInt8_inv in H1 as (-> & Ha1 & Hn & Hp & Hl); [|done..].
  unfold Opcode.OP_PUSHDATA1, Opcode.OP_PUSHDATA2, Opcode.OP_PUSHDATA4 in Hr.
  destruct ((0 <? n) && (n <? 76)) eqn:Hd; [bool_to_Z|].
  { apply readPush_inv in Hr as (b & -> & Ha2 & ->); [|cbn [adv pos BufferReader.buf]; lia..].
    exists (n :: b). rewrite toBuffer_push, (writeUInt8_ok n), (proj2 (Z.ltb_lt n 76)), (proj2 (Z.ltb_lt n 79)) by lia.
    rewrite Ha1, Ha2. repeat split; cbn [adv pos BufferReader.buf]; lia. }
  destruct (Z.eqb_spec n 76) as [->|].
  { destruct (readUInt8 (adv r 1)) as [[len|e] r2] eqn:H2; [|done].
    apply readUInt8_inv in H2 as (-> & Ha2 & Hn2 & Hp2 & Hl2); [|done..]. cbn [adv pos BufferReader.buf] in *.
    apply readPush_inv in Hr as (b & -> & Ha3 & ->); [|cbn [adv pos BufferReader.buf]; lia..].
    exists (76 :: len :: b). rewrite toBuffer_push, !writeUInt8_ok by lia. rewrite Ha1, Ha2, Ha3. repeat split; cbn [adv pos BufferReader.buf]; lia. }
  destruct (Z.eqb_spec n 77) as [->|].
  { destruct (readUInt16LE (adv r 1)) as [[len|e] r2] eqn:H2; [|done].
    apply readUInt16LE_inv in H2 as (h & Hh & -> & Ha2 & Hn2 & Hp2 & Hl2); [|done..]. cbn [adv pos BufferReader.buf] in *.
    apply readPush_inv in Hr as (b & -> & Ha3 & ->); [|cbn [adv pos BufferReader.buf]; lia..].
    exists (77 :: h ++ b). rewrite toBuffer_push, (writeUInt8_ok 77) by lia. cbn -[Buf.writeUInt16LE]. rewrite Hh.
    rewrite Ha1, Ha2, Ha3. cbn [app]. rewrite <-app_assoc. repeat split; lia. }
  destruct (Z.eqb_spec n 78) as [->|].
  { destruct (readUInt32LE (adv r 1)) as [[len|e] r2] eqn:H2; [|done].
    apply readUInt32LE_inv in H2 as (h & Hh & -> & Ha2 & Hn2 & Hp2 & Hl2); [|done..]. cbn [adv pos BufferReader.buf] in *.
    apply readPush_inv in Hr as (b & -> & Ha3 & ->); [|cbn [adv pos BufferReader.buf]; lia..].
    exists (78 :: h ++ b). rewrite toBuffer_push, (writeUInt8_ok 78) by lia. cbn -[Buf.writeUInt32LE]. rewrite Hh.
    rewrite Ha1, Ha2, Ha3. cbn [app]. rewrite <-app_assoc. repeat split; lia. }
  injection Hr as <- <-. exists [n]. rewrite toBuffer_op by lia. rewrite Ha1. repeat split; cbn [adv pos BufferReader.buf]; lia.
Qed.

(** Printing undoes parsing from any cursor position. *)
Lemma readChunks_toBuffer fuel r cs : zlen (BufferReader.buf r) < 2 ^ 31 -> bytes_ok (BufferReader.buf r) ->
  0 <= pos r -> zlen (ahead r) <= Z.of_nat fuel -> readChunks fuel r = Ok cs ->
  Forall (fun c => chunk_len c + zlen (BufferReader.buf r) < 2 ^ 31) cs ->
  toBuffer (mk cs None) = Ok (ahead r).
Proof.
  revert r cs; induction fuel as [|fuel IH]; intros r cs Hb Hok Hp Hf Hr Hcs; cbn [readChunks] in Hr.
  { injection Hr as <-. destruct (ahead r) as [|x l]; [done|].
    rewrite zlen_cons in Hf. pose proof (zlen_nonneg l). lia. }
  unfold finished, eof in Hr. rewrite Z.geb_leb in Hr.
  destruct (Z.leb_spec (zlen (BufferReader.buf r)) (pos r)).
  { injection Hr as <-. unfold ahead. by rewrite zdrop_all. }
  destruct (readChunk r) as [[c|e] r'] eqn:Hc; [|by destruct e].
  unfold mbind, result_bind in Hr. destruct (readChunks fuel r') as [cs'|] eqn:Hcs'; [|done]. injection Hr as <-.
  apply Forall_cons in Hcs as [Hlen Hcs].
  destruct (readChunk_inv r c r' Hb Hok Hc Hlen) as (w & Hw & Ha & Hbuf & Hpos).
  rewrite toBuffer_cons, Hw, (IH r' cs'); rewrite ?Hbuf; try done; try lia.
  - cbn. by rewrite Ha.
  - rewrite zlen_ahead in * by lia. rewrite Hbuf. lia.
Qed.

(** A chunk as the parser produces it from a complete script. *)
Definition wf_chunk (c : chunk) : Prop :=
  match push c with
  | None => opcodenum c = 0 \/ 79 <= opcodenum c < 256
  | Some (b, len) =>
      zlen b = len /\
      ((1 <= opcodenum c <= 75 /\ len = opcodenum c)
       \/ (opcodenum c = 76 /\ len < 2 ^ 8)
       \/ (opcodenum c = 77 /\ len < 2 ^ 16)
       \/ (opcodenum c = 78 /\ len < 2 ^ 30))
  end.

Lemma readPush_at n b r l : at_ r (b ++ l) ->
  readPush n (zlen b) r = (Ok (mkChunk n (Some (b, zlen b))), adv r (zlen b)).
Proof. intros H. unfold readPush. js_run. by rewrite (read_at r b l). Qed.

Lemma readChunk_at c r l : wf_chunk c ->
  exists w, toBuffer (mk [c] None) = Ok w /\ 0 < zlen w /\
    (at_ r (w ++ l) -> readChunk r = (Ok c, adv r (zlen w)) /\ at_ (adv r (zlen w)) l).
Proof.
  destruct c as [n [[b len]|]]; cbn [wf_chunk push opcodenum].
  2:{ intros Hn. exists [n]. rewrite toBuffer_op by lia. split; [done|]. split; [done|]. intros Hat. split; [|by apply (at_adv r [n] l)].
      unfold readChunk. js_run. rewrite (readUInt8_at r n l) by done.
      unfold Opcode.OP_PUSHDATA1, Opcode.OP_PUSHDATA2, Opcode.OP_PUSHDATA4.
      destruct Hn as [->|Hn]; [done|]. rewrite (proj2 (Z.ltb_ge n 76)), andb_false_r by lia.
      by rewrite !(proj2 (Z.eqb_neq _ _)) by lia. }
  intros [<- Hn]. pose proof (zlen_nonneg b) as Hb0.
  assert (forall h, zlen (n :: h ++ b) = 1 + zlen h + zlen b) as Hz by (intros; rewrite zlen_cons, zlen_app; lia).
  assert (forall h, 0 < zlen (n :: h ++ b)) as Hpos by (intros h; rewrite Hz; pose proof (zlen_nonneg h); lia).
  assert (forall h, at_ r ((n :: h ++ b) ++ l) ->
            readUInt8 r = (Ok n, adv r 1) /\ at_ (adv r 1) (h ++ b ++ l) /\ at_ (adv (adv r 1) (zlen h)) (b ++ l)
            /\ at_ (adv r (zlen (n :: h ++ b))) l) as Hat.
  { intros h H. pose proof H as H2. cbn [app] in H. rewrite <-app_assoc in H.
    destruct (varint_first _ _ _ H) as [-> H1]. split; [done|]. split; [done|].
    split; [by apply at_adv|by apply at_adv in H2]. }
  unfold readChunk, Opcode.OP_PUSHDATA1, Opcode.OP_PUSHDATA2, Opcode.OP_PUSHDATA4. js_run.
  destruct Hn as [[Hn Hlen]|[[-> Hlen]|[[-> Hlen]|[-> Hlen]]]].
  - exists (n :: [] ++ b). rewrite toBuffer_push, (writeUInt8_ok n), (proj2 (Z.ltb_lt n 76)),
      (proj2 (Z.ltb_lt n 79)) by lia.
    split; [done|]. split; [apply Hpos|]. intros H. apply Hat in H as (-> & H1 & H2 & H3).
    rewrite (proj2 (Z.ltb_lt 0 n)), (proj2 (Z.ltb_lt n 76)) by lia. cbv [andb]. cbv beta iota. rewrite Hz in *. subst n.
    by rewrite (readPush_at _ b _ l H1), !adv_adv.
  - exists (76 :: [zlen b] ++ b). rewrite toBuffer_push, !writeUInt8_ok by lia.
    split; [done|]. split; [apply Hpos|]. intros H. apply Hat in H as (-> & H1 & H2 & H3). rewrite Hz in *. cbn -[readUInt8 readPush zlen Z.add].
    rewrite (readUInt8_at _ _ _ H1), (readPush_at _ b _ l H2), !adv_adv, Z.add_assoc. done.
  - destruct (writeUInt16LE_ok (zlen b) ltac:(lia)) as [Hw _].
    exists (77 :: [zlen b mod 256; zlen b / 256] ++ b). rewrite toBuffer_push, (writeUInt8_ok 77) by lia.
    split; [cbn -[Buf.writeUInt16LE]; by rewrite Hw|]. split; [apply Hpos|].
    intros H. apply Hat in H as (-> & H1 & H2 & H3). rewrite Hz in *. cbn -[readUInt16LE readPush zlen Z.add].
    rewrite (readUInt16LE_at _ _ _ _ H1) by (unfold byte_ok; zlia).
    replace (zlen b mod 256 + zlen b / 256 * 256) with (zlen b) by zlia.
    rewrite (readPush_at _ b _ l H2), !adv_adv, Z.add_assoc. done.
  - exists (78 :: le4 (zlen b) ++ b). rewrite toBuffer_push, (writeUInt8_ok 78) by lia.
    split; [cbn -[Buf.writeUInt32LE]; by rewrite writeUInt32LE_ok by lia|]. split; [apply Hpos|].
    intros H. apply Hat in H as (-> & H1 & H2 & H3). rewrite Hz in *. cbn -[readUInt32LE readPush le4 zlen Z.add].
    rewrite (readUInt32LE_le4 _ _ _ H1), Z.mod_small by lia.
    rewrite (readPush_at _ b _ l H2), !adv_adv, Z.add_assoc. done.
Qed.

Lemma at_nil_finished r : at_ r [] -> finished r = true.
Proof.
  intros H. pose proof (at_len _ _ H). destruct H as (H & _). change (zlen (@nil Z)) with 0 in *.
  unfold finished, eof. rewrite Z.geb_leb. apply Z.leb_le. lia.
Qed.

Lemma at_cons_finished r l : at_ r l -> 0 < zlen l -> finished r = false.
Proof.
  intros H Hl. pose proof (at_len _ _ H). unfold finished, eof. rewrite Z.geb_leb. apply Z.leb_gt. lia.
Qed.

(** Printing well-formed chunks succeeds, and parsing the bytes gives them back. *)
Lemma toBuffer_wf cs : Forall wf_chunk cs -> exists w, toBuffer (mk cs None) = Ok w /\
  forall fuel r, zlen w <= Z.of_nat fuel -> at_ r w -> readChunks fuel r = Ok cs.
Proof.
  induction cs as [|c cs IH]; intros Hcs.
  { exists []. split; [done|]. intros [|fuel] r _ Hat; cbn [readChunks]; [done|]. by rewrite at_nil_finished. }
  apply Forall_cons in Hcs as [Hc Hcs]. destruct (IH Hcs) as (w' & Hw' & Hr').
  destruct (readChunk_at c (BufferReader.new []) w' Hc) as (w & Hw & Hw0 & _).
  exists (w ++ w'). rewrite toBuffer_cons, Hw, Hw'. split; [done|]. intros fuel r Hf Hat.
  destruct (readChunk_at c r w' Hc) as (w2 & Hw2 & _ & Hr). assert (w2 = w) as -> by congruence. destruct (Hr Hat) as [Hr1 Hat'].
  pose proof (zlen_nonneg w'). rewrite zlen_app in Hf. destruct fuel as [|fuel]; [lia|]. cbn [readChunks].
  rewrite (at_cons_finished _ _ Hat) by (rewrite zlen_app; lia). rewrite Hr1, Hr' by (done || lia). done.
Qed.

Lemma fromBuffer_toBuffer cs : Forall wf_chunk cs ->
  exists b, toBuffer (mk cs None) = Ok b /\ (zlen b < 2 ^ 31 -> fromBuffer b = Ok (mk cs None)).
Proof.
  intros Hcs. destruct (toBuffer_wf cs Hcs) as (b & Hb & Hr). exists b. split; [done|]. intros Hlen.
  unfold fromBuffer. rewrite Hr; [done|unfold zlen; lia|by apply ReaderLemmas.at_new].
Qed.

(** [_addBuffer] makes well-formed chunks, except out of an empty buffer. *)
Lemma addBuffer_ok b s : 0 < zlen b < 2 ^ 30 ->
  exists c, addBuffer b false s = Ok (mk (chunks s ++ [c]) (_network s)) /\ wf_chunk c /\ buf c = Some b
    /\ opcodenum c = (if zlen b <? 76 then zlen b else if zlen b <? 2 ^ 8 then 76 else if zlen b <? 2 ^ 16 then 77 else 78)
    /\ push c = Some (b, zlen b).
Proof.
  intros Hb. unfold addBuffer, Opcode.OP_PUSHDATA1, Opcode.OP_PUSHDATA2, Opcode.OP_PUSHDATA4, insertAtPosition.
  rewrite (proj2 (Z.leb_le 0 _)) by lia. cbn [andb].
  destruct (Z.ltb_spec (zlen b) 76); [|destruct (Z.ltb_spec (zlen b) (2 ^ 8));
    [|destruct (Z.ltb_spec (zlen b) (2 ^ 16)); [|rewrite (proj2 (Z.ltb_lt (zlen b) (2 ^ 32))) by lia]]];
  (eexists; split; [done|]; split; [cbn [wf_chunk push opcodenum]; split; [done|lia]|done]).
Qed.

(** A parsed push is shorter than the buffer it was cut from. *)
Lemma slice_length p q b : 1 <= p <= zlen b -> zlen b < 2 ^ 31 -> zlen (Buf.slice p q b) < zlen b.
Proof.
  intros Hp Hb. unfold Buf.slice. cbv zeta.
  assert (wrap32 p = p) as -> by (unfold wrap32; rewrite Z.mod_small; lia).
  rewrite (proj2 (Z.ltb_ge p 0)), (Z.gtb_ltb p), (proj2 (Z.ltb_ge (zlen b) p)) by lia.
  rewrite ztake_take, zdrop_drop. unfold zlen in *. rewrite length_take, length_drop. lia.
Qed.

Lemma readChunk_short r c r' : zlen (BufferReader.buf r) < 2 ^ 31 -> readChunk r = (Ok c, r') ->
  BufferReader.buf r' = BufferReader.buf r
  /\ forall b, buf c = Some b -> zlen b < zlen (BufferReader.buf r).
Proof.
  intros Hb Hr. unfold readChunk, mbind, js_bind, mret, js_ret in Hr.
  assert (forall n len r1, readPush n len r1 = (Ok c, r') -> BufferReader.buf r1 = BufferReader.buf r ->
            1 <= pos r1 <= zlen (BufferReader.buf r) -> BufferReader.buf r' = BufferReader.buf r
            /\ forall b, buf c = Some b -> zlen b < zlen (BufferReader.buf r)) as Hpush.
  { intros n len r1 [= <- <-] Hr1 Hp. split; [done|]. cbn. intros b [= <-]. rewrite Hr1. by apply slice_length. }
  destruct (readUInt8 r) as [[n|e] r1] eqn:H1; [|done].
  apply read_fixed_inv in H1 as (_ & -> & Hp & Hl); [|exact fixed8].
  repeat case_match; simplify_eq;
    try (match goal with H : _ = (Ok _, _) |- _ =>
           apply read_fixed_inv in H as (_ & -> & Hp2 & Hl2); [|exact fixed8 || exact fixed16 || exact fixed32] end);
    try (eapply Hpush; [done|done|cbn in *; lia]); [done].
Qed.

Lemma readChunks_short fuel r cs : zlen (BufferReader.buf r) < 2 ^ 31 -> readChunks fuel r = Ok cs ->
  Forall (fun c => forall b, buf c = Some b -> zlen b < zlen (BufferReader.buf r)) cs.
Proof.
  revert r cs; induction fuel as [|fuel IH]; intros r cs Hb Hr; cbn [readChunks] in Hr; [by simplify_eq|].
  destruct (finished r); [by simplify_eq|].
  destruct (readChunk r) as [[c|e] r'] eqn:Hc; [|by destruct e].
  apply readChunk_short in Hc as [Hbuf Hc]; [|done].
  unfold mbind, result_bind in Hr. destruct (readChunks fuel r') as [cs'|] eqn:Hcs'; [|done]. injection Hr as <-.
  constructor; [done|]. rewrite <-Hbuf in *. by eapply IH.
Qed.

Lemma redeem_size_fromBuffer b s : zlen b < 2 ^ 31 -> fromBuffer b = Ok s ->
  last (chunks s) ≫= buf = None \/ (redeem_size s < length b)%nat.
Proof.
  intros Hb. unfold fromBuffer. js_run. destruct (readChunks _ _) as [cs|] eqn:Hcs; [|done]. intros [= <-].
  apply readChunks_short in Hcs; [|done]. unfold redeem_size. cbn [chunks].
  destruct (last cs) as [c|] eqn:Hl; [|by left]. cbn. destruct (buf c) as [b'|] eqn:Hb'; [|by left].
  right. rewrite Forall_forall in Hcs. apply last_Some_elem_of in Hl. apply Hcs in Hb'; [|done].
  unfold zlen in Hb'. cbn in Hb'. lia.
Qed.

Lemma classify_fuel_mono `{Crypto} fuel fuel' s :
  last (chunks s) ≫= buf = None \/ (redeem_size s < fuel)%nat -> (fuel <= fuel')%nat ->
  Z.of_nat (redeem_size s) < 2 ^ 31 ->
  classify_fuel fuel s = classify_fuel fuel' s.
Proof.
  revert fuel' s; induction fuel as [|fuel IH]; intros fuel' s Hf Hle Hs.
  { destruct Hf as [Hf|]; [|lia]. destruct fuel'; [done|]. cbn [classify_fuel]. by rewrite Hf. }
  destruct fuel' as [|fuel']; [lia|]. cbn [classify_fuel].
  repeat (case_match; [done|]). destruct (isScriptHashOut s) as [[]|]; cbn [mbind result_bind]; try done.
  unfold redeem_size in *. destruct (last (chunks s) ≫= buf) as [b|]; [|done]. destruct Hf as [|Hf]; [done|].
  destruct (fromBuffer b) as [rs|] eqn:Hrs; [|done].
  apply redeem_size_fromBuffer in Hrs as Hlt; [|done].
  rewrite (IH fuel' rs); [done| |lia|]; unfold redeem_size in *; destruct Hlt as [Hn|]; rewrite ?Hn; auto; lia.
Qed.
End ScriptLemmas.

(** ** Theorems *)
Section ScriptTheorems.
Import Script ScriptLemmas.

(** printing a parsed script gives back the bytes it was parsed from, also when the last
    push was cut short by the end of the buffer, as long as no announced length reaches
    the 32-bit limit of [Buffer.slice]. *)
Theorem script_print_parse b s :
  bytes_ok b -> zlen b < 2 ^ 31 -> fromBuffer b = Ok s ->
  Forall (fun c => chunk_len c + zlen b < 2 ^ 31) (chunks s) ->
  toBuffer s = Ok b.
Proof.
  intros Hok Hb. unfold fromBuffer. js_run. destruct (readChunks _ _) as [cs|] eqn:Hcs; [|done]. intros [= <-] Hlen.
  replace b with (ahead (BufferReader.new b)) by apply zdrop_0.
  apply (readChunks_toBuffer (length b)); try done.
  unfold ahead. cbn. rewrite zdrop_0. unfold zlen. lia.
Qed.

(** parsing the printed form of well-formed chunks gives the chunks back. *)
Theorem script_parse_print cs :
  Forall wf_chunk cs ->
  exists b, toBuffer (mk cs None) = Ok b /\ (zlen b < 2 ^ 31 -> fromBuffer b = Ok (mk cs None)).
Proof. apply fromBuffer_toBuffer. Qed.

(** A failing fixed-width read is out of range. *)
Lemma checkOffset_throw {A} o n len (v : A) e : (Buf.checkOffset o n len;; Ok v) = Throw e -> e = RangeError.
Proof. unfold Buf.checkOffset. js_run. repeat case_match; intros; by simplify_eq. Qed.

Lemma read_fixed_throw f n r e r' :
  (forall b o e, f b o = Throw e -> e = RangeError) -> BufferReader.read_fixed f n r = (Throw e, r') -> e = RangeError.
Proof.
  intros Hf. unfold BufferReader.read_fixed, BufferReader.skip. js_run.
  destruct (f _ _) eqn:He; [done|]. intros [= <- _]. by apply Hf in He.
Qed.

Lemma readChunk_throw r e r' : readChunk r = (Throw e, r') -> e = RangeError.
Proof.
  unfold readChunk, mbind, js_bind, mret, js_ret.
  destruct (BufferReader.readUInt8 r) as [[n|e1] r1] eqn:H1.
  2:{ intros [= <- <-]. eapply read_fixed_throw, H1. intros b o e; apply checkOffset_throw. }
  repeat case_match; intros; simplify_eq;
    (eapply read_fixed_throw; [|eassumption]; intros b o e'; apply checkOffset_throw).
Qed.

(** [fromBuffer] either succeeds or throws [InvalidBuffer]; no other exception escapes. *)
Theorem script_parse_errors b e :
  fromBuffer b = Throw e -> e = BitcoreError "Script.InvalidBuffer".
Proof.
  unfold fromBuffer. generalize (BufferReader.new b) as r. generalize (length b) as fuel.
  induction fuel as [|fuel IH]; intros r; [done|]. cbn [readChunks]. destruct (BufferReader.finished r); [done|].
  destruct (readChunk r) as [[c|e'] r'] eqn:Hc.
  - specialize (IH r'). js_run. destruct (readChunks fuel r'); [done|]. exact IH.
  - apply readChunk_throw in Hc as ->. by intros [= <-].
Qed.

Context `{CryptoLaws}.

(** [classify] and [isScriptHashIn] satisfy the mutual recursion of the source: the fuel
    of the definition never runs out. *)
Theorem classify_equation s :
  Z.of_nat (redeem_size s) < 2 ^ 31 ->
  classify s =
    if isPublicKeyOut s then Ok PUBKEY_OUT
    else if isPublicKeyIn s then Ok PUBKEY_IN
    else if isPublicKeyHashOut s then Ok PUBKEYHASH_OUT
    else if isPublicKeyHashIn s then Ok PUBKEYHASH_IN
    else if isMultisigOut s then Ok MULTISIG_OUT
    else if isMultisigIn s then Ok MULTISIG_IN
    else sho ← isScriptHashOut s;
         if sho : bool then Ok SCRIPTHASH_OUT
         else shi ← isScriptHashIn s;
              if shi : bool then Ok SCRIPTHASH_IN
              else if isDataOut s then Ok DATA_OUT else Ok UNKNOWN.
Proof.
  intros Hs. unfold classify. cbn [classify_fuel]. repeat (case_match; [done|]).
  destruct (isScriptHashOut s) as [[]|]; cbn [mbind result_bind]; try done.
  unfold isScriptHashIn, classify. destruct (last (chunks s) ≫= buf) as [b|] eqn:Hl; [|done].
  assert (redeem_size s = length b) as Hsz by (unfold redeem_size; by rewrite Hl). rewrite Hsz in *.
  destruct (fromBuffer b) as [rs|] eqn:Hrs; [|done].
  apply redeem_size_fromBuffer in Hrs as [Hn|Hlt]; [| |done].
  - assert (redeem_size rs = 0%nat) as Hz by (unfold redeem_size; by rewrite Hn).
    rewrite <-(classify_fuel_mono 0 (length b) rs), <-(classify_fuel_mono 0 (S (redeem_size rs)) rs);
      auto; rewrite ?Hz; lia.
  - rewrite (classify_fuel_mono (S (redeem_size rs)) (length b) rs); auto; lia.
Qed.

Lemma hash_push h s : zlen h = 20 -> addBuffer h false s = Ok (mk (chunks s ++ [mkChunk 20 (Some (h, 20))]) (_network s)).
Proof.
  intros Hh. unfold addBuffer. rewrite Hh. done.
Qed.

Lemma p2pkh_chunks a : zlen (hashBuffer a) = 20 ->
  buildPublicKeyHashOut a = Ok (mk [op 118; op 169; mkChunk 20 (Some (hashBuffer a, 20)); op 136; op 172]
                                   (Some (addr_network a))).
Proof.
  intros Hh. unfold buildPublicKeyHashOut, adds, add, addByType, addOpcode, insertAtPosition. js_run.
  rewrite hash_push by done. done.
Qed.

Lemma p2sh_chunks a : zlen (hashBuffer a) = 20 -> addr_type a = PayToScriptHash ->
  buildScriptHashOut_address a = Ok (mk [op 169; mkChunk 20 (Some (hashBuffer a, 20)); op 135]
                                        (Some (addr_network a))).
Proof.
  intros Hh Ha. unfold buildScriptHashOut_address, adds, add, addByType, addOpcode, insertAtPosition.
  rewrite bool_decide_true by done. js_run. rewrite hash_push by done. done.
Qed.

(** Printing, chunk by chunk. *)
Lemma prints_op n cs net w : 0 <= n < 256 -> toBuffer (mk cs None) = Ok w -> toBuffer (mk (op n :: cs) net) = Ok (n :: w).
Proof. intros Hn Hw. rewrite toBuffer_network, toBuffer_cons, toBuffer_op, Hw by done. done. Qed.

Lemma prints_push n b cs net w : 1 <= n <= 75 -> toBuffer (mk cs None) = Ok w ->
  toBuffer (mk (mkChunk n (Some (b, n)) :: cs) net) = Ok (n :: b ++ w).
Proof.
  intros Hn Hw. rewrite toBuffer_network, toBuffer_cons, toBuffer_push, (writeUInt8_ok n), Hw by lia.
  by rewrite (proj2 (Z.ltb_lt n 76)), (proj2 (Z.ltb_lt n 79)) by lia.
Qed.

Lemma p2pkh_bytes h net :
  toBuffer (mk [op 118; op 169; mkChunk 20 (Some (h, 20)); op 136; op 172] net) = Ok (118 :: 169 :: 20 :: h ++ [136; 172]).
Proof. by repeat (apply prints_op || apply prints_push; [lia|]). Qed.

(** The output script paying to the hash of a script *)
Definition p2sh_script (h : list Z) (net : option network) : t :=
  mk [mkChunk 169 None; mkChunk 20 (Some (h, 20)); mkChunk 135 None] net.

Lemma p2sh_bytes h net :
  toBuffer (mk [op 169; mkChunk 20 (Some (h, 20)); op 135] net) = Ok (169 :: 20 :: h ++ [135]).
Proof. by repeat (apply prints_op || apply prints_push; [lia|]). Qed.

Lemma p2pkh_not_sh h net : zlen h = 20 ->
  isScriptHashOut (mk [op 118; op 169; mkChunk 20 (Some (h, 20)); op 136; op 172] net) = Ok false.
Proof.
  intros. unfold isScriptHashOut. rewrite p2pkh_bytes. cbn [mbind result_bind].
  rewrite !zlen_cons, zlen_app. change (zlen [136; 172]) with 2. rewrite H1. done.
Qed.

Lemma p2sh_is_sh h net : zlen h = 20 ->
  isScriptHashOut (mk [op 169; mkChunk 20 (Some (h, 20)); op 135] net) = Ok true.
Proof.
  intros. unfold isScriptHashOut. rewrite p2sh_bytes. cbn [mbind result_bind].
  rewrite !zlen_cons, zlen_app. change (zlen [135]) with 1. rewrite H1.
  assert (byte_at (169 :: 20 :: h ++ [135]) 22 = 135) as Hlast.
  { unfold byte_at. change (Z.to_nat 22) with 22%nat. cbn [nth].
    rewrite app_nth2; unfold zlen in H1; [|lia]. by replace (20 - length h)%nat with 0%nat by lia. }
  change (1 + (1 + (20 + 1)) - 1) with 22. by rewrite Hlast.
Qed.

(** the script built for an address leads back to the same address, hash and network
    included, for both kinds of addresses. *)
Theorem address_roundtrip a :
  zlen (hashBuffer a) = 20 ->
  exists s, fromAddress a = Ok s /\ toAddress None s = Ok (Some a).
Proof.
  destruct a as [h net []]; cbn [hashBuffer]; intros Hh; unfold fromAddress; cbn [addr_type].
  - eexists. split; [by apply p2pkh_chunks|]. unfold toAddress, getAddressInfo, getData.
    cbn [hashBuffer addr_network]. rewrite p2pkh_not_sh by done. cbn. by rewrite Hh.
  - eexists. split; [by apply p2sh_chunks|]. unfold toAddress, getAddressInfo, getData.
    cbn [hashBuffer addr_network]. by rewrite p2sh_is_sh by done.
Qed.

(** a pushed buffer of up to 65535 bytes passes [checkMinimalPush] exactly when it is not one
    of the values that have an opcode of their own ([_addBuffer] never uses [OP_1]..[OP_16] or
    [OP_1NEGATE]). *)
Theorem addBuffer_minimal b s :
  bytes_ok b -> zlen b < 2 ^ 16 ->
  exists s', addBuffer b false s = Ok s' /\
    checkMinimalPush (length (chunks s)) s' =
      Ok (negb ((zlen b =? 1) && ((1 <=? byte_at b 0) && (byte_at b 0 <=? 16) || (byte_at b 0 =? 0x81)))).
Proof.
  intros Hok Hb. pose proof (zlen_nonneg b) as Hb0. destruct (Z.eq_dec (zlen b) 0) as [Hz|Hz].
  { unfold addBuffer, checkMinimalPush. rewrite Hz. eexists. split; [done|].
    unfold insertAtPosition, upd. cbn [chunks]. rewrite list_lookup_middle by done. unfold chunk_minimal. cbn. by rewrite Hz. }
  destruct (addBuffer_ok b s) as (c & -> & _ & Hbuf & Hop & _); [lia|]. eexists. split; [done|].
  unfold checkMinimalPush. cbn [chunks]. rewrite list_lookup_middle by done. f_equal.
  unfold chunk_minimal. rewrite Hbuf, Hop, !Z.geb_leb. cbv zeta. rewrite (proj2 (Z.eqb_neq (zlen b) 0)) by lia.
  assert (byte_ok (byte_at b 0)) as Hb1.
  { unfold byte_at. destruct b; [done|]. by apply Forall_cons in Hok as [? _]. }
  unfold byte_ok in Hb1. set (x := byte_at b 0) in *. set (n := zlen b) in *.
  unfold Opcode.OP_1, Opcode.OP_1NEGATE, Opcode.OP_PUSHDATA1, Opcode.OP_PUSHDATA2.
  destruct (Z.eqb_spec n 1) as [->|Hn1]; cbn [andb].
  - destruct (Z.leb_spec 1 x), (Z.leb_spec x 16), (Z.eqb_spec x 129); cbn [andb orb negb]; try lia; try done.
    apply Z.eqb_neq. change (1 <? 76) with true. cbv iota. lia.
  - destruct (Z.ltb_spec n 76), (Z.leb_spec n 75), (Z.ltb_spec n (2 ^ 8)), (Z.leb_spec n 255), (Z.ltb_spec n (2 ^ 16)), (Z.leb_spec n 65535);
      try lia; try done. all: cbn; by rewrite Z.eqb_refl.
Qed.

(** The data pushes of a multisig script. *)
Definition key_push (k : list Z) : chunk := mkChunk (zlen k) (Some (k, zlen k)).

Lemma adds_keys ks s : Forall (fun k => zlen k <= 75) ks ->
  adds (IBuf <$> ks) s = Ok (mk (chunks s ++ (key_push <$> ks)) (_network s)).
Proof.
  revert s; induction ks as [|k ks IH]; intros s Hks.
  { cbn. rewrite app_nil_r. by destruct s. }
  apply Forall_cons in Hks as [Hk Hks]. cbn [fmap list_fmap adds]. unfold add, addByType, addBuffer.
  pose proof (zlen_nonneg k). unfold Opcode.OP_PUSHDATA1.
  rewrite (proj2 (Z.leb_le 0 _)), (proj2 (Z.ltb_lt (zlen k) 76)) by lia. cbn [andb mbind result_bind].
  unfold insertAtPosition, upd. rewrite IH by done. cbn [chunks _network]. by rewrite <-app_assoc.
Qed.

Lemma smallInt_ok n : 1 <= n <= 16 -> Opcode.smallInt n = Ok (80 + n).
Proof.
  intros. unfold Opcode.smallInt. rewrite (proj2 (Z.leb_le 0 n)), (proj2 (Z.leb_le n 16)) by lia. cbn.
  rewrite (proj2 (Z.eqb_neq n 0)) by lia. f_equal. unfold Opcode.OP_1. lia.
Qed.

Lemma multisig_chunks ks m : Forall (fun k => zlen k <= 75) ks -> 1 <= m <= zlen ks -> zlen ks <= 16 ->
  buildMultisigOut ks m true = Ok (mk (op (80 + m) :: (key_push <$> ks) ++ [op (80 + zlen ks); op 174]) None).
Proof.
  intros Hks Hm Hn. unfold buildMultisigOut. rewrite (proj2 (Z.leb_le m _)) by lia. cbn [guard_or mbind result_bind].
  rewrite (smallInt_ok m), (smallInt_ok (zlen ks)) by lia. unfold add, addByType. cbn [mbind result_bind].
  rewrite adds_keys by done. unfold addOpcode, insertAtPosition, upd.
  cbn -[zlen]. by rewrite <-app_assoc.
Qed.

(** The printed form of the pushes, and its size. *)
Definition keys_bytes (ks : list (list Z)) : list Z := ks ≫= fun k => zlen k :: k.

Lemma prints_keys ks cs w : Forall (fun k => 1 <= zlen k <= 75) ks -> toBuffer (mk cs None) = Ok w ->
  toBuffer (mk ((key_push <$> ks) ++ cs) None) = Ok (keys_bytes ks ++ w).
Proof.
  intros Hks Hw. induction ks as [|k ks IH]; [done|]. apply Forall_cons in Hks as [Hk Hks].
  cbn [fmap list_fmap app]. unfold key_push at 1. erewrite prints_push; [|done|by apply IH].
  unfold keys_bytes. cbn. by rewrite <-app_assoc.
Qed.

Lemma keys_bytes_length ks : Forall (fun k => 1 <= zlen k <= 75) ks -> zlen (keys_bytes ks) <= 76 * zlen ks.
Proof.
  induction ks as [|k ks IH]; intros Hks; [done|]. apply Forall_cons in Hks as [Hk Hks].
  unfold keys_bytes in *. cbn [mbind list_bind app]. rewrite !zlen_cons, zlen_app. specialize (IH Hks). lia.
Qed.

Lemma isMultisigOut_shape a l x y net : isMultisigOut (mk (a :: l ++ [x; y]) net) =
  (0 <? zlen l) && Opcode.isSmallIntOp (opcodenum a) && forallb (buf_is (fun _ => true)) l
  && Opcode.isSmallIntOp (opcodenum x) && (opcodenum y =? Opcode.OP_CHECKMULTISIG).
Proof.
  unfold isMultisigOut. cbn [chunks]. cbn [length]. rewrite length_app. cbn [length].
  replace (S (length l + 2) - 2)%nat with (S (length l)) by lia.
  replace (S (length l + 2) - 1)%nat with (S (S (length l))) by lia.
  replace (S (length l) - 1)%nat with (length l) by lia. rewrite skipn_cons, drop_0, take_app_length.
  assert ((a :: l ++ [x; y]) !! S (length l) = Some x) as ->.
  { rewrite lookup_cons. by apply list_lookup_middle. }
  assert ((a :: l ++ [x; y]) !! S (S (length l)) = Some y) as ->.
  { rewrite lookup_cons, lookup_app_r by lia. by replace (S (length l) - length l)%nat with 1%nat by lia. }
  change ((a :: l ++ [x; y]) !! 0%nat) with (Some a).
  unfold zlen. do 4 f_equal. destruct (Z.ltb_spec 3 (Z.of_nat (S (length l + 2)))), (Z.ltb_spec 0 (Z.of_nat (length l))); lia || done.
Qed.

(** The script built, its bytes and their parse *)
Lemma multisig_script ks m :
  Forall (fun k => 1 <= zlen k <= 75) ks -> 1 <= m <= zlen ks -> zlen ks <= 16 ->
  let s := mk (op (80 + m) :: (key_push <$> ks) ++ [op (80 + zlen ks); op 174]) None in
  buildMultisigOut ks m true = Ok s /\ isMultisigOut s = true
    /\ toBuffer s = Ok (80 + m :: keys_bytes ks ++ [80 + zlen ks; 174])
    /\ fromBuffer (80 + m :: keys_bytes ks ++ [80 + zlen ks; 174]) = Ok s.
Proof.
  intros Hks Hm Hn. assert (Forall (fun k => zlen k <= 75) ks) as Hks' by (apply (Forall_impl _ _ _ Hks); intros k Hk; cbv beta in *; lia).
  cbv zeta. rewrite multisig_chunks by done. split; [done|].
  assert (Forall wf_chunk (op (80 + m) :: (key_push <$> ks) ++ [op (80 + zlen ks); op 174])) as Hwf.
  { apply Forall_cons. split; [right; cbn [opcodenum]; lia|]. apply Forall_app. split.
    - apply Forall_fmap. eapply Forall_impl; [exact Hks|]. intros k Hk. cbv beta in Hk. unfold compose, wf_chunk, key_push; cbn [push opcodenum]. split; [done|left; lia].
    - apply Forall_cons; split; [right; cbn [opcodenum]; lia|]. apply Forall_cons; split; [by right|done]. }
  assert (toBuffer (mk (op (80 + m) :: (key_push <$> ks) ++ [op (80 + zlen ks); op 174]) None)
          = Ok (80 + m :: keys_bytes ks ++ [80 + zlen ks; 174])) as Hb.
  { apply prints_op, prints_keys; [lia|done|]. by repeat (apply prints_op; [lia|]). }
  split; [|split; [done|]].
  - rewrite isMultisigOut_shape. unfold zlen at 1. rewrite length_fmap. fold (zlen ks).
    rewrite (proj2 (Z.ltb_lt 0 _)) by lia. cbn [opcodenum].
    assert (forall n, 1 <= n <= 16 -> Opcode.isSmallIntOp (80 + n) = true) as Hs.
    { intros n ?. unfold Opcode.isSmallIntOp, Opcode.OP_0, Opcode.OP_1, Opcode.OP_16. rewrite Z.geb_leb.
      rewrite (proj2 (Z.leb_le _ _)), (proj2 (Z.leb_le (80 + n) 96)) by lia. by rewrite orb_true_r. }
    rewrite !Hs by lia.
    assert (forallb (buf_is (fun _ => true)) (key_push <$> ks) = true) as -> by (clear; induction ks; done). done.
  - destruct (fromBuffer_toBuffer _ Hwf) as (b & Hb' & Hp). rewrite Hb in Hb'. injection Hb' as <-. apply Hp.
    pose proof (keys_bytes_length ks Hks). rewrite zlen_cons, zlen_app. change (zlen [80 + zlen ks; 174]) with 2. lia.
Qed.

(** [buildMultisigOut] builds [OP_m key.. OP_n OP_CHECKMULTISIG], which [isMultisigOut]
    recognises, with these bytes, which parse back to the same script. *)
Theorem multisig_out ks m :
  Forall (fun k => 1 <= zlen k <= 75) ks -> 1 <= m <= zlen ks -> zlen ks <= 16 ->
  exists s, buildMultisigOut ks m true = Ok s /\ isMultisigOut s = true
    /\ toBuffer s = Ok (80 + m :: keys_bytes ks ++ [80 + zlen ks; 174])
    /\ fromBuffer (80 + m :: keys_bytes ks ++ [80 + zlen ks; 174]) = Ok s.
Proof. intros. eexists. by apply multisig_script. Qed.

(** Does the chunk print as these bytes? *)
Definition prints_as (b : list Z) (c : chunk) : Prop := toBuffer (mk [c] None) = Ok b.
#[local] Instance prints_as_dec b c : Decision (prints_as b c).
Proof.
  unfold prints_as. destruct (toBuffer (mk [c] None)) as [b'|e]; [|by right].
  destruct (decide (b' = b)) as [->|]; [by left|]. right. congruence.
Defined.

Fixpoint no_adjacent (b : list Z) (cs : list chunk) : Prop :=
  match cs with
  | c :: ((d :: _) as rest) => ~ (prints_as b c /\ prints_as b d) /\ no_adjacent b rest
  | _ => True
  end.

Lemma findAndDelete_loop_spec n b cs : (length cs <= n)%nat ->
  Forall (fun c => is_ok (toBuffer (mk [c] None)) = true) cs -> no_adjacent b cs ->
  findAndDelete_loop b cs = Ok (filter (fun c => ~ prints_as b c) cs).
Proof.
  revert cs; induction n as [|n IH]; intros cs Hn Hok Hadj; [by destruct cs; cbn in Hn; [|lia]|].
  destruct cs as [|c cs]; [done|]. apply Forall_cons in Hok as [Hc Hok]. cbn [findAndDelete_loop length] in *.
  destruct (toBuffer (mk [c] None)) as [b2|] eqn:Hb2; [|done]. cbn [mbind result_bind].
  case_bool_decide as Hb; subst.
  - rewrite filter_cons_False by (intros Hf; apply Hf, Hb2).
    destruct cs as [|d cs]; [done|]. destruct Hadj as [Hnd Hadj]. apply Forall_cons in Hok as [Hd Hok].
    assert (~ prints_as b2 d) as Hd' by naive_solver.
    rewrite filter_cons_True, IH; [done|cbn in Hn; lia|done|by destruct cs; [|destruct Hadj]|done].
  - rewrite filter_cons_True by (unfold prints_as; congruence).
    rewrite IH; [done|lia|done|by destruct cs; [|destruct Hadj]].
Qed.

(** [findAndDelete] removes every chunk that prints as the given script, provided no two
    such chunks are adjacent. *)
Theorem findAndDelete_removes script s b :
  toBuffer script = Ok b -> Forall (fun c => is_ok (toBuffer (mk [c] None)) = true) (chunks s) ->
  no_adjacent b (chunks s) ->
  findAndDelete script s = Ok (mk (filter (fun c => ~ prints_as b c) (chunks s)) (_network s)).
Proof.
  intros Hb Hok Hadj. unfold findAndDelete. rewrite Hb. cbn [mbind result_bind].
  by rewrite (findAndDelete_loop_spec (length (chunks s))).
Qed.

(** of two adjacent copies of the searched chunk only the first is removed, since the loop
    index moves past the chunk that slides into the gap. *)
Theorem findAndDelete_skips_adjacent c net :
  wf_chunk c -> findAndDelete (mk [c] None) (mk [c; c] net) = Ok (mk [c] net).
Proof.
  intros Hc. destruct (readChunk_at c (BufferReader.new []) [] Hc) as (w & Hw & _).
  unfold findAndDelete. rewrite Hw. cbn [mbind result_bind chunks findAndDelete_loop]. rewrite Hw.
  cbn [mbind result_bind]. by rewrite bool_decide_true.
Qed.

(** an opcode's printed name reads back as the opcode. *)
Theorem opcode_name_roundtrip n name : Opcode.toString n = Ok name -> Opcode.fromString name = Ok n.
Proof.
  unfold Opcode.toString. destruct (Opcode.reverseMap n) as [s|] eqn:Hs; [|done]. intros [= <-].
  assert (forall l acc, fold_left (fun acc p => if snd p =? n then Some (fst p) else acc) l acc = Some s ->
            (acc = Some s) \/ (s, n) ∈ l) as Hin.
  { induction l as [|[k v] l IH]; intros acc Hf; [by left|]. cbn [fold_left fst snd] in Hf.
    apply IH in Hf as [Hf|Hf]; [|right; by apply list_elem_of_further].
    destruct (Z.eqb_spec v n); [|by left]. simplify_eq. right. apply list_elem_of_here. }
  apply Hin in Hs as [|Hs]; [done|].
  assert (Forall (fun p => Opcode.fromString (fst p) = Ok (snd p)) Opcode.table) as Hall.
  { apply Forall_forall. intros p Hp. revert p Hp. apply Forall_forall. by repeat constructor. }
  rewrite Forall_forall in Hall. by apply (Hall (s, n)).
Qed.
End ScriptTheorems.

(** ** Witnesses *)

(** A concrete [Crypto]: digests that copy a checksum of their input, and compressed-key
    validity by length and prefix.  It only serves to run the definitions. *)
Definition checksum (b : list Z) : Z := fold_left (fun acc x => (acc * acc + 31 * acc + x + 7) mod 256) b 0.

Definition demo_crypto : Crypto := {|
  sha256ripemd160 b := repeat (checksum b) 20;
  sha256sha256 b := repeat (checksum b) 32;
  PublicKey_isValid b := (zlen b =? 33) && ((byte_at b 0 =? 2) || (byte_at b 0 =? 3));
|}.

Lemma checksum_ok b : byte_ok (checksum b).
Proof.
  unfold checksum. assert (forall acc, byte_ok acc -> byte_ok (fold_left (fun acc x => (acc * acc + 31 * acc + x + 7) mod 256) b acc)) as H.
  { induction b as [|x b IH]; intros acc Ha; [done|]. cbn. apply IH. unfold byte_ok. apply Z.mod_pos_bound. lia. }
  apply H. unfold byte_ok. lia.
Qed.

Lemma demo_laws : @CryptoLaws demo_crypto.
Proof.
  split; intros b; try done; cbn -[repeat]; rewrite Forall_forall; intros x Hx%list_elem_of_In%repeat_spec; subst;
    apply checksum_ok.
Qed.

Section ScriptWitnesses.
Import Script ScriptLemmas.

(** A script whose last push is cut short: announced 5 bytes, 2 present. *)
Lemma script_print_parse_witness :
  exists s, fromBuffer [118; 5; 1; 2] = Ok s /\ toBuffer s = Ok [118; 5; 1; 2].
Proof.
  eexists. split; [vm_compute; reflexivity|].
  apply (script_print_parse [118; 5; 1; 2]);
    [repeat constructor; unfold byte_ok; lia|vm_compute; reflexivity|vm_compute; reflexivity|].
  repeat constructor; vm_compute; reflexivity.
Defined.

Lemma script_parse_print_witness : exists b,
  toBuffer (mk [op 118; mkChunk 2 (Some ([7; 8], 2))] None) = Ok b
  /\ (zlen b < 2 ^ 31 -> fromBuffer b = Ok (mk [op 118; mkChunk 2 (Some ([7; 8], 2))] None)).
Proof.
  apply (script_parse_print [op 118; mkChunk 2 (Some ([7; 8], 2))]).
  repeat (apply Forall_cons; split); [right; cbn; lia|split; [reflexivity|left; cbn; lia]|apply Forall_nil; exact I].
Defined.

Lemma script_parse_errors_witness :
  fromBuffer [76] = Throw (BitcoreError "Script.InvalidBuffer")
  /\ BitcoreError "Script.InvalidBuffer" = BitcoreError "Script.InvalidBuffer".
Proof.
  split; [vm_compute; reflexivity|].
  apply (script_parse_errors [76]). vm_compute; reflexivity.
Defined.

Lemma classify_equation_witness :
  @classify demo_crypto (mk [mkChunk 3 (Some ([106; 1; 5], 3))] None) = Ok SCRIPTHASH_IN.
Proof.
  rewrite (@classify_equation demo_crypto (mk [mkChunk 3 (Some ([106; 1; 5], 3))] None));
    vm_compute; reflexivity.
Defined.

Lemma address_roundtrip_witness : exists s,
  fromAddress (mkAddress (repeat 9 20) testnet PayToScriptHash) = Ok s
  /\ @toAddress demo_crypto None s = Ok (Some (mkAddress (repeat 9 20) testnet PayToScriptHash)).
Proof. apply (@address_roundtrip demo_crypto). vm_compute; reflexivity. Defined.

Lemma addBuffer_minimal_witness : exists s',
  addBuffer [16] false empty = Ok s' /\ checkMinimalPush 0 s' = Ok false.
Proof.
  apply (addBuffer_minimal [16] empty); [|vm_compute; reflexivity].
  apply Forall_cons; split; [unfold byte_ok; lia|apply Forall_nil; exact I].
Defined.

Lemma multisig_out_witness : exists s,
  buildMultisigOut [repeat 2 33; repeat 3 33] 2 true = Ok s /\ isMultisigOut s = true
  /\ toBuffer s = Ok (82 :: keys_bytes [repeat 2 33; repeat 3 33] ++ [82; 174])
  /\ fromBuffer (82 :: keys_bytes [repeat 2 33; repeat 3 33] ++ [82; 174]) = Ok s.
Proof.
  apply (multisig_out [repeat 2 33; repeat 3 33] 2); [|vm_compute; split; discriminate|vm_compute; discriminate].
  repeat (apply Forall_cons; split; [vm_compute; split; discriminate|]). apply Forall_nil; exact I.
Defined.

Lemma findAndDelete_removes_witness :
  findAndDelete (mk [op 171] None) (mk [op 171; op 118; op 171] None) = Ok (mk [op 118] None).
Proof.
  rewrite (findAndDelete_removes (mk [op 171] None) (mk [op 171; op 118; op 171] None) [171]);
    [vm_compute; reflexivity|vm_compute; reflexivity|repeat constructor|].
  split; [|split; [|exact I]]; unfold prints_as; vm_compute; intros [? ?]; discriminate.
Defined.

Lemma findAndDelete_skips_adjacent_witness :
  findAndDelete (mk [op 171] None) (mk [op 171; op 171] None) = Ok (mk [op 171] None).
Proof. apply (findAndDelete_skips_adjacent (op 171) None). right. cbn. lia. Defined.

Lemma opcode_name_roundtrip_witness : Opcode.fromString "OP_1" = Ok 81.
Proof. apply (opcode_name_roundtrip 81 "OP_1"). vm_compute; reflexivity. Defined.
End ScriptWitnesses.
