(* ===== verification/Base58.v ===== *)
(** * Base58 text

    Models module 211 ([bs58]), module 12 ([Base58]) and module 13 ([Base58Check]) of
    [src/Sources/WebClient/js/bitcore.js], and the hexadecimal text of buffers.  Both directions of
    base58 are one conversion between radixes, read twice: the section [Radix] has that conversion
    and its round trip, and [encode_byte] / [decode_char] are shown to be its steps. *)
From S2P Require Import Prelude JsNumber Encoding Script.
From Stdlib Require Import Ascii String.
Local Open Scope Z_scope.
Local Open Scope js_scope.

(** ** Hexadecimal text *)
Module Hex.

(** [d.toString(16)] below sixteen, and back *)
Definition digit (d : Z) : ascii := ascii_of_N (Z.to_N (if d <? 10 then 48 + d else 87 + d)).
Definition digit_value (c : ascii) : option Z :=
  let n := Z.of_N (N_of_ascii c) in
  if (48 <=? n) && (n <=? 57) then Some (n - 48) else if (97 <=? n) && (n <=? 102) then Some (n - 87)
  else if (65 <=? n) && (n <=? 70) then Some (n - 55) else None.

Definition toHex (n : Z) : string :=
  if n <? 16 then String "0" (String (digit n) EmptyString)
  else String (digit (n / 16)) (String (digit (n mod 16)) EmptyString).

(** [buffer.toString('hex')] *)
Fixpoint hexSlice (buf : list Z) : string :=
  match buf with
  | [] => EmptyString
  | b :: buf => (toHex b ++ hexSlice buf)%string
  end.

Definition is_space (c : ascii) : bool :=
  let n := Z.of_N (N_of_ascii c) in ((9 <=? n) && (n <=? 13)) || (n =? 32) || (n =? 160).

(** [parseInt(c1 + c2, 16)]: white space and a sign may come first, a second character that is no
    digit ends the number, and [0x] alone is none. *)
Definition parse_pair (c1 c2 : ascii) : option Z :=
  match digit_value c1, digit_value c2 with
  | Some a, Some b => Some (16 * a + b)
  | Some a, None => if (a =? 0) && (bool_decide (c2 = "x"%char) || bool_decide (c2 = "X"%char)) then None else Some a
  | None, Some b =>
      if is_space c1 || bool_decide (c1 = "+"%char) then Some b
      else if bool_decide (c1 = "-"%char) then Some (- b) else None
  | None, None => None
  end.

(** [new Buffer(string, 'hex')]; a byte is stored modulo 256. *)
Fixpoint hexWrite (string : string) : result (list Z) :=
  match string with
  | EmptyString => Ok []
  | String _ EmptyString => Throw (ErrorMessage "Invalid hex string")
  | String c1 (String c2 string) =>
      match parse_pair c1 c2 with
      | None => Throw (ErrorMessage "Invalid hex string")
      | Some byte => buf ← hexWrite string; Ok (byte mod 256 :: buf)
      end
  end.

(** [JSUtil.isHexa] *)
Definition isHexa (value : string) : bool :=
  negb (bool_decide (value = EmptyString))
  && forallb (fun c => bool_decide (is_Some (digit_value c))) (list_ascii_of_string value).

Lemma digit_digit_value d : 0 <= d < 16 -> digit_value (digit d) = Some d.
Proof.
  intros Hd. assert (Forall (fun d => digit_value (digit d) = Some d) (seqZ 0 16)) as Hall by (apply (bool_decide_unpack _); by vm_compute).
  rewrite Forall_forall in Hall. apply Hall, elem_of_seqZ. lia.
Qed.

Lemma toHex_eq b : byte_ok b -> toHex b = String (digit (b / 16)) (String (digit (b mod 16)) EmptyString).
Proof. intros Hb. unfold byte_ok, toHex in *. destruct (Z.ltb_spec b 16); [|done]. by rewrite Z.div_small, Z.mod_small by lia. Qed.

Lemma hexSlice_cons b l : byte_ok b -> hexSlice (b :: l) = String (digit (b / 16)) (String (digit (b mod 16)) (hexSlice l)).
Proof. intros Hb. cbn [hexSlice]. by rewrite toHex_eq. Qed.

(** Bytes written in hexadecimal are read back. *)
Lemma hex_roundtrip b : bytes_ok b -> hexWrite (hexSlice b) = Ok b.
Proof.
  induction 1 as [|x b Hx _ IH]; [done|]. rewrite hexSlice_cons by done. unfold byte_ok in Hx.
  cbn [hexWrite]. unfold parse_pair. rewrite !digit_digit_value by zlia. rewrite IH. cbn. do 2 f_equal. zlia.
Qed.

Lemma isHexa_hexSlice b : bytes_ok b -> b <> [] -> isHexa (hexSlice b) = true.
Proof.
  intros Hb Hne. unfold isHexa. rewrite bool_decide_false.
  - cbn [negb andb]. clear Hne. induction Hb as [|x b Hx _ IH]; [done|]. rewrite hexSlice_cons by done. unfold byte_ok in Hx.
    cbn [list_ascii_of_string forallb]. rewrite IH, !digit_digit_value by zlia. by rewrite !bool_decide_true by eauto.
  - destruct Hb as [|x b Hx _]; [done|]. by rewrite hexSlice_cons.
Qed.

End Hex.

(** ** bs58 *)
Module bs58.

Definition ALPHABET : string := "123456789ABCDEFGHJKLMNPQRSTUVWXYZabcdefghijkmnopqrstuvwxyz".
Definition BASE : Z := 58.

(** [ALPHABET_MAP[c]], [None] for a character the table lacks *)
Fixpoint index_of (c : ascii) (s : string) (i : Z) : option Z :=
  match s with
  | EmptyString => None
  | String c' s => if bool_decide (c = c') then Some i else index_of c s (i + 1)
  end.
Definition ALPHABET_MAP (c : ascii) : option Z := index_of c ALPHABET 0.

(** [ALPHABET[digit]] *)
Definition letter (digit : Z) : string :=
  match String.get (Z.to_nat digit) ALPHABET with Some c => String c EmptyString | None => "undefined" end.

(** The loop [for (i = 0; a[i] === z && i < a.length - 1; i++) push]: how often it pushes *)
Fixpoint leading {A} (z : A -> bool) (a : list A) : nat :=
  match a with
  | [] => 0
  | x :: a => match a with [] => 0 | _ => if z x then S (leading z a) else 0 end
  end.

(** [a[0] += x] *)
Definition add_first (x : Z) (a : list Z) : list Z := match a with [] => [] | d :: a => d + x :: a end.

(** *** encode *)

(** The inner loop of [encode], and the carry it leaves *)
Fixpoint carry_digits (digits : list Z) (carry : Z) : list Z * Z :=
  match digits with
  | [] => ([], carry)
  | d :: digits =>
      let d := d + carry in
      let carry := wrap32 (Z.quot d BASE) in
      let (digits, carry) := carry_digits digits carry in (Z.rem d BASE :: digits, carry)
  end.

(** [while (carry)]: the carry is a 32-bit integer, so 32 turns are enough. *)
Fixpoint push_digits (fuel : nat) (carry : Z) : list Z :=
  match fuel with
  | O => []
  | S fuel => if carry =? 0 then [] else Z.rem carry BASE :: push_digits fuel (wrap32 (Z.quot carry BASE))
  end.

(** One turn of the outer loop *)
Definition encode_byte (digits : list Z) (x : Z) : list Z :=
  let digits := map (fun d => wrap32 (Z.shiftl d 8)) digits in
  let (digits, carry) := carry_digits (add_first x digits) 0 in
  digits ++ push_digits 32 carry.

Definition encode (buffer : list Z) : string :=
  if zlen buffer =? 0 then ""
  else
    let digits := fold_left encode_byte buffer [0] in
    let digits := digits ++ repeat 0 (leading (Z.eqb 0) buffer) in
    String.concat "" (map letter (rev digits)).

(** *** decode *)

Fixpoint carry_bytes (bytes : list Z) (carry : Z) : list Z * Z :=
  match bytes with
  | [] => ([], carry)
  | b :: bytes =>
      let b := b + carry in
      let carry := Z.shiftr b 8 in
      let (bytes, carry) := carry_bytes bytes carry in (Z.land b 0xff :: bytes, carry)
  end.

Fixpoint push_bytes (fuel : nat) (carry : Z) : list Z :=
  match fuel with
  | O => []
  | S fuel => if carry =? 0 then [] else Z.land carry 0xff :: push_bytes fuel (Z.shiftr carry 8)
  end.

(** One turn of the outer loop, for a character of the alphabet *)
Definition decode_digit (bytes : list Z) (x : Z) : list Z :=
  let bytes := map (fun b => b * BASE) bytes in
  let (bytes, carry) := carry_bytes (add_first x bytes) 0 in
  bytes ++ push_bytes 32 carry.

Fixpoint decode_loop (string : list ascii) (bytes : list Z) : result (list Z) :=
  match string with
  | [] => Ok bytes
  | c :: string =>
      match ALPHABET_MAP c with
      | None => Throw (ErrorMessage "Non-base58 character")
      | Some x => decode_loop string (decode_digit bytes x)
      end
  end.

Definition decode (string : string) : result (list Z) :=
  let chars := list_ascii_of_string string in
  if zlen chars =? 0 then Ok []
  else
    bytes ← decode_loop chars [0];
    Ok (rev (bytes ++ repeat 0 (leading (fun c => bool_decide (c = "1"%char)) chars))).

End bs58.

Module Base58.

(** [validCharacters] *)
Definition validCharacters (chars : string) : bool :=
  forallb (fun c => bool_decide (is_Some (bs58.ALPHABET_MAP c))) (list_ascii_of_string chars).

Definition encode (buf : list Z) : string := bs58.encode buf.
Definition decode (str : string) : result (list Z) := bs58.decode str.

End Base58.

(** ** Base58Check *)
Module Base58Check.
Section WithCrypto.
Context `{Crypto}.

Definition checksum (buffer : list Z) : list Z := Buf.slice 0 4 (sha256sha256 buffer).

(** [source.copy(target, start)], as far as the target reaches *)
Definition copy (source target : list Z) (start : Z) : list Z :=
  ztake start target ++ ztake (zlen target - start) source ++ zdrop (start + zlen source) target.

Definition encode (buf : list Z) : string :=
  let checkedBuf := repeat 0 (Z.to_nat (zlen buf + 4)) in
  let hash := checksum buf in
  let checkedBuf := copy buf checkedBuf 0 in
  let checkedBuf := copy hash checkedBuf (zlen buf) in
  Base58.encode checkedBuf.

(** Buffers are compared by their hexadecimal text, which is to compare their bytes. *)
Definition decode (s : string) : result (list Z) :=
  buf ← Base58.decode s;
  guard_or (ErrorMessage "Input string too short") (negb (zlen buf <? 4));;
  let data := Buf.slice 0 (-4) buf in
  let csum := Buf.slice_from (-4) buf in
  let hash4 := Buf.slice 0 4 (sha256sha256 data) in
  guard_or (ErrorMessage "Checksum mismatch") (bool_decide (csum = hash4));;
  Ok data.

(** [validChecksum(data, checksum)] on a string: without a checksum the last four bytes are it. *)
Definition validChecksum (data : string) (checksum_ : option string) : result bool :=
  data ← Base58.decode data;
  match checksum_ with
  | Some c => c ← Base58.decode c; Ok (bool_decide (checksum data = c))
  | None =>
      let c := Buf.slice_from (-4) data in
      Ok (bool_decide (checksum (Buf.slice 0 (-4) data) = c))
  end.

End WithCrypto.
End Base58Check.

(** ** Conversion between radixes *)
Section Radix.

(** The value of little-endian digits *)
Fixpoint value (b : Z) (l : list Z) : Z := match l with [] => 0 | d :: l => d + b * value b l end.

Definition digit_ok (b d : Z) : Prop := 0 <= d < b.

(** The digits [bs58] keeps: at least one, and no zero on top of others *)
Definition canonical (b : Z) (l : list Z) : Prop :=
  l <> [] /\ Forall (digit_ok b) l /\ (zlen l = 1 \/ b ^ (zlen l - 1) <= value b l).

(** Multiply by [m] and add [c], in base [b]; the digits the loop reaches and the carry *)
Fixpoint carry_through (m b : Z) (l : list Z) (c : Z) : list Z * Z :=
  match l with
  | [] => ([], c)
  | d :: l =>
      let v := d * m + c in
      let (l, c) := carry_through m b l (v / b) in (v mod b :: l, c)
  end.

Fixpoint push_carry (b : Z) (fuel : nat) (c : Z) : list Z :=
  match fuel with
  | O => []
  | S fuel => if c =? 0 then [] else c mod b :: push_carry b fuel (c / b)
  end.

Definition radix_step (m b : Z) (l : list Z) (x : Z) : list Z :=
  let (l, c) := carry_through m b l x in l ++ push_carry b 32 c.

(** The digits [a], most significant first, from base [m] to base [b] *)
Definition convert (m b : Z) (a : list Z) : list Z :=
  rev (fold_left (radix_step m b) a [0] ++ repeat 0 (bs58.leading (Z.eqb 0) a)).

Lemma value_app b l k : value b (l ++ k) = value b l + b ^ zlen l * value b k.
Proof.
  induction l as [|d l IH]; cbn [value app]; [change (zlen (@nil Z)) with 0; lia|].
  rewrite IH, zlen_cons, Z.pow_add_r by (pose proof (zlen_nonneg l); lia). lia.
Qed.

Lemma value_256 l : value 256 l = le_value l.
Proof. induction l as [|d l IH]; cbn [value le_value]; [done|]. by rewrite IH. Qed.

Lemma value_zeros b l k : value b (l ++ repeat 0 k) = value b l.
Proof. rewrite value_app. assert (value b (repeat 0 k) = 0) as -> by (induction k; cbn; lia). lia. Qed.

Context (b : Z) (Hb : 2 <= b).

Lemma value_bound l : Forall (digit_ok b) l -> 0 <= value b l < b ^ zlen l.
Proof.
  induction 1 as [|d l Hd _ IH]; cbn [value]; [change (zlen (@nil Z)) with 0; lia|].
  rewrite zlen_cons, Z.pow_add_r by (pose proof (zlen_nonneg l); lia). unfold digit_ok in Hd. nia.
Qed.

Lemma carry_through_spec m l c : 0 < m -> 0 <= c -> Forall (digit_ok b) l ->
  let r := carry_through m b l c in
  value b (fst r) + b ^ zlen l * snd r = m * value b l + c
  /\ Forall (digit_ok b) (fst r) /\ zlen (fst r) = zlen l /\ 0 <= snd r /\ (c < m -> snd r < m).
Proof.
  intros Hm. revert c. induction l as [|d l IH]; intros c Hc Hl; cbv zeta.
  { cbn [carry_through fst snd value]. change (zlen (@nil Z)) with 0. repeat split; [lia|done..|lia|lia]. }
  apply Forall_cons in Hl as [Hd Hl]. unfold digit_ok in Hd. cbn [carry_through].
  assert (0 <= (d * m + c) / b) as Hq by (apply Z.div_pos; nia).
  specialize (IH _ Hq Hl). cbv zeta in IH. destruct (carry_through m b l ((d * m + c) / b)) as [r c'].
  cbn [fst snd value] in *. destruct IH as (Hv & Hr & Hlen & Hc' & Hlt).
  pose proof (Z.mod_pos_bound (d * m + c) b ltac:(lia)). pose proof (Z.div_mod (d * m + c) b ltac:(lia)).
  rewrite !zlen_cons, Z.pow_add_r, Z.pow_1_r by (pose proof (zlen_nonneg l); lia).
  apply (f_equal (Z.mul b)) in Hv. split; [lia|]. split; [by constructor|]. split; [lia|]. split; [done|].
  intros Hcm. apply Hlt. apply Z.div_lt_upper_bound; nia.
Qed.

Lemma push_carry_spec fuel c : 0 <= c < 2 ^ Z.of_nat fuel ->
  let r := push_carry b fuel c in
  value b r = c /\ Forall (digit_ok b) r /\ (r <> [] -> b ^ (zlen r - 1) <= c).
Proof.
  revert c. induction fuel as [|fuel IH]; intros c Hc; cbv zeta.
  { change (2 ^ Z.of_nat 0) with 1 in Hc. cbn. repeat split; [lia|done|done]. }
  cbn [push_carry]. destruct (Z.eqb_spec c 0) as [->|Hne]; [cbn; done|].
  rewrite Nat2Z.inj_succ, Z.pow_succ_r in Hc by lia.
  destruct (IH (c / b)) as (Hv & Hr & Hp).
  { split; [apply Z.div_pos; lia|]. apply Z.div_lt_upper_bound; nia. }
  pose proof (Z.mod_pos_bound c b ltac:(lia)). pose proof (Z.div_mod c b ltac:(lia)).
  set (r := push_carry b fuel (c / b)) in *. cbn [value]. repeat split; [lia|by constructor|].
  intros _. rewrite zlen_cons. replace (1 + zlen r - 1) with (zlen r) by lia.
  destruct (decide (r = [])) as [->|Hr']; [change (b ^ zlen []) with 1; lia|].
  specialize (Hp Hr'). assert (1 <= zlen r) by (destruct r; [done|rewrite zlen_cons; pose proof (zlen_nonneg r); lia]).
  replace (zlen r) with (1 + (zlen r - 1)) by lia. rewrite Z.pow_add_r by lia. nia.
Qed.

(** A step multiplies and adds, and keeps digits canonical. *)
Lemma radix_step_spec m l x : 0 < m < 2 ^ 32 -> digit_ok m x -> canonical b l ->
  canonical b (radix_step m b l x) /\ value b (radix_step m b l x) = m * value b l + x.
Proof.
  intros Hm Hx (Hne & Hl & Hc). unfold radix_step, digit_ok in *.
  destruct (carry_through_spec m l x ltac:(lia) ltac:(lia) Hl) as (Hv & Hd & Hlen & H0 & Hlt). specialize (Hlt ltac:(lia)).
  destruct (carry_through m b l x) as [r c]. cbn [fst snd] in *.
  destruct (push_carry_spec 32 c ltac:(lia)) as (Hpv & Hpd & Hpp). set (p := push_carry b 32 c) in *.
  assert (value b (r ++ p) = m * value b l + x) as Hval by (rewrite value_app, Hlen, Hpv; lia).
  split; [|done]. assert (1 <= zlen l) by (destruct l; [done|rewrite zlen_cons; pose proof (zlen_nonneg l); lia]).
  pose proof (value_bound l Hl). repeat split.
  - intros [-> ->]%app_nil. change (zlen (@nil Z)) with 0 in Hlen. lia.
  - by apply Forall_app.
  - rewrite Hval, zlen_app, Hlen. destruct (decide (p = [])) as [->|Hp].
    + change (zlen (@nil Z)) with 0. rewrite Z.add_0_r. destruct Hc as [->|Hc]; [by left|]. right. nia.
    + right. specialize (Hpp Hp). assert (1 <= zlen p) by (destruct p; [done|rewrite zlen_cons; pose proof (zlen_nonneg p); lia]).
      replace (zlen l + zlen p - 1) with (zlen l + (zlen p - 1)) by lia. rewrite Z.pow_add_r by lia.
      assert (0 <= value b r) by (by apply value_bound). assert (0 < b ^ zlen l) by (apply Z.pow_pos_nonneg; lia). nia.
Qed.

Lemma canonical_zero : canonical b [0].
Proof. repeat split; [done| |by left]. repeat constructor; unfold digit_ok; lia. Qed.

Lemma radix_steps_spec m a l : 0 < m < 2 ^ 32 -> Forall (digit_ok m) a -> canonical b l ->
  canonical b (fold_left (radix_step m b) a l)
  /\ value b (fold_left (radix_step m b) a l) = m ^ zlen a * value b l + value m (rev a).
Proof.
  intros Hm Ha. revert l. induction Ha as [|x a Hx _ IH]; intros l Hl; cbn [fold_left rev].
  { split; [done|]. change (zlen (@nil Z)) with 0. cbn [value]. lia. }
  destruct (radix_step_spec m l x Hm Hx Hl) as [Hc Hv]. destruct (IH _ Hc) as [Hc' ->]. split; [done|].
  rewrite Hv, value_app, zlen_cons, Z.pow_add_r by (pose proof (zlen_nonneg a); lia).
  cbn [value]. unfold zlen. rewrite length_rev. lia.
Qed.

Lemma value_inj l k : Forall (digit_ok b) l -> Forall (digit_ok b) k -> zlen l = zlen k -> value b l = value b k -> l = k.
Proof.
  intros Hl. revert k. induction Hl as [|d l Hd _ IH]; intros [|e k] Hk Hlen Hv; try done.
  apply Forall_cons in Hk as [He Hk]. cbn [value] in Hv. rewrite !zlen_cons in Hlen. unfold digit_ok in *.
  assert (d = e) as ->.
  { assert ((d + b * value b l) mod b = (e + b * value b k) mod b) as Hm by (by rewrite Hv).
      rewrite !(Z.mul_comm b), !Z.mod_add, !Z.mod_small in Hm by lia. done. }
  f_equal. apply IH; [done|lia|nia].
Qed.

Lemma canonical_lt l k : canonical b l -> canonical b k -> zlen l < zlen k -> value b l < value b k.
Proof.
  intros (Hl1 & Hl & _) (_ & Hk & Hc) Hlt. pose proof (value_bound l Hl).
  assert (1 <= zlen l) by (destruct l; [done|rewrite zlen_cons; pose proof (zlen_nonneg l); lia]).
  destruct Hc as [Hc|Hc]; [lia|]. assert (b ^ zlen l <= b ^ (zlen k - 1)) by (apply Z.pow_le_mono_r; lia). lia.
Qed.

(** Canonical digits are determined by their value. *)
Lemma canonical_inj l k : canonical b l -> canonical b k -> value b l = value b k -> l = k.
Proof.
  intros Hl Hk Hv. destruct (Z.lt_trichotomy (zlen l) (zlen k)) as [Hlt|[Heq|Hlt]].
  - pose proof (canonical_lt l k Hl Hk Hlt). lia.
  - apply value_inj; [apply Hl|apply Hk|done|done].
  - pose proof (canonical_lt k l Hk Hl Hlt). lia.
Qed.
End Radix.

(** ** The conversion is its own inverse *)

Lemma leading_zeros k l : l <> [] -> bs58.leading (Z.eqb 0) (repeat 0 k ++ l) = (k + bs58.leading (Z.eqb 0) l)%nat.
Proof.
  intros Hl. induction k as [|k IH]; [done|]. cbn [repeat app bs58.leading]. rewrite IH.
  destruct (repeat 0 k ++ l) eqn:E; [|done]. apply app_nil in E as [_ ->]. done.
Qed.

Section Inverse.
Context (m : Z) (Hm : 2 <= m).

Lemma canonical_no_zeros c : canonical m c -> bs58.leading (Z.eqb 0) (rev c) = O.
Proof.
  intros (Hne & Hd & Hc). destruct c as [|d c _] using rev_ind; [done|]. clear Hne. rewrite rev_app_distr. cbn [rev app bs58.leading].
  destruct (Z.eqb_spec 0 d) as [<-|]; [|by destruct (rev c)].
  destruct (rev c) eqn:E; [done|exfalso]. assert (c <> []) as Hcne by (by intros ->).
  apply Forall_app in Hd as [Hd _]. pose proof (value_bound m Hm c Hd) as Hb.
  rewrite value_app, zlen_app in Hc. change (zlen [0]) with 1 in Hc. cbn [value] in Hc.
  replace (zlen c + 1 - 1) with (zlen c) in Hc by lia.
  destruct Hc as [Hc|Hc]; [|lia]. destruct c; [done|]. rewrite zlen_cons in Hc. pose proof (zlen_nonneg c). lia.
Qed.

(** Digits are zeros before the digits of their value. *)
Lemma canonical_split a : Forall (digit_ok m) a -> a <> [] ->
  exists c, canonical m c /\ a = repeat 0 (bs58.leading (Z.eqb 0) a) ++ rev c.
Proof.
  induction 1 as [|x a Hx Ha IH]; intros Hne; [done|]. cbn [bs58.leading].
  destruct (decide (a = [])) as [->|Hane].
  { exists [x]. repeat split; [done|by apply Forall_singleton|by left]. }
  destruct (IH Hane) as (c & Hc & He). destruct a as [|y a']; [done|]. set (a := y :: a') in *.
  destruct (Z.eqb_spec 0 x) as [<-|Hnz]; [by exists c; split; [|cbn [repeat app]; f_equal]|].
  exists (rev (x :: a)). rewrite rev_involutive. split; [|done]. cbn [rev]. repeat split.
  - intros [_ ?]%app_nil. done.
  - apply Forall_app. split; [by apply Forall_rev|by apply Forall_singleton].
  - right. rewrite value_app, zlen_app. change (zlen [x]) with 1. cbn [value].
    replace (zlen (rev a) + 1 - 1) with (zlen (rev a)) by lia. unfold digit_ok in Hx.
    pose proof (value_bound m Hm (rev a) ltac:(by apply Forall_rev)).
    assert (0 < m ^ zlen (rev a)) by (apply Z.pow_pos_nonneg; [lia|apply zlen_nonneg]). nia.
Qed.

Context (b : Z) (Hb : 2 <= b) (Hm32 : m < 2 ^ 32) (Hb32 : b < 2 ^ 32).

(** What a conversion computes: as many zeros as before, then the digits of the same value. *)
Lemma convert_spec a : Forall (digit_ok m) a -> exists c,
  canonical b c /\ value b c = value m (rev a) /\ convert m b a = repeat 0 (bs58.leading (Z.eqb 0) a) ++ rev c.
Proof.
  intros Ha. destruct (radix_steps_spec b Hb m a [0] ltac:(lia) Ha (canonical_zero b Hb)) as [Hc Hv].
  exists (fold_left (radix_step m b) a [0]). split; [done|]. split; [rewrite Hv; cbn [value]; lia|].
  unfold convert. by rewrite rev_app_distr, rev_repeat.
Qed.

Lemma convert_ok a : Forall (digit_ok m) a -> Forall (digit_ok b) (convert m b a) /\ convert m b a <> [].
Proof.
  intros Ha. destruct (convert_spec a Ha) as (c & (Hne & Hc & _) & _ & ->). split.
  - apply Forall_app. split; [|by apply Forall_rev]. apply Forall_forall. intros x Hx.
    apply list_elem_of_In, repeat_spec in Hx as ->. unfold digit_ok. lia.
  - intros [_ Hr]%app_nil. apply (f_equal (@rev Z)) in Hr. rewrite rev_involutive in Hr. done.
Qed.
End Inverse.

Lemma convert_inverse m b a : 2 <= m < 2 ^ 32 -> 2 <= b < 2 ^ 32 -> Forall (digit_ok m) a -> a <> [] ->
  convert b m (convert m b a) = a.
Proof.
  intros [Hm Hm32] [Hb Hb32] Ha Hne.
  destruct (convert_spec m Hm b Hb Hm32 a Ha) as (c & Hc & Hv & He).
  destruct (convert_ok m Hm b Hb Hm32 a Ha) as [Hd Hne'].
  destruct (convert_spec b Hb m Hm Hb32 (convert m b a) Hd) as (c' & Hc' & Hv' & ->).
  destruct (canonical_split m Hm a Ha Hne) as (c0 & Hc0 & Ha0). set (k := bs58.leading (Z.eqb 0) a) in *.
  assert (bs58.leading (Z.eqb 0) (convert m b a) = k) as ->.
  { rewrite He, leading_zeros by (destruct Hc as [Hcne _]; intros Hr; apply (f_equal (@rev Z)) in Hr; rewrite rev_involutive in Hr; done).
    rewrite (canonical_no_zeros b) by done. lia. }
  rewrite Ha0. do 2 f_equal. apply (canonical_inj m); [done..|].
  rewrite Hv', He, rev_app_distr, rev_involutive, rev_repeat, value_zeros, Hv, Ha0.
  by rewrite rev_app_distr, rev_involutive, rev_repeat, value_zeros.
Qed.

(** ** The loops of bs58 are conversions *)

Lemma carry_digits_radix l c x : Forall (digit_ok 58) l -> 0 <= c -> 0 <= x -> c + x < 256 ->
  bs58.carry_digits (bs58.add_first x (map (fun d => wrap32 (Z.shiftl d 8)) l)) c
  = carry_through 256 58 l (match l with [] => c | _ => c + x end).
Proof.
  assert (forall l c, Forall (digit_ok 58) l -> 0 <= c < 256 ->
    bs58.carry_digits (map (fun d => wrap32 (Z.shiftl d 8)) l) c = carry_through 256 58 l c) as Hl.
  { clear. induction l as [|d l IH]; intros c Hl Hc; [done|]. apply Forall_cons in Hl as [Hd Hl]. unfold digit_ok in Hd.
    cbn [map bs58.carry_digits carry_through]. rewrite Z.shiftl_mul_pow2 by lia. change (2 ^ 8) with 256. unfold wrap32, bs58.BASE.
    rewrite (Z.mod_small (d * 256 + 2 ^ 31)) by lia. rewrite Z.add_simpl_r. rewrite Z.quot_div_nonneg, Z.rem_mod_nonneg by lia.
    rewrite (Z.mod_small (_ / 58 + 2 ^ 31)), Z.add_simpl_r by zlia. rewrite IH by (done || zlia). done. }
  intros Hd Hc Hx Hs. rewrite <-Hl by (done || (destruct l; lia)). destruct l as [|d l]; [done|].
  cbn [map bs58.add_first bs58.carry_digits]. by rewrite <-Z.add_assoc, (Z.add_comm x c).
Qed.

Lemma push_digits_radix fuel c : 0 <= c < 2 ^ 31 -> bs58.push_digits fuel c = push_carry 58 fuel c.
Proof.
  revert c. induction fuel as [|fuel IH]; intros c Hc; [done|]. cbn [bs58.push_digits push_carry]. unfold wrap32, bs58.BASE.
  rewrite Z.quot_div_nonneg, Z.rem_mod_nonneg, (Z.mod_small (_ + 2 ^ 31)), Z.add_simpl_r by zlia. by rewrite IH by zlia.
Qed.

Lemma encode_byte_radix l x : canonical 58 l -> byte_ok x -> bs58.encode_byte l x = radix_step 256 58 l x.
Proof.
  intros (Hne & Hl & _) Hx. unfold byte_ok in Hx. unfold bs58.encode_byte, radix_step.
  rewrite carry_digits_radix by (done || lia). destruct l as [|d l]; [done|]. rewrite Z.add_0_l.
  destruct (carry_through_spec 58 ltac:(lia) 256 (d :: l) x ltac:(lia) ltac:(lia) Hl) as (_ & _ & _ & H0 & Hlt).
  destruct (carry_through 256 58 (d :: l) x) as [r c]. cbn [fst snd] in *. by rewrite push_digits_radix by lia.
Qed.

Lemma carry_bytes_radix l c : bs58.carry_bytes (map (fun b => b * bs58.BASE) l) c = carry_through 58 256 l c.
Proof.
  revert c. induction l as [|d l IH]; intros c; [done|]. cbn [map bs58.carry_bytes carry_through]. unfold bs58.BASE in *.
  rewrite Z.shiftr_div_pow2 by lia. change (2 ^ 8) with 256. rewrite IH. change 0xff with (Z.ones 8). by rewrite Z.land_ones by lia.
Qed.

Lemma push_bytes_radix fuel c : bs58.push_bytes fuel c = push_carry 256 fuel c.
Proof.
  revert c. induction fuel as [|fuel IH]; intros c; [done|]. cbn [bs58.push_bytes push_carry].
  rewrite Z.shiftr_div_pow2 by lia. change 0xff with (Z.ones 8). rewrite Z.land_ones by lia. by rewrite IH.
Qed.

Lemma decode_digit_radix l x : l <> [] -> bs58.decode_digit l x = radix_step 58 256 l x.
Proof.
  intros Hne. unfold bs58.decode_digit, radix_step. destruct l as [|d l]; [done|].
  assert (bs58.carry_bytes (bs58.add_first x (map (fun b => b * bs58.BASE) (d :: l))) 0 = carry_through 58 256 (d :: l) x) as ->.
  { cbn [map bs58.add_first bs58.carry_bytes carry_through]. rewrite carry_bytes_radix. unfold bs58.BASE. rewrite Z.add_0_r.
    rewrite Z.shiftr_div_pow2 by lia. change 0xff with (Z.ones 8). by rewrite Z.land_ones by lia. }
  destruct (carry_through 58 256 (d :: l) x) as [r c]. by rewrite push_bytes_radix.
Qed.

(** ** The alphabet *)
Module Base58Lemmas.
Import bs58.

Definition text (ds : list Z) : string := String.concat "" (map letter ds).

Lemma letter_spec d : digit_ok 58 d -> exists c, letter d = String c EmptyString /\ ALPHABET_MAP c = Some d.
Proof.
  intros Hd. assert (Forall (fun d => match letter d with String c EmptyString => ALPHABET_MAP c = Some d | _ => False end) (seqZ 0 58)) as Hall.
  { cbv [seqZ seq fmap list_fmap Z.to_nat Pos.to_nat Pos.iter_op Init.Nat.add]. repeat constructor. }
  rewrite Forall_forall in Hall. specialize (Hall d ltac:(apply elem_of_seqZ; unfold digit_ok in Hd; lia)).
  destruct (letter d) as [|c [|]]; [done| |done]. by exists c.
Qed.

Lemma index_of_spec c s i d : index_of c s i = Some d ->
  i <= d < i + Z.of_nat (String.length s) /\ String.get (Z.to_nat (d - i)) s = Some c.
Proof.
  revert i. induction s as [|c' s IH]; intros i; cbn [index_of String.length]; [done|].
  case_bool_decide as Hc.
  - intros [= <-]. subst c'. rewrite Z.sub_diag. split; [lia|done].
  - intros H. destruct (IH _ H) as [Hd Hg]. split; [lia|].
    replace (Z.to_nat (d - i)) with (S (Z.to_nat (d - (i + 1)))) by lia. done.
Qed.

Lemma alphabet_letter c d : ALPHABET_MAP c = Some d -> digit_ok 58 d /\ letter d = String c EmptyString.
Proof.
  intros H. destruct (index_of_spec _ _ _ _ H) as [Hd Hg]. change (Z.of_nat (String.length ALPHABET)) with 58 in Hd.
  rewrite Z.sub_0_r in Hg. unfold letter. rewrite Hg. done.
Qed.

Lemma text_cons d ds : text (d :: ds) = (letter d ++ text ds)%string.
Proof. unfold text. cbn [map String.concat]. destruct (map letter ds); [|done]. cbn [String.concat]. generalize (letter d). intros s. induction s as [|c s IH]; [done|]. change (String c s = String c (s ++ ""))%string. f_equal. exact IH. Qed.

(** Reading the characters of a text as digits *)
Definition text_digits (s : string) : option (list Z) := mapM ALPHABET_MAP (list_ascii_of_string s).

Lemma text_digits_text ds : Forall (digit_ok 58) ds -> text_digits (text ds) = Some ds.
Proof.
  induction 1 as [|d ds Hd _ IH]; [done|]. rewrite text_cons. destruct (letter_spec d Hd) as (c & -> & Hc).
  unfold text_digits in *. change (String c EmptyString ++ text ds)%string with (String c (text ds)). cbn [list_ascii_of_string mapM]. rewrite Hc. cbn. by rewrite IH.
Qed.

Lemma text_digits_inv s ds : text_digits s = Some ds -> Forall (digit_ok 58) ds /\ s = text ds.
Proof.
  revert ds. induction s as [|c s IH]; intros ds; unfold text_digits in *; cbn [list_ascii_of_string mapM].
  { by intros [= <-]. }
  destruct (ALPHABET_MAP c) as [d|] eqn:Hc; [|done]. cbn.
  destruct (mapM ALPHABET_MAP (list_ascii_of_string s)) as [ds'|]; [|done]. intros [= <-].
  destruct (IH _ eq_refl) as [Hds ->]. destruct (alphabet_letter c d Hc) as [Hd Hl]. split; [by constructor|].
  rewrite text_cons, Hl. done.
Qed.

(** ** What encode and decode compute *)

Lemma encode_bytes_radix a l : bytes_ok a -> canonical 58 l -> fold_left encode_byte a l = fold_left (radix_step 256 58) a l.
Proof.
  intros Ha. revert l. induction Ha as [|x a Hx _ IH]; intros l Hl; [done|]. cbn [fold_left].
  rewrite encode_byte_radix by done. apply IH. by apply radix_step_spec.
Qed.

Lemma encode_spec a : bytes_ok a -> a <> [] -> encode a = text (convert 256 58 a).
Proof.
  intros Ha Hne. unfold encode. rewrite (proj2 (Z.eqb_neq (zlen a) 0)) by (destruct a; [done|rewrite zlen_cons; pose proof (zlen_nonneg a); lia]).
  cbv zeta. rewrite encode_bytes_radix by (done || (apply canonical_zero; lia)). done.
Qed.

Lemma decode_loop_spec cs ds l : mapM ALPHABET_MAP cs = Some ds -> canonical 256 l ->
  decode_loop cs l = Ok (fold_left (radix_step 58 256) ds l).
Proof.
  revert ds l. induction cs as [|c cs IH]; intros ds l; cbn [mapM decode_loop]; [by intros [= <-]|].
  destruct (ALPHABET_MAP c) as [d|] eqn:Hc; [|done]. cbn. destruct (mapM ALPHABET_MAP cs) as [ds'|]; [|done]. intros [= <-] Hl.
  rewrite decode_digit_radix by apply Hl. cbn [fold_left]. apply IH; [done|].
  apply radix_step_spec; [lia|lia|apply (alphabet_letter c d Hc)|done].
Qed.

Lemma decode_loop_none cs l : mapM ALPHABET_MAP cs = None -> decode_loop cs l = Throw (ErrorMessage "Non-base58 character").
Proof.
  revert l. induction cs as [|c cs IH]; intros l; cbn [mapM decode_loop]; [done|].
  destruct (ALPHABET_MAP c) as [d|]; [|done]. cbn. destruct (mapM ALPHABET_MAP cs); [done|]. intros _. by apply IH.
Qed.

Lemma leading_cons {A} (z : A -> bool) x y l : leading z (x :: y :: l) = if z x then S (leading z (y :: l)) else O.
Proof. done. Qed.

Lemma leading_ones cs ds : mapM ALPHABET_MAP cs = Some ds -> leading (fun c => bool_decide (c = "1"%char)) cs = leading (Z.eqb 0) ds.
Proof.
  revert ds. induction cs as [|c cs IH]; intros ds; cbn [mapM]; [by intros [= <-]|].
  destruct (ALPHABET_MAP c) as [d|] eqn:Hc; [|done]. cbn. destruct (mapM ALPHABET_MAP cs) as [ds'|] eqn:E; [|done]. intros [= <-].
  destruct cs as [|c' cs], ds' as [|d' ds']; try done.
  - by apply mapM_Some, Forall2_length in E.
  - rewrite !leading_cons, (IH (d' :: ds')) by done. destruct (alphabet_letter c d Hc) as [Hd Hl].
    destruct (Z.eqb_spec 0 d) as [<-|Hnz].
    + rewrite bool_decide_true; [done|]. change (letter 0) with (String "1" EmptyString) in Hl. by simplify_eq.
    + rewrite bool_decide_false; [done|]. intros ->. change (Some 0 = Some d) in Hc. congruence.
Qed.

(** [decode] reads the digits of its text and converts them; any other character is an error. *)
Lemma decode_spec s :
  decode s = match text_digits s with
             | Some ds => Ok (if decide (ds = []) then [] else convert 58 256 ds)
             | None => Throw (ErrorMessage "Non-base58 character")
             end.
Proof.
  unfold decode, text_digits. set (cs := list_ascii_of_string s). destruct (decide (cs = [])) as [->|Hne]; [done|].
  rewrite (proj2 (Z.eqb_neq (zlen cs) 0)) by (destruct cs; [done|rewrite zlen_cons; pose proof (zlen_nonneg cs); lia]).
  destruct (mapM ALPHABET_MAP cs) as [ds|] eqn:E; [|by rewrite decode_loop_none].
  rewrite (decode_loop_spec cs ds) by (done || (apply canonical_zero; lia)). cbn [mbind result_bind].
  rewrite (leading_ones cs ds E). rewrite decide_False; [done|]. intros ->. apply mapM_Some in E. inversion E. congruence.
Qed.

(** Text to bytes and back *)
Lemma decode_encode a : bytes_ok a -> decode (encode a) = Ok a.
Proof.
  intros Ha. destruct (decide (a = [])) as [->|Hne]; [done|]. rewrite encode_spec, decode_spec by done.
  destruct (convert_ok 256 ltac:(lia) 58 ltac:(lia) ltac:(lia) a Ha) as [Hd Hn].
  rewrite text_digits_text by done. rewrite decide_False by done. f_equal. by apply convert_inverse.
Qed.

Lemma encode_decode s a : decode s = Ok a -> bytes_ok a /\ encode a = s.
Proof.
  rewrite decode_spec. destruct (text_digits s) as [ds|] eqn:E; [|done]. destruct (text_digits_inv s ds E) as [Hd ->].
  case_decide as Hn; intros [= <-]; [subst; done|].
  destruct (convert_ok 58 ltac:(lia) 256 ltac:(lia) ltac:(lia) ds Hd) as [Ha Hne].
  split; [exact Ha|]. rewrite encode_spec by done. f_equal. by apply convert_inverse.
Qed.

End Base58Lemmas.

(** ** Base58Check *)
Module CheckLemmas.
Import Base58Lemmas.
Section WithCrypto.
Context `{CryptoLaws}.

Lemma check_length b : zlen (Base58Check.checksum b) = 4.
Proof. unfold Base58Check.checksum. rewrite slice_take by (rewrite ?hash256_length; lia). rewrite zlen_ztake, hash256_length by lia. done. Qed.

Lemma check_bytes_ok b : bytes_ok (Base58Check.checksum b).
Proof.
  unfold Base58Check.checksum. rewrite slice_take by (rewrite ?hash256_length; lia). rewrite ztake_take. apply Forall_take, hash256_ok.
Qed.

Lemma split_last n (l : list Z) : 0 <= n <= zlen l -> exists h c, l = h ++ c /\ zlen c = n.
Proof.
  intros Hn. exists (ztake (zlen l - n) l), (zdrop (zlen l - n) l). split; [by rewrite ztake_zdrop|].
  rewrite zlen_zdrop; lia.
Qed.

(** The two copies fill the buffer with the data and its checksum. *)
Lemma encode_eq b : Base58Check.encode b = bs58.encode (b ++ Base58Check.checksum b).
Proof.
  unfold Base58Check.encode, Base58.encode. cbv zeta. f_equal. pose proof (check_length b) as Hc. pose proof (zlen_nonneg b).
  replace (Z.to_nat (zlen b + 4)) with (List.length b + 4)%nat by (unfold zlen; lia). rewrite repeat_app. change (repeat 0 4) with [0;0;0;0].
  assert (Base58Check.copy b (repeat 0 (List.length b) ++ [0;0;0;0]) 0 = b ++ [0;0;0;0]) as ->.
  { unfold Base58Check.copy. assert (zlen (repeat 0 (List.length b)) = zlen b) as Hz by (unfold zlen; by rewrite repeat_length).
    rewrite (ztake_all _ b) by (rewrite zlen_app, Hz; pose proof (zlen_nonneg [0;0;0;0]); lia).
    rewrite Z.add_0_l, <-Hz, zdrop_app_exact. by destruct (repeat 0 (List.length b)). }
  unfold Base58Check.copy. rewrite ztake_app_exact, zlen_app. change (zlen [0;0;0;0]) with 4.
  rewrite (ztake_all _ (Base58Check.checksum b)) by lia. rewrite zdrop_all by (rewrite zlen_app; change (zlen [0;0;0;0]) with 4; lia). by rewrite app_nil_r.
Qed.

(** Decoding accepts exactly the texts of byte strings. *)
Lemma check_decode_iff s d : Base58Check.decode s = Ok d <-> bytes_ok d /\ s = Base58Check.encode d.
Proof.
  unfold Base58Check.decode, Base58.decode. split.
  - destruct (bs58.decode s) as [buf|] eqn:E; [|done]. cbn [mbind result_bind]. destruct (encode_decode s buf E) as [Hok <-].
    destruct (Z.ltb_spec (zlen buf) 4) as [|Hl]; [done|]. cbn [negb guard_or mbind result_bind].
    destruct (split_last 4 buf ltac:(lia)) as (l & c & -> & Hc).
    rewrite (slice_init 4), (slice_from_last 4) by (done || lia). case_bool_decide as Hs; [|done]. cbn. intros [= <-].
    apply Forall_app in Hok as [Hl' _]. split; [done|]. rewrite encode_eq. by rewrite Hs.
  - intros [Hok ->]. rewrite encode_eq, decode_encode by (apply Forall_app; split; [done|apply check_bytes_ok]). cbn [mbind result_bind].
    rewrite zlen_app, check_length, (proj2 (Z.ltb_ge _ 4)) by (pose proof (zlen_nonneg d); lia). cbn [negb guard_or mbind result_bind].
    rewrite (slice_init 4), (slice_from_last 4) by (apply check_length || lia). by rewrite bool_decide_true.
Qed.
End WithCrypto.
End CheckLemmas.
