(* ===== verification/ScriptText.v ===== *)
(** * The text of a script

    Models [Script.prototype.toString], [Script.fromString] and [Script.prototype.toHex] of
    [src/Sources/WebClient/js/bitcore.js] (module 28): opcodes by name, pushes by length and
    hexadecimal data.  The object forms of inputs, outputs and transactions are made of these texts. *)
From S2P Require Import Prelude JsNumber JsValue Encoding Script Base58.
From Stdlib Require Import Ascii String.
Local Open Scope Z_scope.
Local Open Scope js_scope.

(** ** The two directions *)
Module ScriptText.
Import Script.

Definition is_pushdata (n : Z) : bool := (n =? Opcode.OP_PUSHDATA1) || (n =? Opcode.OP_PUSHDATA2) || (n =? Opcode.OP_PUSHDATA4).

(** One turn of the loop of [toString]; an opcode is a byte. *)
Definition print_chunk (c : chunk) : string :=
  match push c with
  | None =>
      match Opcode.reverseMap (opcodenum c) with
      | Some name => " " ++ name
      | None => " 0x" ++ Hex.toHex (opcodenum c)
      end
  | Some (buf, len) =>
      (if is_pushdata (opcodenum c) then " " ++ default "" (Opcode.reverseMap (opcodenum c)) else "")
      ++ " " ++ number_to_string len ++ (if len >? 0 then " 0x" ++ Hex.hexSlice buf else "")
  end%string.

Fixpoint print_chunks (cs : list chunk) : string :=
  match cs with [] => "" | c :: cs => (print_chunk c ++ print_chunks cs)%string end.

(** [str.slice(n)] for a small [n] *)
Fixpoint skip (n : nat) (s : string) : string :=
  match n, s with S n, String _ s => skip n s | _, _ => s end.

Definition toString (s : t) : string := skip 1 (print_chunks (chunks s)).

(** [str.split(' ')] *)
Fixpoint words (str : string) : list string :=
  match str with
  | EmptyString => [EmptyString]
  | String c str =>
      if bool_decide (c = " "%char) then EmptyString :: words str
      else match words str with s :: l => String c s :: l | [] => [] end
  end.

(** The length of a push is what [parseInt] makes of a token; one that is no number is kept as 0,
    which is what it is written as, and an infinite one is beyond what can be written. *)
Definition length_of (v : jsval) : Z := match v with JInt z => z | JInfinity _ => 2 ^ 1024 | _ => 0 end.

Definition InvalidScript : js_error := ErrorMessage "Invalid script".

(** The loop of [fromString]; a token that is missing is [undefined], which has no methods.  A token
    is not the name of a property every object has. *)
Fixpoint read_tokens (tokens : list string) : result (list chunk) :=
  match tokens with
  | [] => Ok []
  | token :: rest =>
      match Opcode.map token with
      | None =>
          match parse_int token with
          | JInt opcodenum =>
              if (0 <? opcodenum) && (opcodenum <? Opcode.OP_PUSHDATA1) then
                match rest with
                | data :: rest =>
                    buf ← Hex.hexWrite (skip 2 data);
                    cs ← read_tokens rest;
                    Ok (mkChunk opcodenum (Some (buf, opcodenum)) :: cs)
                | [] => Throw TypeError
                end
              else Throw InvalidScript
          | _ => Throw InvalidScript
          end
      | Some opcodenum =>
          if is_pushdata opcodenum then
            match rest with
            | len :: data :: rest =>
                guard_or (ErrorMessage "Pushdata data must start with 0x") (prefix "0x" data);;
                buf ← Hex.hexWrite (skip 2 data);
                cs ← read_tokens rest;
                Ok (mkChunk opcodenum (Some (buf, length_of (parse_int len))) :: cs)
            | _ => Throw TypeError
            end
          else cs ← read_tokens rest; Ok (op opcodenum :: cs)
      end
  end.

(** [Script.fromString(str)] *)
Definition fromString (str : string) : result t :=
  if Hex.isHexa str || bool_decide (str = EmptyString) then b ← Hex.hexWrite str; fromBuffer b
  else cs ← read_tokens (words str); Ok (mk cs None).

Definition toHex (s : t) : result string := b ← toBuffer s; Ok (Hex.hexSlice b).

End ScriptText.

(** ** Printing and reading *)
Module ScriptTextLemmas.
Import Script ScriptText.

(** *** Words *)
Definition no_space (s : string) : Prop := Forall (fun c => c <> " "%char) (list_ascii_of_string s).

Lemma string_app_assoc (a b c : string) : ((a ++ b) ++ c = a ++ (b ++ c))%string.
Proof. induction a as [|x a IH]; [done|]. change (String x ((a ++ b) ++ c) = String x (a ++ (b ++ c)))%string. by rewrite IH. Qed.

Lemma words_app s rest : no_space s -> words (s ++ String " " rest) = s :: words rest.
Proof.
  induction s as [|c s IH]; [done|]. intros [Hc Hs]%Forall_cons. change (words (String c (s ++ String " " rest)) = String c s :: words rest).
  cbn [words]. by rewrite bool_decide_false, IH.
Qed.

Lemma words_one s : no_space s -> words s = [s].
Proof. induction s as [|c s IH]; [done|]. intros [Hc Hs]%Forall_cons. cbn [words]. by rewrite bool_decide_false, IH. Qed.

(** Words with a space before each, without the first space *)
Definition spaced (l : list string) : string := foldr (fun s acc => String " " (s ++ acc)) "" l.

Lemma spaced_app a b : spaced (a ++ b) = (spaced a ++ spaced b)%string.
Proof.
  induction a as [|s a IH]; [done|]. cbn [spaced foldr app]. fold (spaced (a ++ b)) (spaced a). rewrite IH.
  change (String " " (s ++ spaced a ++ spaced b) = String " " ((s ++ spaced a) ++ spaced b)). by rewrite string_app_assoc.
Qed.

Lemma words_spaced s l : no_space s -> Forall no_space l -> words (s ++ spaced l) = s :: l.
Proof.
  intros Hs Hl. revert s Hs. induction Hl as [|t l Ht _ IH]; intros s Hs; cbn [spaced foldr].
  - assert ((s ++ "")%string = s) as -> by (induction s as [|c s IHs]; [done|]; apply Forall_cons in Hs as [_ Hs]; change (String c (s ++ "") = String c s); by rewrite IHs).
    by apply words_one.
  - fold (spaced l). rewrite words_app by done. by rewrite IH.
Qed.

(** *** The words of a chunk *)
Definition chunk_words (c : chunk) : list string :=
  match push c with
  | None => [match Opcode.reverseMap (opcodenum c) with Some name => name | None => ("0x" ++ Hex.toHex (opcodenum c))%string end]
  | Some (buf, len) =>
      (if is_pushdata (opcodenum c) then [default "" (Opcode.reverseMap (opcodenum c))] else [])
      ++ number_to_string len :: (if len >? 0 then [("0x" ++ Hex.hexSlice buf)%string] else [])
  end.

Lemma print_words c : print_chunk c = spaced (chunk_words c).
Proof.
  assert (forall s, (s ++ "")%string = s) as Hnil by (induction s as [|x s IH]; [done|]; change (String x (s ++ "") = String x s); by rewrite IH).
  unfold print_chunk, chunk_words. destruct (push c) as [[b len]|].
  - rewrite spaced_app. f_equal; [destruct (is_pushdata _); [|done]; cbn [spaced foldr]; by rewrite Hnil|].
    cbn [spaced foldr]. destruct (len >? 0); cbn [foldr]; by rewrite ?Hnil.
  - cbn [spaced foldr]. rewrite Hnil. by destruct (Opcode.reverseMap _).
Qed.

Lemma prints_words cs : print_chunks cs = spaced (List.concat (map chunk_words cs)).
Proof. induction cs as [|c cs IH]; [done|]. cbn [print_chunks map List.concat]. by rewrite spaced_app, IH, print_words. Qed.

(** *** Tokens without spaces *)
Lemma decimal_no_space z : 0 <= z -> no_space (decimal z).
Proof. intros Hz. eapply Forall_impl; [by apply decimal_chars|]. by intros c [d Hd] ->. Qed.

Lemma hex_no_space b : bytes_ok b -> no_space ("0x" ++ Hex.hexSlice b).
Proof.
  intros Hb. unfold no_space. rewrite chars_app. apply Forall_app. split; [by repeat constructor|]. induction Hb as [|x b Hx _ IH]; [constructor|]. rewrite Hex.hexSlice_cons by done.
  assert (Forall (fun d => Hex.digit d <> " "%char) (seqZ 0 16)) as Hd by (apply (bool_decide_unpack _); by vm_compute).
  rewrite Forall_forall in Hd. unfold byte_ok in Hx. constructor; [apply Hd, elem_of_seqZ; zlia|]. constructor; [apply Hd, elem_of_seqZ; zlia|exact IH].
Qed.

(** Every name the table gives is found under its number, and no name is a number or hexadecimal. *)
Definition token_ok (n : Z) : bool :=
  match Opcode.reverseMap n with
  | Some s => bool_decide (Opcode.map s = Some n) && bool_decide (no_space s) && negb (Hex.isHexa s)
  | None =>
      let s := ("0x" ++ Hex.toHex n)%string in
      bool_decide (Opcode.map s = None) && bool_decide (no_space s) && negb (Hex.isHexa s)
      && match parse_int s with JInt z => z =? n | _ => false end
  end.

Lemma tokens_ok n : 0 <= n < 256 -> token_ok n = true.
Proof.
  intros Hn. assert (forallb token_ok (seqZ 0 256) = true) as Hall by (by vm_compute).
  rewrite forallb_forall in Hall. apply Hall, list_elem_of_In, elem_of_seqZ. lia.
Qed.

Lemma name_of n s : 0 <= n < 256 -> Opcode.reverseMap n = Some s -> Opcode.map s = Some n /\ no_space s /\ Hex.isHexa s = false.
Proof.
  intros Hn Hs. pose proof (tokens_ok n Hn) as H. unfold token_ok in H. rewrite Hs in H.
  apply andb_true_iff in H as [[?%bool_decide_eq_true ?%bool_decide_eq_true]%andb_true_iff ?%negb_true_iff]. done.
Qed.

Lemma unnamed n : 0 <= n < 256 -> Opcode.reverseMap n = None -> let s := ("0x" ++ Hex.toHex n)%string in
  Opcode.map s = None /\ no_space s /\ Hex.isHexa s = false /\ parse_int s = JInt n.
Proof.
  intros Hn Hs s. pose proof (tokens_ok n Hn) as H. unfold token_ok in H. rewrite Hs in H. cbv zeta in H. fold s in H.
  apply andb_true_iff in H as [[[?%bool_decide_eq_true ?%bool_decide_eq_true]%andb_true_iff ?%negb_true_iff]%andb_true_iff Hp].
  split_and!; try done. destruct (parse_int s); try done. apply Z.eqb_eq in Hp. by subst.
Qed.

(** No decimal number is the name of an opcode. *)
Lemma decimal_no_name z : 0 <= z -> Opcode.map (decimal z) = None.
Proof.
  intros Hz. unfold Opcode.map. destruct (find _ _) as [[s n]|] eqn:E; [|done]. exfalso.
  apply find_some in E as [Hin E]. apply bool_decide_eq_true in E. cbn [fst] in E. subst s.
  assert (Forall (fun p => exists r, fst p = String "O" r) Opcode.table) as Hall by (repeat constructor; by eexists).
  rewrite List.Forall_forall in Hall. destruct (Hall _ Hin) as [r Hr]. cbn [fst] in Hr.
  pose proof (decimal_chars z Hz) as Hd. rewrite Hr in Hd. apply Forall_cons in Hd as [[d Hd] _]. discriminate.
Qed.

(** *** What can be read back *)

(** A push of data that is there, with its length, or an opcode that has a name and is no push *)
Definition text_chunk (c : chunk) : Prop :=
  match push c with
  | None => 0 <= opcodenum c < 256 /\ is_pushdata (opcodenum c) = false /\ is_Some (Opcode.reverseMap (opcodenum c))
  | Some (buf, len) => bytes_ok buf /\ (1 <= opcodenum c <= 75 /\ len = opcodenum c \/ is_pushdata (opcodenum c) = true /\ 0 < len < 10 ^ 15)
  end.

Lemma is_pushdata_spec n : is_pushdata n = true -> n = 76 \/ n = 77 \/ n = 78.
Proof. unfold is_pushdata. intros [[?%Z.eqb_eq| ?%Z.eqb_eq]%orb_true_iff| ?%Z.eqb_eq]%orb_true_iff; auto. Qed.

Lemma skip_hex b : skip 2 ("0x" ++ Hex.hexSlice b) = Hex.hexSlice b.
Proof. cbn. by destruct (Hex.hexSlice b). Qed.

Lemma prefix_hex s : prefix "0x" ("0x" ++ s) = true.
Proof. cbn. by destruct s. Qed.

Lemma parse_decimal z : 0 <= z < 10 ^ 15 -> parse_int (decimal z) = JInt z.
Proof.
  intros Hz. rewrite (parse_int_digits _ z); [apply num_trunc_large; unfold safe; lia|apply decimal_nonempty; lia|].
  rewrite read_decimal by lia. f_equal. lia.
Qed.

Lemma chunk_words_ok c : text_chunk c -> Forall no_space (chunk_words c) /\ chunk_words c <> [].
Proof.
  unfold text_chunk, chunk_words. destruct (push c) as [[b len]|].
  - intros (Hb & Hn). assert (0 < len < 10 ^ 15) as Hl by lia. rewrite number_to_string_safe by lia. rewrite (proj2 (Z.gtb_lt len 0)) by lia.
    split; [|by destruct (is_pushdata _)]. apply Forall_app. split.
    + destruct (is_pushdata (opcodenum c)) eqn:E; [|done]. apply Forall_singleton. by destruct (is_pushdata_spec _ E) as [->|[->| ->]]; repeat constructor.
    + constructor; [apply decimal_no_space; lia|]. by apply Forall_singleton, hex_no_space.
  - intros (Hn & _ & [s Hs]). rewrite Hs. split; [|done]. by apply Forall_singleton, (name_of _ _ Hn).
Qed.

Lemma read_chunk c rest : text_chunk c -> read_tokens (chunk_words c ++ rest) = (cs ← read_tokens rest; Ok (c :: cs)).
Proof.
  unfold text_chunk, chunk_words. destruct c as [n [[b len]|]]; cbn [push opcodenum].
  - intros (Hb & Hn). assert (0 < len < 10 ^ 15) as Hl by lia. rewrite number_to_string_safe by lia. rewrite (proj2 (Z.gtb_lt len 0)) by lia.
    pose proof (parse_decimal len ltac:(lia)) as Hp. destruct Hn as [[Hn ->]|[Hn _]].
    + replace (is_pushdata n) with false by (symmetry; unfold is_pushdata, Opcode.OP_PUSHDATA1, Opcode.OP_PUSHDATA2, Opcode.OP_PUSHDATA4; rewrite !(proj2 (Z.eqb_neq _ _)) by lia; done).
      cbn [app read_tokens]. rewrite decimal_no_name, Hp by lia. rewrite (proj2 (Z.ltb_lt 0 n)) by lia. unfold Opcode.OP_PUSHDATA1.
      rewrite (proj2 (Z.ltb_lt n 76)) by lia. cbn [andb]. rewrite skip_hex, Hex.hex_roundtrip by done. done.
    + rewrite Hn. assert (exists w, Opcode.reverseMap n = Some w) as [w Hw] by (destruct (is_pushdata_spec n Hn) as [->|[->| ->]]; by eexists).
      assert (0 <= n < 256) as Hn' by (destruct (is_pushdata_spec n Hn); lia). destruct (name_of _ _ Hn' Hw) as (Hm & _).
      rewrite Hw. cbn [default from_option app read_tokens]. unfold id. rewrite Hm, Hn, Hp, prefix_hex. cbn [guard_or mbind result_bind length_of].
      by rewrite skip_hex, Hex.hex_roundtrip.
  - intros (Hn & Hp & [s Hs]). rewrite Hs. destruct (name_of _ _ Hn Hs) as (Hm & _). cbn [app read_tokens]. rewrite Hm, Hp. done.
Qed.

Lemma read_chunks cs rest : Forall text_chunk cs -> read_tokens (List.concat (map chunk_words cs) ++ rest) = (l ← read_tokens rest; Ok (cs ++ l)).
Proof.
  induction 1 as [|c cs Hc _ IH]; cbn [map List.concat app]; [by destruct (read_tokens rest)|].
  rewrite <-(assoc_L (++)), read_chunk, IH by done. by destruct (read_tokens rest).
Qed.

(** *** The whole text *)
Lemma words_before w l m : no_space w -> Forall no_space l -> exists r, words (w ++ spaced (l ++ m)) = w :: l ++ r.
Proof.
  intros Hw Hl. revert w Hw. induction Hl as [|s l Hs _ IH]; intros w Hw.
  - destruct m as [|s m]; cbn [app spaced foldr]; [|eexists; by rewrite words_app]. exists []. by apply (words_spaced w []).
  - cbn [app spaced foldr]. fold (spaced (l ++ m)). rewrite words_app by done. destruct (IH s Hs) as [r ->]. by exists r.
Qed.

Lemma not_hexa_app a b : a <> EmptyString -> Hex.isHexa a = false -> Hex.isHexa (a ++ b) = false.
Proof.
  unfold Hex.isHexa. intros Ha. rewrite bool_decide_false by done. cbn [negb andb]. intros Hf. rewrite chars_app, forallb_app, Hf. by rewrite andb_false_r.
Qed.

Lemma not_hexa_space a b : Hex.isHexa (a ++ String " " b) = false.
Proof. unfold Hex.isHexa. rewrite chars_app, forallb_app. cbn [list_ascii_of_string forallb]. change (bool_decide (is_Some (Hex.digit_value " "))) with false. by rewrite !andb_false_r. Qed.

(** A word that no hexadecimal text is, or one of many *)
Lemma text_not_hexa w l : w <> EmptyString -> l <> [] \/ Hex.isHexa w = false -> Hex.isHexa (w ++ spaced l) = false.
Proof. intros Hw [Hl|Hx]; [|by apply not_hexa_app]. destruct l as [|s l]; [done|]. apply not_hexa_space. Qed.

Lemma first_word c : text_chunk c -> exists w l, chunk_words c = w :: l /\ no_space w /\ Forall no_space l /\ w <> EmptyString /\ (l <> [] \/ Hex.isHexa w = false).
Proof.
  intros Hc. destruct (chunk_words_ok c Hc) as [Hw Hne]. destruct (chunk_words c) as [|w l] eqn:E; [done|]. apply Forall_cons in Hw as [Hw Hl].
  exists w, l. split_and!; try done.
  - intros ->. unfold text_chunk, chunk_words in *. destruct (push c) as [[b len]|].
    + destruct Hc as (_ & Hn). rewrite number_to_string_safe in E by lia. pose proof (decimal_nonempty len ltac:(lia)) as Hd.
      destruct (is_pushdata (opcodenum c)) eqn:Ep; cbn [app] in E; [|congruence].
      by destruct (is_pushdata_spec _ Ep) as [Hq|[Hq|Hq]]; rewrite Hq in E.
    + destruct Hc as (Hn & _ & [s Hs]). rewrite Hs in E. injection E as -> <-. by destruct (name_of _ _ Hn Hs) as (Hm & _).
  - unfold text_chunk, chunk_words in *. destruct (push c) as [[b len]|].
    + left. destruct Hc as (_ & Hn). rewrite (proj2 (Z.gtb_lt len 0)) in E by lia. destruct (is_pushdata (opcodenum c)); by injection E as _ <-.
    + right. destruct Hc as (Hn & _ & [s Hs]). rewrite Hs in E. injection E as -> <-. by apply (name_of _ _ Hn Hs).
Qed.

(** The text of a script that has one, and the words it is read as *)
Lemma text_words c cs : text_chunk c -> Forall text_chunk cs -> exists w l,
  List.concat (map chunk_words (c :: cs)) = w :: l /\ no_space w /\ Forall no_space l /\ w <> EmptyString /\ (l <> [] \/ Hex.isHexa w = false).
Proof.
  intros Hc Hcs. destruct (first_word c Hc) as (w & l & E & Hw & Hl & Hne & Hx). exists w, (l ++ List.concat (map chunk_words cs)).
  cbn [map List.concat]. rewrite E. split_and!; try done.
  - apply Forall_app. split; [done|]. clear -Hcs. induction Hcs as [|d cs Hd _ IH]; [done|]. cbn [map List.concat]. apply Forall_app. split; [by apply chunk_words_ok|done].
  - destruct Hx as [Hl'|Hx]; [left; by destruct l|by right].
Qed.

Lemma text_of_words w l : skip 1 (spaced (w :: l)) = (w ++ spaced l)%string.
Proof. cbn [spaced foldr skip]. by destruct (w ++ _)%string. Qed.

Lemma skip_nil_string s : (s ++ spaced [])%string = s.
Proof. induction s as [|c s IH]; [done|]. change (String c (s ++ spaced []) = String c s). by rewrite IH. Qed.

Lemma text_given cs net : Forall text_chunk cs -> fromString (toString (mk cs net)) = Ok (mk cs None).
Proof.
  intros Hcs. destruct Hcs as [|c cs Hc Hcs]; [done|]. destruct (text_words c cs Hc Hcs) as (w & l & E & Hw & Hl & Hne & Hx).
  unfold toString, chunks, fromString. rewrite prints_words, E, text_of_words, (text_not_hexa w l) by done.
  rewrite bool_decide_false by (by destruct w). cbn [orb]. rewrite words_spaced by done.
  rewrite <-E, <-(app_nil_r (List.concat _)), read_chunks by (by constructor). cbn [read_tokens mbind result_bind]. by rewrite app_nil_r.
Qed.

(** What has no text of its own: an opcode without a name, and a push of nothing *)
Definition textless (c : chunk) : Prop :=
  match push c with
  | None => 76 <= opcodenum c < 256 /\ Opcode.reverseMap (opcodenum c) = None
  | Some (buf, len) => opcodenum c = 0 /\ buf = [] /\ len = 0
  end.

Lemma textless_word c : textless c -> exists w, chunk_words c = [w] /\ no_space w /\ w <> EmptyString
  /\ (forall rest, read_tokens (w :: rest) = Throw InvalidScript) /\ (Hex.isHexa w = false \/ exists e, Hex.hexWrite w = Throw e).
Proof.
  destruct c as [n [[b len]|]]; unfold textless, chunk_words; cbn [push opcodenum].
  - intros (-> & -> & ->). exists "0"%string. split_and!; [done|by repeat constructor|done|done|right; by eexists].
  - intros [Hn Hr]. rewrite Hr. destruct (unnamed n ltac:(lia) Hr) as (Hm & Hs & Hx & Hp). eexists. split_and!; [done|done|done| |by left].
    intros rest. cbn [read_tokens]. rewrite Hm, Hp. unfold Opcode.OP_PUSHDATA1. by rewrite (proj2 (Z.ltb_ge n 76)), andb_false_r by lia.
Qed.

Lemma textless_refused pre c post net : Forall text_chunk pre -> textless c -> exists e, fromString (toString (mk (pre ++ c :: post) net)) = Throw e.
Proof.
  intros Hpre Hc. destruct (textless_word c Hc) as (w & E & Hw & Hne & Hread & Hx).
  assert (List.concat (map chunk_words (pre ++ c :: post)) = List.concat (map chunk_words pre) ++ w :: List.concat (map chunk_words post)) as Ew.
  { rewrite map_app, concat_app. cbn [map List.concat]. by rewrite E. }
  unfold toString, chunks, fromString. rewrite prints_words, Ew. destruct Hpre as [|d pre Hd Hpre].
  - cbn [map List.concat app]. rewrite text_of_words. destruct (List.concat (map chunk_words post)) as [|s m].
    + rewrite skip_nil_string, (bool_decide_false (w = _)) by done. destruct Hx as [->|[e He]]; [|rewrite He; destruct (Hex.isHexa w); [by eexists|]].
      all: cbn [orb]; rewrite words_one, Hread by done; by eexists.
    + rewrite (text_not_hexa w (s :: m)), (bool_decide_false (_ = EmptyString)) by (done || by left || by destruct w). cbn [orb].
      cbn [spaced foldr]. rewrite words_app, Hread by done. by eexists.
  - destruct (text_words d pre Hd Hpre) as (w0 & l & E0 & Hw0 & Hl & Hne0 & Hx0). rewrite E0. cbn [app]. rewrite text_of_words.
    rewrite (text_not_hexa w0), (bool_decide_false (_ = EmptyString)) by (done || (by left; destruct l) || by destruct w0). cbn [orb].
    replace (l ++ w :: List.concat (map chunk_words post)) with ((l ++ [w]) ++ List.concat (map chunk_words post)) by (by rewrite <-(assoc_L (++))).
    destruct (words_before w0 (l ++ [w]) (List.concat (map chunk_words post)) Hw0) as [r ->]; [by apply Forall_app; split; [|apply Forall_singleton]|].
    replace (w0 :: (l ++ [w]) ++ r) with (List.concat (map chunk_words (d :: pre)) ++ w :: r) by (rewrite E0; cbn [app]; by rewrite <-(assoc_L (++))).
    rewrite read_chunks, Hread by (by constructor). by eexists.
Qed.

End ScriptTextLemmas.

(** ** Theorems *)
Section ScriptTextTheorems.
Import Script ScriptText ScriptTextLemmas.

(** C32: a script of pushes of data and named opcodes is read back from its text; after any such
    beginning, an opcode without a name or a push of nothing makes the text one that is refused. *)
Theorem script_text cs net : Forall text_chunk cs ->
  fromString (toString (mk cs net)) = Ok (mk cs None)
  /\ forall c post, textless c -> exists e, fromString (toString (mk (cs ++ c :: post) net)) = Throw e.
Proof. intros Hcs. split; [by apply text_given|]. intros c post Hc. by apply textless_refused. Qed.

(** A signature and a public key, as in the input script of a payment to a key *)
Definition demo_cs : list chunk := [mkChunk 3 (Some ([1; 2; 255], 3)); mkChunk 76 (Some ([7; 8], 2)); mkChunk 118 None].

Lemma script_text_witness : toString (mk demo_cs None) = "3 0x0102ff OP_PUSHDATA1 2 0x0708 OP_DUP"%string
  /\ fromString (toString (mk demo_cs None)) = Ok (mk demo_cs None)
  /\ exists e, fromString (toString (mk (demo_cs ++ [mkChunk 186 None]) None)) = Throw e.
Proof.
  split; [by vm_compute|].
  assert (Forall text_chunk demo_cs) as Hcs.
  { repeat apply Forall_cons_2; [..|by apply Forall_nil_2].
    - split; [by apply (bool_decide_unpack _)|left; cbn; lia].
    - split; [by apply (bool_decide_unpack _)|right; cbn; split; [done|lia]].
    - split; [cbn; lia|]. split; [done|by eexists]. }
  split; [apply (script_text demo_cs None Hcs)|]. apply (script_text demo_cs None Hcs). split; [cbn; lia|done].
Defined.

End ScriptTextTheorems.
