(* ===== verification/Keys.v ===== *)
(** * Networks, addresses and private keys as text

    Models module 22 ([Networks]), module 1 ([Address]) and module 24 ([PrivateKey]) of
    [src/Sources/WebClient/js/bitcore.js]: the registry of networks and its look-ups by name and by
    version byte, the classification of the arguments of the two constructors, and the text forms
    (base58 with a checksum, hexadecimal, the object a JSON text holds).  An [Address] is the record
    of [Script.v]; a public key is the bytes of its encoding. *)
From S2P Require Import Prelude JsNumber JsValue Encoding Script Base58.
From Stdlib Require Import Ascii String.
Local Open Scope Z_scope.
Local Open Scope js_scope.

(** ** Networks *)
Module Networks.

(** What a call may name a network by: the object, its name or alias, or a number; and what a lookup may
    come back with instead of a network, the property every plain object inherits under a name. *)
Inductive arg := Obj (n : network) | Name (s : string) | Num (z : Z) | Inherited (s : string).
#[export] Instance arg_eq_dec : EqDecision arg.
Proof. solve_decision. Defined.

(** The properties that hold a version number *)
Inductive key := pubkeyhash | privatekey | scripthash | xpubkey | xprivkey | port.

Definition name (n : network) : string := match n with livenet => "livenet" | testnet => "testnet" end.
Definition alias (n : network) : string := match n with livenet => "mainnet" | testnet => "testnet" end.

(** [network[key]] *)
Definition field (k : key) (n : network) : Z :=
  match n, k with
  | livenet, pubkeyhash => 0x00
  | livenet, privatekey => 0x80
  | livenet, scripthash => 0x05
  | livenet, xpubkey => 0x0488b21e
  | livenet, xprivkey => 0x0488ade4
  | livenet, port => 8333
  | testnet, pubkeyhash => 0x6f
  | testnet, privatekey => 0xef
  | testnet, scripthash => 0xc4
  | testnet, xpubkey => 0x043587cf
  | testnet, xprivkey => 0x04358394
  | testnet, port => 18333
  end.

(** The values of a network that are not objects, as property names *)
Definition values (n : network) : list string :=
  [name n; alias n] ++ map (fun k => decimal (field k n)) [pubkeyhash; privatekey; scripthash; xpubkey; xprivkey; port].

Record registry := mk { networks : list network; networkMaps : gmap string network }.

Definition addNetwork (n : network) (r : registry) : registry :=
  mk (networks r ++ [n]) (fold_left (fun m v => <[v := n]> m) (values n) (networkMaps r)).

(** The two networks the module adds *)
Definition loaded : registry := addNetwork testnet (addNetwork livenet (mk [] ∅)).

(** [networkMaps[name]]: the map is a plain object *)
Definition property (s : string) : option arg :=
  match networkMaps loaded !! s with
  | Some n => Some (Obj n)
  | None => if bool_decide (s ∈ inherited_names) then Some (Inherited s) else None
  end.

(** [getNetwork(arg, keys)], with at most one key.  An inherited property, a function or an object, is
    looked up by its text, which names nothing. *)
Definition getNetwork (a : arg) (k : option key) : option arg :=
  match a with
  | Obj n => Some (Obj n)
  | Name s => match k with Some _ => None | None => property s end
  | Num z =>
      match k with
      | Some k => Obj <$> (snd <$> list_find (fun n => field k n = z) (networks loaded))
      | None => property (decimal_signed z)
      end
  | Inherited _ => None
  end.

(** [Networks.get(network)] and [network && ..] for an argument that may be missing *)
Definition get (a : option arg) : option arg := a ≫= fun a => getNetwork a None.
Definition truthy (a : option arg) : bool :=
  match a with
  | None => false
  | Some (Name s) => negb (bool_decide (s = EmptyString))
  | Some (Num z) => negb (z =? 0)
  | Some (Obj _) | Some (Inherited _) => true
  end.

(** The network a lookup by a number found: numbers are no inherited names. *)
Definition as_network (a : option arg) : option network := match a with Some (Obj n) => Some n | _ => None end.
Definition network_of_version (z : Z) : option network := as_network (get (Some (Num z))).

End Networks.

(** ** Addresses *)
Module AddressText.
Import Networks.

Definition type_name (t : address_type) : string :=
  match t with PayToPublicKeyHash => "pubkeyhash" | PayToScriptHash => "scripthash" end.
Definition type_key (t : address_type) : key := match t with PayToPublicKeyHash => pubkeyhash | PayToScriptHash => scripthash end.
Definition type_of_name (s : string) : option address_type :=
  if bool_decide (s = "pubkeyhash") then Some PayToPublicKeyHash
  else if bool_decide (s = "scripthash") then Some PayToScriptHash else None.

(** A type argument: missing or empty is none. *)
Definition given (t : option string) : option string :=
  t ≫= fun s => if bool_decide (s = EmptyString) then None else Some s.

(** The [info] of the source *)
Record info := mkInfo { info_hash : list Z; info_network : option network; info_type : option address_type }.

(** The first argument of the constructor; the object form is left out. *)
Inductive data :=
  | DAddress (a : Address)
  | DBuffer (b : list Z)
  | DPublicKey (b : list Z)
  | DScript (s : Script.t)
  | DString (s : string).

Section WithCrypto.
Context `{Crypto}.

Definition transformHash (hash : list Z) : result info :=
  guard_or TypeError (zlen hash =? 20);;
  Ok (mkInfo hash None None).

Definition classifyFromVersion (buffer : list Z) : option (network * address_type) :=
  let version := Num (byte_at buffer 0) in
  match as_network (getNetwork version (Some pubkeyhash)), as_network (getNetwork version (Some scripthash)) with
  | Some n, _ => Some (n, PayToPublicKeyHash)
  | None, Some n => Some (n, PayToScriptHash)
  | None, None => None
  end.

Definition transformBuffer (buffer : list Z) (net : option arg) (type : option string) : result info :=
  guard_or TypeError (zlen buffer =? 1 + 20);;
  let net := get net in
  match classifyFromVersion buffer with
  | None => Throw TypeError
  | Some (vnet, vtype) =>
      guard_or TypeError (match net with Some n => bool_decide (n = Obj vnet) | None => true end);;
      guard_or TypeError (match given type with Some t => bool_decide (t = type_name vtype) | None => true end);;
      Ok (mkInfo (Buf.slice_from 1 buffer) (Some vnet) (Some vtype))
  end.

Definition transformPublicKey (pubkey : list Z) : info := mkInfo (sha256ripemd160 pubkey) None (Some PayToPublicKeyHash).

Definition transformScript (script : Script.t) : result info :=
  i ← Script.getAddressInfo script;
  match i with
  | None => Throw (BitcoreError "Script.CantDeriveAddress")
  | Some (h, t) => Ok (mkInfo h None (Some t))
  end.

(** [data.trim()] *)
Fixpoint trim_left (l : list ascii) : list ascii :=
  match l with c :: l' => if Hex.is_space c then trim_left l' else l | [] => [] end.
Definition trim (s : string) : string :=
  string_of_list_ascii (rev (trim_left (rev (trim_left (list_ascii_of_string s))))).

Definition transformString (data : string) (net : option arg) (type : option string) : result info :=
  addressBuffer ← Base58Check.decode (trim data);
  transformBuffer addressBuffer net type.

(** A buffer of another length is taken for an object without a hash. *)
Definition classifyArguments (d : data) (net : option arg) (type : option string) : result info :=
  match d with
  | DBuffer b =>
      if zlen b =? 20 then transformHash b
      else if zlen b =? 21 then transformBuffer b net type
      else Throw InvalidArgument
  | DPublicKey b => Ok (transformPublicKey b)
  | DScript s => transformScript s
  | DString s => transformString s net type
  | DAddress _ => Throw InvalidArgument
  end.

(** The network of a new address.  With the name of an inherited property the code goes on: the address it
    makes has a function for a network, and prints with the version byte 0.  An [Address] of the model has
    a network, so the model stops there with an error of its own. *)
Definition not_a_network : js_error := ErrorMessage "an inherited property in the place of a network".
Definition choose_network (found : option network) (asked : option arg) : result network :=
  match found, asked with
  | Some n, _ | None, Some (Obj n) => Ok n
  | None, None => Ok defaultNetwork
  | None, Some _ => Throw not_a_network
  end.

(** [new Address(data, network, type)] *)
Definition new (d : data) (net : option arg) (type : option string) : result Address :=
  match d with
  | DAddress a => Ok a
  | _ =>
      guard_or InvalidArgument (match d with DString s => negb (bool_decide (s = EmptyString)) | _ => true end);;
      guard_or TypeError (negb (truthy net) || bool_decide (is_Some (get net)));;
      guard_or TypeError (match given type with Some t => bool_decide (is_Some (type_of_name t)) | None => true end);;
      i ← classifyArguments d net type;
      net ← choose_network (info_network i) (get net);
      let type := default (default PayToPublicKeyHash (given type ≫= type_of_name)) (info_type i) in
      Ok (mkAddress (info_hash i) net type)
  end.

(** The constructor, called with an [info] *)
Definition new_info (i : info) (net : option arg) : result Address :=
  new (DBuffer (info_hash i)) net (type_name <$> info_type i).

Definition fromPublicKey (d : list Z) (net : option arg) : result Address :=
  let net := if truthy net then net else Some (Obj defaultNetwork) in
  new_info (transformPublicKey d) net.

Definition fromPublicKeyHash (hash : list Z) (net : option arg) : result Address :=
  i ← transformHash hash;
  new (DBuffer (info_hash i)) net (Some (type_name PayToPublicKeyHash)).

Definition fromScriptHash (hash : list Z) (net : option arg) : result Address :=
  i ← transformHash hash;
  new (DBuffer (info_hash i)) net (Some (type_name PayToScriptHash)).

Definition payingTo (script : Script.t) (net : option arg) : result Address :=
  b ← Script.toBuffer script;
  fromScriptHash (sha256ripemd160 b) net.

(** Keys read from bytes carry the default network. *)
Definition createMultisig (publicKeys : list (list Z)) (threshold : Z) (net : option arg) : result Address :=
  net ← (if truthy net then Ok net
         else match publicKeys with [] => Throw TypeError | _ => Ok (Some (Obj defaultNetwork)) end);
  script ← Script.buildMultisigOut publicKeys threshold false;
  payingTo script net.

Definition fromScript (script : Script.t) (net : option arg) : result Address :=
  i ← transformScript script;
  new_info i net.

Definition fromBuffer (buffer : list Z) (net : option arg) (type : option string) : result Address :=
  i ← transformBuffer buffer net type;
  new_info i (Obj <$> info_network i).

Definition fromString (str : string) (net : option arg) (type : option string) : result Address :=
  i ← transformString str net type;
  new_info i (Obj <$> info_network i).

Definition isValid (d : data) (net : option arg) (type : option string) : bool := is_ok (new d net type).

Definition toBuffer (a : Address) : list Z := [field (type_key (addr_type a)) (addr_network a)] ++ hashBuffer a.

Definition toString (a : Address) : string := Base58Check.encode (toBuffer a).

(** [toObject()]: hash, type and network *)
Definition toObject (a : Address) : string * string * string :=
  (Hex.hexSlice (hashBuffer a), type_name (addr_type a), name (addr_network a)).

End WithCrypto.
End AddressText.

(** ** Private keys *)
Module PrivKey.
Import Networks.

(** The order of the curve, [Point.getN()] *)
Definition getN : Z := 0xFFFFFFFFFFFFFFFFFFFFFFFFFFFFFFFEBAAEDCE6AF48A03BBFD25E8CD0364141.

(** A key read from JSON holds the name of its network, not the network. *)
Record t := mk { bn : Z; compressed : bool; key_network : arg }.

(** The first argument of the constructor.  A text is one that is no JSON text of an object; the
    object of such a text, or a plain object, is its three properties. *)
Inductive data :=
  | DNone
  | DBN (bn : Z)
  | DBuffer (b : list Z)
  | DObject (bn : string) (network : option string) (compressed : bool)
  | DNetwork (n : network)
  | DString (s : string).

Record info := mkInfo { info_bn : Z; info_compressed : bool; info_network : option arg }.

(** [_getRandomBN]: the first draw below the order of the curve *)
Fixpoint getRandomBN (draws : list (list Z)) : option Z :=
  match draws with
  | [] => None
  | privbuf :: draws =>
      let bn := BN.fromBuffer privbuf in
      if bn <? getN then Some bn else getRandomBN draws
  end.

(** [new BN(text, 'hex')] on hexadecimal digits, and [bn.toString('hex')] *)
Definition bn_of_hex (s : string) : Z :=
  fold_left (fun acc c => acc * 16 + default 0 (Hex.digit_value c)) (list_ascii_of_string s) 0.
Definition bn_to_hex (bn : Z) : result string :=
  b ← BN.hexBytes bn;
  let text := Hex.hexSlice b in
  Ok (match text with String "0" (String c s) => String c s | _ => text end).

Section WithCrypto.
Context `{Crypto}.

Definition transformBNBuffer (buf : list Z) (net : option arg) : info :=
  mkInfo (BN.fromBuffer buf) false (Some (default (Obj defaultNetwork) (get net))).

Definition transformBuffer (buf : list Z) (net : option arg) : result info :=
  if zlen buf =? 32 then Ok (transformBNBuffer buf net)
  else
    n ← (if byte_at buf 0 =? field privatekey livenet then Ok livenet
         else if byte_at buf 0 =? field privatekey testnet then Ok testnet
         else Throw (ErrorMessage "Invalid network"));
    guard_or TypeError (negb (truthy net) || bool_decide (Some (Obj n) = get net));;
    c ← (if (zlen buf =? 1 + 32 + 1) && (byte_at buf (1 + 32 + 1 - 1) =? 1) then Ok true
         else if zlen buf =? 1 + 32 then Ok false
         else Throw (ErrorMessage "Length of buffer must be 33 (uncompressed) or 34 (compressed)"));
    Ok (mkInfo (BN.fromBuffer (Buf.slice 1 (32 + 1) buf)) c (Some (Obj n))).

Definition transformWIF (str : string) (net : option arg) : result info :=
  b ← Base58Check.decode str;
  transformBuffer b net.

Definition transformJSON (bn : string) (net : option string) (compressed : bool) : info :=
  mkInfo (bn_of_hex bn) compressed (Name <$> net).

(** [_classifyArguments]; [random] is what [_getRandomBN] returns, if it is called. *)
Definition classifyArguments (random : Z) (d : data) (net : option arg) : result info :=
  let chosen := if truthy net then get net else Some (Obj defaultNetwork) in
  match d with
  | DNone => Ok (mkInfo random true chosen)
  | DBN bn => Ok (mkInfo bn true chosen)
  | DBuffer b => transformBuffer b net
  | DObject bn n c => Ok (transformJSON bn n c)
  | DNetwork n => if truthy net then Throw TypeError else Ok (mkInfo random true (Some (Obj n)))
  | DString s =>
      match getNetwork (Name s) None, truthy net with
      | Some n, false => Ok (mkInfo random true (Some n))
      | _, _ =>
          if Hex.isHexa s then b ← Hex.hexWrite s; Ok (mkInfo (BN.fromBuffer b) true chosen)
          else transformWIF s net
      end
  end.

(** [new PrivateKey(data, network)] *)
Definition new (random : Z) (d : data) (net : option arg) : result t :=
  i ← classifyArguments random d net;
  guard_or TypeError (negb (info_bn i =? 0));;
  guard_or TypeError (info_bn i <? getN);;
  match info_network i with
  | None => Throw TypeError
  | Some n => Ok (mk (info_bn i) (info_compressed i) n)
  end.

Definition fromBuffer (random : Z) (b : list Z) (net : option arg) : result t := new random (DBuffer b) net.
Definition fromString (random : Z) (s : string) : result t := new random (DString s) None.
Definition fromWIF := fromString.
Definition fromJSON (random : Z) (bn : string) (net : option string) (compressed : bool) : result t :=
  new random (DObject bn net compressed) None.
Definition isValid (random : Z) (d : data) (net : option arg) : bool :=
  match d with DNone => false | DString EmptyString => false | _ => is_ok (new random d net) end.

(** [network.privatekey] as a byte: a name, like a function, has no such property, and [undefined] is
    stored as 0. *)
Definition version_byte (n : arg) : Z := match n with Obj n => field privatekey n | _ => 0 end.

Definition toWIF (k : t) : result string :=
  b ← BN.toBuffer 32 (bn k);
  let buf := if compressed k then [version_byte (key_network k)] ++ b ++ [0x01] else [version_byte (key_network k)] ++ b in
  Ok (Base58Check.encode buf).

(** [bn.toBuffer()]: as many bytes as the number needs *)
Definition toBuffer (k : t) : result (list Z) := BN.hexBytes (bn k).
Definition toString (k : t) : result string := b ← toBuffer k; Ok (Hex.hexSlice b).

(** [network.toString()]; a native function prints as its name and a placeholder for its code. *)
Definition network_text (n : arg) : string :=
  match n with
  | Obj n => name n
  | Name s => s
  | Num z => decimal_signed z
  | Inherited s =>
      if bool_decide (s = "__proto__"%string) then "[object Object]"
      else "function " ++ (if bool_decide (s = "constructor"%string) then "Object" else s) ++ "() { [native code] }"
  end.
Definition toObject (k : t) : result (string * option string * bool) :=
  h ← bn_to_hex (bn k); Ok (h, Some (network_text (key_network k)), compressed k).

(** [toAddress(network)], [public] being the encoded public key of a number *)
Definition toAddress (public : Z -> bool -> list Z) (net : option arg) (k : t) : result Address :=
  AddressText.fromPublicKey (public (bn k) (compressed k)) (if truthy net then net else Some (key_network k)).

End WithCrypto.
End PrivKey.
