(* ===== verification/KeysSpec.v ===== *)
(** * Keys and addresses survive their texts

    What the text forms of [Keys.v] promise: an address and its base58 text determine each other,
    the text of a private key gives the key back, and where the library reads something else than it
    wrote (a short key as bytes, a key from JSON, a number that is a network's). *)
From S2P Require Import Prelude JsNumber JsValue Encoding ScriptNum Script Base58 Keys.
From Stdlib Require Import Ascii String.
Local Open Scope Z_scope.
Local Open Scope js_scope.

(** ** Texts *)

Module TextLemmas.
Import bs58 Base58Lemmas CheckLemmas Networks.

(** A digit of a number *)
Lemma value_digit b c (i : nat) : 2 <= b -> Forall (digit_ok b) c -> (i < List.length c)%nat ->
  nth i c 0 = value b c / b ^ Z.of_nat i mod b.
Proof.
  intros Hb Hc. revert i. induction Hc as [|d c Hd Hc IH]; intros i Hi; cbn [List.length] in Hi; [lia|].
  unfold digit_ok in Hd. destruct i as [|i]; cbn [nth value].
  - change (b ^ Z.of_nat 0) with 1. rewrite Z.div_1_r, (Z.mul_comm b), Z.mod_add, Z.mod_small by lia. done.
  - rewrite IH by lia. rewrite Nat2Z.inj_succ, Z.pow_succ_r, <-Z.div_div by lia.
    rewrite (Z.mul_comm b (value b c)), Z.div_add, (Z.div_small d) by lia. done.
Qed.

(** How many digits a number has *)
Lemma canonical_length b c n : 2 <= b -> canonical b c -> 1 <= n -> b ^ n <= value b c < b ^ (n + 1) -> zlen c = n + 1.
Proof.
  intros Hb (Hne & Hd & Hc) Hn Hv. pose proof (value_bound b Hb c Hd) as Hvb.
  destruct (Z.lt_trichotomy (zlen c) (n + 1)) as [Hlt|[?|Hlt]]; [exfalso|done|exfalso].
  - assert (b ^ zlen c <= b ^ n) by (apply Z.pow_le_mono_r; lia). lia.
  - destruct Hc as [Hc|Hc]; [lia|]. assert (b ^ (n + 1) <= b ^ (zlen c - 1)) by (apply Z.pow_le_mono_r; lia). lia.
Qed.

Lemma text_length ds : Forall (digit_ok 58) ds -> String.length (text ds) = List.length ds.
Proof.
  induction 1 as [|d ds Hd _ IH]; [done|]. rewrite text_cons. destruct (letter_spec d Hd) as (c & -> & _).
  change (S (String.length (text ds)) = S (List.length ds)). by rewrite IH.
Qed.

(** A text of hexadecimal digits has only letters that are such digits. *)
Lemma text_hexa ds d : Forall (digit_ok 58) ds -> Hex.isHexa (text ds) = true -> d ∈ ds -> Hex.isHexa (letter d) = true.
Proof.
  intros Hds. unfold Hex.isHexa. rewrite andb_true_iff. intros [_ Hh]. revert Hh.
  induction Hds as [|e ds He Hds IH]; intros Hh; [by intros ?%not_elem_of_nil|].
  rewrite text_cons in Hh. destruct (letter_spec e He) as (c & Hc & _). rewrite Hc in Hh.
  change (forallb (fun c => bool_decide (is_Some (Hex.digit_value c))) (c :: list_ascii_of_string (text ds)) = true) in Hh.
  cbn [forallb] in Hh. apply andb_true_iff in Hh as [H1 H2]. intros [->|Hin]%elem_of_cons; [|by apply IH].
  rewrite Hc. cbn [list_ascii_of_string forallb]. by rewrite H1.
Qed.

(** The names a network can be looked up by *)
Definition network_names : list string :=
  ["livenet"; "mainnet"; "0"; "128"; "5"; "76067358"; "76066276"; "8333";
   "testnet"; "111"; "239"; "196"; "70617039"; "70615956"; "18333"].

Lemma network_name_in s n : networkMaps loaded !! s = Some n -> s ∈ network_names.
Proof.
  unfold loaded, addNetwork. cbn [networkMaps].
  assert (values livenet = ["livenet"; "mainnet"; "0"; "128"; "5"; "76067358"; "76066276"; "8333"]) as -> by (vm_compute; reflexivity).
  assert (values testnet = ["testnet"; "testnet"; "111"; "239"; "196"; "70617039"; "70615956"; "18333"]) as -> by (vm_compute; reflexivity).
  cbn [fold_left]. intros Hl. unfold network_names.
  repeat (apply lookup_insert_Some in Hl as [[<- _]|[_ Hl]]; [by (repeat first [left|right])|]). done.
Qed.

Lemma property_in s a : property s = Some a -> s ∈ network_names ++ inherited_names.
Proof.
  unfold property. destruct (networkMaps loaded !! s) as [n|] eqn:E; [intros _; apply elem_of_app; left; by eapply network_name_in|].
  case_bool_decide as Hin; [intros _; by apply elem_of_app; right|done].
Qed.

Lemma long_text_no_network s : (20 < String.length s)%nat -> property s = None.
Proof.
  intros Hs. destruct (property s) as [n|] eqn:E; [exfalso|done]. apply property_in in E.
  assert (Forall (fun s => (String.length s <= 20)%nat) (network_names ++ inherited_names)) as Hall.
  { cbn [app network_names inherited_names]. repeat (apply Forall_cons; split; [apply Nat.leb_le; reflexivity|]). by apply Forall_nil. }
  rewrite Forall_forall in Hall. specialize (Hall s E). lia.
Qed.

(** Base58 texts have no white space. *)
Lemma letter_no_space d c : digit_ok 58 d -> letter d = String c EmptyString -> Hex.is_space c = false.
Proof.
  intros Hd Hl. assert (Forall (fun d => match letter d with String c _ => Hex.is_space c = false | _ => True end) (seqZ 0 58)) as Hall.
  { cbv [seqZ seq fmap list_fmap Z.to_nat Pos.to_nat Pos.iter_op Init.Nat.add]. repeat constructor. }
  rewrite Forall_forall in Hall. specialize (Hall d ltac:(apply elem_of_seqZ; unfold digit_ok in Hd; lia)). by rewrite Hl in Hall.
Qed.

Lemma text_no_space ds : Forall (digit_ok 58) ds -> Forall (fun c => Hex.is_space c = false) (list_ascii_of_string (text ds)).
Proof.
  induction 1 as [|d ds Hd _ IH]; [done|]. rewrite text_cons. destruct (letter_spec d Hd) as (c & Hc & _). rewrite Hc.
  change (Forall (fun c => Hex.is_space c = false) (c :: list_ascii_of_string (text ds))). constructor; [|done]. by apply (letter_no_space d).
Qed.

Lemma trim_left_id l : Forall (fun c => Hex.is_space c = false) l -> AddressText.trim_left l = l.
Proof. destruct 1 as [|c l Hc _]; [done|]. cbn [AddressText.trim_left]. by rewrite Hc. Qed.

Lemma trim_encode b : bytes_ok b -> AddressText.trim (encode b) = encode b.
Proof.
  intros Hb. destruct (decide (b = [])) as [->|Hne]; [done|]. rewrite encode_spec by done.
  destruct (convert_ok 256 ltac:(lia) 58 ltac:(lia) ltac:(lia) b Hb) as [Hd _]. pose proof (text_no_space _ Hd) as Hns.
  unfold AddressText.trim. rewrite (trim_left_id (list_ascii_of_string _)) by done.
  rewrite (trim_left_id (rev _)) by (by apply Forall_rev). rewrite rev_involutive. apply string_of_list_ascii_of_string.
Qed.

End TextLemmas.

(** ** Addresses *)

Section Addresses.
Import Networks AddressText TextLemmas CheckLemmas.
Context `{CryptoLaws}.

(** An address holds a 20-byte hash. *)
Definition address_wf (a : Address) : Prop := zlen (hashBuffer a) = 20 /\ bytes_ok (hashBuffer a).

(** The network and the type a caller asks for *)
Definition asked_for (net : option arg) (type : option string) (a : Address) : Prop :=
  (forall n, get net = Some n -> n = Obj (addr_network a)) /\ (forall t, given type = Some t -> t = type_name (addr_type a)).

Lemma field_byte a : byte_ok (field (type_key (addr_type a)) (addr_network a)).
Proof. unfold byte_ok. destruct (addr_network a), (addr_type a); cbn; lia. Qed.

Lemma toBuffer_ok a : address_wf a -> bytes_ok (toBuffer a) /\ zlen (toBuffer a) = 21.
Proof.
  intros [Hl Hok]. unfold toBuffer. split; [apply Forall_app; split; [apply Forall_singleton, field_byte|done]|].
  rewrite zlen_app, Hl. done.
Qed.

Lemma classify_version v h : classifyFromVersion (v :: h) = match v with
    | 0 => Some (livenet, PayToPublicKeyHash) | 111 => Some (testnet, PayToPublicKeyHash)
    | 5 => Some (livenet, PayToScriptHash) | 196 => Some (testnet, PayToScriptHash) | _ => None end.
Proof.
  unfold classifyFromVersion, byte_at. cbn [nth Z.to_nat getNetwork networks loaded addNetwork app].
  unfold list_find. cbn [field]. repeat case_decide; subst; try done.
  all: cbn; repeat case_match; subst; try done.
Qed.

Lemma classify_toBuffer a : classifyFromVersion (toBuffer a) = Some (addr_network a, addr_type a).
Proof. unfold toBuffer. cbn [app]. rewrite classify_version. by destruct (addr_network a), (addr_type a). Qed.

Lemma classify_inv v h n t : classifyFromVersion (v :: h) = Some (n, t) -> v = field (type_key t) n.
Proof. rewrite classify_version. intros E. repeat case_match; by simplify_eq. Qed.

Lemma slice_from_1 v h : Buf.slice_from 1 (v :: h) = h.
Proof.
  unfold Buf.slice_from. cbv zeta. rewrite zlen_cons, (wrap32_small 1) by lia. pose proof (zlen_nonneg h). cbn [Z.ltb Z.compare].
  rewrite Z.gtb_ltb, (proj2 (Z.ltb_ge _ 1)) by lia. cbn [zdrop Z.leb Z.compare]. apply zdrop_0.
Qed.

(** Reading the 21 bytes of an address *)
Lemma transformBuffer_iff b net type i : bytes_ok b ->
  transformBuffer b net type = Ok i <->
  exists a, address_wf a /\ b = toBuffer a /\ asked_for net type a /\ i = mkInfo (hashBuffer a) (Some (addr_network a)) (Some (addr_type a)).
Proof.
  intros Hb. unfold transformBuffer. split.
  - destruct (Z.eqb_spec (zlen b) (1 + 20)) as [Hl|]; [|done]. cbn [guard_or mbind result_bind].
    destruct b as [|v h]; [done|]. destruct (classifyFromVersion (v :: h)) as [[n t]|] eqn:E; [|done]. apply classify_inv in E.
    rewrite zlen_cons in Hl. apply Forall_cons in Hb as [_ Hh]. intros Hr. exists (mkAddress h n t).
    destruct (match get net with Some n' => bool_decide (n' = Obj n) | None => true end) eqn:Hn; [|done]. cbn [guard_or mbind result_bind] in Hr.
    destruct (match given type with Some t' => bool_decide (t' = type_name t) | None => true end) eqn:Ht; [|done]. cbn [guard_or mbind result_bind] in Hr.
    split; [by split; [cbn; lia|]|]. split; [by subst v|]. split.
    + split; cbn; [intros n' Hg; rewrite Hg in Hn; by apply bool_decide_eq_true in Hn|intros t' Hg; rewrite Hg in Ht; by apply bool_decide_eq_true in Ht].
    + rewrite slice_from_1 in Hr. by injection Hr as <-.
  - intros (a & Hwf & -> & [Hn Ht] & ->). destruct (toBuffer_ok a Hwf) as [_ Hl]. rewrite Hl. cbn [Z.eqb Z.add Pos.eqb guard_or mbind result_bind].
    rewrite classify_toBuffer.
    assert (match get net with Some n => bool_decide (n = Obj (addr_network a)) | None => true end = true) as ->
      by (destruct (get net); [apply bool_decide_true, Hn|]; done).
    assert (match given type with Some t => bool_decide (t = type_name (addr_type a)) | None => true end = true) as ->
      by (destruct (given type); [apply bool_decide_true, Ht|]; done).
    cbn [guard_or mbind result_bind]. unfold toBuffer. cbn [app]. by rewrite slice_from_1.
Qed.

(** The constructor called with a hash, a network and a type *)
Lemma new_hash a : zlen (hashBuffer a) = 20 ->
  new (DBuffer (hashBuffer a)) (Some (Obj (addr_network a))) (Some (type_name (addr_type a))) = Ok a.
Proof.
  intros Hl. unfold new. cbn [guard_or mbind result_bind truthy get getNetwork negb orb classifyArguments].
  rewrite bool_decide_true by eauto. cbn [guard_or mbind result_bind]. rewrite Hl. cbn [Z.eqb Pos.eqb].
  unfold transformHash. rewrite Hl. destruct a as [h n t]. by destruct n, t.
Qed.

Lemma trim_toString a : address_wf a -> trim (toString a) = toString a.
Proof.
  intros Ha. destruct (toBuffer_ok a Ha) as [Hok _]. unfold toString.
  by rewrite encode_eq, trim_encode by (apply Forall_app; split; [done|apply check_bytes_ok]).
Qed.

(** What reading a text gives *)
Lemma fromString_iff s net type a : fromString s net type = Ok a <-> address_wf a /\ trim s = toString a /\ asked_for net type a.
Proof.
  unfold fromString, transformString, toString. split.
  - destruct (Base58Check.decode (trim s)) as [b|] eqn:E; [|done]. apply check_decode_iff in E as [Hb ->].
    cbn [mbind result_bind]. destruct (transformBuffer b net type) as [i|] eqn:E; [|done].
    apply transformBuffer_iff in E as (a' & Hwf & -> & Hask & ->); [|done]. cbn [mbind result_bind]. unfold new_info. cbn [info_hash info_network info_type fmap option_fmap option_map].
    rewrite new_hash by apply Hwf. by intros [= <-].
  - intros (Hwf & -> & Hask). destruct (toBuffer_ok a Hwf) as [Hb _]. rewrite (proj2 (check_decode_iff _ (toBuffer a))) by done.
    cbn [mbind result_bind]. rewrite (proj2 (transformBuffer_iff _ _ _ _ Hb)) by (exists a; eauto). cbn [mbind result_bind].
    unfold new_info. cbn [info_hash info_network info_type fmap option_fmap option_map]. apply new_hash, Hwf.
Qed.

(** C39: the text of an address and the address determine each other: the text [toString] prints is
    read back as the address, and any text that is read as this address is this text but for white
    space around it, with the network and the type asked for, if any, being the address's. *)
Theorem address_text a net type : address_wf a ->
  (asked_for net type a -> fromString (toString a) net type = Ok a)
  /\ (forall s, fromString s net type = Ok a -> trim s = toString a /\ asked_for net type a).
Proof.
  intros Ha. split; [intros Hask; apply fromString_iff; by rewrite trim_toString|].
  intros s Hs. by apply fromString_iff in Hs as (_ & ? & ?).
Qed.

(** The constructor reads the text too. *)
Lemma new_text a : address_wf a -> new (DString (toString a)) None None = Ok a.
Proof.
  intros Ha. assert (fromString (toString a) None None = Ok a) as Hf by (apply fromString_iff; by rewrite trim_toString).
  unfold fromString in Hf. destruct (transformString (toString a) None None) as [i|] eqn:E; [|done]. cbn [mbind result_bind] in Hf.
  assert (toString a <> EmptyString) as Hne.
  { intros He. unfold transformString in E. rewrite He in E.
    change (Base58Check.decode (trim EmptyString)) with (Throw (A:=list Z) (ErrorMessage "Input string too short")) in E. done. }
  unfold new. rewrite (bool_decide_false (toString a = EmptyString)) by done. cbn [guard_or mbind result_bind truthy negb orb given option_bind classifyArguments]. rewrite E. cbn [mbind result_bind].
  unfold transformString in E. rewrite (trim_toString a Ha) in E. destruct (toBuffer_ok a Ha) as [Hb _]. unfold toString in E.
  rewrite (proj2 (check_decode_iff _ (toBuffer a))) in E by done. cbn [mbind result_bind] in E.
  apply transformBuffer_iff in E as (a' & _ & Ht & _ & ->); [|done]. cbn [info_network info_type info_hash default from_option] in *.
  pose proof (classify_toBuffer a) as C1. pose proof (classify_toBuffer a') as C2. rewrite Ht in C1. rewrite C1 in C2. injection C2 as En Et.
  apply (f_equal (@tail Z)) in Ht. change (hashBuffer a = hashBuffer a') in Ht. destruct a, a'; cbn in Ht, En, Et; subst; done.
Qed.

(** Addresses are equal when their texts are: the pages compare texts. *)
Lemma toString_inj a b : address_wf a -> address_wf b -> toString a = toString b -> a = b.
Proof.
  intros Ha Hb Hs. assert (fromString (toString a) None None = Ok a) as H1 by (apply fromString_iff; by rewrite trim_toString).
  assert (fromString (toString a) None None = Ok b) as H2 by (apply fromString_iff; by rewrite Hs, trim_toString). congruence.
Qed.

Lemma pays_hash h net t : zlen h = 20 -> bytes_ok h ->
  let a := mkAddress h net t in
  new (DBuffer h) (Some (Obj net)) (Some (type_name t)) = Ok a /\ fromString (toString a) None None = Ok a
  /\ exists s, Script.fromAddress a = Ok s /\ Script.chunks s = match t with
       | PayToPublicKeyHash => [Script.mkChunk 118 None; Script.mkChunk 169 None; Script.mkChunk 20 (Some (h, 20)); Script.mkChunk 136 None; Script.mkChunk 172 None]
       | PayToScriptHash => [Script.mkChunk 169 None; Script.mkChunk 20 (Some (h, 20)); Script.mkChunk 135 None]
       end.
Proof.
  intros Hl Hok a. split; [apply (new_hash a Hl)|]. split.
  - apply fromString_iff. by rewrite trim_toString.
  - unfold Script.fromAddress. destruct t; cbn [addr_type a].
    + eexists. split; [by apply (Script.p2pkh_chunks a)|done].
    + eexists. split; [by apply (Script.p2sh_chunks a)|done].
Qed.

End Addresses.

(** ** Private keys *)

Section PrivateKeys.
Import Networks PrivKey TextLemmas Base58Lemmas CheckLemmas.
Context `{CryptoLaws}.

(** What the constructor accepts, with a network that is one *)
Definition key_wf (k : PrivKey.t) (n : network) : Prop := 0 < bn k < getN /\ key_network k = Obj n.

(** The bytes of a key's text *)
Definition wif_payload (v : Z) (b : list Z) (c : bool) : list Z := v :: b ++ (if c then [1] else []).

Lemma getN_bound : getN < 256 ^ 32.
Proof. done. Qed.

Lemma toWIF_eq k : 0 <= bn k < getN -> exists b,
  zlen b = 32 /\ bytes_ok b /\ BN.fromBuffer b = bn k
  /\ toWIF k = Ok (Base58Check.encode (wif_payload (version_byte (key_network k)) b (compressed k))).
Proof.
  intros Hk. pose proof getN_bound. destruct (toBuffer_size 32 (bn k) ltac:(lia) ltac:(change (Z.of_nat 32) with 32; lia)) as (b & Hb & Hl & Hv & Hok).
  exists b. repeat split; [done..|]. unfold toWIF. change (Z.of_nat 32) with 32 in Hb. rewrite Hb. cbn [mbind result_bind]. unfold wif_payload.
  destruct (compressed k); [done|]. by rewrite app_nil_r.
Qed.

Lemma payload_ok v b c : byte_ok v -> bytes_ok b -> bytes_ok (wif_payload v b c).
Proof. intros Hv Hb. constructor; [done|]. apply Forall_app. split; [done|]. destruct c; repeat constructor; unfold byte_ok; lia. Qed.

Lemma payload_length v b c : zlen b = 32 -> zlen (wif_payload v b c) = if c then 34 else 33.
Proof. intros Hb. unfold wif_payload. rewrite zlen_cons, zlen_app, Hb. by destruct c. Qed.

Lemma payload_slice v b c : zlen b = 32 -> Buf.slice 1 (32 + 1) (wif_payload v b c) = b.
Proof.
  intros Hb. unfold Buf.slice. cbv zeta. rewrite payload_length by done. rewrite !wrap32_small by lia.
  transitivity (ztake 32 (zdrop 1 (wif_payload v b c))); [by destruct c|]. unfold wif_payload. cbn [zdrop Z.leb Z.compare]. rewrite zdrop_0.
  rewrite <-Hb. apply ztake_app_exact.
Qed.

Lemma payload_version v b c : byte_at (wif_payload v b c) 0 = v.
Proof. done. Qed.

Lemma payload_last v b : zlen b = 32 -> byte_at (wif_payload v b true) 33 = 1.
Proof.
  intros Hb. unfold byte_at, wif_payload. change (Z.to_nat 33) with 33%nat. cbn [nth]. unfold zlen in Hb.
  rewrite app_nth2 by lia. by replace (32 - List.length b)%nat with O by lia.
Qed.

(** Reading the bytes of a key *)
Lemma transformBuffer_payload n b c net : zlen b = 32 -> (truthy net = true -> get net = Some (Obj n)) ->
  transformBuffer (wif_payload (field privatekey n) b c) net = Ok (mkInfo (BN.fromBuffer b) c (Some (Obj n))).
Proof.
  intros Hb Hn. unfold transformBuffer. rewrite payload_length, payload_version, payload_slice by done.
  assert (forall A (x y : A), (if (if c then 34 else 33) =? 32 then x else y) = y) as -> by (by destruct c).
  assert (negb (truthy net) || bool_decide (Some (Obj n) = get net) = true) as Hg.
  { destruct (truthy net); [|done]. cbn. apply bool_decide_true. by rewrite Hn. }
  assert (forall A (f : network -> result A), ((if field privatekey n =? field privatekey livenet then Ok livenet
    else if field privatekey n =? field privatekey testnet then Ok testnet else Throw (ErrorMessage "Invalid network")) ≫= f) = f n) as ->
    by (by destruct n).
  rewrite Hg. cbn [guard_or mbind result_bind]. change (1 + 32 + 1 - 1) with 33. destruct c; [rewrite payload_last by done|]; done.
Qed.

Lemma transformBuffer_inv p net i : bytes_ok p -> zlen p <> 32 -> transformBuffer p net = Ok i ->
  exists n b c, zlen b = 32 /\ bytes_ok b /\ p = wif_payload (field privatekey n) b c
    /\ i = mkInfo (BN.fromBuffer b) c (Some (Obj n)) /\ (truthy net = true -> get net = Some (Obj n)).
Proof.
  intros Hp Hl. unfold transformBuffer. rewrite (proj2 (Z.eqb_neq _ _)) by done.
  assert (forall n b c, zlen b = 32 -> (truthy net = true -> get net = Some (Obj n)) -> p = wif_payload (field privatekey n) b c ->
    exists n' b' c', zlen b' = 32 /\ bytes_ok b' /\ p = wif_payload (field privatekey n') b' c'
    /\ mkInfo (BN.fromBuffer (Buf.slice 1 (32 + 1) p)) c (Some (Obj n)) = mkInfo (BN.fromBuffer b') c' (Some (Obj n')) /\ (truthy net = true -> get net = Some (Obj n'))) as Hgo.
  { intros n b c Hb Hn ->. exists n, b, c. rewrite payload_slice by done. apply Forall_cons in Hp as [_ [Hp _]%Forall_app]. by repeat split. }
  intros Hr.
  assert (exists n, byte_at p 0 = field privatekey n /\ ((guard_or TypeError (negb (truthy net) || bool_decide (Some (Obj n) = get net));;
    c ← (if (zlen p =? 1 + 32 + 1) && (byte_at p (1 + 32 + 1 - 1) =? 1) then Ok true
         else if zlen p =? 1 + 32 then Ok false else Throw (ErrorMessage "Length of buffer must be 33 (uncompressed) or 34 (compressed)"));
    Ok (mkInfo (BN.fromBuffer (Buf.slice 1 (32 + 1) p)) c (Some (Obj n)))) = Ok i)) as (n & Hv & Hn).
  { destruct (Z.eqb_spec (byte_at p 0) (field privatekey livenet)); [by exists livenet|].
    destruct (Z.eqb_spec (byte_at p 0) (field privatekey testnet)); [by exists testnet|done]. }
  clear Hr. destruct (negb (truthy net) || bool_decide (Some (Obj n) = get net)) eqn:Hg; [|done]. cbn [guard_or mbind result_bind] in Hn.
  assert (truthy net = true -> get net = Some (Obj n)) as Hnet.
  { intros Ht. rewrite Ht in Hg. cbn in Hg. by apply bool_decide_eq_true in Hg. }
  destruct p as [|v p]; [by destruct n|]. change (v = field privatekey n) in Hv. subst v. rewrite zlen_cons in *.
  destruct (Z.eqb_spec (1 + zlen p) (1 + 32 + 1)) as [Hz|Hz].
  - destruct (Z.eqb_spec (byte_at (field privatekey n :: p) (1 + 32 + 1 - 1)) 1) as [H1|H1].
    + destruct (split_last 1 p ltac:(lia)) as (b & l & -> & Hl1). rewrite zlen_app in Hz. destruct l as [|x [|]]; [done| |by rewrite !zlen_cons in Hl1; pose proof (zlen_nonneg l); lia].
      assert (x = 1) as ->.
      { unfold byte_at in H1. change (Z.to_nat (1 + 32 + 1 - 1)) with 33%nat in H1. cbn [nth] in H1. unfold zlen in Hz. cbn [List.length] in Hz. rewrite app_nth2 in H1 by lia.
        by replace (32 - List.length b)%nat with O in H1 by lia. }
      injection Hn as <-. apply (Hgo n b true); [lia|done|done].
    + cbn [andb] in Hn. rewrite (proj2 (Z.eqb_neq _ _)) in Hn by lia. done.
  - cbn [andb] in Hn. destruct (Z.eqb_spec (1 + zlen p) (1 + 32)) as [Hz'|]; [|done]. injection Hn as <-.
    apply (Hgo n p false); [lia|done|unfold wif_payload; by rewrite app_nil_r].
Qed.

Lemma fromBuffer_same_length a b : bytes_ok a -> bytes_ok b -> zlen a = zlen b -> BN.fromBuffer a = BN.fromBuffer b -> a = b.
Proof.
  intros Ha Hb Hl Hv. rewrite !fromBuffer_le_value, <-!value_256 in Hv. rewrite <-(rev_involutive a), <-(rev_involutive b). f_equal.
  apply (value_inj 256); [lia|by apply Forall_rev|by apply Forall_rev| |done]. unfold zlen in *. by rewrite !length_rev.
Qed.

(** *** The text of a key *)

(** The text of a payload: its digits, and the number they are the digits of *)
Lemma payload_text v b c : byte_ok v -> 0 < v -> zlen b = 32 -> bytes_ok b -> exists ds,
  let n : Z := if c : bool then 38 else 37 in
  Base58Check.encode (wif_payload v b c) = text (rev ds) /\ canonical 58 ds
  /\ v * 256 ^ (n - 1) <= value 58 ds < (v + 1) * 256 ^ (n - 1).
Proof.
  intros Hv Hv0 Hb Hok. rewrite encode_eq. pose proof (payload_ok v b c Hv Hok) as Hp.
  set (r := tail (wif_payload v b c) ++ Base58Check.checksum (wif_payload v b c)).
  assert (wif_payload v b c ++ Base58Check.checksum (wif_payload v b c) = v :: r) as -> by done.
  assert (bytes_ok r) as Hr.
  { apply Forall_cons in Hp as [_ Hp]. apply Forall_app. split; [exact Hp|apply check_bytes_ok]. }
  assert (zlen r = if c then 37 else 36) as Hl.
  { unfold r. rewrite zlen_app, check_length. pose proof (payload_length v b c Hb) as Hl. unfold wif_payload in *. rewrite zlen_cons in Hl. cbn [tail]. destruct c; lia. }
  clearbody r. assert (bytes_ok (v :: r)) as Hvr by (by constructor). rewrite encode_spec by done.
  destruct (convert_spec 256 ltac:(lia) 58 ltac:(lia) ltac:(lia) (v :: r) Hvr) as (ds & Hds & Hval & ->).
  exists ds. cbv zeta.
  assert (bs58.leading (Z.eqb 0) (v :: r) = O) as ->.
  { cbn [bs58.leading]. rewrite (proj2 (Z.eqb_neq 0 v)) by lia. by destruct r. }
  split; [done|]. split; [done|]. rewrite Hval. cbn [rev]. rewrite value_app. cbn [value].
  assert (zlen (rev r) = zlen r) as Hrev by (unfold zlen; by rewrite length_rev). rewrite Hrev.
  assert (0 <= value 256 (rev r) < 256 ^ zlen r) as Hbd by (rewrite <-Hrev; apply value_bound; [lia|by apply Forall_rev]).
  replace ((if c then 38 else 37) - 1) with (zlen r) by (rewrite Hl; by destruct c). nia.
Qed.

Lemma rev_digits_ok ds : canonical 58 ds -> Forall (digit_ok 58) (rev ds).
Proof. intros (_ & Hd & _). by apply Forall_rev. Qed.

(** The text is longer than every name of a network. *)
Lemma payload_no_network n b c : zlen b = 32 -> bytes_ok b ->
  property (Base58Check.encode (wif_payload (field privatekey n) b c)) = None.
Proof.
  intros Hb Hok. destruct (payload_text (field privatekey n) b c) as (ds & -> & Hds & Hv); [by destruct n|by destruct n|done|done|].
  apply long_text_no_network. rewrite text_length by (by apply rev_digits_ok). rewrite length_rev.
  destruct Hds as (_ & Hd & _). pose proof (value_bound 58 ltac:(lia) ds Hd) as Hbd.
  destruct (le_lt_dec (List.length ds) 20) as [Hle|]; [exfalso|done].
  assert (58 ^ zlen ds <= 58 ^ 20) by (apply Z.pow_le_mono_r; unfold zlen; lia).
  assert (58 ^ 20 < 128 * 256 ^ ((if c then 38 else 37) - 1)) by (by destruct c).
  assert (128 <= field privatekey n) by (by destruct n). assert (0 < 256 ^ ((if c then 38 else 37) - 1)) by (by destruct c). nia.
Qed.

(** A key of the main network: the first or the second letter of its text is no hexadecimal digit. *)
Lemma payload_not_hexa b c : zlen b = 32 -> bytes_ok b ->
  Hex.isHexa (Base58Check.encode (wif_payload (field privatekey livenet) b c)) = false.
Proof.
  intros Hb Hok. destruct (payload_text (field privatekey livenet) b c) as (ds & -> & Hds & Hv); [done|done|done|done|].
  change (field privatekey livenet) with 128 in Hv. destruct (Hex.isHexa (text (rev ds))) eqn:E; [exfalso|done].
  set (l := if c then 51 else 50) in *. set (i := if c then 51%nat else 49%nat). set (lo := if c then 18 else 248). set (hi := if c then 20 else 251).
  destruct Hv as [Hlo Hhi].
  assert (58 ^ l <= 128 * 256 ^ ((if c then 38 else 37) - 1)) as H1 by (destruct c; vm_compute; discriminate).
  assert ((128 + 1) * 256 ^ ((if c then 38 else 37) - 1) <= 58 ^ (l + 1)) as H2 by (destruct c; vm_compute; discriminate).
  assert (58 ^ Z.of_nat i * lo <= 128 * 256 ^ ((if c then 38 else 37) - 1)) as H3 by (destruct c; vm_compute; discriminate).
  assert ((128 + 1) * 256 ^ ((if c then 38 else 37) - 1) <= 58 ^ Z.of_nat i * hi) as H4 by (destruct c; vm_compute; discriminate).
  assert (0 < 58 ^ Z.of_nat i) as H5 by (destruct c; vm_compute; reflexivity).
  assert (zlen ds = l + 1) as Hl.
  { apply (canonical_length 58 ds l); [done|done|by destruct c|].
    split; [exact (Z.le_trans _ _ _ H1 Hlo)|exact (Z.lt_le_trans _ _ _ Hhi H2)]. }
  assert (i < List.length ds)%nat as Hi by (clear -Hl; unfold zlen, l, i in *; destruct c; lia).
  assert (nth i ds 0 = value 58 ds / 58 ^ Z.of_nat i mod 58) as Hdig by (apply value_digit; [done|apply Hds|done]).
  assert (lo <= value 58 ds / 58 ^ Z.of_nat i < hi) as Hq.
  { split; [apply Z.div_le_lower_bound; [exact H5|exact (Z.le_trans _ _ _ H3 Hlo)]
      |apply Z.div_lt_upper_bound; [exact H5|exact (Z.lt_le_trans _ _ _ Hhi H4)]]. }
  assert (nth i ds 0 ∈ rev ds) as Hin.
  { apply list_elem_of_In, (in_rev (rev ds)). rewrite rev_involutive. by apply nth_In. }
  pose proof (text_hexa _ _ (rev_digits_ok ds Hds) E Hin) as Hx.
  rewrite Hdig in Hx. set (q := value 58 ds / 58 ^ Z.of_nat i) in *. clearbody q. clear -Hq Hx.
  assert (q mod 58 = 16 \/ q mod 58 = 17 \/ q mod 58 = 18 \/ q mod 58 = 19) as Hm by (unfold lo, hi in *; destruct c; zlia).
  by destruct Hm as [Hm|[Hm|[Hm|Hm]]]; rewrite Hm in Hx.
Qed.

(** A text that is read as a key's *)
Lemma fromWIF_text random s : property s = None -> Hex.isHexa s = false ->
  fromWIF random s = (i ← transformWIF s None;
    guard_or TypeError (negb (info_bn i =? 0));;
    guard_or TypeError (info_bn i <? getN);;
    match info_network i with None => Throw TypeError | Some n => Ok (mk (info_bn i) (info_compressed i) n) end).
Proof.
  intros Hn Hh. unfold fromWIF, fromString, PrivKey.new, classifyArguments. cbn [getNetwork]. rewrite Hn, Hh. done.
Qed.

Lemma transformWIF_payload n b c : zlen b = 32 -> bytes_ok b ->
  transformWIF (Base58Check.encode (wif_payload (field privatekey n) b c)) None = Ok (mkInfo (BN.fromBuffer b) c (Some (Obj n))).
Proof.
  intros Hb Hok. unfold transformWIF. rewrite (proj2 (check_decode_iff _ (wif_payload (field privatekey n) b c))) by (split; [apply payload_ok; [by destruct n|done]|done]).
  cbn [mbind result_bind]. by rewrite transformBuffer_payload.
Qed.

Lemma fromWIF_toWIF random k n s : key_wf k n -> toWIF k = Ok s -> property s = None -> Hex.isHexa s = false ->
  fromWIF random s = Ok k.
Proof.
  intros [Hk Hn] Hs Hno Hh. destruct (toWIF_eq k ltac:(lia)) as (b & Hb & Hok & Hv & Hw). rewrite Hn in Hw. cbn [version_byte] in Hw.
  rewrite Hw in Hs. injection Hs as <-. rewrite fromWIF_text, transformWIF_payload by done.
  cbn [mbind result_bind info_bn info_network info_compressed]. rewrite Hv.
  rewrite (proj2 (Z.eqb_neq _ 0)), (proj2 (Z.ltb_lt _ _)) by lia. cbn [negb guard_or mbind result_bind]. rewrite <-Hn. by destruct k.
Qed.

(** C38: the text of a private key gives the key back, whatever random number is at hand: its
    number, its network and whether its public key is compressed.  For the main network this holds
    of every key; a test network text made of hexadecimal digits alone is taken for a number. *)
Theorem wif_roundtrip random k n s : key_wf k n -> toWIF k = Ok s -> n = livenet \/ Hex.isHexa s = false ->
  fromWIF random s = Ok k.
Proof.
  intros Hk Hs Hh. destruct (toWIF_eq k ltac:(destruct Hk; lia)) as (b & Hb & Hok & _ & Hw). pose proof Hk as [_ Hn].
  rewrite Hn in Hw. cbn [version_byte] in Hw. assert (s = Base58Check.encode (wif_payload (field privatekey n) b (compressed k))) as He by congruence.
  apply (fromWIF_toWIF random k n); [done|done|by rewrite He; apply payload_no_network|].
  destruct Hh as [->|Hh]; [by rewrite He; apply payload_not_hexa|done].
Qed.

(** what a text that is neither a number nor a name is read as: the text of a key gives that
    key, the text of 32 bytes gives a key of the main network without compression, and every other
    text throws. *)
Theorem wif_exact random s k : property s = None -> Hex.isHexa s = false ->
  fromWIF random s = Ok k <->
  (0 < bn k < getN
   /\ ((exists n, key_network k = Obj n) /\ toWIF k = Ok s
       \/ exists b, zlen b = 32 /\ bytes_ok b /\ s = Base58Check.encode b /\ k = mk (BN.fromBuffer b) false (Obj livenet))).
Proof.
  intros Hn Hh. rewrite fromWIF_text by done. unfold transformWIF. split.
  - destruct (Base58Check.decode s) as [p|] eqn:E; [|done]. apply check_decode_iff in E as [Hp ->]. cbn [mbind result_bind].
    destruct (transformBuffer p None) as [i|] eqn:E; [|done]. cbn [mbind result_bind].
    destruct (Z.eqb_spec (info_bn i) 0) as [|Hz]; [done|]. destruct (Z.ltb_spec (info_bn i) getN) as [Hlt|]; [|done].
    cbn [negb guard_or mbind result_bind]. destruct (info_network i) as [m|] eqn:Em; [|done]. intros [= <-]. cbn [bn compressed key_network].
    destruct (decide (zlen p = 32)) as [H32|H32].
    + unfold transformBuffer in E. rewrite H32 in E. injection E as <-. cbn [info_bn info_network info_compressed transformBNBuffer] in *. injection Em as <-.
      split; [|right; exists p; by repeat split]. assert (0 <= BN.fromBuffer p) by (by apply ScriptNumLemmas.fromBuffer_bound). lia.
    + apply transformBuffer_inv in E as (n & b & c & Hb & Hok & -> & -> & _); [|done..]. cbn [info_bn info_network info_compressed] in *. injection Em as <-.
      assert (0 <= BN.fromBuffer b) by (by apply ScriptNumLemmas.fromBuffer_bound).
      split; [lia|]. left. split; [eauto|]. destruct (toWIF_eq (mk (BN.fromBuffer b) c (Obj n)) ltac:(cbn; lia)) as (b' & Hb' & Hok' & Hv' & Hw). cbn [bn compressed key_network] in *.
      rewrite Hw. cbn [version_byte]. do 3 f_equal. apply fromBuffer_same_length; [done|done|lia|done].
  - intros [Hk [[[n Hnet] Hs]|(b & Hb & Hok & -> & ->)]].
    + fold (transformWIF s None). rewrite <-(fromWIF_text random) by done. by apply (fromWIF_toWIF random k n).
    + rewrite (proj2 (check_decode_iff _ b)) by done. cbn [mbind result_bind]. unfold transformBuffer. rewrite Hb. cbn [Z.eqb Pos.eqb transformBNBuffer mbind result_bind info_bn info_network info_compressed].
      cbn [bn] in Hk. rewrite (proj2 (Z.eqb_neq _ 0)), (proj2 (Z.ltb_lt _ _)) by lia. done.
Qed.

(** *** Keys as bytes, as hexadecimal digits and as JSON *)

Lemma hexBytes_shortest n : 0 <= n -> exists b, BN.hexBytes n = Ok b /\ bytes_ok b /\ b <> [] /\ BN.fromBuffer b = n
  /\ (forall k, (1 <= k)%nat -> n < 256 ^ Z.of_nat k -> zlen b <= Z.of_nat k).
Proof.
  intros Hn. unfold BN.hexBytes. rewrite (proj2 (Z.ltb_ge n 0)) by lia. exists (rev (BN.le_bytes n)). split; [done|]. unfold BN.le_bytes.
  split; [by apply Forall_rev, le_digits_ok|]. split.
  { intros Hr. apply (f_equal (@rev Z)) in Hr. rewrite rev_involutive in Hr. cbn [BN.le_digits] in Hr. by destruct (n <? 256). }
  split; [rewrite fromBuffer_le_value, rev_involutive; apply le_digits_value; [done|by apply hexBytes_fuel]|].
  intros k Hk Hlt. unfold zlen. rewrite length_rev. apply inj_le, le_digits_length; done.
Qed.

(** a key written as bytes is read back, without its compression and its network, exactly when it
    needs all 32 bytes: [toBuffer] drops leading zeros, and the bytes of a smaller key throw. *)
Theorem key_bytes random k n b : key_wf k n -> PrivKey.toBuffer k = Ok b ->
  if 2 ^ 248 <=? bn k then PrivKey.fromBuffer random b None = Ok (mk (bn k) false (Obj livenet))
  else is_ok (PrivKey.fromBuffer random b None) = false.
Proof.
  intros [Hk _] Hb. destruct (hexBytes_shortest (bn k) ltac:(lia)) as (b' & Hb' & Hok & _ & Hv & Hlen). unfold PrivKey.toBuffer in Hb.
  assert (b' = b) as -> by congruence. pose proof (ScriptNumLemmas.fromBuffer_bound b Hok) as [_ Hbd]. rewrite Hv in Hbd.
  pose proof getN_bound. change (2 ^ 248) with (256 ^ 31). unfold PrivKey.fromBuffer, PrivKey.new. cbn [classifyArguments].
  destruct (Z.leb_spec (256 ^ 31) (bn k)) as [Hge|Hlt].
  - assert (zlen b = 32) as Hl.
    { specialize (Hlen 32%nat ltac:(lia) ltac:(change (Z.of_nat 32) with 32; lia)). destruct (Z.le_gt_cases (zlen b) 31) as [Hle|]; [exfalso|lia].
      assert (256 ^ zlen b <= 256 ^ 31) by (apply Z.pow_le_mono_r; lia). lia. }
    unfold transformBuffer. rewrite Hl. cbn [Z.eqb Pos.eqb transformBNBuffer mbind result_bind info_bn info_network info_compressed]. rewrite Hv.
    rewrite (proj2 (Z.eqb_neq _ 0)), (proj2 (Z.ltb_lt _ _)) by lia. done.
  - specialize (Hlen 31%nat ltac:(lia) Hlt). unfold transformBuffer. rewrite (proj2 (Z.eqb_neq (zlen b) 32)) by lia.
    rewrite (proj2 (Z.eqb_neq (zlen b) (1 + 32 + 1))), (proj2 (Z.eqb_neq (zlen b) (1 + 32))) by lia. cbn [andb].
    destruct (byte_at b 0 =? field privatekey livenet); [done|]. by destruct (byte_at b 0 =? field privatekey testnet).
Qed.

(** a key written in hexadecimal is read back as a key of the main network with compression,
    unless its digits are a number of one of the networks: then the key read is the random one. *)
Theorem key_hex random k n s : key_wf k n -> PrivKey.toString k = Ok s -> 0 < random < getN ->
  PrivKey.fromString random s
  = Ok (match property s with Some m => mk random true m | None => mk (bn k) true (Obj livenet) end).
Proof.
  intros [Hk _] Hs Hr. destruct (hexBytes_shortest (bn k) ltac:(lia)) as (b & Hb & Hok & Hne & Hv & _).
  unfold PrivKey.toString, PrivKey.toBuffer in Hs. rewrite Hb in Hs. injection Hs as <-.
  unfold PrivKey.fromString, PrivKey.new. cbn [classifyArguments getNetwork truthy]. destruct (property (Hex.hexSlice b)) as [m|].
  - cbn [mbind result_bind info_bn info_network info_compressed]. by rewrite (proj2 (Z.eqb_neq _ 0)), (proj2 (Z.ltb_lt _ _)) by lia.
  - rewrite Hex.isHexa_hexSlice, Hex.hex_roundtrip by done. cbn [mbind result_bind info_bn info_network info_compressed]. rewrite Hv.
    by rewrite (proj2 (Z.eqb_neq _ 0)), (proj2 (Z.ltb_lt _ _)) by lia.
Qed.

Lemma bn_of_hex_slice b acc : bytes_ok b ->
  fold_left (fun acc c => acc * 16 + default 0 (Hex.digit_value c)) (list_ascii_of_string (Hex.hexSlice b)) acc
  = fold_left (fun acc x => acc * 256 + x) b acc.
Proof.
  intros Hb. revert acc. induction Hb as [|x b Hx _ IH]; intros acc; [done|]. rewrite Hex.hexSlice_cons by done. unfold byte_ok in Hx.
  cbn [list_ascii_of_string fold_left]. rewrite !Hex.digit_digit_value by zlia. cbn [default from_option]. unfold default, from_option, id. replace ((acc * 16 + x / 16) * 16 + x mod 16) with (acc * 256 + x) by zlia. apply IH.
Qed.

(** A number's hexadecimal digits are read as the number. *)
Lemma bn_of_hex_to_hex n s : bn_to_hex n = Ok s -> bn_of_hex s = n.
Proof.
  unfold bn_to_hex. destruct (Z.ltb_spec n 0) as [Hn|Hn]; [unfold BN.hexBytes; by rewrite (proj2 (Z.ltb_lt n 0))|].
  destruct (hexBytes_shortest n Hn) as (b & Hb & Hok & _ & Hv & _). rewrite Hb. cbn [mbind result_bind]. intros [= <-].
  assert (bn_of_hex (Hex.hexSlice b) = n) as He by (unfold bn_of_hex; rewrite bn_of_hex_slice; done).
  destruct (Hex.hexSlice b) as [|c [|c' t]] eqn:E; [done|by destruct c as [[] [] [] [] [] [] [] []]|].
  destruct (decide (c = "0"%char)) as [->|Hc]; [exact He|]. by destruct c as [[] [] [] [] [] [] [] []].
Qed.

(** a key read back from its JSON form holds the name of its network instead of the network: it
    is the same number, its address is the same, but the text it prints as begins with a zero byte
    and no key is read from it. *)
Theorem key_json random k n o : key_wf k n -> PrivKey.toObject k = Ok o ->
  exists k' s, PrivKey.fromJSON random o.1.1 o.1.2 o.2 = Ok k' /\ bn k' = bn k /\ compressed k' = compressed k
  /\ key_network k' = Name (name n)
  /\ (forall public, PrivKey.toAddress public None k' = PrivKey.toAddress public None k)
  /\ toWIF k' = Ok s /\ transformWIF s None = Throw (ErrorMessage "Invalid network").
Proof.
  intros [Hk Hn] Ho. unfold PrivKey.toObject in Ho. destruct (bn_to_hex (bn k)) as [h|] eqn:Eh; [|done]. injection Ho as <-. cbn [fst snd].
  apply bn_of_hex_to_hex in Eh. set (k' := mk (bn k) (compressed k) (Name (name n))).
  destruct (toWIF_eq k' ltac:(cbn; lia)) as (b & Hb & Hok & _ & Hw). exists k'. eexists. split.
  { unfold PrivKey.fromJSON, PrivKey.new. cbn [classifyArguments mbind result_bind]. unfold transformJSON. cbn [info_bn info_network info_compressed fmap option_fmap option_map].
    rewrite Eh, (proj2 (Z.eqb_neq _ 0)), (proj2 (Z.ltb_lt _ _)) by lia. cbn [negb guard_or mbind result_bind]. rewrite Hn. done. }
  do 3 (split; [done|]). split.
  { intros public. unfold PrivKey.toAddress. cbn [truthy]. rewrite Hn. by destruct n. }
  split; [exact Hw|]. unfold transformWIF. cbn [key_network k' version_byte compressed].
  rewrite (proj2 (check_decode_iff _ (wif_payload 0 b (compressed k)))) by (split; [by apply payload_ok|done]). cbn [mbind result_bind].
  unfold transformBuffer. rewrite payload_length, payload_version by done. by destruct (compressed k).
Qed.

End PrivateKeys.

(** ** Witnesses *)
Section KeysWitnesses.
Import Networks AddressText PrivKey.
#[local] Existing Instance demo_crypto.
#[local] Existing Instance demo_laws.

Definition demo_key : PrivKey.t := PrivKey.mk 258 true (Obj livenet).
Definition demo_address : Address := mkAddress (repeat 9 20) testnet PayToScriptHash.

Lemma demo_key_wf : key_wf demo_key livenet.
Proof. by split. Qed.

Lemma demo_address_wf : address_wf demo_address.
Proof. split; [done|]. cbn. repeat (apply Forall_cons; split; [done|]). apply Forall_nil. done. Qed.

Lemma address_text_witness : AddressText.fromString (AddressText.toString demo_address) (Some (Name "testnet")) (Some "scripthash") = Ok demo_address.
Proof.
  apply (address_text demo_address (Some (Name "testnet")) (Some "scripthash") demo_address_wf).
  split; intros x Hx; vm_compute in Hx; by injection Hx as <-.
Defined.

Lemma wif_roundtrip_witness : exists s, toWIF demo_key = Ok s /\ fromWIF 5 s = Ok demo_key.
Proof.
  eexists. split; [vm_compute; reflexivity|]. apply (wif_roundtrip 5 demo_key livenet); [apply demo_key_wf|vm_compute; reflexivity|by left].
Defined.

Lemma wif_exact_witness : exists s, fromWIF 5 s = Ok (mk 1 false (Obj livenet)).
Proof.
  exists (Base58Check.encode (repeat 0 31 ++ [1])). apply wif_exact; [vm_compute; reflexivity|vm_compute; reflexivity|].
  split; [done|]. right. exists (repeat 0 31 ++ [1]). repeat split; try done. cbn. repeat (apply Forall_cons; split; [done|]). by apply Forall_nil.
Defined.

Lemma key_bytes_witness : is_ok (PrivKey.fromBuffer 5 [1; 2] None) = false.
Proof. exact (key_bytes 5 demo_key livenet [1; 2] demo_key_wf eq_refl). Defined.

Lemma key_hex_witness : PrivKey.fromString 5 "8333" = Ok (mk 5 true (Obj livenet)).
Proof.
  rewrite (key_hex 5 (mk 0x8333 true (Obj livenet)) livenet "8333"); [vm_compute; reflexivity|by split|vm_compute; reflexivity|done].
Defined.

Lemma key_json_witness : exists k' s, PrivKey.fromJSON 5 "102" (Some "livenet") true = Ok k' /\ toWIF k' = Ok s
  /\ transformWIF s None = Throw (ErrorMessage "Invalid network").
Proof.
  destruct (key_json 5 demo_key livenet ("102"%string, Some "livenet"%string, true) demo_key_wf eq_refl) as (k' & s & Hk & _ & _ & _ & _ & Hs & Ht).
  by exists k', s.
Defined.
End KeysWitnesses.
