(* ===== verification/Hmac.v ===== *)
(** * Text of buffers, and HMAC

    Models [utf8Slice] of the bundled [Buffer] (a buffer as text, which comparing a buffer with a number
    goes through) and [Hash.hmac] of module 8 of [src/Sources/WebClient/js/bitcore.js], with the theorem
    that the latter is the function of RFC 2104. *)
From S2P Require Import Prelude JsNumber JsValue Encoding Base58.
From Stdlib Require Import Ascii String.
Local Open Scope Z_scope.
Local Open Scope js_scope.

(** ** Text of a buffer, as code points *)
Module Utf8.

Definition continues (c : Z) : bool := Z.land c 0xc0 =? 0x80.

(** [decodeURIComponent] of escaped octets, none of them below 0x80; [None] for a [URIError] *)
Fixpoint decodeURIComponent (l : list Z) : option (list Z) :=
  match l with
  | [] => Some []
  | b :: l =>
      if b <? 0xc0 then None
      else if b <? 0xe0 then
        match l with
        | c1 :: l =>
            let v := Z.land b 0x1f * 2 ^ 6 + Z.land c1 0x3f in
            if continues c1 && (0x80 <=? v) then cons v <$> decodeURIComponent l else None
        | _ => None
        end
      else if b <? 0xf0 then
        match l with
        | c1 :: c2 :: l =>
            let v := Z.land b 0x0f * 2 ^ 12 + Z.land c1 0x3f * 2 ^ 6 + Z.land c2 0x3f in
            if continues c1 && continues c2 && (0x800 <=? v) && negb ((0xd800 <=? v) && (v <=? 0xdfff))
            then cons v <$> decodeURIComponent l else None
        | _ => None
        end
      else if b <? 0xf8 then
        match l with
        | c1 :: c2 :: c3 :: l =>
            let v := Z.land b 0x07 * 2 ^ 18 + Z.land c1 0x3f * 2 ^ 12 + Z.land c2 0x3f * 2 ^ 6 + Z.land c3 0x3f in
            if continues c1 && continues c2 && continues c3 && (0x10000 <=? v) && (v <=? 0x10ffff)
            then cons v <$> decodeURIComponent l else None
        | _ => None
        end
      else None
  end.

Definition decodeUtf8Char (str : list Z) : list Z := default [0xfffd] (decodeURIComponent str).

(** The loop of [utf8Slice], [tmp] being the octets not yet decoded *)
Fixpoint slice_loop (buf tmp : list Z) : list Z :=
  match buf with
  | [] => decodeUtf8Char tmp
  | b :: buf => if b <=? 0x7f then decodeUtf8Char tmp ++ b :: slice_loop buf [] else slice_loop buf (tmp ++ [b])
  end.

(** [buf.toString()] *)
Definition utf8Slice (buf : list Z) : list Z := slice_loop buf [].

(** Code points as a string of 8-bit characters, where they are *)
Definition narrow (l : list Z) : option string :=
  if forallb (fun c => (0 <=? c) && (c <? 256)) l then Some (string_of_list_ascii (map (fun c => ascii_of_N (Z.to_N c)) l)) else None.

(** White space beyond 8 bits *)
Definition wide_blank (c : Z) : bool :=
  (c =? 0x1680) || ((0x2000 <=? c) && (c <=? 0x200a)) || (c =? 0x2028) || (c =? 0x2029) || (c =? 0x202f)
  || (c =? 0x205f) || (c =? 0x3000) || (c =? 0xfeff).
Definition blank (c : Z) : bool := ((9 <=? c) && (c <=? 13)) || (c =? 32) || (c =? 160) || wide_blank c.
Fixpoint skip (l : list Z) : list Z := match l with c :: l' => if blank c then skip l' else l | [] => [] end.

(** ToNumber of a buffer: of its text *)
Definition number_of_buffer (buf : list Z) : number :=
  match narrow (rev (skip (rev (skip (utf8Slice buf))))) with Some s => Number s | None => num_nan end.

(** [new Buffer(text)] of a text of 7-bit characters *)
Definition bytes_of_text (s : string) : list Z := map (fun c => Z.of_N (N_of_ascii c)) (list_ascii_of_string s).

Lemma slice_loop_ascii buf : Forall (fun b => b <= 0x7f) buf -> slice_loop buf [] = buf.
Proof.
  induction 1 as [|b buf Hb _ IH]; cbn [slice_loop]; [done|]. rewrite (proj2 (Z.leb_le _ _)), IH by done. done.
Qed.

(** ASCII text is read back. *)
Lemma narrow_text s : Forall (fun b => b <= 0x7f) (bytes_of_text s) -> narrow (utf8Slice (bytes_of_text s)) = Some s.
Proof.
  intros Hs. unfold utf8Slice. rewrite slice_loop_ascii by done. unfold narrow.
  replace (forallb _ _) with true.
  2:{ symmetry. apply forallb_forall. intros x Hx. unfold bytes_of_text in *. apply in_map_iff in Hx as (c & <- & Hc).
      rewrite (List.Forall_forall) in Hs. specialize (Hs _ (in_map _ _ _ Hc)). cbv beta in Hs. lia. }
  f_equal. unfold bytes_of_text. rewrite map_map. rewrite <-(string_of_list_ascii_of_string s) at 2. f_equal.
  etransitivity; [|apply map_id]. apply map_ext. intros c. rewrite N2Z.id. apply ascii_N_embedding.
Qed.

End Utf8.

(** ** Hash.hmac *)

(** The hash functions of the bundled hash.js and sha512 *)
Class Digests := { sha256 : list Z -> list Z; sha512 : list Z -> list Z }.

Class DigestsLaws `{Digests} := {
  sha512_length b : zlen (sha512 b) = 64;
  sha512_ok b : bytes_ok (sha512 b);
}.

Module Hash.

(** A hash function and its property [blocksize], in bits *)
Record hashf := mkHashf { run : list Z -> list Z; blocksize : Z }.

(** Reading past the end of a key gives [undefined], which is 0 to [^]. *)
Definition hmac (h : hashf) (data key : list Z) : result (list Z) :=
  guard_or InvalidArgument (negb (blocksize h =? 0));;
  let blocksize := blocksize h / 8 in
  let key :=
    if zlen key >? blocksize then run h key
    else if num_lt (Utf8.number_of_buffer key) (num_of_Z blocksize) then Base58Check.copy key (repeat 0 (Z.to_nat blocksize)) 0
    else key in
  let o_key := repeat 0x5c (Z.to_nat blocksize) in
  let i_key := repeat 0x36 (Z.to_nat blocksize) in
  let o_key_pad := map (fun i => Z.lxor (byte_at o_key i) (byte_at key i)) (seqZ 0 blocksize) in
  let i_key_pad := map (fun i => Z.lxor (byte_at i_key i) (byte_at key i)) (seqZ 0 blocksize) in
  Ok (run h (o_key_pad ++ run h (i_key_pad ++ data))).

Section WithDigests.
Context `{Digests}.

Definition sha256hmac (data key : list Z) : result (list Z) := hmac (mkHashf sha256 512) data key.
Definition sha512hmac (data key : list Z) : result (list Z) := hmac (mkHashf sha512 1024) data key.
End WithDigests.
End Hash.

(** ** RFC 2104 *)

(** [HMAC(K, text) = H(K ^ opad, H(K ^ ipad, text))], [K] padded with zeros to [B] bytes *)
Definition rfc2104 (H : list Z -> list Z) (B : nat) (K text : list Z) : list Z :=
  let K := if (B <? List.length K)%nat then H K else K in
  let K := K ++ repeat 0 (B - List.length K) in
  let pad x := map (Z.lxor x) K in
  H (pad 0x5c ++ H (pad 0x36 ++ text)).

Module HmacLemmas.
Import Hash.

Lemma byte_at_padded key n i : byte_at (key ++ repeat 0 n) i = byte_at key i.
Proof.
  unfold byte_at. destruct (decide (Z.to_nat i < List.length key)%nat) as [Hlt|Hge]; [by rewrite app_nth1|].
  rewrite app_nth2, (nth_overflow key) by lia. apply nth_repeat.
Qed.

Lemma drop_repeat (x : Z) n k : drop k (repeat x n) = repeat x (n - k).
Proof. revert k. induction n as [|n IH]; intros [|k]; cbn; [done..|apply IH]. Qed.

Lemma byte_at_repeat x n i : 0 <= i < Z.of_nat n -> byte_at (repeat x n) i = x.
Proof. intros Hi. unfold byte_at. apply nth_repeat_lt. lia. Qed.

Lemma map_byte_at (f : Z -> Z) K : map (fun i => f (byte_at K i)) (seqZ 0 (zlen K)) = map f K.
Proof.
  apply nth_ext with (d := f (byte_at K 0)) (d' := f 0).
  { rewrite !length_map, length_seqZ. unfold zlen. lia. }
  intros k. rewrite length_map, length_seqZ. unfold zlen. rewrite Nat2Z.id. intros Hk.
  rewrite (map_nth f K 0 k), (nth_indep _ _ (f (byte_at K (Z.of_nat k)))) by (rewrite length_map, length_seqZ; lia).
  rewrite (map_nth (fun i => f (byte_at K i)) _ (Z.of_nat k) k). f_equal. unfold byte_at.
  rewrite (nth_lookup_Some (seqZ 0 (zlen K)) k _ (Z.of_nat k)); [by rewrite Nat2Z.id|].
  apply lookup_seqZ. unfold zlen. lia.
Qed.

(** A pad of the code is the padded key with every byte flipped alike. *)
Lemma pad_spec x key (B : nat) : (List.length key <= B)%nat ->
  map (fun i => Z.lxor (byte_at (repeat x B) i) (byte_at key i)) (seqZ 0 (Z.of_nat B))
  = map (Z.lxor x) (key ++ repeat 0 (B - List.length key)).
Proof.
  intros Hk. rewrite <-(map_byte_at (Z.lxor x) (key ++ _)). replace (zlen (key ++ repeat 0 (B - List.length key))) with (Z.of_nat B).
  2:{ unfold zlen. rewrite length_app, repeat_length. lia. }
  apply map_ext_in. intros i Hi%list_elem_of_In%elem_of_seqZ. by rewrite byte_at_padded, byte_at_repeat by lia.
Qed.

Lemma pad_padded x key (B : nat) : (List.length key <= B)%nat ->
  map (fun i => Z.lxor (byte_at (repeat x B) i) (byte_at (Base58Check.copy key (repeat 0 B) 0) i)) (seqZ 0 (Z.of_nat B))
  = map (Z.lxor x) (key ++ repeat 0 (B - List.length key)).
Proof.
  intros Hk. rewrite <-(pad_spec x key) by done. apply map_ext_in. intros i Hi. f_equal.
  assert (Base58Check.copy key (repeat 0 B) 0 = key ++ repeat 0 (B - List.length key)) as ->; [|by rewrite byte_at_padded].
  unfold Base58Check.copy. rewrite Z.sub_0_r, Z.add_0_l, (ztake_all _ key), zdrop_drop by (unfold zlen; rewrite repeat_length; lia).
  replace (ztake 0 (repeat 0 B)) with (@nil Z) by (by destruct B). unfold zlen. rewrite Nat2Z.id, drop_repeat. done.
Qed.

(** The function of the code is the one of the RFC, whatever the comparison of the key with the
    block size gives. *)
Lemma hmac_rfc h B data key : (0 < B)%nat -> blocksize h = 8 * Z.of_nat B -> (List.length (run h key) <= B)%nat ->
  hmac h data key = Ok (rfc2104 (run h) B key data).
Proof.
  intros HB Hbs Hlen. unfold hmac, rfc2104. rewrite Hbs. rewrite (proj2 (Z.eqb_neq _ 0)) by lia. cbn [negb guard_or mbind result_bind].
  rewrite Z.mul_comm, Z.div_mul, Nat2Z.id by lia. cbv zeta. unfold zlen.
  assert ((Z.of_nat (List.length key) >? Z.of_nat B) = (B <? List.length key)%nat) as Hgt.
  { destruct (Z.gtb_spec (Z.of_nat (List.length key)) (Z.of_nat B)), (Nat.ltb_spec B (List.length key)); lia || done. }
  rewrite Hgt. destruct (Nat.ltb_spec B (List.length key)).
  - by rewrite !pad_spec.
  - destruct (num_lt _ _); [by rewrite !pad_padded|by rewrite !pad_spec].
Qed.

End HmacLemmas.

(** ** Theorems *)
Section HmacTheorems.
Import HmacLemmas Hash.
Context `{DigestsLaws}.

(** C21: both keyed hashes are HMAC of RFC 2104 for every key and text, though a key is only filled up to
    the block when its text happens to read as a small number: past its end a key reads as zeros. *)
Theorem hmac_is_rfc2104 data key : (forall b, zlen (sha256 b) = 32) ->
  sha256hmac data key = Ok (rfc2104 sha256 64 key data) /\ sha512hmac data key = Ok (rfc2104 sha512 128 key data).
Proof.
  intros H256. split.
  - apply (hmac_rfc (mkHashf sha256 512) 64); [lia|done|]. cbn [run]. specialize (H256 key). unfold zlen in H256. lia.
  - apply (hmac_rfc (mkHashf sha512 1024) 128); [lia|done|]. cbn [run]. pose proof (sha512_length key) as Hl. unfold zlen in Hl. lia.
Qed.
End HmacTheorems.

(** Digests that evaluate, for the examples: every byte counts, in its place *)
Definition demo_byte (salt : Z) (b : list Z) : Z := fold_left (fun acc x => (acc * 31 + x + salt) mod 256) b 0.
#[local] Instance demo_digests : Digests := {|
  sha256 b := repeat (demo_byte 7 b) 32;
  sha512 b := repeat (demo_byte 11 b) 32 ++ repeat (demo_byte 13 b) 32;
|}.

Lemma demo_byte_ok salt b : byte_ok (demo_byte salt b).
Proof.
  unfold demo_byte. assert (forall acc, byte_ok acc -> byte_ok (fold_left (fun acc x => (acc * 31 + x + salt) mod 256) b acc)) as Hf.
  { induction b as [|x b IH]; intros acc Ha; [done|]. cbn. apply IH. unfold byte_ok. apply Z.mod_pos_bound. lia. }
  apply Hf. unfold byte_ok. lia.
Qed.

Lemma demo_digests_laws : @DigestsLaws demo_digests.
Proof.
  split; intros b; [done|]. cbn -[repeat]. apply Forall_app. split; rewrite Forall_forall; intros x Hx%list_elem_of_In%repeat_spec; subst; apply demo_byte_ok.
Qed.

(** A key whose text is a number below the block size, "12", is filled up; another is not. *)
Lemma hmac_is_rfc2104_witness : num_lt (Utf8.number_of_buffer [49; 50]) (num_of_Z 128) = true
  /\ Hash.sha512hmac [1; 2; 3] [49; 50] = Ok (rfc2104 sha512 128 [49; 50] [1; 2; 3])
  /\ Hash.sha256hmac [] [200] = Ok (rfc2104 sha256 64 [200] []).
Proof.
  split; [vm_compute; reflexivity|]. split.
  - exact (proj2 (@hmac_is_rfc2104 demo_digests demo_digests_laws [1; 2; 3] [49; 50] (fun b => eq_refl))).
  - exact (proj1 (@hmac_is_rfc2104 demo_digests demo_digests_laws [] [200] (fun b => eq_refl))).
Defined.
