(* ===== verification/KeyCache.v ===== *)
(** * The cache of derived keys

    Models module 19 ([HDKeyCache]) of [src/Sources/WebClient/js/bitcore.js] for any type of values:
    what it remembers, how a hit moves a key, what it erases.  The theorems: it is bounded, it gives
    back what was stored, and which of its keys stay. *)
From S2P Require Import Prelude JsNumber.
Local Open Scope Z_scope.
Local Open Scope js_scope.

(** ** Numbers as parts of keys *)
#[export] Instance number_eq_dec : EqDecision number.
Proof. solve_decision. Defined.

Definition number_parts (x : number) : Z * bool * positive * Z :=
  match x with
  | S754_zero s => (0, s, xH, 0)
  | S754_infinity s => (1, s, xH, 0)
  | S754_nan => (2, false, xH, 0)
  | S754_finite s m e => (3, s, m, e)
  end.
Definition number_of_parts (p : Z * bool * positive * Z) : number :=
  match p with
  | (0, s, _, _) => S754_zero s
  | (1, s, _, _) => S754_infinity s
  | (2, _, _, _) => S754_nan
  | (_, s, m, e) => S754_finite s m e
  end.
#[export] Program Instance number_countable : Countable number := inj_countable' number_parts number_of_parts _.
Next Obligation. by intros []. Qed.

Module HDKeyCache.

(** [xkey + '/' + number + '/' + hardened]: the text of a number determines it, but for the sign of
    zero, and the text of a key has no slash. *)
Definition key : Type := string * number * bool.
Definition plain (x : number) : number := match x with S754_zero _ => S754_zero false | _ => x end.
Definition make_key (xkey : string) (number : number) (hardened : bool) : key := (xkey, plain number, hardened).

Section Values.
Context {V : Type}.

Record t := mk {
  _cache : gmap key V;
  _count : Z;
  _eraseIndex : Z;
  _usedList : gmap Z key;
  _usedIndex : gmap key Z;
}.
#[global] Instance eta_t : Eta t := fun c => mk (_cache c) (_count c) (_eraseIndex c) (_usedList c) (_usedIndex c).

Definition _CACHE_SIZE : Z := 5000.

Definition empty : t := mk ∅ 0 0 ∅ ∅.

(** The body of the loop of [_cacheRemove] *)
Definition erase (c : t) : t :=
  let c := match _usedList c !! _eraseIndex c with
    | Some removeKey => c <| _usedIndex ::= delete removeKey |> <| _cache ::= delete removeKey |>
    | None => c end in
  c <| _usedList ::= delete (_eraseIndex c) |> <| _eraseIndex ::= Z.succ |>.

(** [while (this._eraseIndex < this._count - this._CACHE_SIZE)] *)
Fixpoint erase_loop (fuel : nat) (c : t) : t :=
  match fuel with
  | O => c
  | S fuel => if _eraseIndex c <? _count c - _CACHE_SIZE then erase_loop fuel (erase c) else c
  end.

Definition _cacheRemove (c : t) : t := erase_loop (Z.to_nat (_count c - _CACHE_SIZE - _eraseIndex c)) c.

(** The index 0 is falsy: a key last used first of all keeps its place in the list. *)
Definition _cacheHit (k : key) (c : t) : t :=
  let c := match _usedIndex c !! k with
    | Some i => if i =? 0 then c else c <| _usedList ::= delete i |>
    | None => c end in
  let c := c <| _usedList ::= <[_count c := k]> |> in
  let c := c <| _usedIndex ::= <[k := _count c]> |> in
  let c := c <| _count ::= Z.succ |> in
  _cacheRemove c.

(** [get(xkey, number, hardened)] reads the cache again after the hit. *)
Definition get (k : key) : js t (option V) :=
  c ← js_get;
  match _cache c !! k with
  | Some _ => js_modify (_cacheHit k);; c ← js_get; mret (_cache c !! k)
  | None => mret None
  end.

Definition set (k : key) (derived : V) : js t unit :=
  js_modify (fun c => c <| _cache ::= <[k := derived]> |>);;
  js_modify (_cacheHit k).

End Values.
Arguments t V : clear implicits.
End HDKeyCache.

(** ** What the cache promises *)
Module KeyCacheLemmas.
Import HDKeyCache.
Section Values.
Context {V : Type}.
Implicit Types (c : HDKeyCache.t V) (k : key) (v : V).

Lemma erase_eq c : _count (erase c) = _count c /\ _eraseIndex (erase c) = _eraseIndex c + 1
  /\ _usedList (erase c) = delete (_eraseIndex c) (_usedList c).
Proof. unfold erase. by destruct (_usedList c !! _eraseIndex c). Qed.

Lemma erase_maps c : (_usedList c !! _eraseIndex c = None /\ _cache (erase c) = _cache c /\ _usedIndex (erase c) = _usedIndex c)
  \/ exists k, _usedList c !! _eraseIndex c = Some k /\ _cache (erase c) = delete k (_cache c) /\ _usedIndex (erase c) = delete k (_usedIndex c).
Proof. unfold erase. destruct (_usedList c !! _eraseIndex c) as [k|]; [right; by exists k|by left]. Qed.

Lemma erase_cache c : _cache (erase c) ⊆ _cache c.
Proof. destruct (erase_maps c) as [(_ & -> & _)|(k & _ & -> & _)]; [done|apply delete_subseteq]. Qed.

(** A property of states the loop keeps, and what its end gives *)
Lemma erase_loop_ind (P : HDKeyCache.t V -> Prop) c :
  (forall c, P c -> _eraseIndex c < _count c - _CACHE_SIZE -> P (erase c)) -> P c -> P (_cacheRemove c).
Proof.
  intros Hstep. unfold _cacheRemove. generalize (Z.to_nat (_count c - _CACHE_SIZE - _eraseIndex c)). intros fuel. revert c.
  induction fuel as [|fuel IH]; intros c Hc; cbn [erase_loop]; [done|].
  destruct (Z.ltb_spec (_eraseIndex c) (_count c - _CACHE_SIZE)); [|done]. apply IH. by apply Hstep.
Qed.

(** The fuel is enough: afterwards the guard of the loop is false. *)
Lemma erase_loop_done c : _count c - _CACHE_SIZE <= _eraseIndex (_cacheRemove c).
Proof.
  unfold _cacheRemove. remember (Z.to_nat (_count c - _CACHE_SIZE - _eraseIndex c)) as fuel eqn:Hf.
  revert c Hf. induction fuel as [|fuel IH]; intros c Hf; cbn [erase_loop]; [lia|].
  destruct (Z.ltb_spec (_eraseIndex c) (_count c - _CACHE_SIZE)); [|lia].
  destruct (erase_eq c) as (Hc & He & _). specialize (IH (erase c)). rewrite Hc, He in IH. apply IH. lia.
Qed.

Lemma remove_count c : _count (_cacheRemove c) = _count c.
Proof.
  apply (erase_loop_ind (fun d => _count d = _count c)); [|done]. intros d Hd _. by rewrite (proj1 (erase_eq d)).
Qed.

Lemma remove_cache c : _cache (_cacheRemove c) ⊆ _cache c.
Proof.
  apply (erase_loop_ind (fun d => _cache d ⊆ _cache c)); [|done]. intros d Hd _. etrans; [apply erase_cache|done].
Qed.

Lemma hit_cache k c : _cache (_cacheHit k c) ⊆ _cache c.
Proof. unfold _cacheHit. etrans; [apply remove_cache|]. destruct (_usedIndex c !! k) as [i|]; [|done]. by destruct (i =? 0). Qed.

Lemma hit_count k c : _count (_cacheHit k c) = _count c + 1.
Proof. unfold _cacheHit. rewrite remove_count. destruct (_usedIndex c !! k) as [i|]; [|done]. by destruct (i =? 0). Qed.

Lemma forall_subseteq (P : key -> V -> Prop) (m m' : gmap key V) : map_Forall P m -> m' ⊆ m -> map_Forall P m'.
Proof. intros HP Hm k v Hk. apply HP. by eapply lookup_weaken. Qed.

(** A read that finds nothing changes nothing; the value read is looked up again after the hit. *)
Lemma get_miss k c : _cache c !! k = None -> get k c = (Ok None, c).
Proof. unfold get, js_get, mbind, js_bind, mret, js_ret. by intros ->. Qed.

Lemma get_hit k c v : _cache c !! k = Some v -> get k c = (Ok (_cache (_cacheHit k c) !! k), _cacheHit k c).
Proof. unfold get, js_get, mbind, js_bind, js_modify, mret, js_ret. by intros ->. Qed.

Lemma set_eq k v c : set k v c = (Ok tt, _cacheHit k (c <| _cache ::= <[k := v]> |>)).
Proof. done. Qed.

Lemma cache_eta c : c = c <| _cache := _cache c |>.
Proof. by destruct c. Qed.

(** Whatever holds of the entries goes on holding. *)
Lemma get_entries (P : key -> V -> Prop) k c : map_Forall P (_cache c) ->
  map_Forall P (_cache (snd (get k c))) /\ (forall v, fst (get k c) = Ok (Some v) -> P k v) /\ is_ok (fst (get k c)) = true.
Proof.
  intros HP. destruct (_cache c !! k) as [v|] eqn:E; [rewrite (get_hit _ _ _ E)|rewrite (get_miss _ _ E)]; cbn [fst snd]; [|by split_and!].
  pose proof (forall_subseteq P _ _ HP (hit_cache k c)) as Hhit. split_and!; [done| |done].
  intros w [= Hw]. by apply Hhit.
Qed.

Lemma set_entries (P : key -> V -> Prop) k v c : map_Forall P (_cache c) -> P k v ->
  map_Forall P (_cache (snd (set k v c))) /\ fst (set k v c) = Ok tt.
Proof.
  intros HP Hv. unfold set, mbind, js_bind, js_modify. cbn [fst snd]. split; [|done].
  eapply forall_subseteq; [|apply hit_cache]. by apply map_Forall_insert_2.
Qed.

(** *** The bookkeeping

    Every key that is kept has its place in the list, every place holds a key whose place it is,
    but for the places of the first key. *)
Record inv (first : key) (c : HDKeyCache.t V) : Prop := {
  inv_range : 0 <= _eraseIndex c <= _count c;
  inv_list i k : _usedList c !! i = Some k -> _eraseIndex c <= i < _count c;
  inv_index k i : _usedIndex c !! k = Some i -> _usedList c !! i = Some k;
  inv_cache k : is_Some (_cache c !! k) -> is_Some (_usedIndex c !! k);
  inv_place i k : _usedList c !! i = Some k -> k <> first -> _usedIndex c !! k = Some i;
  inv_first k : _usedIndex c !! k = Some 0 -> k = first;
}.

Lemma inv_empty first : inv first empty.
Proof. split; cbn; [lia|..]; intros *; rewrite lookup_empty; done. Qed.

Lemma inv_erase first c : inv first c -> _eraseIndex c < _count c - _CACHE_SIZE -> inv first (erase c).
Proof.
  intros [Hr Hl Hi Hc Hp Hf] Hlt. unfold _CACHE_SIZE in Hlt. destruct (erase_eq c) as (Ec & Ee & El).
  destruct (erase_maps c) as [(Hn & Em & Ei)|(k0 & Hk0 & Em & Ei)]; split; rewrite ?Ec, ?Ee, ?El, ?Em, ?Ei; try lia.
  - intros i k [Hne Hk]%lookup_delete_Some. specialize (Hl i k Hk). lia.
  - intros k i Hk. specialize (Hi k i Hk). apply lookup_delete_Some. split; [|done]. congruence.
  - done.
  - intros i k [_ Hk]%lookup_delete_Some. by apply Hp.
  - done.
  - intros i k [Hne Hk]%lookup_delete_Some. specialize (Hl i k Hk). lia.
  - intros k i [Hne Hk]%lookup_delete_Some. specialize (Hi k i Hk). apply lookup_delete_Some. split; [|done]. congruence.
  - intros k [v [Hne Hv]%lookup_delete_Some]. destruct (Hc k ltac:(by eexists)) as [i Hk]. exists i. by apply lookup_delete_Some.
  - intros i k [Hne Hk]%lookup_delete_Some Hk'. apply lookup_delete_Some. split; [|by apply Hp].
    intros <-. specialize (Hp _ _ Hk0 Hk') as H1. specialize (Hp _ _ Hk Hk'). congruence.
  - intros k [_ Hk]%lookup_delete_Some. by apply Hf.
Qed.

Lemma inv_remove first c : inv first c -> inv first (_cacheRemove c).
Proof. intros Hc. apply (erase_loop_ind (inv first)); [|done]. intros d Hd Hlt. by apply inv_erase. Qed.

(** The bookkeeping between the two halves of a hit *)
Definition placed k c : HDKeyCache.t V :=
  let c := match _usedIndex c !! k with
    | Some i => if i =? 0 then c else c <| _usedList ::= delete i |>
    | None => c end in
  let c := c <| _usedList ::= <[_count c := k]> |> in
  let c := c <| _usedIndex ::= <[k := _count c]> |> in
  c <| _count ::= Z.succ |>.

Lemma placed_eq k c : _cache (placed k c) = _cache c /\ _count (placed k c) = _count c + 1 /\ _eraseIndex (placed k c) = _eraseIndex c
  /\ _usedIndex (placed k c) = <[k := _count c]> (_usedIndex c)
  /\ (forall i, _usedList (placed k c) !! i = if decide (i = _count c) then Some k
        else if decide (_usedIndex c !! k = Some i /\ i <> 0) then None else _usedList c !! i).
Proof.
  unfold placed. destruct (_usedIndex c !! k) as [i0|] eqn:E; [destruct (Z.eqb_spec i0 0) as [->|Hne]|]; cbn; split_and!; try done; intros i;
    (destruct (decide (i = _count c)) as [->|Hi]; [by rewrite lookup_insert_eq|rewrite lookup_insert_ne by done]);
    destruct (decide _) as [[Hd ?]|Hd]; simplify_eq; try done.
  - by rewrite lookup_delete_eq.
  - rewrite lookup_delete_ne; [done|]. intros ->. by apply Hd.
Qed.

Lemma placed_in k m c : let c' := placed k (c <| _cache := m |>) in
  _cache c' = m /\ _count c' = _count c + 1 /\ _eraseIndex c' = _eraseIndex c /\ _usedIndex c' = <[k := _count c]> (_usedIndex c)
  /\ (forall i, _usedList c' !! i = if decide (i = _count c) then Some k
        else if decide (_usedIndex c !! k = Some i /\ i <> 0) then None else _usedList c !! i).
Proof. exact (placed_eq k (c <| _cache := m |>)). Qed.

(** [k] may have been stored just before, the rest of the cache is as it was. *)
Lemma inv_placed first k m c : inv first c -> (_count c = 0 -> k = first) -> (forall k', k' <> k -> m !! k' = _cache c !! k') ->
  inv first (placed k (c <| _cache := m |>)).
Proof.
  intros [Hr Hl Hi Hc Hp Hf] H0 Hm. destruct (placed_in k m c) as (Em & Ec & Ee & Ei & El).
  split; rewrite ?Ec, ?Ee, ?Ei, ?Em; try lia.
  - intros i k'. rewrite El. repeat case_decide; [lia|done|]. intros Hk. specialize (Hl i k' Hk). lia.
  - intros k' i. rewrite El. intros [[<- <-]|[Hne Hk]]%lookup_insert_Some; [by rewrite decide_True|].
    pose proof (Hi k' i Hk) as Hik. specialize (Hl i k' Hik). rewrite decide_False by lia. case_decide as Hd; [|done].
    destruct Hd as [Hd _]. specialize (Hi k i Hd). congruence.
  - intros k' Hk. destruct (decide (k = k')) as [<-|Hne]; [by rewrite lookup_insert_eq|rewrite lookup_insert_ne by done].
    rewrite Hm in Hk by done. by apply Hc.
  - intros i k'. rewrite El. repeat case_decide; [intros [= <-] _; subst; by rewrite lookup_insert_eq|done|].
    intros Hk Hne. rewrite lookup_insert_ne; [by apply Hp|]. intros <-. specialize (Hp _ _ Hk Hne). destruct (decide (i = 0)) as [->|]; [by apply Hne, Hf|tauto].
  - intros k'. intros [[<- Hk]|[Hne Hk]]%lookup_insert_Some; [by apply H0|by apply Hf].
Qed.

Lemma inv_hit first k m c : inv first c -> (_count c = 0 -> k = first) -> (forall k', k' <> k -> m !! k' = _cache c !! k') ->
  inv first (_cacheHit k (c <| _cache := m |>)).
Proof. intros Hc H0 Hm. change (inv first (_cacheRemove (placed k (c <| _cache := m |>)))). by apply inv_remove, inv_placed. Qed.

(** *** Sequences of calls *)
Inductive op := Get (k : key) | Set_ (k : key) (v : V).
Definition apply (o : op) c : HDKeyCache.t V := match o with Get k => snd (get k c) | Set_ k v => snd (set k v c) end.
Definition run (ops : list op) : HDKeyCache.t V := fold_left (fun c o => apply o c) ops empty.

(** The key of the first call that stores anything *)
Fixpoint first_set (ops : list op) : option key :=
  match ops with [] => None | Get _ :: ops => first_set ops | Set_ k _ :: _ => Some k end.

Lemma inv_apply first o c : inv first c -> (forall k v, o = Set_ k v -> _count c = 0 -> k = first) -> inv first (apply o c).
Proof.
  intros Hc H0. destruct o as [k|k v]; cbn [apply].
  - destruct (_cache c !! k) as [v|] eqn:E; [rewrite (get_hit _ _ _ E); cbn [snd]|by rewrite (get_miss _ _ E)].
    rewrite (cache_eta c). apply inv_hit; [done| |done].
    intros Hz. exfalso. destruct (inv_cache _ _ Hc k) as [i Hi]; [by eexists|].
    pose proof (inv_list _ _ Hc _ _ (inv_index _ _ Hc _ _ Hi)). pose proof (inv_range _ _ Hc). lia.
  - rewrite set_eq. cbn [snd]. apply (inv_hit _ k (<[k:=v]> (_cache c))); [done|by apply (H0 k v)|].
    intros k' Hne. by rewrite lookup_insert_ne.
Qed.

Lemma apply_count o c : _count c <= _count (apply o c) <= _count c + 1 /\ (forall k v, o = Set_ k v -> _count (apply o c) = _count c + 1).
Proof.
  destruct o as [k|k v]; cbn [apply].
  - destruct (_cache c !! k) as [v|] eqn:E; [rewrite (get_hit _ _ _ E)|rewrite (get_miss _ _ E)]; cbn [snd]; [rewrite hit_count|]; split; (lia || done).
  - rewrite set_eq. cbn [snd]. rewrite hit_count. cbn. split; [lia|done].
Qed.

Lemma run_snoc ops o : run (ops ++ [o]) = apply o (run ops).
Proof. unfold run. by rewrite fold_left_app. Qed.

Lemma first_set_app a b : first_set (a ++ b) = match first_set a with Some k => Some k | None => first_set b end.
Proof. induction a as [|[k|k v] a IH]; [done|exact IH|done]. Qed.

(** Nothing is stored before the first call that stores. *)
Lemma run_inv first ops : (first_set ops = None \/ first_set ops = Some first) ->
  inv first (run ops) /\ 0 <= _count (run ops) /\ (first_set ops <> None -> 0 < _count (run ops)).
Proof.
  induction ops as [|o ops IH] using rev_ind; intros Hf; [split; [apply inv_empty|done]|].
  rewrite run_snoc. rewrite first_set_app in *.
  assert (first_set ops = None \/ first_set ops = Some first) as Hf' by (destruct (first_set ops); auto).
  destruct (IH Hf') as (Hi & Hc & H0). destruct (apply_count o (run ops)) as [Hle Hset]. split_and!.
  - apply inv_apply; [done|]. intros k v -> Hz. destruct (first_set ops) as [k0|]; [specialize (H0 ltac:(done)); lia|].
    cbn in Hf. by destruct Hf as [|[= ->]].
  - lia.
  - intros Hne. destruct (first_set ops) as [k0|]; [specialize (H0 ltac:(done)); lia|]. destruct o as [k|k v]; [done|]. rewrite (Hset k v eq_refl). lia.
Qed.

(** Some key plays the part of the first. *)
Lemma run_inv_some ops k0 : exists first, inv first (run ops) /\ (first = k0 \/ first_set ops = Some first).
Proof.
  destruct (first_set ops) as [k|] eqn:E; [exists k; split; [apply run_inv; rewrite E|]; auto|].
  exists k0. split; [apply run_inv; rewrite E|]; auto.
Qed.

(** *** The bound *)
Definition bounded c : Prop := _count c - _CACHE_SIZE <= _eraseIndex c.

Lemma bounded_apply o c : bounded c -> bounded (apply o c).
Proof.
  intros Hb. assert (forall k c, bounded (_cacheHit k c)) as Hhit.
  { intros k c'. unfold bounded. rewrite hit_count. change (_cacheHit k c') with (_cacheRemove (placed k c')).
    pose proof (erase_loop_done (placed k c')). destruct (placed_eq k c') as (_ & Hc & _). rewrite Hc in *. done. }
  destruct o as [k|k v]; cbn [apply]; [|rewrite set_eq; apply Hhit].
  destruct (_cache c !! k) eqn:E; [rewrite (get_hit _ _ _ E); apply Hhit|by rewrite (get_miss _ _ E)].
Qed.

Lemma run_bounded ops : bounded (run ops).
Proof. induction ops as [|o ops IH] using rev_ind; [unfold bounded, _CACHE_SIZE; cbn; lia|]. rewrite run_snoc. by apply bounded_apply. Qed.

Lemma inv_size first c : inv first c -> bounded c -> Z.of_nat (size (_cache c)) <= _CACHE_SIZE.
Proof.
  intros Hc Hb. unfold bounded in Hb. pose proof (inv_range _ _ Hc) as Hr.
  set (place k := default 0 (_usedIndex c !! k)). set (keys := (map_to_list (_cache c)).*1).
  assert (forall k, k ∈ keys -> _usedList c !! place k = Some k) as Hplace.
  { intros k ((k' & v) & -> & Hk)%list_elem_of_fmap. apply elem_of_map_to_list in Hk. destruct (inv_cache _ _ Hc k') as [i Hi]; [by eexists|].
    unfold place. cbn. rewrite Hi. by apply (inv_index _ _ Hc). }
  assert (List.length keys <= List.length (seqZ (_eraseIndex c) (_count c - _eraseIndex c)))%nat as Hlen.
  { rewrite <-(length_fmap place keys). apply submseteq_length, NoDup_submseteq.
    - apply NoDup_fmap_2_strong; [|apply NoDup_fst_map_to_list]. intros x y Hx Hy E. apply Hplace in Hx, Hy. congruence.
    - intros i (k & -> & Hk)%list_elem_of_fmap. apply elem_of_seqZ. pose proof (inv_list _ _ Hc _ _ (Hplace k Hk)). lia. }
  unfold keys in Hlen. rewrite length_fmap, length_map_to_list, length_seqZ in Hlen. unfold _CACHE_SIZE in *. lia.
Qed.

(** *** Recently used keys *)
Definition kept first k v n c : Prop :=
  k <> first /\ _cache c !! k = Some v /\ exists i, _usedIndex c !! k = Some i /\ n <= i.

Lemma kept_erase first k v n c : inv first c -> _eraseIndex c < n -> kept first k v n c -> kept first k v n (erase c).
Proof.
  intros Hc Hn (Hk & Hv & i & Hi & Hni). split; [done|].
  destruct (erase_maps c) as [(_ & -> & ->)|(k0 & Hk0 & -> & ->)]; [by eauto|].
  assert (k0 <> k) as Hne. { intros ->. pose proof (inv_place _ _ Hc _ _ Hk0 Hk). assert (i = _eraseIndex c) by congruence. lia. }
  rewrite !lookup_delete_ne by done. eauto.
Qed.

Lemma kept_remove first k v n c : inv first c -> _count c - _CACHE_SIZE <= n -> kept first k v n c -> kept first k v n (_cacheRemove c).
Proof.
  intros Hc Hn Hk. apply (erase_loop_ind (fun d => _count d = _count c /\ inv first d /\ kept first k v n d)); [|done].
  intros d (Hd & Hi & Hkd) Hlt. split_and!; [by rewrite (proj1 (erase_eq d))|by apply inv_erase|]. apply kept_erase; [done|lia|done].
Qed.

(** A call on the key puts it last, *)
Lemma kept_touch first k v o c : inv first c -> (_count c = 0 -> k = first) -> k <> first ->
  o = Set_ k v \/ o = Get k /\ _cache c !! k = Some v -> kept first k v (_count c) (apply o c).
Proof.
  intros Hc H0 Hk Ho.
  assert (exists m, apply o c = _cacheRemove (placed k (c <| _cache := m |>)) /\ m !! k = Some v /\ forall k', k' <> k -> m !! k' = _cache c !! k') as (m & -> & Hm & Hm').
  { destruct Ho as [->|[-> Hv]]; cbn [apply].
    - exists (<[k:=v]> (_cache c)). split_and!; [done|by rewrite lookup_insert_eq|]. intros k' Hne. by rewrite lookup_insert_ne.
    - exists (_cache c). rewrite (get_hit _ _ _ Hv). cbn [snd]. by rewrite <-cache_eta. }
  destruct (placed_in k m c) as (Em & Ec & _ & Ei & _).
  apply kept_remove; [by apply inv_placed|rewrite Ec; unfold _CACHE_SIZE; lia|].
  split; [done|]. rewrite Em, Ei. cbn. split; [done|]. exists (_count c). by rewrite lookup_insert_eq.
Qed.

(** and it stays while no more calls follow than the cache has places. *)
Lemma kept_apply first k v n o c : inv first c -> _count c + 1 - _CACHE_SIZE <= n -> (forall w, o <> Set_ k w) ->
  (forall k v, o = Set_ k v -> _count c = 0 -> k = first) -> kept first k v n c -> kept first k v n (apply o c).
Proof.
  intros Hc Hn Ho H0 Hk.
  assert (forall k' m, (_count c = 0 -> k' = first) -> (forall j, j <> k' -> m !! j = _cache c !! j) -> (k' = k -> m = _cache c) ->
    kept first k v n (_cacheHit k' (c <| _cache := m |>))) as Hhit.
  { intros k' m Hz Hm Hm'. change (_cacheHit k' (c <| _cache := m |>)) with (_cacheRemove (placed k' (c <| _cache := m |>))).
    destruct (placed_in k' m c) as (Em & Ec & _ & Ei & _).
    apply kept_remove; [by apply inv_placed|rewrite Ec; lia|]. destruct Hk as (Hne & Hv & i & Hi & Hni). split; [done|]. rewrite Em, Ei.
    destruct (decide (k' = k)) as [->|Hkk].
    - rewrite Hm' by done. split; [done|]. exists (_count c). rewrite lookup_insert_eq. split; [done|].
      pose proof (inv_list _ _ Hc _ _ (inv_index _ _ Hc _ _ Hi)). lia.
    - rewrite Hm, lookup_insert_ne by done. eauto. }
  destruct o as [k'|k' v']; cbn [apply].
  - destruct (_cache c !! k') as [v'|] eqn:E; [rewrite (get_hit _ _ _ E); cbn [snd]|by rewrite (get_miss _ _ E)].
    rewrite (cache_eta c). apply Hhit; [|done..].
    intros Hz. exfalso. destruct (inv_cache _ _ Hc k') as [i Hi]; [by eexists|].
    pose proof (inv_list _ _ Hc _ _ (inv_index _ _ Hc _ _ Hi)). pose proof (inv_range _ _ Hc). lia.
  - rewrite set_eq. cbn [snd]. apply (Hhit k' (<[k':=v']> (_cache c))); [by apply (H0 k' v')| |].
    + intros j Hj. by rewrite lookup_insert_ne.
    + intros ->. by destruct (Ho v').
Qed.

Lemma run_app a b : run (a ++ b) = fold_left (fun c o => apply o c) b (run a).
Proof. unfold run. by rewrite fold_left_app. Qed.

(** A key stored or read stays for the calls after it. *)
Lemma run_kept first ops o post k v : (first_set (ops ++ [o]) = Some first) -> k <> first ->
  o = Set_ k v \/ o = Get k /\ _cache (run ops) !! k = Some v -> Forall (fun o => forall w, o <> Set_ k w) post ->
  zlen post < _CACHE_SIZE -> kept first k v (_count (run ops)) (run ((ops ++ [o]) ++ post))
    /\ _count (run ((ops ++ [o]) ++ post)) <= _count (run ops) + 1 + zlen post.
Proof.
  intros Hf Hk Ho Hpost. induction post as [|p post IH] using rev_ind; intros Hlen.
  - rewrite app_nil_r, run_snoc. change (zlen (@nil op)) with 0. split; [|destruct (apply_count o (run ops)); lia].
    apply kept_touch; [|intros Hz; exfalso|done|done].
    + apply (run_inv first). rewrite first_set_app in Hf. destruct (first_set ops); auto.
    + destruct (run_inv first ops) as (_ & _ & H0). { rewrite first_set_app in Hf. destruct (first_set ops); auto. }
      rewrite first_set_app in Hf. destruct (first_set ops) as [k0|] eqn:E; [specialize (H0 ltac:(done)); lia|].
      destruct Ho as [->|[-> Hv]]; [|done]. cbn in Hf. congruence.
  - apply Forall_app in Hpost as [Hpost [Hp _]%Forall_cons]. rewrite zlen_app in *. change (zlen [p]) with 1 in *.
    destruct (IH Hpost ltac:(lia)) as [IHk IHc]. rewrite (assoc_L (++)), run_snoc.
    assert (first_set ((ops ++ [o]) ++ post) = Some first) as Hf' by (by rewrite first_set_app, Hf).
    destruct (run_inv first ((ops ++ [o]) ++ post)) as (Hi & Hc0 & H0); [by right|]. rewrite Hf' in H0. specialize (H0 ltac:(done)).
    split; [|destruct (apply_count p (run ((ops ++ [o]) ++ post))); lia].
    apply kept_apply; [done|lia|exact Hp|intros; lia|done].
Qed.

Lemma run_nothing ops : first_set ops = None -> run ops = empty.
Proof.
  induction ops as [|o ops IH] using rev_ind; [done|]. rewrite first_set_app, run_snoc. destruct (first_set ops); [done|].
  intros Ho. rewrite IH by done. by destruct o.
Qed.

(** Reading a key that is kept gives its value. *)
Lemma get_kept first k v n c : inv first c -> kept first k v n c -> fst (get k c) = Ok (Some v).
Proof.
  intros Hc Hk. pose proof Hk as (Hne & Hv & i & Hi & _).
  destruct (kept_touch first k v (Get k) c Hc) as (_ & Hv' & _); [|done|by right|].
  { intros Hz. pose proof (inv_list _ _ Hc _ _ (inv_index _ _ Hc _ _ Hi)). pose proof (inv_range _ _ Hc). lia. }
  revert Hv'. cbn [apply]. rewrite (get_hit _ _ _ Hv). cbn [fst snd]. by intros ->.
Qed.

(** *** The first key

    While the cache is not full nothing is erased, and the first place holds the first key. *)
Definition early (first : key) c : Prop :=
  _eraseIndex c = 0 /\ _usedList c !! 0 = Some first /\ is_Some (_cache c !! first).

Lemma early_hit first k m c : early first c -> 0 < _count c < _CACHE_SIZE -> (forall j, is_Some (_cache c !! j) -> is_Some (m !! j)) ->
  early first (_cacheHit k (c <| _cache := m |>)).
Proof.
  intros (He & Hl & Hv) Hc Hm. change (_cacheHit k (c <| _cache := m |>)) with (_cacheRemove (placed k (c <| _cache := m |>))).
  destruct (placed_in k m c) as (Em & Ec & Ee & _ & El). unfold _cacheRemove. rewrite Ec, Ee, He.
  replace (Z.to_nat (_count c + 1 - _CACHE_SIZE - 0)) with O by lia. cbn [erase_loop].
  split_and!; [by rewrite Ee| |by rewrite Em; apply Hm]. rewrite El, decide_False, decide_False; [done|tauto|lia].
Qed.

Lemma early_first k (v : V) : early k (snd (set k v empty)).
Proof.
  change (early k (_cacheRemove (placed k (empty <| _cache := <[k:=v]> ∅ |>)))).
  destruct (placed_in k (<[k:=v]> ∅) empty) as (Em & Ec & Ee & _ & El). unfold _cacheRemove. rewrite Ec, Ee.
  change (Z.to_nat (_count empty + 1 - _CACHE_SIZE - _eraseIndex empty)) with O. cbn [erase_loop].
  split_and!; [exact Ee|by rewrite El, decide_True|]. rewrite Em, lookup_insert_eq. by eexists.
Qed.

Lemma run_early first ops : first_set ops = Some first -> _count (run ops) <= _CACHE_SIZE -> early first (run ops).
Proof.
  induction ops as [|o ops IH] using rev_ind; [done|]. rewrite first_set_app, run_snoc. intros Hf Hc.
  destruct (apply_count o (run ops)) as [Hle Hset]. destruct (first_set ops) as [k0|] eqn:E.
  - injection Hf as ->. specialize (IH eq_refl ltac:(lia)).
    destruct (run_inv first ops) as (_ & _ & H0); [by right|]. rewrite E in H0. specialize (H0 ltac:(done)).
    destruct o as [k|k v]; cbn [apply].
    + cbn [apply] in Hc. destruct (_cache (run ops) !! k) as [v|] eqn:Ek; [|by rewrite (get_miss _ _ Ek)].
      rewrite (get_hit _ _ _ Ek) in *. cbn [snd] in *. rewrite hit_count in Hc. rewrite (cache_eta (run ops)). apply early_hit; [done|lia|done].
    + rewrite (Hset k v eq_refl) in Hc. rewrite set_eq. cbn [snd].
      apply (early_hit first k (<[k:=v]> (_cache (run ops)))); [done|lia|]. intros j Hj. by apply lookup_insert_is_Some'; right.
  - destruct o as [k|k v]; [done|]. injection Hf as ->. rewrite run_nothing by done. apply early_first.
Qed.

(** Once it is full, a use of the first key erases it. *)
Lemma hit_full first c : early first c -> _count c = _CACHE_SIZE -> _cache (_cacheHit first c) !! first = None.
Proof.
  intros (He & Hl & _) Hc. change (_cacheHit first c) with (_cacheRemove (placed first c)).
  destruct (placed_eq first c) as (Em & Ec & Ee & _ & El). unfold _cacheRemove. rewrite Ec, Ee, He, Hc.
  change (Z.to_nat (_CACHE_SIZE + 1 - _CACHE_SIZE - 0)) with 1%nat. cbn [erase_loop]. rewrite Ec, Ee, He, Hc.
  replace (0 <? _CACHE_SIZE + 1 - _CACHE_SIZE) with true by done.
  assert (_usedList (placed first c) !! _eraseIndex (placed first c) = Some first) as H0.
  { rewrite Ee, He, El, decide_False, decide_False; [done|tauto|rewrite Hc; done]. }
  destruct (erase_maps (placed first c)) as [(Hn & _)|(k & Hk & -> & _)]; [congruence|]. assert (k = first) as -> by congruence. apply lookup_delete_eq.
Qed.

(** Storing [n] times counts [n] uses. *)
Lemma run_sets_count {A} (f : A -> key) (g : A -> V) (l : list A) : _count (run (map (fun a => Set_ (f a) (g a)) l)) = zlen l.
Proof.
  induction l as [|a l IH] using rev_ind; [done|]. rewrite map_app. cbn [map]. rewrite run_snoc, zlen_app.
  destruct (apply_count (Set_ (f a) (g a)) (run (map (fun a => Set_ (f a) (g a)) l))) as [_ Hs]. rewrite (Hs _ _ eq_refl), IH. done.
Qed.

End Values.
End KeyCacheLemmas.

(** ** Theorems *)
Section KeyCacheTheorems.
Import HDKeyCache KeyCacheLemmas.

(** C23: whatever calls are made, the cache never holds more than 5000 keys. *)
Theorem cache_bounded {V} (ops : list (@op V)) : Z.of_nat (size (_cache (run ops))) <= _CACHE_SIZE.
Proof.
  destruct (run_inv_some ops (""%string, num_nan, false)) as (first & Hi & _). by apply (inv_size first), run_bounded.
Qed.

(** C22: a key other than the very first one stored is still there, with its value, after it was stored
    or read and fewer calls than the cache has places followed. *)
Theorem recently_used {V} (ops post : list (@op V)) o k v : first_set (ops ++ [o]) <> Some k ->
  o = Set_ k v \/ o = Get k /\ _cache (run ops) !! k = Some v -> Forall (fun o => forall w, o <> Set_ k w) post ->
  zlen post < _CACHE_SIZE -> fst (get k (run ((ops ++ [o]) ++ post))) = Ok (Some v).
Proof.
  intros Hf Ho Hpost Hlen. destruct (first_set (ops ++ [o])) as [first|] eqn:E.
  - destruct (run_kept first ops o post k v E ltac:(congruence) Ho Hpost Hlen) as [Hk _]. eapply (get_kept first); [|exact Hk].
    apply run_inv. right. by rewrite first_set_app, E.
  - rewrite first_set_app in E. destruct (first_set ops) eqn:E'; [done|]. destruct Ho as [->|[-> Hv]]; [done|].
    by rewrite run_nothing in Hv.
Qed.

(** the very first key is lost however lately it was used: when the cache has counted 5000 uses
    it still holds that key, yet reading it erases it and returns nothing. *)
Theorem first_key_lost {V} (ops : list (@op V)) first : first_set ops = Some first -> _count (run ops) = _CACHE_SIZE ->
  is_Some (_cache (run ops) !! first) /\ fst (get first (run ops)) = Ok None
  /\ _cache (snd (get first (run ops))) !! first = None.
Proof.
  intros Hf Hc. assert (early first (run ops)) as He by (apply run_early; [done|lia]).
  pose proof He as (_ & _ & [v Hv]). split; [by eexists|].
  assert (_cache (_cacheHit first (run ops)) !! first = None) as Hgone by (by apply hit_full).
  rewrite (get_hit _ _ _ Hv). cbn [fst snd]. by rewrite Hgone.
Qed.

(** Keys of a chain *)
Definition key_of (i : Z) : key := make_key "xprv" (num_of_Z i) false.

Lemma first_key_lost_witness : fst (get (key_of 0) (run (map (fun i => Set_ (key_of i) i) (seqZ 0 5000)))) = Ok None.
Proof.
  apply (first_key_lost (map (fun i => Set_ (key_of i) i) (seqZ 0 5000)) (key_of 0)).
  - by rewrite seqZ_cons by done.
  - rewrite run_sets_count. unfold zlen. by rewrite length_seqZ.
Defined.

Lemma recently_used_witness :
  fst (get (key_of 1) (run ([Set_ (key_of 0) 0; Set_ (key_of 1) 1] ++ [Set_ (key_of 2) 2]))) = Ok (Some 1).
Proof. apply (recently_used [Set_ (key_of 0) 0] [Set_ (key_of 2) 2] (Set_ (key_of 1) 1)); [by vm_compute|by left|by repeat constructor|done]. Defined.

End KeyCacheTheorems.
