(* ===== verification/PublicKeys.v ===== *)
(** * Points and public keys

    Models module 9 ([Point]) and module 25 ([PublicKey]) of [src/Sources/WebClient/js/bitcore.js], and
    [PrivateKey.toPublicKey].  The arithmetic of the curve is the bundled [elliptic] library: the
    interface [Curve] has what the two modules call, [CurveLaws] what they rely on. *)
From S2P Require Import Prelude JsNumber JsValue Encoding Script Base58 Keys.
Local Open Scope Z_scope.
Local Open Scope js_scope.

(** ** The curve *)

(** [x_of] and [y_of] are the coordinates of a finite point; [point_of] is [curve.point(x, y)]. *)
Class Curve := {
  point : Type;
  curve_g : point;
  mul : point -> Z -> point;
  add : point -> point -> point;
  isInfinity : point -> bool;
  x_of : point -> Z;
  y_of : point -> Z;
  point_of : Z -> Z -> point;
  pointFromX : bool -> Z -> point;
}.

(** ** Point *)
Module Point.
Section WithCurve.
Context `{Curve}.

Definition getG : point := curve_g.
Definition getN : Z := PrivKey.getN.

(** The coordinates of infinity are [null], which has no methods. *)
Definition getX (p : point) : result Z := guard_or TypeError (negb (isInfinity p));; Ok (x_of p).
Definition getY (p : point) : result Z := guard_or TypeError (negb (isInfinity p));; Ok (y_of p).

Definition validate (p : point) : result unit :=
  guard_or (ErrorMessage "Point cannot be equal to Infinity") (negb (isInfinity p));;
  x ← getX p; y ← getY p;
  guard_or (ErrorMessage "Invalid x,y value for curve, cannot equal 0.") (negb ((x =? 0) || (y =? 0)));;
  let p2 := pointFromX (Z.odd y) x in
  guard_or (ErrorMessage "Invalid y value for curve.") (y_of p2 =? y);;
  let xValidRange := (x >? -1) && (x <? getN) in
  let yValidRange := (y >? -1) && (y <? getN) in
  guard_or (ErrorMessage "Point does not lie on the curve") (negb (negb xValidRange || negb yValidRange));;
  guard_or (ErrorMessage "Point times N must be infinity") (isInfinity (mul p getN)).

(** [new Point(x, y)] *)
Definition new (x y : Z) : result point := let p := point_of x y in validate p;; Ok p.

Definition fromX (odd : bool) (x : Z) : result point := let p := pointFromX odd x in validate p;; Ok p.

Definition pointToCompressed (p : point) : result (list Z) :=
  x ← getX p; xbuf ← BN.toBuffer 32 x;
  y ← getY p; ybuf ← BN.toBuffer 32 y;
  let odd := byte_at ybuf (zlen ybuf - 1) mod 2 in
  let prefix := if negb (odd =? 0) then [0x03] else [0x02] in
  Ok (prefix ++ xbuf).

End WithCurve.
End Point.

(** ** PublicKey *)
Module PublicKey.
Import Networks.
Section WithCurve.
Context `{Crypto} `{Curve}.

Record t := mk { key_point : point; compressed : bool; key_network : arg }.

(** The first argument of the constructor; a JSON text is the object it holds. *)
Inductive data :=
  | DPoint (p : point)
  | DObject (x y : string) (compressed : option bool)
  | DText (s : string)
  | DBuffer (b : list Z)
  | DPrivate (k : PrivKey.t).

(** The options of the constructor *)
Record options := mkOptions { o_compressed : option bool; o_network : option arg }.
Definition no_options : options := mkOptions None None.

Record info := mkInfo { info_point : point; info_compressed : option bool; info_network : option arg }.

Definition transformPrivateKey (k : PrivKey.t) : info :=
  mkInfo (mul Point.getG (PrivKey.bn k)) (Some (PrivKey.compressed k)) (Some (PrivKey.key_network k)).

(** [_transformX] leaves the field [compressed] unset. *)
Definition transformX (odd : bool) (x : Z) : result info := p ← Point.fromX odd x; Ok (mkInfo p None None).

Definition transformDER (buf : list Z) (strict : bool) : result info :=
  let first := byte_at buf 0 in
  if (first =? 0x04) || (negb strict && ((first =? 0x06) || (first =? 0x07))) then
    let xbuf := Buf.slice 1 33 buf in
    let ybuf := Buf.slice 33 65 buf in
    guard_or TypeError (negb (negb (zlen xbuf =? 32) || negb (zlen ybuf =? 32) || negb (zlen buf =? 65)));;
    p ← Point.new (BN.fromBuffer xbuf) (BN.fromBuffer ybuf);
    Ok (mkInfo p (Some false) None)
  else if first =? 0x03 then
    i ← transformX true (BN.fromBuffer (Buf.slice_from 1 buf)); Ok (mkInfo (info_point i) (Some true) (info_network i))
  else if first =? 0x02 then
    i ← transformX false (BN.fromBuffer (Buf.slice_from 1 buf)); Ok (mkInfo (info_point i) (Some true) (info_network i))
  else Throw TypeError.

(** The end of the constructor, on classified arguments *)
Definition new_info (i : info) : result t :=
  Point.validate (info_point i);;
  Ok (mk (info_point i) (default false (info_compressed i)) (if truthy (info_network i) then default (Obj livenet) (info_network i) else Obj livenet)).

(** [_classifyArgs] on a point *)
Definition classify_point (p : point) (extra : options) : info :=
  mkInfo p (Some (default true (o_compressed extra))) (get (o_network extra)).

Definition fromPoint_options (p : point) (extra : options) : result t := new_info (classify_point p extra).

Definition transformJSON (x y : string) (compressed : option bool) : result t :=
  p ← Point.new (PrivKey.bn_of_hex x) (PrivKey.bn_of_hex y);
  fromPoint_options p (mkOptions compressed None).

Definition with_network (extra : options) (i : info) : info :=
  if truthy (info_network i) then i else mkInfo (info_point i) (info_compressed i) (get (o_network extra)).

Definition classifyArgs (d : data) (extra : options) : result info :=
  match d with
  | DPoint p => Ok (classify_point p extra)
  | DObject x y c => k ← transformJSON x y c; Ok (mkInfo (key_point k) (Some (compressed k)) (Some (key_network k)))
  | DText s => b ← Hex.hexWrite s; i ← transformDER b true; Ok (with_network extra i)
  | DBuffer b => i ← transformDER b true; Ok (with_network extra i)
  | DPrivate k => Ok (with_network extra (transformPrivateKey k))
  end.

(** [new PublicKey(data, extra)] *)
Definition new (d : data) (extra : options) : result t :=
  guard_or InvalidArgument (match d with DText String.EmptyString => false | _ => true end);;
  i ← classifyArgs d extra;
  new_info i.

Definition fromJSON (x y : string) (compressed : option bool) : result t := new (DObject x y compressed) no_options.

Definition fromPrivateKey (k : PrivKey.t) : result t :=
  let i := transformPrivateKey k in
  new (DPoint (info_point i)) (mkOptions (info_compressed i) (info_network i)).

Definition fromBuffer (buf : list Z) (strict : bool) : result t :=
  i ← transformDER buf strict;
  new (DPoint (info_point i)) (mkOptions (info_compressed i) None).

Definition fromPoint (p : point) (compressed : option bool) : result t := new (DPoint p) (mkOptions compressed None).

Definition fromString (str : string) : result t := b ← Hex.hexWrite str; fromBuffer b true.

Definition fromX (odd : bool) (x : Z) : result t :=
  i ← transformX odd x;
  new (DPoint (info_point i)) (mkOptions (info_compressed i) None).

Definition isValid (d : data) : bool := is_ok (new d no_options).

Definition toObject (k : t) : result (string * string * bool) :=
  x ← Point.getX (key_point k); xs ← PrivKey.bn_to_hex x;
  y ← Point.getY (key_point k); ys ← PrivKey.bn_to_hex y;
  Ok (xs, ys, compressed k).

Definition toBuffer (k : t) : result (list Z) :=
  x ← Point.getX (key_point k); y ← Point.getY (key_point k);
  xbuf ← BN.toBuffer 32 x; ybuf ← BN.toBuffer 32 y;
  if negb (compressed k) then Ok ([0x04] ++ xbuf ++ ybuf)
  else
    let odd := byte_at ybuf (zlen ybuf - 1) mod 2 in
    Ok ((if negb (odd =? 0) then [0x03] else [0x02]) ++ xbuf).

Definition getID (k : t) : result (list Z) := b ← toBuffer k; Ok (sha256ripemd160 b).

Definition toAddress (net : option arg) (k : t) : result Address :=
  b ← toBuffer k;
  AddressText.fromPublicKey b (if truthy net then net else Some (key_network k)).

Definition toString (k : t) : result string := b ← toBuffer k; Ok (Hex.hexSlice b).

(** [PrivateKey.prototype.toPublicKey]; the key is kept, which nothing can tell. *)
Definition toPublicKey (k : PrivKey.t) : result t := fromPrivateKey k.

End WithCurve.
End PublicKey.

(** ** What the library promises of the curve

    The multiples of the generator are a group of order [N]; the coordinates of a finite one are
    numbers of 256 bits, and the first and the parity of the second give the point back. *)
Class CurveLaws `{Curve} := {
  mul_mul a b : mul (mul curve_g a) b = mul curve_g (a * b);
  add_mul a b : add (mul curve_g a) (mul curve_g b) = mul curve_g (a + b);
  mul_mod a : mul curve_g (a mod PrivKey.getN) = mul curve_g a;
  isInfinity_mul a : isInfinity (mul curve_g a) = (a mod PrivKey.getN =? 0);
  coordinates a : isInfinity (mul curve_g a) = false ->
    0 <= x_of (mul curve_g a) < 256 ^ 32 /\ 0 <= y_of (mul curve_g a) < 256 ^ 32;
  from_coordinates a : isInfinity (mul curve_g a) = false ->
    pointFromX (Z.odd (y_of (mul curve_g a))) (x_of (mul curve_g a)) = mul curve_g a;
}.

Module PublicKeyLemmas.
Section WithCurve.
Context `{CurveLaws}.

(** A number whose point the code takes for one of the curve *)
Definition valid (a : Z) : Prop := Point.validate (mul curve_g a) = Ok tt.

Lemma valid_finite a : valid a -> isInfinity (mul curve_g a) = false.
Proof. unfold valid, Point.validate. by destruct (isInfinity (mul curve_g a)). Qed.

(** The last byte of a number tells its parity. *)
Lemma last_byte_odd b : bytes_ok b -> b <> [] -> negb (byte_at b (zlen b - 1) mod 2 =? 0) = Z.odd (BN.fromBuffer b).
Proof.
  intros Hb Hne. destruct (exists_last Hne) as (l & x & ->). unfold byte_at. rewrite zlen_app. change (zlen [x]) with 1.
  replace (Z.to_nat (zlen l + 1 - 1)) with (List.length l) by (unfold zlen; lia). rewrite app_nth2, Nat.sub_diag by lia. cbn [nth].
  unfold BN.fromBuffer. rewrite fold_left_app. cbn [fold_left]. rewrite Z.odd_add, Z.odd_mul. change (Z.odd 256) with false. rewrite andb_false_r. cbn [xorb].
  rewrite Zmod_odd. by destruct (Z.odd x).
Qed.

(** The encoding of a finite multiple of the generator *)
Lemma compress a : isInfinity (mul curve_g a) = false -> exists xb,
  BN.fromBuffer xb = x_of (mul curve_g a) /\ zlen xb = 32 /\ bytes_ok xb
  /\ Point.pointToCompressed (mul curve_g a) = Ok ((if Z.odd (y_of (mul curve_g a)) then 3 else 2) :: xb)
  /\ forall net, PublicKey.toBuffer (PublicKey.mk (mul curve_g a) true net) = Ok ((if Z.odd (y_of (mul curve_g a)) then 3 else 2) :: xb).
Proof.
  intros Hi. destruct (coordinates a Hi) as [Hx Hy].
  destruct (toBuffer_size 32 (x_of (mul curve_g a)) ltac:(lia) Hx) as (xb & Ex & Lx & Vx & Ox). change (Z.of_nat 32) with 32 in *.
  destruct (toBuffer_size 32 (y_of (mul curve_g a)) ltac:(lia) Hy) as (yb & Ey & Ly & Vy & Oy). change (Z.of_nat 32) with 32 in *.
  pose proof (last_byte_odd yb Oy ltac:(by intros ->)) as Hodd. rewrite Vy in Hodd.
  exists xb. split_and!; try done.
  - unfold Point.pointToCompressed, Point.getX, Point.getY. rewrite Hi. cbn [negb guard_or mbind result_bind]. rewrite Ex. cbn [mbind result_bind].
    rewrite Ey. cbn [mbind result_bind]. cbv zeta. rewrite Hodd. by destruct (Z.odd _).
  - intros net. unfold PublicKey.toBuffer, Point.getX, Point.getY. cbn [PublicKey.key_point PublicKey.compressed]. rewrite Hi.
    cbn [negb guard_or mbind result_bind]. rewrite Ex. cbn [mbind result_bind]. rewrite Ey. cbn [mbind result_bind]. cbv zeta. rewrite Hodd. by destruct (Z.odd _).
Qed.

(** and the point read from it *)
Lemma decompress a xb : BN.fromBuffer xb = x_of (mul curve_g a) -> zlen xb = 32 -> valid a ->
  PublicKey.transformDER ((if Z.odd (y_of (mul curve_g a)) then 3 else 2) :: xb) true = Ok (PublicKey.mkInfo (mul curve_g a) (Some true) None).
Proof.
  intros Hx Hl Hv. pose proof (from_coordinates a (valid_finite a Hv)) as Hp.
  assert (forall h, Buf.slice_from 1 (h :: xb) = xb) as Hslice.
  { intros h. unfold Buf.slice_from. cbv zeta. rewrite zlen_cons, Hl, wrap32_small by lia. cbn [Z.ltb Z.gtb Z.compare Z.add Pos.add Pos.compare Pos.compare_cont].
    cbn [zdrop Z.leb Z.compare]. by rewrite zdrop_0. }
  unfold PublicKey.transformDER, byte_at. cbn [nth Z.to_nat]. destruct (Z.odd (y_of (mul curve_g a))) eqn:E;
    cbn [Z.eqb Pos.eqb negb orb andb]; rewrite Hslice, Hx; unfold PublicKey.transformX, Point.fromX; rewrite Hp; unfold valid in Hv; cbv zeta; by rewrite Hv.
Qed.

End WithCurve.
End PublicKeyLemmas.

(** ** A group that evaluates, for the examples: the numbers modulo the order *)
Definition demo_curve : Curve := {|
  point := Z;
  curve_g := 1;
  mul p k := (p * k) mod PrivKey.getN;
  add p q := (p + q) mod PrivKey.getN;
  isInfinity p := p =? 0;
  x_of p := p;
  y_of _ := 2;
  point_of x _ := x;
  pointFromX _ x := x;
|}.

Lemma demo_curve_laws : @CurveLaws demo_curve.
Proof.
  split; cbn -[PrivKey.getN]; intros *.
  - by rewrite Zmult_mod_idemp_l, !Z.mul_1_l.
  - by rewrite <-Zplus_mod, <-Z.mul_add_distr_l.
  - by rewrite Zmult_mod_idemp_r.
  - by rewrite Z.mul_1_l.
  - intros _. change (256 ^ 32) with (2 ^ 256). assert (0 < PrivKey.getN < 2 ^ 256) as HN by (by split; vm_compute). rewrite Z.mul_1_l.
    pose proof (Z.mod_pos_bound a PrivKey.getN (proj1 HN)) as Hb. split; [|by split]. split; [apply Hb|]. eapply Z.lt_trans; [apply Hb|apply HN].
  - done.
Qed.

(** Every number but the multiples of the order is valid there. *)
Lemma demo_valid a : a mod PrivKey.getN <> 0 -> @PublicKeyLemmas.valid demo_curve a.
Proof.
  intros Ha. unfold PublicKeyLemmas.valid. change (@mul demo_curve (@curve_g demo_curve) a) with ((1 * a) mod PrivKey.getN). rewrite Z.mul_1_l.
  pose proof (Z.mod_pos_bound a PrivKey.getN ltac:(done)) as Hb. revert Ha Hb. generalize (a mod PrivKey.getN). intros m Hm Hb.
  unfold Point.validate, Point.getX, Point.getY, Point.getN. change (@isInfinity demo_curve m) with (m =? 0). change (@isInfinity demo_curve (@mul demo_curve m PrivKey.getN)) with ((m * PrivKey.getN) mod PrivKey.getN =? 0).
  rewrite Z_mod_mult, (proj2 (Z.eqb_neq m 0)) by done. cbn [negb guard_or mbind result_bind]. change (@x_of demo_curve m) with m. change (@y_of demo_curve m) with 2.
  rewrite (proj2 (Z.eqb_neq m 0)), !Z.gtb_ltb, (proj2 (Z.ltb_lt (-1) m)), (proj2 (Z.ltb_lt m PrivKey.getN)) by lia. done.
Qed.
