(* ===== verification/HDKeys.v ===== *)
(** * Hierarchically derived keys

    Models module 20 ([HDPrivateKey]) and module 21 ([HDPublicKey]) of
    [src/Sources/WebClient/js/bitcore.js], and the functions of module 41 ([BufferUtil]) they use: how an
    extended key is built from text, from the fields of an object and from its neighbour, and how its
    children are derived, through the one cache both modules share.  A text is one that is no JSON text
    of an object; the object of such a text is its fields. *)
From S2P Require Import Prelude JsNumber JsValue Encoding Script Base58 Keys Hmac KeyCache PublicKeys.
From Stdlib Require Import Ascii String.
Local Open Scope Z_scope.
Local Open Scope js_scope.

(** ** BufferUtil *)
Module BufferUtil.

Definition AssertionError : js_error := BitcoreError "AssertionError".

Definition integerAsSingleByteBuffer (integer : number) : list Z := [Z.land (to_int32 integer) 0xff].

Definition integerAsBuffer (integer : number) : list Z :=
  let i := to_int32 integer in
  [Z.land (Z.shiftr i 24) 0xff; Z.land (Z.shiftr i 16) 0xff; Z.land (Z.shiftr i 8) 0xff; Z.land i 0xff].

(** The first byte is shifted into the sign. *)
Definition integerFromBuffer (buffer : list Z) : Z :=
  Z.lor (Z.lor (Z.lor (wrap32 (Z.shiftl (byte_at buffer 0) 24)) (Z.shiftl (byte_at buffer 1) 16)) (Z.shiftl (byte_at buffer 2) 8))
    (byte_at buffer 3).

Definition integerFromSingleByteBuffer (buffer : list Z) : Z := byte_at buffer 0.

Definition hexToBuffer (string : string) : result (list Z) := guard_or AssertionError (Hex.isHexa string);; Hex.hexWrite string.

End BufferUtil.
Import BufferUtil.

(** ** What the two modules share *)

(** The value of a property of the object a key is built from *)
Inductive field_value :=
  | FUndefined
  | FNumber (n : number)
  | FText (s : string)
  | FBuffer (b : list Z)
  | FKey (encoded : result (list Z)).

(** Has it a [length] that is not zero? *)
Definition has_length (f : field_value) : bool :=
  match f with FText s => negb (bool_decide (s = EmptyString)) | FBuffer b => negb (bool_decide (b = [])) | _ => false end.

(** The object; [o_key] is [privateKey] or [publicKey]. *)
Record object := mkObject {
  o_network : option Networks.arg; o_version : field_value; o_depth : field_value; o_parentFingerPrint : field_value;
  o_childIndex : field_value; o_chainCode : field_value; o_key : field_value; o_checksum : field_value;
}.

(** The arguments of [_buildFromBuffers], before they are checked *)
Record unchecked := mkUnchecked {
  u_version : field_value; u_depth : field_value; u_parentFingerPrint : field_value; u_childIndex : field_value;
  u_chainCode : field_value; u_key : field_value; u_checksum : field_value;
}.

(** [_buffers]; the text it also holds is the text of the key. *)
Record buffers := mkBuffers {
  version : list Z; depth_byte : list Z; parentFingerPrint : list Z; childIndex : list Z; chainCode : list Z;
  key_bytes_ : list Z; checksum : list Z;
}.

Definition checkBuffer (f : field_value) (size : Z) : result (list Z) :=
  match f with
  | FBuffer buff => guard_or AssertionError (zlen buff =? size);; Ok buff
  | _ => Throw AssertionError
  end.

(** [_validateBufferArguments]; a checksum that is missing or empty is none. *)
Definition validateBufferArguments (key_size : Z) (arg : unchecked) : result (buffers * option (list Z)) :=
  version ← checkBuffer (u_version arg) 4;
  depth ← checkBuffer (u_depth arg) 1;
  parentFingerPrint ← checkBuffer (u_parentFingerPrint arg) 4;
  childIndex ← checkBuffer (u_childIndex arg) 4;
  chainCode ← checkBuffer (u_chainCode arg) 32;
  key ← checkBuffer (u_key arg) key_size;
  let b := mkBuffers version depth parentFingerPrint childIndex chainCode key [] in
  if has_length (u_checksum arg) then checksum ← checkBuffer (u_checksum arg) 4; Ok (b, Some checksum) else Ok (b, None).

(** A number as bytes, anything else as it is *)
Definition number_field (as_buffer : number -> list Z) (f : field_value) : field_value :=
  match f with FNumber n => FBuffer (as_buffer n) | f => f end.

(** Text as the bytes its digits stand for *)
Definition hex_field (f : field_value) : result field_value :=
  match f with FText s => b ← hexToBuffer s; Ok (FBuffer b) | f => Ok f end.

(** The version bytes: those of the network, if one is named *)
Definition version_field (k : Networks.key) (arg : object) : result field_value :=
  if Networks.truthy (o_network arg) then
    match Networks.get (o_network arg) with
    | Some (Networks.Obj n) => Ok (FBuffer (integerAsBuffer (num_of_Z (Networks.field k n))))
    | Some _ => Throw (BitcoreError "InvalidArgumentType")
    | None => Throw TypeError
    end
  else Ok (o_version arg).

(** The slices of [_buildFromSerialized]; [key_start] skips the zero before a private key.  The text
    was decoded without its checksum: the last slice is empty. *)
Definition serialized_fields (key_start : Z) (decoded : list Z) : unchecked :=
  mkUnchecked (FBuffer (Buf.slice 0 4 decoded)) (FBuffer (Buf.slice 4 5 decoded)) (FBuffer (Buf.slice 5 9 decoded))
    (FBuffer (Buf.slice 9 13 decoded)) (FBuffer (Buf.slice 13 45 decoded)) (FBuffer (Buf.slice key_start 78 decoded))
    (FBuffer (Buf.slice 78 82 decoded)).

(** What [toObject] gives *)
Record plain_object := mkPlain {
  p_network : string; p_depth : Z; p_fingerPrint : Z; p_parentFingerPrint : Z; p_childIndex : Z; p_chainCode : string;
  p_key : string; p_checksum : Z; p_text : string;
}.

(** The object as an argument of a constructor *)
Definition as_argument (p : plain_object) : object :=
  mkObject (Some (Networks.Name (p_network p))) FUndefined (FNumber (num_of_Z (p_depth p))) (FNumber (num_of_Z (p_parentFingerPrint p)))
    (FNumber (num_of_Z (p_childIndex p))) (FText (p_chainCode p)) (FText (p_key p)) (FNumber (num_of_Z (p_checksum p))).

(** The text a buffer is; text beyond 8 bits is in no table and no base58 text. *)
Definition text_of (b : list Z) : option string := Utf8.narrow (Utf8.utf8Slice b).

(** *** Paths *)
Definition Hardened : number := num_of_Z 0x80000000.
Definition MaxIndex : number := num_mul (num_of_Z 2) Hardened.

(** The second argument of [derive]; [Truthy] is any other value than [true] that counts as true. *)
Inductive flag := Undefined | Bool (b : bool) | Truthy.
Definition is_true (h : flag) : bool := match h with Bool true => true | _ => false end.
Definition counts (h : flag) : bool := match h with Bool true | Truthy => true | _ => false end.

Definition RootElementAlias : list string := ["m"; "M"; "m'"; "M'"].

(** [text.split('/')] *)
Fixpoint split (text : string) : list string :=
  match text with
  | EmptyString => [EmptyString]
  | String c text =>
      if bool_decide (c = "/"%char) then EmptyString :: split text
      else match split text with s :: l => String c s :: l | [] => [] end
  end.

(** [step.slice(-1) === '\''] and what is before it *)
Fixpoint strip_quote (step : string) : option string :=
  match step with
  | EmptyString => None
  | String c EmptyString => if bool_decide (c = "'"%char) then Some EmptyString else None
  | String c step => String c <$> strip_quote step
  end.

(** The index of one step *)
Definition step_index (step : string) : number :=
  let isHardened := bool_decide (is_Some (strip_quote step)) in
  let step := default step (strip_quote step) in
  match step with
  | EmptyString => num_nan
  | String c _ =>
      if bool_decide (c = "-"%char) then num_nan
      else let index := Number step in if isHardened then num_add index Hardened else index
  end.

Definition isNaN (x : number) : bool := match x with S754_nan => true | _ => false end.

Definition getDerivationIndexes (path : string) : option (list number) :=
  let steps := split path in
  if bool_decide (path ∈ RootElementAlias) then Some []
  else if negb (bool_decide (default EmptyString (head steps) ∈ RootElementAlias)) then None
  else
    let indexes := map step_index (tail steps) in
    if existsb isNaN indexes then None else Some indexes.

(** ** HDPrivateKey *)
Module HDPrivateKey.
Import Networks.
Section WithCurve.
Context `{Crypto} `{Curve} `{Digests}.

(** An extended private key; what its getters compute from these is kept nowhere else. *)
Record t := mk {
  _buffers : buffers; xprivkey : string; hd_network : option network; depth : Z;
  privateKey : PrivKey.t; publicKey : PublicKey.t; fingerPrint : list Z;
}.

Definition isValidPath_number (arg : number) (hardened : flag) : bool :=
  let arg := if num_lt arg Hardened && is_true hardened then num_add arg Hardened else arg in
  num_ge arg (num_of_Z 0) && num_lt arg MaxIndex.

(** [_.all] passes the position of an index as the second argument, which is never [true]. *)
Definition isValidPath (arg : string) : bool :=
  match getDerivationIndexes arg with
  | None => false
  | Some indexes => forallb (fun index => isValidPath_number index Undefined) indexes
  end.

(** The bytes that are hashed and written *)
Definition sequence (b : buffers) : list Z :=
  version b ++ depth_byte b ++ parentFingerPrint b ++ childIndex b ++ chainCode b ++ [0] ++ key_bytes_ b.

(** The two checksums are compared as text. *)
Definition buildFromBuffers (arg : unchecked) : result t :=
  '(b, given) ← validateBufferArguments 32 arg;
  let concat := sequence b in
  checksum ← match given with
    | None => Ok (Base58Check.checksum concat)
    | Some c =>
        guard_or (BitcoreError "InvalidB58Checksum") (bool_decide (Utf8.utf8Slice c = Utf8.utf8Slice (Base58Check.checksum concat)));;
        Ok c
    end;
  let net := network_of_version (integerFromBuffer (version b)) in
  let text := Base58Check.encode concat in
  privateKey ← PrivKey.new 0 (PrivKey.DBN (BN.fromBuffer (key_bytes_ b))) (Obj <$> net);
  publicKey ← PublicKey.toPublicKey privateKey;
  encoded ← PublicKey.toBuffer publicKey;
  let fingerPrint := Buf.slice 0 4 (sha256ripemd160 encoded) in
  let b := mkBuffers (version b) (depth_byte b) (parentFingerPrint b) (childIndex b) (chainCode b) (key_bytes_ b) checksum in
  Ok (mk b text net (integerFromSingleByteBuffer (depth_byte b)) privateKey publicKey fingerPrint).

Definition checksum_field (f : field_value) : result field_value :=
  match f with
  | FUndefined => Ok FUndefined
  | FNumber n => Ok (if num_eq n (num_of_Z 0) || isNaN n then FUndefined else FBuffer (integerAsBuffer n))
  | FText s => Ok (if bool_decide (s = EmptyString) then FUndefined else f)
  | FBuffer b => if bool_decide (b = []) then Throw (BitcoreError "InvalidArgumentType") else Ok f
  | FKey _ => Throw (BitcoreError "InvalidArgumentType")
  end.

Definition buildFromObject (arg : object) : result t :=
  version ← version_field Networks.xprivkey arg;
  chainCode ← hex_field (o_chainCode arg);
  key ← match o_key arg with
    | FText s => if Hex.isHexa s then b ← hexToBuffer s; Ok (FBuffer b) else Ok (FText s)
    | f => Ok f
    end;
  checksum ← checksum_field (o_checksum arg);
  buildFromBuffers (mkUnchecked version (number_field integerAsSingleByteBuffer (o_depth arg))
    (number_field integerAsBuffer (o_parentFingerPrint arg)) (number_field integerAsBuffer (o_childIndex arg)) chainCode key checksum).

Definition buildFromSerialized (arg : string) : result t :=
  decoded ← Base58Check.decode arg;
  buildFromBuffers (serialized_fields 46 decoded).

Definition validateNetwork (data : list Z) (networkArg : arg) : option js_error :=
  match getNetwork networkArg None with
  | None => Some (BitcoreError "InvalidNetworkArgument")
  | Some (Name _ | Num _ | Inherited _) => Some (BitcoreError "InvalidNetwork")
  | Some (Obj net) =>
      let version := Buf.slice 0 4 data in
      if negb (integerFromBuffer version =? field Networks.xprivkey net) then Some (BitcoreError "InvalidNetwork") else None
  end.

(** [getSerializedError] on a text *)
Definition getSerializedError (data : string) (net : option arg) : option js_error :=
  if negb (Base58.validCharacters data) then Some (BitcoreError "InvalidB58Char")
  else
    match Base58Check.decode data with
    | Throw _ => Some (BitcoreError "InvalidB58Checksum")
    | Ok data =>
        if negb (zlen data =? 78) then Some (BitcoreError "HDPrivateKey.InvalidLength")
        else net ≫= validateNetwork data
    end.

(** On a buffer: its text may be right, but a buffer is never decoded. *)
Definition getSerializedError_buffer (data : list Z) : js_error :=
  match text_of data with
  | Some s => if Base58.validCharacters s then BitcoreError "InvalidB58Checksum" else BitcoreError "InvalidB58Char"
  | None => BitcoreError "InvalidB58Char"
  end.

Definition isValidSerialized (data : string) (net : option arg) : bool := bool_decide (getSerializedError data net = None).

Inductive seed := SText (s : string) | SBuffer (b : list Z).

Definition fromSeed (hexa : seed) (net : option arg) : result t :=
  hexa ← match hexa with
    | SText s => if Hex.isHexa s then hexToBuffer s else Throw (BitcoreError "HDPrivateKey.InvalidEntropyArgument")
    | SBuffer b => Ok b
    end;
  guard_or (BitcoreError "HDPrivateKey.InvalidEntropyArgument.NotEnoughEntropy") (negb (zlen hexa <? 16));;
  guard_or (BitcoreError "HDPrivateKey.InvalidEntropyArgument.TooMuchEntropy") (negb (zlen hexa >? 64));;
  hash ← Hash.sha512hmac hexa (Utf8.bytes_of_text "Bitcoin seed");
  buildFromObject (mkObject (Some (default (Obj defaultNetwork) (get net))) FUndefined (FNumber (num_of_Z 0)) (FNumber (num_of_Z 0))
    (FNumber (num_of_Z 0)) (FBuffer (Buf.slice 32 64 hash)) (FBuffer (Buf.slice 0 32 hash)) FUndefined).

(** [random] is what [Random.getRandomBuffer(64)] returns. *)
Definition generateRandomly (random : list Z) (net : option arg) : result t := fromSeed (SBuffer random) net.

(** The argument of the constructor *)
Inductive data := DNone | DNetwork (a : arg) | DText (s : string) | DBuffer (b : list Z) | DObject (o : object) | DKey (k : t).

(** [new HDPrivateKey(arg)]; an empty text and the number 0 are no argument, and an inherited property is an
    object without fields. *)
Definition new (random : list Z) (d : data) : result t :=
  match d with
  | DKey k => Ok k
  | DNone => generateRandomly random None
  | DNetwork a =>
      if negb (truthy (Some a)) then generateRandomly random None
      else
        match getNetwork a None with
        | Some _ => generateRandomly random (Some a)
        | None =>
            match a with
            | Inherited _ => buildFromObject (mkObject None FUndefined FUndefined FUndefined FUndefined FUndefined FUndefined FUndefined)
            | _ => Throw (BitcoreError "HDPrivateKey.UnrecognizedArgument")
            end
        end
  | DText s =>
      if bool_decide (s = EmptyString) then generateRandomly random None
      else if bool_decide (is_Some (getNetwork (Name s) None)) then generateRandomly random (Some (Name s))
      else match getSerializedError s None with None => buildFromSerialized s | Some e => Throw e end
  | DBuffer b =>
      match text_of b with
      | Some s =>
          if bool_decide (is_Some (getNetwork (Name s) None)) then generateRandomly random (Some (Name s))
          else if isValidSerialized s None then buildFromSerialized s
          else Throw (getSerializedError_buffer b)
      | None => Throw (getSerializedError_buffer b)
      end
  | DObject o => buildFromObject o
  end.

Definition fromString (random : list Z) (arg : string) : result t := new random (DText arg).
Definition fromObject (random : list Z) (arg : object) : result t := new random (DObject arg).
Definition fromBuffer (random : list Z) (arg : list Z) : result t :=
  match text_of arg with Some s => new random (DText s) | None => Throw (BitcoreError "InvalidB58Char") end.

Definition toString (k : t) : string := xprivkey k.
Definition toBuffer (k : t) : list Z := Utf8.bytes_of_text (xprivkey k).

Definition toObject (k : t) : result plain_object :=
  let b := _buffers k in
  match as_network (getNetwork (Num (integerFromBuffer (version b))) (Some Networks.xprivkey)) with
  | None => Throw TypeError
  | Some net =>
      key ← PrivKey.toBuffer (privateKey k);
      Ok (mkPlain (name net) (integerFromSingleByteBuffer (depth_byte b)) (integerFromBuffer (fingerPrint k))
        (integerFromBuffer (parentFingerPrint b)) (integerFromBuffer (childIndex b)) (Hex.hexSlice (chainCode b)) (Hex.hexSlice key)
        (integerFromBuffer (checksum b)) (xprivkey k))
  end.

(** *** Derivation *)

(** What is hashed for a child *)
Definition child_data (k : t) (index : number) (hardened : bool) : result (list Z) :=
  let indexBuffer := integerAsBuffer index in
  if hardened then b ← PrivKey.toBuffer (privateKey k); Ok ([0] ++ b ++ indexBuffer)
  else b ← PublicKey.toBuffer (publicKey k); Ok (b ++ indexBuffer).

(** What [_deriveWithNumber] computes when the cache has no child *)
Definition child (k : t) (index : number) (hardened : bool) : result t :=
  data ← child_data k index hardened;
  hash ← Hash.sha512hmac data (chainCode (_buffers k));
  let leftPart := BN.fromBuffer (Buf.slice 0 32 hash) in
  let chainCode := Buf.slice 32 64 hash in
  privateKey ← BN.toBuffer 32 ((leftPart + PrivKey.bn (privateKey k)) mod Point.getN);
  buildFromObject (mkObject (Obj <$> hd_network k) FUndefined (FNumber (num_of_Z (depth k + 1))) (FBuffer (fingerPrint k))
    (FNumber index) (FBuffer chainCode) (FBuffer privateKey) FUndefined).

End WithCurve.
End HDPrivateKey.

(** ** HDPublicKey *)
Module HDPublicKey.
Import Networks.
Section WithCurve.
Context `{Crypto} `{Curve} `{Digests}.

Record t := mk {
  _buffers : buffers; xpubkey : string; hd_network : option network; depth : Z; publicKey : PublicKey.t; fingerPrint : list Z;
}.

Definition isValidPath_number (arg : number) : bool := num_ge arg (num_of_Z 0) && num_lt arg Hardened.

Definition isValidPath (arg : string) : bool :=
  match getDerivationIndexes arg with None => false | Some indexes => forallb isValidPath_number indexes end.

Definition sequence (b : buffers) : list Z :=
  version b ++ depth_byte b ++ parentFingerPrint b ++ childIndex b ++ chainCode b ++ key_bytes_ b.

(** The two checksums are compared by their hexadecimal text, which is to compare their bytes. *)
Definition buildFromBuffers (arg : unchecked) : result t :=
  '(b, given) ← validateBufferArguments 33 arg;
  let concat := sequence b in
  let checksum := Base58Check.checksum concat in
  guard_or (BitcoreError "InvalidB58Checksum") (match given with None => true | Some c => bool_decide (c = checksum) end);;
  let net := network_of_version (integerFromBuffer (version b)) in
  let text := Base58Check.encode concat in
  publicKey ← PublicKey.new (PublicKey.DBuffer (key_bytes_ b)) (PublicKey.mkOptions None (Obj <$> net));
  encoded ← PublicKey.toBuffer publicKey;
  let fingerPrint := Buf.slice 0 4 (sha256ripemd160 encoded) in
  let b := mkBuffers (version b) (depth_byte b) (parentFingerPrint b) (childIndex b) (chainCode b) (key_bytes_ b) checksum in
  Ok (mk b text net (integerFromSingleByteBuffer (depth_byte b)) publicKey fingerPrint).

Definition buildFromPrivate (arg : HDPrivateKey.t) : result t :=
  let args := HDPrivateKey._buffers arg in
  let point := mul Point.getG (BN.fromBuffer (key_bytes_ args)) in
  key ← Point.pointToCompressed point;
  match network_of_version (integerFromBuffer (version args)) with
  | None => Throw TypeError
  | Some net =>
      buildFromBuffers (mkUnchecked (FBuffer (integerAsBuffer (num_of_Z (field Networks.xpubkey net)))) (FBuffer (depth_byte args))
        (FBuffer (parentFingerPrint args)) (FBuffer (childIndex args)) (FBuffer (chainCode args)) (FBuffer key) FUndefined)
  end.

Definition buildFromObject (arg : object) : result t :=
  version ← version_field Networks.xpubkey arg;
  chainCode ← hex_field (o_chainCode arg);
  key ← match o_key arg with
    | FText s => b ← hexToBuffer s; Ok (FBuffer b)
    | FBuffer b => Ok (FBuffer b)
    | FKey encoded => b ← encoded; Ok (FBuffer b)
    | FUndefined | FNumber _ => Throw TypeError
    end;
  buildFromBuffers (mkUnchecked version (number_field integerAsSingleByteBuffer (o_depth arg))
    (number_field integerAsBuffer (o_parentFingerPrint arg)) (number_field integerAsBuffer (o_childIndex arg)) chainCode key
    (number_field integerAsBuffer (o_checksum arg))).

Definition buildFromSerialized (arg : string) : result t :=
  decoded ← Base58Check.decode arg;
  buildFromBuffers (serialized_fields 45 decoded).

Definition validateNetwork (data : list Z) (networkArg : arg) : option js_error :=
  match getNetwork networkArg None with
  | None => Some (BitcoreError "InvalidNetworkArgument")
  | Some (Name _ | Num _ | Inherited _) => Some (BitcoreError "InvalidNetwork")
  | Some (Obj net) =>
      let version := Buf.slice 0 4 data in
      if negb (integerFromBuffer version =? field Networks.xpubkey net) then Some (BitcoreError "InvalidNetwork") else None
  end.

Definition ArgumentIsPrivateExtended : js_error := BitcoreError "HDPublicKey.ArgumentIsPrivateExtended".

Definition getSerializedError (data : string) (net : option arg) : option js_error :=
  if negb (Base58.validCharacters data) then Some (BitcoreError "InvalidB58Char")
  else
    match Base58Check.decode data with
    | Throw _ => Some (BitcoreError "InvalidB58Checksum")
    | Ok data =>
        if negb (zlen data =? 78) then Some (BitcoreError "InvalidLength")
        else
          match net ≫= validateNetwork data with
          | Some error => Some error
          | None =>
              let version := integerFromBuffer (Buf.slice 0 4 data) in
              if (version =? field Networks.xprivkey livenet) || (version =? field Networks.xprivkey testnet)
              then Some ArgumentIsPrivateExtended else None
          end
    end.

Definition isValidSerialized (data : string) (net : option arg) : bool := bool_decide (getSerializedError data net = None).

Inductive data := DNone | DText (s : string) | DBuffer (b : list Z) | DObject (o : object) | DPrivate (k : HDPrivateKey.t) | DKey (k : t).

(** [new HDPublicKey(arg)]; the text of a private key is 78 bytes, which no random key replaces. *)
Definition new (d : data) : result t :=
  match d with
  | DKey k => Ok k
  | DNone => Throw (BitcoreError "HDPublicKey.MustSupplyArgument")
  | DText s =>
      if bool_decide (s = EmptyString) then Throw (BitcoreError "HDPublicKey.MustSupplyArgument")
      else
        match getSerializedError s None with
        | None => buildFromSerialized s
        | Some error =>
            if bool_decide (error = ArgumentIsPrivateExtended) then k ← HDPrivateKey.new [] (HDPrivateKey.DText s); buildFromPrivate k
            else Throw error
        end
  | DBuffer b =>
      match text_of b with
      | Some s => if isValidSerialized s None then buildFromSerialized s else Throw (HDPrivateKey.getSerializedError_buffer b)
      | None => Throw (HDPrivateKey.getSerializedError_buffer b)
      end
  | DPrivate k => buildFromPrivate k
  | DObject o => buildFromObject o
  end.

Definition fromString (arg : string) : result t := new (DText arg).
Definition fromObject (arg : object) : result t := new (DObject arg).
Definition fromBuffer (arg : list Z) : result t := new (DBuffer arg).

Definition toString (k : t) : string := xpubkey k.
Definition toBuffer (k : t) : list Z := Utf8.bytes_of_text (xpubkey k).

Definition toObject (k : t) : result plain_object :=
  let b := _buffers k in
  match network_of_version (integerFromBuffer (version b)) with
  | None => Throw TypeError
  | Some net =>
      key ← PublicKey.toString (publicKey k);
      Ok (mkPlain (name net) (integerFromSingleByteBuffer (depth_byte b)) (integerFromBuffer (fingerPrint k))
        (integerFromBuffer (parentFingerPrint b)) (integerFromBuffer (childIndex b)) (Hex.hexSlice (chainCode b)) key
        (integerFromBuffer (checksum b)) (xpubkey k))
  end.

(** What [_deriveWithNumber] computes when the cache has no child *)
Definition child (k : t) (index : number) : result t :=
  let indexBuffer := integerAsBuffer index in
  b ← PublicKey.toBuffer (publicKey k);
  hash ← Hash.sha512hmac (b ++ indexBuffer) (chainCode (_buffers k));
  let leftPart := BN.fromBuffer (Buf.slice 0 32 hash) in
  let chainCode := Buf.slice 32 64 hash in
  publicKey ← PublicKey.fromPoint (add (mul Point.getG leftPart) (PublicKey.key_point (publicKey k))) None;
  buildFromObject (mkObject (Obj <$> hd_network k) FUndefined (FNumber (num_of_Z (depth k + 1))) (FBuffer (fingerPrint k))
    (FNumber index) (FBuffer chainCode) (FKey (PublicKey.toBuffer publicKey)) FUndefined).

End WithCurve.
End HDPublicKey.

(** ** Derivation through the cache *)
Module HDKeys.
Section WithCurve.
Context `{Crypto} `{Curve} `{Digests}.

(** The cache holds keys of both kinds. *)
Inductive hdkey := HPriv (k : HDPrivateKey.t) | HPub (k : HDPublicKey.t).

Definition cache : Type := HDKeyCache.t hdkey.

(** The end of both [_deriveWithNumber] functions *)
Definition cached_or (k : HDKeyCache.key) (compute : result hdkey) : js cache hdkey :=
  cached ← HDKeyCache.get k;
  match cached with
  | Some d => mret d
  | None =>
      derived ← js_lift compute;
      HDKeyCache.set k derived;;
      mret derived
  end.

Definition deriveWithNumber_private (k : HDPrivateKey.t) (index : number) (hardened : flag) : js cache hdkey :=
  js_lift (guard_or (BitcoreError "HDPrivateKey.InvalidPath") (HDPrivateKey.isValidPath_number index hardened));;
  let hardened := if num_ge index Hardened then Bool true else hardened in
  let index := if num_lt index Hardened && is_true hardened then num_add index Hardened else index in
  cached_or (HDKeyCache.make_key (HDPrivateKey.xprivkey k) index (counts hardened))
    (d ← HDPrivateKey.child k index (counts hardened); Ok (HPriv d)).

Definition deriveWithNumber_public (k : HDPublicKey.t) (index : number) : js cache hdkey :=
  js_lift (guard_or (BitcoreError "HDPublicKey.InvalidIndexCantDeriveHardened") (negb (num_ge index Hardened)));;
  js_lift (guard_or (BitcoreError "HDPublicKey.InvalidPath") (negb (num_lt index (num_of_Z 0))));;
  cached_or (HDKeyCache.make_key (HDPublicKey.xpubkey k) index false) (d ← HDPublicKey.child k index; Ok (HPub d)).

(** [_deriveWithNumber] of whatever key it is called on *)
Definition deriveWithNumber (k : hdkey) (index : number) (hardened : flag) : js cache hdkey :=
  match k with HPriv k => deriveWithNumber_private k index hardened | HPub k => deriveWithNumber_public k index end.

(** [indexes.reduce(...)] *)
Fixpoint derive_all (k : hdkey) (indexes : list number) : js cache hdkey :=
  match indexes with
  | [] => mret k
  | index :: indexes => k ← deriveWithNumber k index Undefined; derive_all k indexes
  end.

Definition has_quote (path : string) : bool := existsb (fun c => bool_decide (c = "'"%char)) (list_ascii_of_string path).

Definition deriveFromString (k : hdkey) (path : string) : js cache hdkey :=
  match k with
  | HPriv _ => js_lift (guard_or (BitcoreError "HDPrivateKey.InvalidPath") (HDPrivateKey.isValidPath path))
  | HPub _ =>
      js_lift (guard_or (BitcoreError "HDPublicKey.InvalidIndexCantDeriveHardened") (negb (has_quote path)));;
      js_lift (guard_or (BitcoreError "HDPublicKey.InvalidPath") (HDPublicKey.isValidPath path))
  end;;
  derive_all k (default [] (getDerivationIndexes path)).

(** The first argument of [derive] *)
Inductive derive_arg := ByNumber (n : number) | ByPath (s : string) | ByOther.

Definition derive (k : hdkey) (arg : derive_arg) (hardened : flag) : js cache hdkey :=
  match arg with
  | ByNumber n => deriveWithNumber k n hardened
  | ByPath s => deriveFromString k s
  | ByOther => js_throw (BitcoreError "InvalidDerivationArgument")
  end.

End WithCurve.
End HDKeys.
