(* ===== verification/HDKeysSpec.v ===== *)
(** * Extended keys as bytes and as text

    Lemmas on the fields of extended keys and on what the two constructors build from them: a key is
    determined by its text, whatever it was built from, and its text gives it back. *)
From S2P Require Import Prelude JsNumber JsValue Encoding Signature ScriptNum Script Base58 Keys KeysSpec Hmac KeyCache PublicKeys HDKeys.
From Stdlib Require Import Ascii String.
Local Open Scope Z_scope.
Local Open Scope js_scope.

(** ** Numbers as bytes *)
Module IntegerLemmas.
Import BufferUtil.

Lemma integerAsBuffer_length n : zlen (integerAsBuffer n) = 4.
Proof. done. Qed.

Lemma land_255 x : byte_ok (Z.land x 255).
Proof. unfold byte_ok. change 255 with (Z.ones 8). rewrite Z.land_ones by lia. apply Z.mod_pos_bound. lia. Qed.

Lemma integerAsBuffer_ok n : bytes_ok (integerAsBuffer n).
Proof. unfold integerAsBuffer. repeat (apply Forall_cons; split; [apply land_255|]). by apply Forall_nil. Qed.

Lemma single_ok n : bytes_ok (integerAsSingleByteBuffer n).
Proof. apply Forall_cons. split; [apply land_255|by apply Forall_nil]. Qed.

Lemma to_int32_int z : safe z -> to_int32 (num_of_Z z) = wrap32 z.
Proof. intros Hz. unfold to_int32. by rewrite num_trunc_safe. Qed.

(** Its four bytes, most significant first *)
Lemma four_bytes w : BN.fromBuffer [Z.land (Z.shiftr w 24) 255; Z.land (Z.shiftr w 16) 255; Z.land (Z.shiftr w 8) 255; Z.land w 255] = w mod 2 ^ 32.
Proof.
  unfold BN.fromBuffer. cbn [fold_left]. change 255 with (Z.ones 8). rewrite !Z.land_ones, !Z.shiftr_div_pow2 by lia.
  change (2 ^ 8) with 256. change (2 ^ 16) with (256 * 256). change (2 ^ 24) with (256 * 256 * 256). change (2 ^ 32) with (256 * 256 * 256 * 256).
  rewrite (Z.mod_eq w (256 * 256 * 256 * 256)) by lia. rewrite <-!Z.div_div by lia. zlia.
Qed.

Lemma wrap32_mod z : wrap32 z mod 2 ^ 32 = z mod 2 ^ 32.
Proof. unfold wrap32. rewrite Zminus_mod_idemp_l. f_equal. lia. Qed.

Lemma integerAsBuffer_value z : safe z -> BN.fromBuffer (integerAsBuffer (num_of_Z z)) = z mod 2 ^ 32.
Proof. intros Hz. unfold integerAsBuffer. rewrite to_int32_int by done. cbv zeta. by rewrite four_bytes, wrap32_mod. Qed.

Lemma wrap32_range z : - 2 ^ 31 <= wrap32 z < 2 ^ 31.
Proof. unfold wrap32. pose proof (Z.mod_pos_bound (z + 2 ^ 31) (2 ^ 32) ltac:(lia)). lia. Qed.

Lemma wrap32_unique z w : - 2 ^ 31 <= w < 2 ^ 31 -> w mod 2 ^ 32 = z mod 2 ^ 32 -> wrap32 z = w.
Proof.
  intros Hw Hm. rewrite <-(wrap32_small w) by lia. unfold wrap32. f_equal. by rewrite <-Zplus_mod_idemp_l, <-Hm, Zplus_mod_idemp_l.
Qed.

Lemma lor_low x y k : 0 <= k -> 0 <= y < 2 ^ k -> Z.lor (x * 2 ^ k) y = x * 2 ^ k + y.
Proof.
  intros Hk Hy. rewrite Z.lor_comm, <-Z.shiftl_mul_pow2, lor_disjoint, ?Z.shiftl_mul_pow2 by lia. lia.
Qed.

Lemma integerFromBuffer_value b : bytes_ok b -> zlen b = 4 -> integerFromBuffer b = wrap32 (BN.fromBuffer b).
Proof.
  intros Hb Hl. destruct b as [|a [|b [|c [|d [|]]]]]; try (unfold zlen in Hl; cbn in Hl; lia).
  repeat (apply Forall_cons in Hb as [? Hb]). unfold byte_ok in *. unfold integerFromBuffer, BN.fromBuffer.
  cbn [fold_left]. change (byte_at [a; b; c; d] 0) with a. change (byte_at [a; b; c; d] 1) with b. change (byte_at [a; b; c; d] 2) with c. change (byte_at [a; b; c; d] 3) with d.
  rewrite !Z.shiftl_mul_pow2 by lia. symmetry. set (h := if a <? 128 then a else a - 256).
  assert (wrap32 (a * 2 ^ 24) = h * 2 ^ 24) as ->.
  { apply wrap32_unique; unfold h; destruct (Z.ltb_spec a 128); try lia. replace ((a - 256) * 2 ^ 24) with (a * 2 ^ 24 + (-1) * 2 ^ 32) by lia.
    by rewrite Z_mod_plus_full. }
  assert (Z.lor (h * 2 ^ 24) (b * 2 ^ 16) = h * 2 ^ 24 + b * 2 ^ 16) as -> by (apply lor_low; lia).
  replace (h * 2 ^ 24 + b * 2 ^ 16) with ((h * 2 ^ 8 + b) * 2 ^ 16) by lia. rewrite (lor_low _ (c * 2 ^ 8) 16) by lia.
  replace ((h * 2 ^ 8 + b) * 2 ^ 16 + c * 2 ^ 8) with (((h * 2 ^ 8 + b) * 2 ^ 8 + c) * 2 ^ 8) by lia. rewrite (lor_low _ d 8) by lia.
  assert (-128 <= h < 128) as Hh by (unfold h; destruct (Z.ltb_spec a 128); lia).
  apply wrap32_unique; [lia|]. unfold h. destruct (a <? 128); [f_equal; lia|].
  rewrite <-(Z_mod_plus_full _ 1). f_equal. lia.
Qed.

(** Four bytes read as a number and written again *)
Lemma integer_roundtrip b : bytes_ok b -> zlen b = 4 -> integerAsBuffer (num_of_Z (integerFromBuffer b)) = b.
Proof.
  intros Hb Hl. pose proof (ScriptNumLemmas.fromBuffer_bound b Hb) as Hv. rewrite Hl in Hv. change (256 ^ 4) with (2 ^ 32) in Hv.
  apply fromBuffer_same_length; [apply integerAsBuffer_ok|done|by rewrite Hl|].
  rewrite integerFromBuffer_value by done. rewrite integerAsBuffer_value by (pose proof (wrap32_range (BN.fromBuffer b)); unfold safe; lia).
  rewrite wrap32_mod. by apply Z.mod_small.
Qed.

(** The sign of zero is not written. *)
Lemma plain_bytes n : integerAsBuffer (HDKeyCache.plain n) = integerAsBuffer n.
Proof. by destruct n. Qed.

Lemma version_roundtrip k n : k = Networks.xpubkey \/ k = Networks.xprivkey ->
  integerFromBuffer (integerAsBuffer (num_of_Z (Networks.field k n))) = Networks.field k n /\ 
  Networks.network_of_version (Networks.field k n) = Some n.
Proof. intros [->| ->]; destruct n; by vm_compute. Qed.

End IntegerLemmas.

(** ** The fields of a key *)
Module FieldLemmas.
Import BufferUtil.

Record sized (key_size : Z) (b : buffers) : Prop := {
  sized_version : zlen (version b) = 4 /\ bytes_ok (version b);
  sized_depth : zlen (depth_byte b) = 1 /\ bytes_ok (depth_byte b);
  sized_parent : zlen (parentFingerPrint b) = 4 /\ bytes_ok (parentFingerPrint b);
  sized_index : zlen (childIndex b) = 4 /\ bytes_ok (childIndex b);
  sized_chain : zlen (chainCode b) = 32 /\ bytes_ok (chainCode b);
  sized_key : zlen (key_bytes_ b) = key_size /\ bytes_ok (key_bytes_ b);
}.

Definition with_checksum (c : list Z) (b : buffers) : buffers :=
  mkBuffers (version b) (depth_byte b) (parentFingerPrint b) (childIndex b) (chainCode b) (key_bytes_ b) c.

Lemma with_checksum_self b : with_checksum (checksum b) b = b.
Proof. by destruct b. Qed.

Lemma sized_checksum n b c : sized n b -> sized n (with_checksum c b).
Proof. by intros []. Qed.

(** The fields as the arguments they came from *)
Definition fields_of (b : buffers) (checksum : field_value) : unchecked :=
  mkUnchecked (FBuffer (version b)) (FBuffer (depth_byte b)) (FBuffer (parentFingerPrint b)) (FBuffer (childIndex b))
    (FBuffer (chainCode b)) (FBuffer (key_bytes_ b)) checksum.

Lemma checkBuffer_iff f n b : checkBuffer f n = Ok b <-> f = FBuffer b /\ zlen b = n.
Proof.
  split; [|intros [-> <-]; cbn; by rewrite Z.eqb_refl]. destruct f as [| | |b'|]; try done. cbn.
  destruct (Z.eqb_spec (zlen b') n); [|done]. by intros [= ->].
Qed.

Lemma checkBuffer_ok b n : zlen b = n -> checkBuffer (FBuffer b) n = Ok b.
Proof. intros Hb. by apply checkBuffer_iff. Qed.

Lemma validate_inv n arg b g : validateBufferArguments n arg = Ok (b, g) ->
  arg = fields_of b (u_checksum arg) /\ checksum b = [] /\ zlen (version b) = 4 /\ zlen (depth_byte b) = 1 /\ zlen (parentFingerPrint b) = 4
  /\ zlen (childIndex b) = 4 /\ zlen (chainCode b) = 32 /\ zlen (key_bytes_ b) = n
  /\ (if has_length (u_checksum arg) then exists c, u_checksum arg = FBuffer c /\ zlen c = 4 /\ g = Some c else g = None).
Proof.
  unfold validateBufferArguments. intros Hv. destruct arg as [v d p i c k s]. cbn [u_version u_depth u_parentFingerPrint u_childIndex u_chainCode u_key u_checksum] in *.
  destruct (checkBuffer v 4) as [?|] eqn:E1; [|done]. destruct (checkBuffer d 1) as [?|] eqn:E2; [|done].
  destruct (checkBuffer p 4) as [?|] eqn:E3; [|done]. destruct (checkBuffer i 4) as [?|] eqn:E4; [|done].
  destruct (checkBuffer c 32) as [?|] eqn:E5; [|done]. destruct (checkBuffer k n) as [?|] eqn:E6; [|done].
  apply checkBuffer_iff in E1 as [-> E1], E2 as [-> E2], E3 as [-> E3], E4 as [-> E4], E5 as [-> E5], E6 as [-> E6].
  cbn [mbind result_bind] in Hv. destruct (has_length s).
  - destruct (checkBuffer s 4) as [x|] eqn:E7; [|done]. apply checkBuffer_iff in E7 as [-> E7]. cbn in Hv. injection Hv as <- <-. split_and!; try done. by exists x.
  - by injection Hv as <- <-.
Qed.

Lemma validate_fields n b s : sized n b -> has_length s = false ->
  validateBufferArguments n (fields_of b s) = Ok (with_checksum [] b, None).
Proof.
  intros [[? _] [? _] [? _] [? _] [? _] [? _]] Hs. unfold validateBufferArguments, fields_of.
  cbn [u_version u_depth u_parentFingerPrint u_childIndex u_chainCode u_key u_checksum].
  rewrite !checkBuffer_ok by done. cbn [mbind result_bind]. by rewrite Hs.
Qed.

Lemma validate_given n b c : sized n b -> zlen c = 4 -> validateBufferArguments n (fields_of b (FBuffer c)) = Ok (with_checksum [] b, Some c).
Proof.
  intros [[? _] [? _] [? _] [? _] [? _] [? _]] Hc. unfold validateBufferArguments, fields_of.
  cbn [u_version u_depth u_parentFingerPrint u_childIndex u_chainCode u_key u_checksum].
  rewrite !checkBuffer_ok by assumption. cbn [mbind result_bind]. destruct c; [done|]. reflexivity.
Qed.

(** A key of another length is refused. *)
Lemma validate_key n b kb s : sized n b -> zlen kb <> n ->
  validateBufferArguments n (fields_of (mkBuffers (version b) (depth_byte b) (parentFingerPrint b) (childIndex b) (chainCode b) kb []) s) = Throw AssertionError.
Proof.
  intros [[? _] [? _] [? _] [? _] [? _] _] Hk. unfold validateBufferArguments, fields_of.
  cbn [u_version u_depth u_parentFingerPrint u_childIndex u_chainCode u_key u_checksum version depth_byte parentFingerPrint childIndex chainCode key_bytes_].
  rewrite (checkBuffer_ok (version b)), (checkBuffer_ok (depth_byte b)), (checkBuffer_ok (parentFingerPrint b)), (checkBuffer_ok (childIndex b)),
    (checkBuffer_ok (chainCode b)) by assumption. cbn [mbind result_bind checkBuffer]. by rewrite (proj2 (Z.eqb_neq _ _) Hk).
Qed.

(** The arguments' bytes are bytes. *)
Definition bytes_field (f : field_value) : Prop := match f with FBuffer b => bytes_ok b | _ => True end.
Definition bytes_fields (arg : unchecked) : Prop :=
  bytes_field (u_version arg) /\ bytes_field (u_depth arg) /\ bytes_field (u_parentFingerPrint arg) /\ bytes_field (u_childIndex arg)
  /\ bytes_field (u_chainCode arg) /\ bytes_field (u_key arg) /\ bytes_field (u_checksum arg).

Lemma validate_sized n arg b g : bytes_fields arg -> validateBufferArguments n arg = Ok (b, g) ->
  sized n b /\ checksum b = [] /\ match g with None => True | Some c => zlen c = 4 /\ bytes_ok c end.
Proof.
  intros (? & ? & ? & ? & ? & ? & Hs) Hv. apply validate_inv in Hv as (Ea & ? & ? & ? & ? & ? & ? & ? & Hg).
  destruct arg as [v d p i c k s]. unfold fields_of in Ea. cbn in *. injection Ea as -> -> -> -> -> ->. split; [constructor; by split|]. split; [done|]. destruct (has_length s); [|by rewrite Hg].
  destruct Hg as (c' & -> & Hl & ->). done.
Qed.

(** The parts of 78 bytes *)
Lemma parts_of d : zlen d = 78 -> bytes_ok d -> exists v dp p i c z k, d = v ++ dp ++ p ++ i ++ c ++ z ++ k
  /\ zlen v = 4 /\ zlen dp = 1 /\ zlen p = 4 /\ zlen i = 4 /\ zlen c = 32 /\ zlen z = 1 /\ zlen k = 32.
Proof.
  intros Hd Hok.
  assert (forall n (l : list Z), 0 <= n <= zlen l -> exists a b, l = a ++ b /\ zlen a = n /\ zlen b = zlen l - n) as Hcut.
  { intros n l Hn. exists (ztake n l), (zdrop n l). rewrite ztake_zdrop, zlen_ztake, zlen_zdrop by lia. split_and!; [done|lia|lia]. }
  destruct (Hcut 4 d ltac:(lia)) as (v & d1 & -> & Hv & H1). destruct (Hcut 1 d1 ltac:(lia)) as (dp & d2 & -> & Hdp & H2).
  destruct (Hcut 4 d2 ltac:(lia)) as (p & d3 & -> & Hp & H3). destruct (Hcut 4 d3 ltac:(lia)) as (i & d4 & -> & Hi & H4).
  destruct (Hcut 32 d4 ltac:(lia)) as (c & d5 & -> & Hc & H5). destruct (Hcut 1 d5 ltac:(lia)) as (z & k & -> & Hz & Hk).
  exists v, dp, p, i, c, z, k. split_and!; (done || lia).
Qed.

(** A slice between two known places *)
Lemma slice_between p w q n m d : d = p ++ w ++ q -> zlen p = n -> m = n + zlen w -> zlen d < 2 ^ 31 -> Buf.slice n m d = w.
Proof. intros ->. apply DerLemmas.slice_mid. Qed.

Lemma slice_end d : zlen d = 78 -> Buf.slice 78 82 d = [].
Proof.
  intros Hd. unfold Buf.slice. cbv zeta. rewrite Hd, !wrap32_small by lia. cbn [Z.ltb Z.gtb Z.compare Z.sub Z.add Z.opp Pos.compare Pos.compare_cont Pos.add Z.pos_sub].
  rewrite (zdrop_all 78) by lia. done.
Qed.

(** What [_buildFromSerialized] cuts out of them, for a private and for a public key *)
Lemma serialized_private v dp p i c z k : let d := v ++ dp ++ p ++ i ++ c ++ z ++ k in
  zlen v = 4 -> zlen dp = 1 -> zlen p = 4 -> zlen i = 4 -> zlen c = 32 -> zlen z = 1 -> zlen k = 32 ->
  serialized_fields 46 d = fields_of (mkBuffers v dp p i c k []) (FBuffer []) /\
  serialized_fields 45 d = fields_of (mkBuffers v dp p i c (z ++ k) []) (FBuffer []).
Proof.
  intros d ? ? ? ? ? ? ?. assert (zlen d = 78) as Hd by (unfold d; rewrite !zlen_app; lia). unfold serialized_fields, fields_of. rewrite slice_end by done.
  cbn [version depth_byte parentFingerPrint childIndex chainCode key_bytes_].
  assert (Buf.slice 0 4 d = v) as -> by (apply (slice_between [] v (dp ++ p ++ i ++ c ++ z ++ k)); [done|done|lia|lia]).
  assert (Buf.slice 4 5 d = dp) as -> by (apply (slice_between v dp (p ++ i ++ c ++ z ++ k)); [done|done|lia|lia]).
  assert (Buf.slice 5 9 d = p) as -> by (apply (slice_between (v ++ dp) p (i ++ c ++ z ++ k)); [unfold d; by rewrite <-!(assoc_L (++))|rewrite !zlen_app; lia|lia|lia]).
  assert (Buf.slice 9 13 d = i) as -> by (apply (slice_between (v ++ dp ++ p) i (c ++ z ++ k)); [unfold d; by rewrite <-!(assoc_L (++))|rewrite !zlen_app; lia|lia|lia]).
  assert (Buf.slice 13 45 d = c) as -> by (apply (slice_between (v ++ dp ++ p ++ i) c (z ++ k)); [unfold d; by rewrite <-!(assoc_L (++))|rewrite !zlen_app; lia|lia|lia]).
  assert (Buf.slice 46 78 d = k) as -> by (apply (slice_between (v ++ dp ++ p ++ i ++ c ++ z) k []); [unfold d; by rewrite app_nil_r, <-!(assoc_L (++))|rewrite !zlen_app; lia|lia|lia]).
  assert (Buf.slice 45 78 d = z ++ k) as -> by (apply (slice_between (v ++ dp ++ p ++ i ++ c) (z ++ k) []); [unfold d; by rewrite app_nil_r, <-!(assoc_L (++))|rewrite !zlen_app; lia|rewrite zlen_app; lia|lia]).
  done.
Qed.

Lemma app_inj (a b c d : list Z) : zlen a = zlen b -> a ++ c = b ++ d -> a = b /\ c = d.
Proof. intros Hl. apply app_inj_1. unfold zlen in Hl. lia. Qed.

(** *** Texts of 78 bytes *)
Lemma decode_valid s b : bs58.decode s = Ok b -> Base58.validCharacters s = true.
Proof.
  unfold bs58.decode, Base58.validCharacters. destruct (list_ascii_of_string s) as [|c l]; [done|]. rewrite (proj2 (Z.eqb_neq _ 0)) by (rewrite zlen_cons; pose proof (zlen_nonneg l); lia).
  intros Hd. destruct (bs58.decode_loop (c :: l) [0]) as [bytes|] eqn:E; [|done]. clear Hd. revert E. generalize [0]. generalize (c :: l). clear.
  intros l. induction l as [|c l IH]; intros acc; cbn [bs58.decode_loop forallb]; [done|]. destruct (bs58.ALPHABET_MAP c) as [x|]; [|done].
  intros Hl. rewrite bool_decide_true by eauto. by apply (IH (bs58.decode_digit acc x)).
Qed.

Lemma check_valid `{Crypto} s b : Base58Check.decode s = Ok b -> Base58.validCharacters s = true.
Proof. unfold Base58Check.decode, Base58.decode. destruct (bs58.decode s) as [x|] eqn:E; [|done]. intros _. by apply (decode_valid s x). Qed.

(** No name of a network is such a text. *)
Lemma long_payload_no_network `{CryptoLaws} b : 4 < zlen b -> bytes_ok b -> Networks.property (Base58Check.encode b) = None.
Proof.
  intros Hb Hok. destruct (Networks.property _) as [n|] eqn:E; [exfalso|done]. apply TextLemmas.property_in in E.
  rewrite CheckLemmas.encode_eq in E. assert (bytes_ok (b ++ Base58Check.checksum b)) as Hok' by (apply Forall_app; split; [done|apply CheckLemmas.check_bytes_ok]).
  pose proof (Base58Lemmas.decode_encode _ Hok') as Hd.
  assert (Forall (fun s => match bs58.decode s with Ok b => zlen b <= 8 | Throw _ => True end) (TextLemmas.network_names ++ inherited_names)) as Hall.
  { cbn [app TextLemmas.network_names inherited_names]. repeat (apply Forall_cons; split; [vm_compute; done|]). by apply Forall_nil. }
  rewrite Forall_forall in Hall. specialize (Hall _ E). rewrite Hd, zlen_app, CheckLemmas.check_length in Hall. lia.
Qed.

Lemma encode_nonempty `{CryptoLaws} b : bytes_ok b -> Base58Check.encode b <> EmptyString.
Proof.
  intros Hb He. pose proof (proj2 (CheckLemmas.check_decode_iff _ b) (conj Hb eq_refl)) as Hd. rewrite He in Hd. by vm_compute in Hd.
Qed.

End FieldLemmas.

(** ** Private keys from their fields *)
Module HDPrivLemmas.
Import Networks FieldLemmas IntegerLemmas BufferUtil HDPrivateKey.
Section WithLaws.
Context `{CryptoLaws} `{Curve} `{Digests}.

Definition net_of (b : buffers) : option network := network_of_version (integerFromBuffer (version b)).

(** What the key bytes and the network give: the key, the public key and its fingerprint *)
Definition keys_of (b : buffers) : result (PrivKey.t * PublicKey.t * list Z) :=
  privateKey ← PrivKey.new 0 (PrivKey.DBN (BN.fromBuffer (key_bytes_ b))) (Obj <$> net_of b);
  publicKey ← PublicKey.toPublicKey privateKey;
  encoded ← PublicKey.toBuffer publicKey;
  Ok (privateKey, publicKey, Buf.slice 0 4 (sha256ripemd160 encoded)).

Definition checksum_of (b : buffers) (given : option (list Z)) : result (list Z) :=
  match given with
  | None => Ok (Base58Check.checksum (sequence b))
  | Some c =>
      guard_or (BitcoreError "InvalidB58Checksum") (bool_decide (Utf8.utf8Slice c = Utf8.utf8Slice (Base58Check.checksum (sequence b))));;
      Ok c
  end.

(** The key that has these fields *)
Definition with_keys (b : buffers) (c : list Z) (k : PrivKey.t * PublicKey.t * list Z) : t :=
  mk (with_checksum c b) (Base58Check.encode (sequence b)) (net_of b) (integerFromSingleByteBuffer (depth_byte b)) k.1.1 k.1.2 k.2.

Lemma build_iff arg p : buildFromBuffers arg = Ok p <->
  exists b g c k, validateBufferArguments 32 arg = Ok (b, g) /\ checksum_of b g = Ok c /\ keys_of b = Ok k /\ p = with_keys b c k.
Proof.
  unfold buildFromBuffers, keys_of, checksum_of, with_keys, net_of. split.
  - destruct (validateBufferArguments 32 arg) as [[b g]|]; [|done]. cbn [mbind result_bind].
    destruct (match g with None => _ | Some _ => _ end) as [c|] eqn:E0; [|done]. cbn [mbind result_bind].
    destruct (PrivKey.new _ _ _) as [sk|] eqn:E1; [|done]. cbn [mbind result_bind].
    destruct (PublicKey.toPublicKey sk) as [pk|] eqn:E2; [|done]. cbn [mbind result_bind].
    destruct (PublicKey.toBuffer pk) as [enc|] eqn:E3; [|done]. cbn [mbind result_bind]. intros [= <-].
    exists b, g, c, (sk, pk, Buf.slice 0 4 (sha256ripemd160 enc)).
    split; [done|]. split; [exact E0|]. split; [|done]. rewrite E1. cbn [mbind result_bind]. rewrite E2. cbn [mbind result_bind]. by rewrite E3.
  - intros (b & g & c & k & -> & Hc & Hk & ->). cbn [mbind result_bind]. rewrite Hc. cbn [mbind result_bind].
    destruct (PrivKey.new _ _ _) as [sk|]; [|done]. cbn [mbind result_bind] in *.
    destruct (PublicKey.toPublicKey sk) as [pk|]; [|done]. cbn [mbind result_bind] in *.
    destruct (PublicKey.toBuffer pk) as [enc|]; [|done]. cbn [mbind result_bind] in *. by injection Hk as <-.
Qed.

(** A key that some constructor made *)
Definition made (p : t) : Prop :=
  sized 32 (_buffers p) /\ zlen (checksum (_buffers p)) = 4 /\ bytes_ok (checksum (_buffers p))
  /\ exists k, keys_of (_buffers p) = Ok k /\ p = with_keys (_buffers p) (checksum (_buffers p)) k.

Lemma made_text p : made p -> xprivkey p = Base58Check.encode (sequence (_buffers p)).
Proof. intros (_ & _ & _ & k & _ & ->). done. Qed.

Lemma checksum_of_ok b g c : checksum_of b g = Ok c -> 
  match g with None => c = Base58Check.checksum (sequence b) | Some x => c = x end.
Proof. destruct g as [x|]; cbn; [|by intros [= <-]]. case_bool_decide; [|done]. by intros [= <-]. Qed.

Lemma build_made arg p : bytes_fields arg -> buildFromBuffers arg = Ok p -> made p.
Proof.
  intros Harg (b & g & c & k & Hv & Hc & Hk & ->)%build_iff. destruct (validate_sized 32 arg b g Harg Hv) as (Hs & _ & Hg).
  apply checksum_of_ok in Hc. split; [by apply sized_checksum|]. split; [|split].
  - destruct g as [x|]; cbn; subst; [apply Hg|apply CheckLemmas.check_length].
  - destruct g as [x|]; cbn; subst; [apply Hg|apply CheckLemmas.check_bytes_ok].
  - by exists k.
Qed.

Lemma sequence_ok b : sized 32 b -> zlen (sequence b) = 78 /\ bytes_ok (sequence b).
Proof.
  intros [[? ?] [? ?] [? ?] [? ?] [? ?] [? ?]]. unfold sequence. split; [rewrite !zlen_app; change (zlen [0]) with 1; lia|].
  repeat (apply Forall_app; split; [done|]). apply Forall_app. split; [by repeat constructor|done].
Qed.

Lemma sequence_inj b b' : sized 32 b -> sized 32 b' -> sequence b = sequence b' -> b' = with_checksum (checksum b') b.
Proof.
  intros [[? ?] [? ?] [? ?] [? ?] [? ?] [? ?]] [[? ?] [? ?] [? ?] [? ?] [? ?] [? ?]] E. unfold sequence in E.
  apply app_inj in E as [E1 E]; [|congruence]. apply app_inj in E as [E2 E]; [|congruence]. apply app_inj in E as [E3 E]; [|congruence].
  apply app_inj in E as [E4 E]; [|congruence]. apply app_inj in E as [E5 E]; [|congruence]. apply app_inj in E as [_ E6]; [|done].
  unfold with_checksum. rewrite E1, E2, E3, E4, E5, E6. by destruct b'.
Qed.

(** A key is its text, but for the checksum it was given. *)
Lemma same_text p q : made p -> made q -> xprivkey p = xprivkey q ->
  _buffers q = with_checksum (checksum (_buffers q)) (_buffers p) /\ q = mk (_buffers q) (xprivkey p) (hd_network p) (depth p) (privateKey p) (publicKey p) (fingerPrint p).
Proof.
  intros Hp Hq E. pose proof (made_text p Hp) as Tp. pose proof (made_text q Hq) as Tq. rewrite Tp, Tq in E.
  destruct Hp as (Hsp & _ & _ & kp & Hkp & Ep), Hq as (Hsq & _ & _ & kq & Hkq & Eq).
  destruct (sequence_ok _ Hsp) as [_ Hop], (sequence_ok _ Hsq) as [_ Hoq].
  assert (Base58Check.decode (Base58Check.encode (sequence (_buffers p))) = Ok (sequence (_buffers p))) as Hd by (by apply CheckLemmas.check_decode_iff).
  rewrite E, (proj2 (CheckLemmas.check_decode_iff _ (sequence (_buffers q))) (conj Hoq eq_refl)) in Hd. injection Hd as Hd.
  assert (_buffers q = with_checksum (checksum (_buffers q)) (_buffers p)) as Eb by (by apply sequence_inj). split; [done|].
  rewrite Eb in Hkq. change (keys_of (_buffers p) = Ok kq) in Hkq. rewrite Hkp in Hkq. injection Hkq as <-.
  rewrite Eq. unfold with_keys. rewrite with_checksum_self. rewrite Ep. rewrite Eb. cbn [_buffers]. done.
Qed.

(** *** Text *)
Definition own_checksum (p : t) : Prop := checksum (_buffers p) = Base58Check.checksum (sequence (_buffers p)).

Lemma getSerializedError_none s d : Base58Check.decode s = Ok d -> zlen d = 78 -> getSerializedError s None = None.
Proof. intros Hd Hl. unfold getSerializedError. rewrite (check_valid s d Hd), Hd. by rewrite Hl. Qed.

Lemma getSerializedError_inv s : getSerializedError s None = None -> exists d, Base58Check.decode s = Ok d /\ zlen d = 78 /\ bytes_ok d.
Proof.
  unfold getSerializedError. destruct (Base58.validCharacters s); [|done]. cbn [negb]. destruct (Base58Check.decode s) as [d|] eqn:E; [|done].
  destruct (Z.eqb_spec (zlen d) 78); [|done]. intros _. exists d. split_and!; [done..|]. by apply CheckLemmas.check_decode_iff in E as [? _].
Qed.

(** The constructor on the text of 78 bytes *)
Lemma priv_new_text random d : zlen d = 78 -> bytes_ok d -> new random (DText (Base58Check.encode d)) = buildFromBuffers (serialized_fields 46 d).
Proof.
  intros Hl Hok. assert (Base58Check.decode (Base58Check.encode d) = Ok d) as Hd by (by apply CheckLemmas.check_decode_iff).
  unfold new. rewrite bool_decide_false by (by apply encode_nonempty). cbn [getNetwork].
  rewrite long_payload_no_network, bool_decide_false by (lia || done || by intros [? ?]). rewrite (getSerializedError_none _ d) by done.
  unfold buildFromSerialized. by rewrite Hd.
Qed.

Lemma serialized_sequence b : sized 32 b -> serialized_fields 46 (sequence b) = fields_of (with_checksum [] b) (FBuffer []).
Proof.
  intros [[? ?] [? ?] [? ?] [? ?] [? ?] [? ?]]. unfold sequence.
  by destruct (serialized_private (version b) (depth_byte b) (parentFingerPrint b) (childIndex b) (chainCode b) [0] (key_bytes_ b)) as [-> _].
Qed.

Lemma text_gives random p : made p -> own_checksum p -> new random (DText (xprivkey p)) = Ok p.
Proof.
  intros Hp Hc. pose proof (made_text p Hp) as ->. destruct Hp as (Hs & _ & _ & k & Hk & Ep). destruct (sequence_ok _ Hs) as [Hl Hok].
  rewrite priv_new_text, serialized_sequence by done. apply build_iff. exists (with_checksum [] (_buffers p)), None, (checksum (_buffers p)), k.
  split; [by apply (validate_fields 32 (with_checksum [] (_buffers p))); [apply sized_checksum|]|]. split; [|split; [exact Hk|exact Ep]]. rewrite Hc. done.
Qed.

End WithLaws.
End HDPrivLemmas.

(** ** Public keys from their fields *)
Module HDPubLemmas.
Import Networks FieldLemmas IntegerLemmas BufferUtil HDPublicKey.
Section WithLaws.
Context `{CryptoLaws} `{Curve} `{Digests}.

Definition net_of (b : buffers) : option network := network_of_version (integerFromBuffer (version b)).

Definition keys_of (b : buffers) : result (PublicKey.t * list Z) :=
  publicKey ← PublicKey.new (PublicKey.DBuffer (key_bytes_ b)) (PublicKey.mkOptions None (Obj <$> net_of b));
  encoded ← PublicKey.toBuffer publicKey;
  Ok (publicKey, Buf.slice 0 4 (sha256ripemd160 encoded)).

Definition with_keys (b : buffers) (k : PublicKey.t * list Z) : t :=
  mk (with_checksum (Base58Check.checksum (sequence b)) b) (Base58Check.encode (sequence b)) (net_of b)
    (integerFromSingleByteBuffer (depth_byte b)) k.1 k.2.

Definition checksum_right (b : buffers) (given : option (list Z)) : Prop :=
  match given with None => True | Some c => c = Base58Check.checksum (sequence b) end.

Lemma pub_build_iff arg p : buildFromBuffers arg = Ok p <->
  exists b g k, validateBufferArguments 33 arg = Ok (b, g) /\ checksum_right b g /\ keys_of b = Ok k /\ p = with_keys b k.
Proof.
  unfold buildFromBuffers, keys_of, checksum_right, with_keys, net_of. split.
  - destruct (validateBufferArguments 33 arg) as [[b g]|]; [|done]. cbn [mbind result_bind].
    destruct (match g with None => true | Some _ => _ end) eqn:E0; [|done]. cbn [guard_or mbind result_bind].
    destruct (PublicKey.new _ _) as [pk|] eqn:E2; [|done]. cbn [mbind result_bind].
    destruct (PublicKey.toBuffer pk) as [enc|] eqn:E3; [|done]. cbn [mbind result_bind]. intros [= <-].
    exists b, g, (pk, Buf.slice 0 4 (sha256ripemd160 enc)). split; [done|]. split; [|split; [|done]].
    + destruct g; [by apply bool_decide_eq_true in E0|done].
    + rewrite E2. cbn [mbind result_bind]. by rewrite E3.
  - intros (b & g & k & -> & Hc & Hk & ->). cbn [mbind result_bind].
    replace (match g with None => true | Some _ => _ end) with true by (destruct g; [by rewrite bool_decide_true|done]). cbn [guard_or mbind result_bind].
    destruct (PublicKey.new _ _) as [pk|]; [|done]. cbn [mbind result_bind] in *.
    destruct (PublicKey.toBuffer pk) as [enc|]; [|done]. cbn [mbind result_bind] in *. by injection Hk as <-.
Qed.

(** A key that some constructor made *)
Definition made (p : t) : Prop := sized 33 (_buffers p) /\ exists k, keys_of (_buffers p) = Ok k /\ p = with_keys (_buffers p) k.

Lemma pub_made_text p : made p -> xpubkey p = Base58Check.encode (sequence (_buffers p)).
Proof. intros (_ & k & _ & ->). done. Qed.

Lemma pub_build_made arg p : bytes_fields arg -> buildFromBuffers arg = Ok p -> made p.
Proof.
  intros Harg (b & g & k & Hv & _ & Hk & ->)%pub_build_iff. destruct (validate_sized 33 arg b g Harg Hv) as (Hs & _ & _).
  split; [by apply sized_checksum|]. by exists k.
Qed.

Lemma pub_sequence_ok b : sized 33 b -> zlen (sequence b) = 78 /\ bytes_ok (sequence b).
Proof.
  intros [[? ?] [? ?] [? ?] [? ?] [? ?] [? ?]]. unfold sequence. split; [rewrite !zlen_app; lia|].
  repeat (apply Forall_app; split; [done|]). done.
Qed.

Lemma pub_sequence_inj b b' : sized 33 b -> sized 33 b' -> sequence b = sequence b' -> b' = with_checksum (checksum b') b.
Proof.
  intros [[? ?] [? ?] [? ?] [? ?] [? ?] [? ?]] [[? ?] [? ?] [? ?] [? ?] [? ?] [? ?]] E. unfold sequence in E.
  apply app_inj in E as [E1 E]; [|congruence]. apply app_inj in E as [E2 E]; [|congruence]. apply app_inj in E as [E3 E]; [|congruence].
  apply app_inj in E as [E4 E]; [|congruence]. apply app_inj in E as [E5 E6]; [|congruence].
  unfold with_checksum. rewrite E1, E2, E3, E4, E5, E6. by destruct b'.
Qed.

(** A key is its text. *)
Lemma pub_same_text p q : made p -> made q -> xpubkey p = xpubkey q -> p = q.
Proof.
  intros Hp Hq E. pose proof (pub_made_text p Hp) as Tp. pose proof (pub_made_text q Hq) as Tq. rewrite Tp, Tq in E.
  destruct Hp as (Hsp & kp & Hkp & Ep), Hq as (Hsq & kq & Hkq & Eq).
  destruct (pub_sequence_ok _ Hsp) as [_ Hop], (pub_sequence_ok _ Hsq) as [_ Hoq].
  assert (Base58Check.decode (Base58Check.encode (sequence (_buffers p))) = Ok (sequence (_buffers p))) as Hd by (by apply CheckLemmas.check_decode_iff).
  rewrite E, (proj2 (CheckLemmas.check_decode_iff _ (sequence (_buffers q))) (conj Hoq eq_refl)) in Hd. injection Hd as Hd.
  assert (_buffers q = with_checksum (checksum (_buffers q)) (_buffers p)) as Eb by (by apply pub_sequence_inj).
  rewrite Eb in Hkq. change (keys_of (_buffers p) = Ok kq) in Hkq. rewrite Hkp in Hkq. injection Hkq as <-.
  rewrite Ep, Eq. by rewrite Eb.
Qed.

(** *** Text *)
Lemma pub_getSerializedError_none s d : Base58Check.decode s = Ok d -> zlen d = 78 ->
  integerFromBuffer (Buf.slice 0 4 d) <> field Networks.xprivkey livenet -> integerFromBuffer (Buf.slice 0 4 d) <> field Networks.xprivkey testnet ->
  getSerializedError s None = None.
Proof.
  intros Hd Hl H1' H2'. unfold getSerializedError. rewrite (check_valid s d Hd), Hd. rewrite Hl. cbn [negb Z.eqb Pos.eqb mbind option_bind].
  by rewrite (proj2 (Z.eqb_neq _ _) H1'), (proj2 (Z.eqb_neq _ _) H2').
Qed.

Lemma pub_serialized_sequence b : sized 33 b -> serialized_fields 45 (sequence b) = fields_of (with_checksum [] b) (FBuffer []).
Proof.
  intros [[? ?] [? ?] [? ?] [? ?] [? ?] [Hk Hok]]. unfold sequence. destruct (key_bytes_ b) as [|z k] eqn:Ek; [done|].
  rewrite zlen_cons in Hk. change (z :: k) with ([z] ++ k).
  destruct (serialized_private (version b) (depth_byte b) (parentFingerPrint b) (childIndex b) (chainCode b) [z] k) as [_ ->]; try done; [lia|].
  unfold fields_of, with_checksum. cbn [version depth_byte parentFingerPrint childIndex chainCode key_bytes_]. by rewrite Ek.
Qed.

Lemma version_slice b : sized 33 b -> Buf.slice 0 4 (sequence b) = version b.
Proof.
  intros Hs. destruct (pub_sequence_ok b Hs) as [Hl _]. destruct Hs as [[? ?] _ _ _ _ _].
  apply (slice_between [] (version b) (depth_byte b ++ parentFingerPrint b ++ childIndex b ++ chainCode b ++ key_bytes_ b)); [done|done|lia|lia].
Qed.

Definition public_version (p : t) : Prop :=
  integerFromBuffer (version (_buffers p)) <> field Networks.xprivkey livenet /\ integerFromBuffer (version (_buffers p)) <> field Networks.xprivkey testnet.

Lemma pub_text_gives p : made p -> public_version p -> new (DText (xpubkey p)) = Ok p.
Proof.
  intros Hp [Hv1 Hv2]. pose proof (pub_made_text p Hp) as ->. destruct Hp as (Hs & k & Hk & Ep). destruct (pub_sequence_ok _ Hs) as [Hl Hok].
  assert (Base58Check.decode (Base58Check.encode (sequence (_buffers p))) = Ok (sequence (_buffers p))) as Hd by (by apply CheckLemmas.check_decode_iff).
  unfold new. rewrite bool_decide_false by (by apply encode_nonempty).
  rewrite (pub_getSerializedError_none _ (sequence (_buffers p))) by (try done; by rewrite version_slice).
  unfold buildFromSerialized. rewrite Hd. cbn [mbind result_bind]. rewrite pub_serialized_sequence by done. apply pub_build_iff.
  exists (with_checksum [] (_buffers p)), None, k.
  split; [by apply (validate_fields 33 (with_checksum [] (_buffers p))); [apply sized_checksum|]|]. split; [done|split; [exact Hk|exact Ep]].
Qed.

End WithLaws.
End HDPubLemmas.

(** ** Theorems *)
Section TextTheorems.
Import Networks FieldLemmas.
Context `{CryptoLaws} `{Curve} `{Digests}.

(** C19: the text of an extended key, private or public, is read back as the key, and no two public keys
    have the same text. *)
Theorem extended_text random p q : HDPrivLemmas.made p -> HDPrivLemmas.own_checksum p -> HDPubLemmas.made q -> HDPubLemmas.public_version q ->
  HDPrivateKey.fromString random (HDPrivateKey.toString p) = Ok p
  /\ HDPublicKey.fromString (HDPublicKey.toString q) = Ok q
  /\ forall q', HDPubLemmas.made q' -> HDPublicKey.toString q' = HDPublicKey.toString q -> q' = q.
Proof.
  intros Hp Hc Hq Hv. split; [by apply HDPrivLemmas.text_gives|]. split; [by apply HDPubLemmas.pub_text_gives|].
  intros q' Hq' E. by apply HDPubLemmas.pub_same_text.
Qed.

(** whatever text makes a private extended key, it is the base58 text of 78 bytes, and the key's own
    text is that text exactly when the byte before the private key is zero: neither that byte nor the
    version is looked at. *)
Theorem private_text_exact random s p : HDPrivateKey.fromString random s = Ok p -> s <> EmptyString -> property s = None ->
  HDPrivLemmas.made p /\ HDPrivLemmas.own_checksum p
  /\ exists d, Base58Check.decode s = Ok d /\ zlen d = 78 /\ (HDPrivateKey.toString p = s <-> byte_at d 45 = 0).
Proof.
  unfold HDPrivateKey.fromString, HDPrivateKey.new. intros Hp Hs Hn. rewrite bool_decide_false in Hp by done. cbn [getNetwork] in Hp.
  rewrite Hn, bool_decide_false in Hp by (by intros [? ?]). destruct (HDPrivateKey.getSerializedError s None) eqn:E; [done|].
  apply HDPrivLemmas.getSerializedError_inv in E as (d & Hd & Hl & Hok). unfold HDPrivateKey.buildFromSerialized in Hp. rewrite Hd in Hp. cbn [mbind result_bind] in Hp.
  destruct (parts_of d Hl Hok) as (v & dp & pf & i & c & z & k & Ed & Hv & Hdp & Hpf & Hi & Hc & Hz & Hk).
  rewrite Ed in Hp, Hok. repeat (apply Forall_app in Hok as [? Hok]).
  destruct (serialized_private v dp pf i c z k Hv Hdp Hpf Hi Hc Hz Hk) as [Es _]. rewrite Es in Hp.
  assert (HDPrivLemmas.made p) as Hmade.
  { eapply HDPrivLemmas.build_made; [|exact Hp]. split_and!; try assumption. by apply Forall_nil. }
  split; [done|]. apply HDPrivLemmas.build_iff in Hp as (b & g & cs & keys & Hval & Hcs & _ & Ep).
  assert (sized 32 (mkBuffers v dp pf i c k [])) as Hsz by (constructor; split; assumption).
  rewrite (validate_fields 32 _ (FBuffer []) Hsz eq_refl) in Hval. injection Hval as <- <-. injection Hcs as <-. split; [by rewrite Ep|].
  exists d. split; [done|]. split; [done|]. unfold HDPrivateKey.toString. rewrite Ep. cbn [HDPrivateKey.xprivkey HDPrivLemmas.with_keys].
  apply CheckLemmas.check_decode_iff in Hd as [Hok' Es'].
  assert (byte_at d 45 = byte_at z 0) as ->.
  { rewrite Ed. unfold byte_at, zlen in *. rewrite !app_nth2 by lia. rewrite app_nth1 by lia. f_equal. lia. }
  destruct z as [|z [|? ?]]; try (unfold zlen in Hz; cbn in Hz; lia). change (byte_at [z] 0) with z.
  rewrite Es', Ed. split.
  - intros Et.
    assert (bytes_ok (HDPrivateKey.sequence (with_checksum [] (mkBuffers v dp pf i c k [])))) as Hseq.
    { unfold HDPrivateKey.sequence. cbn [version depth_byte parentFingerPrint childIndex chainCode key_bytes_ with_checksum]. repeat (apply Forall_app; split; [done|]). apply Forall_app. split; [by repeat constructor|done]. }
    pose proof (proj2 (CheckLemmas.check_decode_iff _ _) (conj Hseq eq_refl)) as Hdec. rewrite Et in Hdec. rewrite <-Ed in Hdec.
    rewrite (proj2 (CheckLemmas.check_decode_iff _ d) (conj Hok' eq_refl)) in Hdec. injection Hdec as Hdec. rewrite Ed in Hdec.
    unfold HDPrivateKey.sequence in Hdec. cbn [version depth_byte parentFingerPrint childIndex chainCode key_bytes_ with_checksum] in Hdec.
    do 5 (apply app_inj in Hdec as [_ Hdec]; [|done]). by injection Hdec as ->.
  - intros ->. done.
Qed.

End TextTheorems.
