(* ===== verification/HDDerive.v ===== *)
(** * Derivation of extended keys

    The children of extended keys: deriving and then taking the public key is taking the public key and
    then deriving; a child is the one BIP32 defines; and what the cache holds never shows. *)
From S2P Require Import Prelude JsNumber JsValue Encoding Signature ScriptNum Script Base58 Keys KeysSpec Hmac KeyCache PublicKeys HDKeys HDKeysSpec.
From Stdlib Require Import Ascii String.
Local Open Scope Z_scope.
Local Open Scope js_scope.

(** ** What keys hold, under the laws of the curve *)
Module DeriveLemmas.
Import Networks FieldLemmas IntegerLemmas BufferUtil PublicKeyLemmas.
Section WithLaws.
Context `{CryptoLaws} `{CurveLaws} `{DigestsLaws}.

Definition net_arg (n : option network) : arg := Obj (default livenet n).

(** The keys a number and a network stand for *)
Definition private_key (k : Z) (n : option network) : PrivKey.t := PrivKey.mk k true (net_arg n).
Definition public_key (k : Z) (n : option network) : PublicKey.t := PublicKey.mk (mul curve_g k) true (net_arg n).

Lemma private_new k n : PrivKey.new 0 (PrivKey.DBN k) (Obj <$> n) = if (k =? 0) || negb (k <? PrivKey.getN) then Throw TypeError else Ok (private_key k n).
Proof.
  unfold PrivKey.new, private_key, net_arg. cbn [PrivKey.classifyArguments mbind result_bind PrivKey.info_bn PrivKey.info_network PrivKey.info_compressed].
  destruct (Z.eqb_spec k 0), (Z.ltb_spec k PrivKey.getN); cbn [negb guard_or mbind result_bind orb]; try done. by destruct n.
Qed.

Lemma public_new k n : PublicKey.toPublicKey (private_key k n) = (Point.validate (mul curve_g k);; Ok (public_key k n)).
Proof. done. Qed.

(** A valid number is no multiple of the order. *)
Lemma valid_nonzero k : valid k -> k mod PrivKey.getN <> 0.
Proof. intros Hv. apply valid_finite in Hv. rewrite isInfinity_mul in Hv. by apply Z.eqb_neq. Qed.

Lemma valid_mod k : valid (k mod PrivKey.getN) <-> valid k.
Proof. unfold valid. by rewrite mul_mod. Qed.

Lemma validate_cases p : Point.validate p = Ok tt \/ exists e, Point.validate p = Throw e.
Proof. destruct (Point.validate p) as [[]|e]; [by left|right; by exists e]. Qed.

(** The encoding of the public key of a number *)
Definition encodes (k : Z) (b : list Z) : Prop := Point.pointToCompressed (mul curve_g k) = Ok b.

Lemma encodes_spec k : valid k -> exists b, encodes k b /\ zlen b = 33 /\ bytes_ok b
  /\ (forall n, PublicKey.toBuffer (public_key k n) = Ok b)
  /\ PublicKey.transformDER b true = Ok (PublicKey.mkInfo (mul curve_g k) (Some true) None).
Proof.
  intros Hv. destruct (compress k (valid_finite k Hv)) as (xb & Hx & Hl & Hok & Hc & Ht).
  exists ((if Z.odd (y_of (mul curve_g k)) then 3 else 2) :: xb). split; [exact Hc|]. split; [rewrite zlen_cons; lia|].
  split; [constructor; [by destruct (Z.odd _)|done]|]. split; [by intros n; apply Ht|by apply decompress].
Qed.

Lemma fingerprint_ok b : zlen (Buf.slice 0 4 (sha256ripemd160 b)) = 4 /\ bytes_ok (Buf.slice 0 4 (sha256ripemd160 b)).
Proof.
  rewrite slice_take by (rewrite ?hash160_length; lia). split; [rewrite zlen_ztake, hash160_length; lia|].
  rewrite ztake_take. apply Forall_take, hash160_ok.
Qed.

(** *** Private keys *)

(** The keys of some fields *)
Lemma priv_keys_iff b k : sized 32 b -> HDPrivLemmas.keys_of b = Ok k <->
  let a := BN.fromBuffer (key_bytes_ b) in let n := HDPrivLemmas.net_of b in
  a <> 0 /\ a < PrivKey.getN /\ valid a
  /\ exists enc, encodes a enc /\ k = (private_key a n, public_key a n, Buf.slice 0 4 (sha256ripemd160 enc)).
Proof.
  intros Hs. cbv zeta. unfold HDPrivLemmas.keys_of. set (a := BN.fromBuffer (key_bytes_ b)). set (n := HDPrivLemmas.net_of b).
  rewrite private_new. destruct (Z.eqb_spec a 0) as [->|Ha]; cbn [orb negb].
  { split; [done|]. by intros [? _]. }
  destruct (Z.ltb_spec a PrivKey.getN) as [Hn|Hn]; cbn [negb orb mbind result_bind].
  2:{ split; [done|]. intros (_ & ? & _). lia. }
  rewrite public_new. destruct (validate_cases (mul curve_g a)) as [Hv|[e Hv]].
  - rewrite Hv. cbn [mbind result_bind]. destruct (encodes_spec a Hv) as (enc & He & _ & _ & Ht & _). rewrite Ht. cbn [mbind result_bind].
    split; [intros [= <-]; split_and!; try done; by exists enc|]. intros (_ & _ & _ & enc' & He' & ->).
    unfold encodes in *. do 3 f_equal. congruence.
  - rewrite Hv. split; [done|]. intros (_ & _ & Hv' & _). unfold valid in Hv'. congruence.
Qed.

(** What a private key holds *)
Record priv_facts (p : HDPrivateKey.t) (k : Z) (n : option network) (enc : list Z) : Prop := {
  pf_key : HDPrivateKey.privateKey p = private_key k n;
  pf_pub : HDPrivateKey.publicKey p = public_key k n;
  pf_bytes : BN.fromBuffer (key_bytes_ (HDPrivateKey._buffers p)) = k;
  pf_range : 0 < k < PrivKey.getN;
  pf_valid : valid k;
  pf_enc : encodes k enc;
  pf_fingerprint : HDPrivateKey.fingerPrint p = Buf.slice 0 4 (sha256ripemd160 enc);
  pf_network : HDPrivateKey.hd_network p = n;
  pf_version : network_of_version (integerFromBuffer (version (HDPrivateKey._buffers p))) = n;
  pf_depth : HDPrivateKey.depth p = byte_at (depth_byte (HDPrivateKey._buffers p)) 0;
}.

Lemma made_facts p : HDPrivLemmas.made p -> exists k enc, priv_facts p k (HDPrivateKey.hd_network p) enc.
Proof.
  intros (Hs & _ & _ & keys & Hk & Ep). apply (priv_keys_iff _ _ Hs) in Hk as (H0k & Hn & Hv & enc & He & ->).
  exists (BN.fromBuffer (key_bytes_ (HDPrivateKey._buffers p))), enc. rewrite Ep.
  pose proof (proj1 (ScriptNumLemmas.fromBuffer_bound _ (proj2 (sized_key _ _ Hs)))). split; cbn -[PrivKey.getN BN.fromBuffer]; try done. lia.
Qed.

(** *** The hash *)
Definition hmac512 (key data : list Z) : list Z := rfc2104 sha512 128 key data.

Lemma hmac_eq data key : Hash.sha512hmac data key = Ok (hmac512 key data).
Proof.
  unfold Hash.sha512hmac, hmac512. apply (HmacLemmas.hmac_rfc (Hash.mkHashf sha512 1024) 128); [lia|done|].
  cbn [Hash.run]. pose proof (sha512_length key) as Hl. unfold zlen in Hl. lia.
Qed.

Lemma hmac_halves key data : let I := hmac512 key data in
  Buf.slice 0 32 I = ztake 32 I /\ Buf.slice 32 64 I = zdrop 32 I /\ zlen (ztake 32 I) = 32 /\ zlen (zdrop 32 I) = 32
  /\ bytes_ok (ztake 32 I) /\ bytes_ok (zdrop 32 I).
Proof.
  intros I. assert (zlen I = 64) as Hl by apply sha512_length. assert (bytes_ok I) as Hok by apply sha512_ok.
  split; [apply slice_take; lia|]. split.
  { apply (slice_between (ztake 32 I) (zdrop 32 I) []); [by rewrite app_nil_r, ztake_zdrop|rewrite zlen_ztake; lia|rewrite zlen_zdrop; lia|lia]. }
  rewrite zlen_ztake, zlen_zdrop, Hl by lia. split_and!; [done|done|rewrite ztake_take; by apply Forall_take|rewrite zdrop_drop; by apply Forall_drop].
Qed.

(** *** Children *)

(** The fields of a child *)
Definition child_buffers (vkey : Networks.key) (n : network) (depth : Z) (fp : list Z) (index : number) (cc kb : list Z) : buffers :=
  mkBuffers (integerAsBuffer (num_of_Z (field vkey n))) (integerAsSingleByteBuffer (num_of_Z (depth + 1))) fp (integerAsBuffer index) cc kb [].

Lemma child_sized vkey n depth fp index cc kb size : zlen fp = 4 /\ bytes_ok fp -> zlen cc = 32 /\ bytes_ok cc -> zlen kb = size /\ bytes_ok kb ->
  sized size (child_buffers vkey n depth fp index cc kb).
Proof. intros ? ? ?. split; cbn -[integerAsBuffer integerAsSingleByteBuffer zlen]; try done; split; try done; try apply integerAsBuffer_ok. apply single_ok. Qed.

Lemma child_version vkey n depth fp index cc kb : vkey = Networks.xpubkey \/ vkey = Networks.xprivkey ->
  network_of_version (integerFromBuffer (version (child_buffers vkey n depth fp index cc kb))) = Some n.
Proof. intros Hv. destruct (version_roundtrip vkey n Hv) as [Hr Hg]. unfold child_buffers. cbn [version]. by rewrite Hr. Qed.

Definition no_fields (f : field_value) : Prop := f = FUndefined \/ f = FBuffer [].

Lemma build_priv b d s : sized 32 b -> no_fields s -> HDPrivateKey.buildFromBuffers (fields_of b s) = Ok d <->
  exists k, HDPrivLemmas.keys_of b = Ok k /\ d = HDPrivLemmas.with_keys b (Base58Check.checksum (HDPrivateKey.sequence b)) k.
Proof.
  intros Hs Hf. assert (has_length s = false) as Hl by (by destruct Hf as [->| ->]). rewrite HDPrivLemmas.build_iff. split.
  - intros (b' & g & c & k & Hv & Hc & Hk & ->). rewrite validate_fields in Hv by done. injection Hv as <- <-.
    cbn [HDPrivLemmas.checksum_of] in Hc. injection Hc as <-. by exists k.
  - intros (k & Hk & ->). exists (with_checksum [] b), None, (Base58Check.checksum (HDPrivateKey.sequence b)), k. by rewrite validate_fields.
Qed.

Lemma build_pub b d s : sized 33 b -> no_fields s -> HDPublicKey.buildFromBuffers (fields_of b s) = Ok d <->
  exists k, HDPubLemmas.keys_of b = Ok k /\ d = HDPubLemmas.with_keys b k.
Proof.
  intros Hs Hf. assert (has_length s = false) as Hl by (by destruct Hf as [->| ->]). rewrite HDPubLemmas.pub_build_iff. split.
  - intros (b' & g & k & Hv & _ & Hk & ->). rewrite validate_fields in Hv by done. injection Hv as <- <-. by exists k.
  - intros (k & Hk & ->). exists (with_checksum [] b), None, k. by rewrite validate_fields.
Qed.

(** The public extended key of a number, with the fields around it *)
Definition public_of (n : network) (b : buffers) (a : Z) (d : HDPublicKey.t) : Prop :=
  valid a /\ d = HDPubLemmas.with_keys b (public_key a (Some n), Buf.slice 0 4 (sha256ripemd160 (key_bytes_ b))).

Lemma pub_keys_iff b a n k : encodes a (key_bytes_ b) -> valid a -> HDPubLemmas.net_of b = Some n ->
  HDPubLemmas.keys_of b = Ok k <-> k = (public_key a (Some n), Buf.slice 0 4 (sha256ripemd160 (key_bytes_ b))).
Proof.
  intros He Hv Hn. destruct (encodes_spec a Hv) as (enc & He' & _ & _ & Ht & Hd). assert (key_bytes_ b = enc) as Eb by (unfold encodes in *; congruence).
  unfold HDPubLemmas.keys_of. rewrite Hn, Eb. unfold PublicKey.new, PublicKey.classifyArgs. cbn [guard_or mbind result_bind].
  rewrite Hd. cbn [mbind result_bind]. unfold PublicKey.new_info, PublicKey.with_network. cbn [PublicKey.info_point PublicKey.info_network PublicKey.info_compressed truthy PublicKey.o_network fmap option_fmap option_map get mbind option_bind getNetwork].
  change (default false (Some true)) with true. change (default (Obj livenet) (Some (Obj n))) with (net_arg (Some n)).
  change (PublicKey.mk (mul curve_g a) true (net_arg (Some n))) with (public_key a (Some n)).
  unfold valid in Hv. rewrite Hv. cbn [mbind result_bind]. rewrite Ht.
  cbn [mbind result_bind]. split; [by intros [= <-]|by intros ->].
Qed.

Lemma build_public b a n d s : sized 33 b -> no_fields s -> encodes a (key_bytes_ b) -> valid a -> HDPubLemmas.net_of b = Some n ->
  HDPublicKey.buildFromBuffers (fields_of b s) = Ok d <-> public_of n b a d.
Proof.
  intros Hs Hf He Hv Hn. rewrite build_pub by done. unfold public_of. split.
  - intros (k & Hk & ->). by apply (pub_keys_iff b a n) in Hk as ->.
  - intros [_ ->]. eexists. split; [by apply (pub_keys_iff b a n)|done].
Qed.

(** The public key of a private extended key *)
Definition public_buffers (n : network) (p : HDPrivateKey.t) (enc : list Z) : buffers :=
  let b := HDPrivateKey._buffers p in
  mkBuffers (integerAsBuffer (num_of_Z (field Networks.xpubkey n))) (depth_byte b) (parentFingerPrint b) (childIndex b) (chainCode b) enc [].

Lemma public_sized n p enc : sized 32 (HDPrivateKey._buffers p) -> zlen enc = 33 -> bytes_ok enc -> sized 33 (public_buffers n p enc).
Proof. intros [? ? ? ? ? ?] Hl Hok. split; cbn -[integerAsBuffer zlen]; try assumption; split; try assumption; [done|apply integerAsBuffer_ok]. Qed.

Lemma buildFromPrivate_iff p k n enc d : sized 32 (HDPrivateKey._buffers p) -> priv_facts p k (Some n) enc ->
  HDPublicKey.buildFromPrivate p = Ok d <-> public_of n (public_buffers n p enc) k d.
Proof.
  intros Hs [Hk Hp Hb Hr Hv He Hf Hn Hver Hd]. destruct (encodes_spec k Hv) as (enc' & He' & Hl & Hok & _). assert (enc' = enc) as -> by (unfold encodes in *; congruence).
  unfold HDPublicKey.buildFromPrivate. rewrite Hb, Hver. unfold encodes, Point.getG in *. rewrite He. cbn [mbind result_bind].
  apply (build_public (public_buffers n p enc) k n d FUndefined); [|by left|done|done|].
  - by apply public_sized.
  - unfold HDPubLemmas.net_of. cbn [version public_buffers]. destruct (version_roundtrip Networks.xpubkey n) as [Hr' Hg]; [by left|]. by rewrite Hr'.
Qed.

(** What the code hashes for a child: for a hardened one the shortest bytes of the number *)
Definition hashed (k : Z) (enc : list Z) (index : number) (hardened : bool) : list Z :=
  (if hardened then [0] ++ rev (BN.le_bytes k) else enc) ++ integerAsBuffer index.

Lemma child_data_eq p k n enc index hardened : priv_facts p k n enc -> HDPrivateKey.child_data p index hardened = Ok (hashed k enc index hardened).
Proof.
  intros [Hk Hp _ Hr Hv He _ _ _ _]. unfold HDPrivateKey.child_data, hashed. rewrite Hk, Hp. destruct hardened.
  - unfold PrivKey.toBuffer, BN.hexBytes. cbn [PrivKey.bn private_key]. rewrite (proj2 (Z.ltb_ge k 0)) by lia. cbn [mbind result_bind]. by rewrite <-(assoc_L (++)).
  - destruct (encodes_spec k Hv) as (enc' & He' & _ & _ & Ht & _). rewrite Ht. cbn [mbind result_bind]. unfold encodes in *. do 2 f_equal. congruence.
Qed.

(** The number of a child, and its chain code *)
Definition child_number (k : Z) (I : list Z) : Z := (BN.fromBuffer (ztake 32 I) + k) mod PrivKey.getN.

(** The private extended key of a number, with the fields around it *)
Definition private_of (n : network) (b : buffers) (a : Z) (d : HDPrivateKey.t) : Prop :=
  a <> 0 /\ valid a /\ exists enc, encodes a enc /\
  d = HDPrivLemmas.with_keys b (Base58Check.checksum (HDPrivateKey.sequence b)) (private_key a (Some n), public_key a (Some n), Buf.slice 0 4 (sha256ripemd160 enc)).

Lemma child_iff p k n enc index hardened d : sized 32 (HDPrivateKey._buffers p) -> priv_facts p k (Some n) enc ->
  HDPrivateKey.child p index hardened = Ok d <->
  let I := hmac512 (chainCode (HDPrivateKey._buffers p)) (hashed k enc index hardened) in
  exists kb, BN.toBuffer 32 (child_number k I) = Ok kb /\ zlen kb = 32 /\ bytes_ok kb /\ BN.fromBuffer kb = child_number k I /\
  private_of n (child_buffers Networks.xprivkey n (HDPrivateKey.depth p) (HDPrivateKey.fingerPrint p) index (zdrop 32 I) kb) (child_number k I) d.
Proof.
  intros Hs Hfacts. cbv zeta. set (I := hmac512 _ _). unfold HDPrivateKey.child. rewrite (child_data_eq p k (Some n) enc) by done. cbn [mbind result_bind].
  rewrite hmac_eq. cbn [mbind result_bind]. fold I. destruct (hmac_halves (chainCode (HDPrivateKey._buffers p)) (hashed k enc index hardened)) as (E1 & E2 & _ & L2 & _ & O2).
  fold I in E1, E2, L2, O2. rewrite E1, E2. pose proof (pf_network _ _ _ _ Hfacts) as Hn. rewrite (pf_key _ _ _ _ Hfacts). cbn [PrivKey.bn private_key].
  change Point.getN with PrivKey.getN. fold (child_number k I). set (k' := child_number k I).
  assert (0 <= k' < PrivKey.getN) as Hk' by (apply Z.mod_pos_bound; done).
  destruct (toBuffer_size 32 k' ltac:(lia)) as (kb & Ekb & Lkb & Vkb & Okb). { change (Z.of_nat 32) with 32. change (256 ^ 32) with (2 ^ 256). assert (PrivKey.getN < 2 ^ 256) by done. lia. }
  change (Z.of_nat 32) with 32 in *. rewrite Ekb. cbn [mbind result_bind]. rewrite Hn.
  set (cb := child_buffers Networks.xprivkey n (HDPrivateKey.depth p) (HDPrivateKey.fingerPrint p) index (zdrop 32 I) kb).
  assert (sized 32 cb) as Hcb. { apply child_sized; [|done|done]. rewrite (pf_fingerprint _ _ _ _ Hfacts). apply fingerprint_ok. }
  assert (HDPrivLemmas.net_of cb = Some n) as Hnet by (apply child_version; by right).
  transitivity (HDPrivateKey.buildFromBuffers (fields_of cb FUndefined) = Ok d); [done|]. rewrite build_priv by (done || by left).
  assert (BN.fromBuffer (key_bytes_ cb) = k') as Hkb by exact Vkb.
  split.
  - intros (keys & Hkeys & ->). apply (priv_keys_iff _ _ Hcb) in Hkeys. cbv zeta in Hkeys. rewrite Hkb, Hnet in Hkeys. destruct Hkeys as (H0k & _ & Hv & enc' & He' & ->).
    exists kb. split_and!; try done. split_and!; [done|done|]. by exists enc'.
  - intros (kb' & Ekb' & _ & _ & _ & H0k & Hv & enc' & He' & ->). assert (kb' = kb) as -> by congruence.
    eexists. split; [|reflexivity]. apply (priv_keys_iff _ _ Hcb). cbv zeta. rewrite Hkb, Hnet. split_and!; try done; [lia|]. by exists enc'.
Qed.

(** The public child *)
Lemma public_child_iff q b a n enc index d : sized 33 b -> key_bytes_ b = enc -> encodes a enc -> public_of n b a q ->
  network_of_version (integerFromBuffer (version b)) = Some n ->
  HDPublicKey.child q index = Ok d <->
  let I := hmac512 (chainCode b) (enc ++ integerAsBuffer index) in
  let a' := BN.fromBuffer (ztake 32 I) + a in
  valid a' /\ exists enc', encodes a' enc' /\
  public_of n (child_buffers Networks.xpubkey n (byte_at (depth_byte b) 0) (Buf.slice 0 4 (sha256ripemd160 enc)) index (zdrop 32 I) enc') a' d.
Proof.
  intros Hs Hb He [Hv ->] Hnet. cbv zeta. set (I := hmac512 _ _). unfold HDPublicKey.child.
  cbn [HDPublicKey.publicKey HDPubLemmas.with_keys fst snd HDPublicKey._buffers with_checksum chainCode HDPublicKey.hd_network HDPublicKey.depth HDPublicKey.fingerPrint].
  destruct (encodes_spec a Hv) as (enc1 & He1 & _ & _ & Ht & _). assert (enc1 = enc) as -> by (unfold encodes in *; congruence).
  rewrite Ht. cbn [mbind result_bind]. rewrite hmac_eq. fold I. cbn [mbind result_bind].
  destruct (hmac_halves (chainCode b) (enc ++ integerAsBuffer index)) as (E1 & E2 & _ & L2 & _ & O2). fold I in E1, E2, L2, O2. rewrite E1, E2.
  change (PublicKey.key_point (public_key a (Some n))) with (mul curve_g a). change Point.getG with curve_g. rewrite add_mul. set (a' := BN.fromBuffer (ztake 32 I) + a).
  assert (PublicKey.fromPoint (mul curve_g a') None = (Point.validate (mul curve_g a');; Ok (public_key a' None))) as -> by done.
  destruct (validate_cases (mul curve_g a')) as [Hv'|[e Hv']].
  2:{ rewrite Hv'. split; [done|]. intros [Hv'' _]. unfold valid in Hv''. congruence. }
  rewrite Hv'. cbn [mbind result_bind]. destruct (encodes_spec a' Hv') as (enc' & He' & Le' & Oe' & Ht' & _). rewrite Ht'.
  rewrite Hb. unfold HDPubLemmas.net_of. rewrite Hnet.
  set (cb := child_buffers Networks.xpubkey n (byte_at (depth_byte b) 0) (Buf.slice 0 4 (sha256ripemd160 enc)) index (zdrop 32 I) enc').
  assert (sized 33 cb) as Hcb by (apply child_sized; [apply fingerprint_ok|done|done]).
  transitivity (HDPublicKey.buildFromBuffers (fields_of cb FUndefined) = Ok d); [done|].
  rewrite (build_public cb a' n) by (done || (by left) || (apply child_version; by left)).
  split; [intros Hd; split; [done|]; by exists enc'|]. intros (_ & enc2 & He2 & Hd). assert (enc2 = enc') as -> by (unfold encodes in *; congruence). done.
Qed.

End WithLaws.
End DeriveLemmas.

(** ** Public and private derivation *)
Section Commute.
Import Networks FieldLemmas IntegerLemmas BufferUtil PublicKeyLemmas DeriveLemmas.
Context `{CryptoLaws} `{CurveLaws} `{DigestsLaws}.

(** What a private child holds *)
Lemma private_of_facts n b a d enc : sized 32 b -> HDPrivLemmas.net_of b = Some n -> BN.fromBuffer (key_bytes_ b) = a -> 0 <= a < PrivKey.getN ->
  encodes a enc -> private_of n b a d -> sized 32 (HDPrivateKey._buffers d) /\ priv_facts d a (Some n) enc
  /\ HDPrivateKey._buffers d = with_checksum (Base58Check.checksum (HDPrivateKey.sequence b)) b.
Proof.
  intros Hs Hn Hb Ha He (H0a & Hv & enc' & He' & ->). assert (enc' = enc) as -> by (unfold encodes in *; congruence).
  split; [by apply sized_checksum|]. split; [|done]. split; try done. lia.
Qed.

(** C17: deriving a child that is not hardened and taking its public key, and taking the public key and
    deriving its child, give the same extended public key, or neither gives any: who has the public key
    alone finds the same keys. *)
Theorem public_derivation p n index x : HDPrivLemmas.made p -> HDPrivateKey.hd_network p = Some n ->
  (d ← HDPrivateKey.child p index false; HDPublicKey.buildFromPrivate d) = Ok x <->
  (q ← HDPublicKey.buildFromPrivate p; HDPublicKey.child q index) = Ok x.
Proof.
  intros Hp Hn. pose proof (proj1 Hp) as Hs. destruct (made_facts p Hp) as (k & enc & Hf). rewrite Hn in Hf.
  destruct (encodes_spec k (pf_valid _ _ _ _ Hf)) as (enc0 & He0 & Lenc & Oenc & _).
  pose proof (pf_enc _ _ _ _ Hf) as He. assert (enc0 = enc) as -> by (unfold encodes in *; congruence). clear He0.
  set (I := hmac512 (chainCode (HDPrivateKey._buffers p)) (enc ++ integerAsBuffer index)).
  set (a := BN.fromBuffer (ztake 32 I) + k). set (k' := child_number k I).
  assert (mul curve_g k' = mul curve_g a) as Emul by apply mul_mod.
  assert (forall d kb, zlen kb = 32 -> bytes_ok kb -> BN.fromBuffer kb = k' -> forall enc', encodes a enc' ->
    private_of n (child_buffers Networks.xprivkey n (HDPrivateKey.depth p) (HDPrivateKey.fingerPrint p) index (zdrop 32 I) kb) k' d ->
    HDPublicKey.buildFromPrivate d = Ok x <->
    public_of n (child_buffers Networks.xpubkey n (byte_at (depth_byte (HDPrivateKey._buffers p)) 0) (Buf.slice 0 4 (sha256ripemd160 enc)) index (zdrop 32 I) enc') a x) as Hchild.
  { intros d kb Lkb Okb Vkb enc' He' Hd. destruct (hmac_halves (chainCode (HDPrivateKey._buffers p)) (enc ++ integerAsBuffer index)) as (_ & _ & _ & L2 & _ & O2). fold I in L2, O2.
    assert (encodes k' enc') as He'' by (unfold encodes in *; by rewrite Emul).
    destruct (private_of_facts n _ k' d enc' (child_sized _ n _ (HDPrivateKey.fingerPrint p) index (zdrop 32 I) kb 32 ltac:(rewrite (pf_fingerprint _ _ _ _ Hf); apply fingerprint_ok) (conj L2 O2) (conj Lkb Okb))
      (child_version _ n _ _ _ _ _ (or_intror eq_refl)) Vkb ltac:(apply Z.mod_pos_bound; done) He'' Hd) as (Hsd & Hfd & Hbd).
    rewrite (buildFromPrivate_iff d k' n enc' x Hsd Hfd). unfold public_buffers. rewrite Hbd. cbn [with_checksum depth_byte parentFingerPrint childIndex chainCode].
    unfold child_buffers. cbn [depth_byte parentFingerPrint childIndex chainCode]. rewrite (pf_depth _ _ _ _ Hf), (pf_fingerprint _ _ _ _ Hf).
    unfold public_of, valid, public_key. by rewrite Emul. }
  set (q := HDPubLemmas.with_keys (public_buffers n p enc) (public_key k (Some n), Buf.slice 0 4 (sha256ripemd160 enc))).
  assert (public_of n (public_buffers n p enc) k q) as Hq by (split; [apply (pf_valid _ _ _ _ Hf)|done]).
  rewrite (proj2 (buildFromPrivate_iff p k n enc q Hs Hf) Hq). cbn [mbind result_bind].
  rewrite (public_child_iff q (public_buffers n p enc) k n enc index x); [|by apply public_sized|done|done|done|by apply (child_version Networks.xpubkey n 0 [] index [] []); left].
  cbv zeta. change (chainCode (public_buffers n p enc)) with (chainCode (HDPrivateKey._buffers p)). fold I a.
  change (byte_at (depth_byte (public_buffers n p enc)) 0) with (byte_at (depth_byte (HDPrivateKey._buffers p)) 0).
  pose proof (child_iff p k n enc index false) as Hiff. cbv zeta in Hiff. change (hashed k enc index false) with (enc ++ integerAsBuffer index) in Hiff. fold I in Hiff. fold k' in Hiff.
  split.
  - destruct (HDPrivateKey.child p index false) as [d|e] eqn:Ed; [|by intros ?]. cbn [mbind result_bind]. intros Hx.
    destruct (proj1 (Hiff d Hs Hf) eq_refl) as (kb & _ & Lkb & Okb & Vkb & Hd). pose proof Hd as (_ & Hv & enc' & He' & _).
    unfold valid, encodes in Hv, He'. rewrite Emul in Hv, He'. split; [exact Hv|]. exists enc'. split; [exact He'|]. by apply (Hchild d kb).
  - intros (Hv & enc' & He' & Hx). assert (0 <= k' < PrivKey.getN) as Hk' by (by apply Z.mod_pos_bound).
    destruct (toBuffer_size 32 k' ltac:(lia)) as (kb & Ekb & Lkb & Vkb & Okb).
    { change (Z.of_nat 32) with 32. change (256 ^ 32) with (2 ^ 256). assert (PrivKey.getN < 2 ^ 256) by done. lia. }
    set (cb := child_buffers Networks.xprivkey n (HDPrivateKey.depth p) (HDPrivateKey.fingerPrint p) index (zdrop 32 I) kb).
    set (d := HDPrivLemmas.with_keys cb (Base58Check.checksum (HDPrivateKey.sequence cb)) (private_key k' (Some n), public_key k' (Some n), Buf.slice 0 4 (sha256ripemd160 enc'))).
    assert (private_of n cb k' d) as Hd.
    { split; [exact (valid_nonzero a Hv)|]. split; [unfold valid; by rewrite Emul|]. exists enc'. split; [unfold encodes in *; by rewrite Emul|done]. }
    rewrite (proj2 (Hiff d Hs Hf) (ex_intro _ kb (conj Ekb (conj Lkb (conj Okb (conj Vkb Hd)))))). cbn [mbind result_bind]. exact (proj2 (Hchild d kb Lkb Okb Vkb enc' He' Hd) Hx).
Qed.
End Commute.
