(* ===== verification/HDCache.v ===== *)
(** * Derivation through the cache

    The cache the two modules share never shows: whatever was derived before, a key derives what it
    derives without a cache.  The invariant says of every entry that it is the child of every key that has
    its text. *)
From S2P Require Import Prelude JsNumber JsValue Encoding Signature ScriptNum Script Base58 Keys KeysSpec Hmac KeyCache PublicKeys HDKeys HDKeysSpec HDDerive.
From Stdlib Require Import Ascii String.
Local Open Scope Z_scope.
Local Open Scope js_scope.

(** ** Derivation without a cache *)
Module Uncached.
Import HDKeys.
Section WithCurve.
Context `{Crypto} `{Curve} `{Digests}.

Definition child_private (k : HDPrivateKey.t) (index : number) (hardened : bool) : result hdkey :=
  d ← HDPrivateKey.child k index hardened; Ok (HPriv d).
Definition child_public (k : HDPublicKey.t) (index : number) : result hdkey := d ← HDPublicKey.child k index; Ok (HPub d).

Definition step (k : hdkey) (index : number) (hardened : flag) : result hdkey :=
  match k with
  | HPriv k =>
      guard_or (BitcoreError "HDPrivateKey.InvalidPath") (HDPrivateKey.isValidPath_number index hardened);;
      let hardened := if num_ge index Hardened then Bool true else hardened in
      let index := if num_lt index Hardened && is_true hardened then num_add index Hardened else index in
      child_private k index (counts hardened)
  | HPub k =>
      guard_or (BitcoreError "HDPublicKey.InvalidIndexCantDeriveHardened") (negb (num_ge index Hardened));;
      guard_or (BitcoreError "HDPublicKey.InvalidPath") (negb (num_lt index (num_of_Z 0)));;
      child_public k index
  end.

Fixpoint steps (k : hdkey) (indexes : list number) : result hdkey :=
  match indexes with [] => Ok k | index :: indexes => k ← step k index Undefined; steps k indexes end.

Definition path_guard (k : hdkey) (path : string) : result unit :=
  match k with
  | HPriv _ => guard_or (BitcoreError "HDPrivateKey.InvalidPath") (HDPrivateKey.isValidPath path)
  | HPub _ =>
      guard_or (BitcoreError "HDPublicKey.InvalidIndexCantDeriveHardened") (negb (has_quote path));;
      guard_or (BitcoreError "HDPublicKey.InvalidPath") (HDPublicKey.isValidPath path)
  end.

Definition derive (k : hdkey) (arg : derive_arg) (hardened : flag) : result hdkey :=
  match arg with
  | ByNumber n => step k n hardened
  | ByPath s => path_guard k s;; steps k (default [] (getDerivationIndexes s))
  | ByOther => Throw (BitcoreError "InvalidDerivationArgument")
  end.

End WithCurve.
End Uncached.

(** ** The invariant *)
Module CacheLemmas.
Import HDKeys Uncached FieldLemmas IntegerLemmas DeriveLemmas BufferUtil.
Section WithLaws.
Context `{CryptoLaws} `{Curve} `{DigestsLaws}.

(** A key that some constructor made *)
Definition made (k : hdkey) : Prop := match k with HPriv p => HDPrivLemmas.made p | HPub q => HDPubLemmas.made q end.

(** An entry is the child of every key of its text. *)
Definition entry_ok (key : HDKeyCache.key) (d : hdkey) : Prop :=
  made d
  /\ (forall p, HDPrivLemmas.made p -> HDPrivateKey.xprivkey p = key.1.1 -> child_private p key.1.2 key.2 = Ok d)
  /\ (forall q, HDPubLemmas.made q -> HDPublicKey.xpubkey q = key.1.1 -> key.2 = false /\ child_public q key.1.2 = Ok d).

(** No private key has the text of a public one: the byte before the private key is zero. *)
Lemma texts_differ p q : HDPrivLemmas.made p -> HDPubLemmas.made q -> HDPrivateKey.xprivkey p <> HDPublicKey.xpubkey q.
Proof.
  intros Hp Hq E. rewrite (HDPrivLemmas.made_text p Hp), (HDPubLemmas.pub_made_text q Hq) in E.
  destruct Hp as (Hsp & _), Hq as (Hsq & k & Hk & _).
  destruct (HDPrivLemmas.sequence_ok _ Hsp) as [_ Hop], (HDPubLemmas.pub_sequence_ok _ Hsq) as [_ Hoq].
  assert (HDPrivateKey.sequence (HDPrivateKey._buffers p) = HDPublicKey.sequence (HDPublicKey._buffers q)) as Es.
  { pose proof (proj2 (CheckLemmas.check_decode_iff _ (HDPrivateKey.sequence (HDPrivateKey._buffers p))) (conj Hop eq_refl)) as Hd.
    rewrite E, (proj2 (CheckLemmas.check_decode_iff _ (HDPublicKey.sequence (HDPublicKey._buffers q))) (conj Hoq eq_refl)) in Hd. by injection Hd as ->. }
  destruct Hsp as [[? _] [? _] [? _] [? _] [? _] [? _]], Hsq as [[? _] [? _] [? _] [? _] [? _] [? _]].
  unfold HDPrivateKey.sequence, HDPublicKey.sequence in Es.
  do 5 (apply app_inj in Es as [_ Es]; [|congruence]).
  unfold HDPubLemmas.keys_of in Hk. rewrite <-Es in Hk. unfold PublicKey.new, PublicKey.classifyArgs in Hk. cbn [guard_or mbind result_bind] in Hk.
  by unfold PublicKey.transformDER in Hk.
Qed.

(** A child does not depend on the checksum of its parent or on the sign of zero. *)
Lemma child_same p q index hardened : HDPrivLemmas.made p -> HDPrivLemmas.made q -> HDPrivateKey.xprivkey p = HDPrivateKey.xprivkey q ->
  child_private q (HDKeyCache.plain index) hardened = child_private p index hardened.
Proof.
  intros Hp Hq E. destruct (HDPrivLemmas.same_text p q Hp Hq E) as [Eb ->]. rewrite Eb. by destruct index.
Qed.

Lemma child_same_public p index : child_public p (HDKeyCache.plain index) = child_public p index.
Proof. by destruct index. Qed.

(** *** Children are made keys *)
Lemma child_made p index hardened d : HDPrivLemmas.made p -> HDPrivateKey.child p index hardened = Ok d -> HDPrivLemmas.made d.
Proof.
  intros Hp. unfold HDPrivateKey.child. destruct (HDPrivateKey.child_data p index hardened) as [data|]; [|done]. cbn [mbind result_bind].
  rewrite hmac_eq. cbn [mbind result_bind]. destruct (hmac_halves (chainCode (HDPrivateKey._buffers p)) data) as (_ & E2 & _ & _ & _ & O2). rewrite E2.
  set (k' := (_ + _) mod _). assert (0 <= k' < PrivKey.getN) as Hk' by (by apply Z.mod_pos_bound).
  destruct (toBuffer_size 32 k' ltac:(lia)) as (kb & Ekb & Lkb & Vkb & Okb).
  { change (Z.of_nat 32) with 32. change (256 ^ 32) with (2 ^ 256). assert (PrivKey.getN < 2 ^ 256) by done. lia. }
  change (Z.of_nat 32) with 32 in Ekb. rewrite Ekb. cbn [mbind result_bind]. unfold HDPrivateKey.buildFromObject.
  destruct (version_field _ _) as [v|] eqn:Ev; [|done]. cbn [mbind result_bind hex_field o_chainCode o_key o_checksum HDPrivateKey.checksum_field o_depth o_parentFingerPrint o_childIndex number_field].
  apply HDPrivLemmas.build_made. split_and!; cbn [bytes_field u_version u_depth u_parentFingerPrint u_childIndex u_chainCode u_key u_checksum]; try done.
  - unfold version_field in Ev. cbn [o_network o_version] in Ev. destruct (HDPrivateKey.hd_network p) as [n|]; cbn in Ev; injection Ev as <-; [apply integerAsBuffer_ok|done].
  - apply single_ok.
  - destruct Hp as (_ & _ & _ & [[sk pk] fp] & Hk & ->). cbn [HDPrivateKey.fingerPrint HDPrivLemmas.with_keys snd].
    unfold HDPrivLemmas.keys_of in Hk. destruct (PrivKey.new _ _ _) as [sk'|]; [|done]. cbn [mbind result_bind] in Hk.
    destruct (PublicKey.toPublicKey sk') as [pk'|]; [|done]. cbn [mbind result_bind] in Hk. destruct (PublicKey.toBuffer pk') as [enc|]; [|done].
    cbn [mbind result_bind] in Hk. injection Hk as _ _ <-. apply fingerprint_ok.
  - apply integerAsBuffer_ok.
Qed.

Lemma public_toBuffer_ok k b : PublicKey.toBuffer k = Ok b -> bytes_ok b.
Proof.
  unfold PublicKey.toBuffer, Point.getX, Point.getY. destruct (isInfinity _); [done|]. cbn [negb guard_or mbind result_bind].
  assert (forall z xb, BN.toBuffer 32 z = Ok xb -> bytes_ok xb) as Hok.
  { intros z xb. unfold BN.toBuffer, BN.hexBytes. destruct (Z.ltb_spec z 0); [done|]. cbn [mbind result_bind].
    assert (bytes_ok (rev (BN.le_bytes z))) as Hr by (unfold BN.le_bytes; apply Forall_rev, le_digits_ok; lia).
    intros [= <-]. destruct (_ =? _); [done|]. destruct (_ >? _).
    - unfold BN.trim, Buf.slice. cbv zeta. rewrite ztake_take, zdrop_drop. by apply Forall_take, Forall_drop.
    - unfold BN.pad. apply Forall_app. split; [|done]. apply Forall_forall. intros x Hx%list_elem_of_In%repeat_spec. subst. done. }
  destruct (BN.toBuffer 32 (x_of _)) as [xb|] eqn:Ex; [|done]. cbn [mbind result_bind]. destruct (BN.toBuffer 32 (y_of _)) as [yb|] eqn:Ey; [|done].
  cbn [mbind result_bind]. apply Hok in Ex, Ey. destruct (negb _).
  - intros [= <-]. apply Forall_cons. split; [done|]. apply Forall_app. by split.
  - intros [= <-]. apply Forall_app. split; [|done]. destruct (negb _); by repeat constructor.
Qed.

Lemma child_made_public q index d : HDPubLemmas.made q -> HDPublicKey.child q index = Ok d -> HDPubLemmas.made d.
Proof.
  intros Hq. unfold HDPublicKey.child. destruct (PublicKey.toBuffer _) as [b|]; [|done]. cbn [mbind result_bind].
  rewrite hmac_eq. cbn [mbind result_bind]. destruct (hmac_halves (chainCode (HDPublicKey._buffers q)) (b ++ integerAsBuffer index)) as (_ & E2 & _ & _ & _ & O2). rewrite E2.
  destruct (PublicKey.fromPoint _ _) as [pk|]; [|done]. cbn [mbind result_bind]. unfold HDPublicKey.buildFromObject.
  destruct (version_field _ _) as [v|] eqn:Ev; [|done]. cbn [mbind result_bind hex_field o_chainCode o_key o_checksum o_depth o_parentFingerPrint o_childIndex number_field].
  destruct (PublicKey.toBuffer pk) as [enc|] eqn:Eenc; [|done]. cbn [mbind result_bind].
  apply HDPubLemmas.pub_build_made. split_and!; cbn [bytes_field u_version u_depth u_parentFingerPrint u_childIndex u_chainCode u_key u_checksum]; try done.
  - unfold version_field in Ev. cbn [o_network o_version] in Ev. destruct (HDPublicKey.hd_network q) as [n|]; cbn in Ev; injection Ev as <-; [apply integerAsBuffer_ok|done].
  - apply single_ok.
  - destruct Hq as (_ & [pk' fp] & Hk & ->). cbn [HDPublicKey.fingerPrint HDPubLemmas.with_keys snd].
    unfold HDPubLemmas.keys_of in Hk. destruct (PublicKey.new _ _) as [sk'|]; [|done]. cbn [mbind result_bind] in Hk.
    destruct (PublicKey.toBuffer sk') as [enc'|]; [|done]. cbn [mbind result_bind] in Hk. injection Hk as _ <-. apply fingerprint_ok.
  - apply integerAsBuffer_ok.
  - by apply (public_toBuffer_ok pk).
Qed.

(** *** One step *)
Definition entries_ok (c : cache) : Prop := map_Forall entry_ok (HDKeyCache._cache c).

(** What the end of [_deriveWithNumber] returns and leaves, if what it stores is right *)
Lemma cached_or_ok key compute c : entries_ok c -> (forall d, compute = Ok d -> entry_ok key d) ->
  (forall d, entry_ok key d -> compute = Ok d) ->
  fst (cached_or key compute c) = compute /\ entries_ok (snd (cached_or key compute c)).
Proof.
  intros Hc Hset Hget. unfold cached_or, mbind, js_bind.
  destruct (KeyCacheLemmas.get_entries entry_ok key c Hc) as (Hc' & Hv & Hok).
  destruct (HDKeyCache.get key c) as [[[d|]|e] c'] eqn:E; cbn [fst snd] in *; [| |done].
  - split; [symmetry; by apply Hget, Hv|done].
  - unfold js_lift. destruct compute as [d|e] eqn:Ed; [|done]. 
    destruct (KeyCacheLemmas.set_entries entry_ok key d c' Hc' (Hset d eq_refl)) as [Hs Hs'].
    destruct (HDKeyCache.set key d c') as [[[]|e] c'']; [done|done].
Qed.

Lemma step_ok k index hardened c : made k -> entries_ok c ->
  fst (deriveWithNumber k index hardened c) = step k index hardened /\ entries_ok (snd (deriveWithNumber k index hardened c)).
Proof.
  intros Hk Hc. destruct k as [p|q]; cbn [deriveWithNumber step made] in *.
  - unfold deriveWithNumber_private. destruct (HDPrivateKey.isValidPath_number index hardened); [|done].
    rewrite js_guard_ok. cbn [guard_or mbind result_bind]. cbv zeta. set (h := if num_ge index Hardened then Bool true else hardened). set (i := if _ && _ then num_add index Hardened else index).
    apply cached_or_ok; [done|intros d Hd|intros d Hd].
    + split_and!; cbn [fst snd HDKeyCache.make_key].
      * destruct (HDPrivateKey.child p i (counts h)) as [d'|] eqn:E; [|done]. cbn in Hd. injection Hd as <-. by apply (child_made p i (counts h)).
      * intros p' Hp' E. rewrite (child_same p p') by done. exact Hd.
      * intros q Hq E. exfalso. by apply (texts_differ p q).
    + change (child_private p i (counts h) = Ok d). rewrite <-(child_same p p) by done. by apply Hd.
  - unfold deriveWithNumber_public. destruct (num_ge index Hardened); [done|]. destruct (num_lt index (num_of_Z 0)); [done|].
    cbn [negb]. rewrite !js_guard_ok. cbn [guard_or mbind result_bind].
    apply cached_or_ok; [done|intros d Hd|intros d Hd].
    + split_and!; cbn [fst snd HDKeyCache.make_key].
      * destruct (HDPublicKey.child q index) as [d'|] eqn:E; [|done]. cbn in Hd. injection Hd as <-. by apply (child_made_public q index).
      * intros p Hp E. exfalso. by apply (texts_differ p q).
      * intros q' Hq' E. split; [done|]. rewrite (HDPubLemmas.pub_same_text q' q) by done. rewrite child_same_public. exact Hd.
    + change (child_public q index = Ok d). rewrite <-child_same_public. by apply (proj2 (proj2 Hd) q).
Qed.

Lemma step_made k index hardened d : made k -> step k index hardened = Ok d -> made d.
Proof.
  intros Hk. destruct k as [p|q]; cbn [step].
  - destruct (HDPrivateKey.isValidPath_number index hardened); [|done]. cbn [guard_or mbind result_bind]. cbv zeta. unfold child_private.
    destruct (HDPrivateKey.child p _ _) as [d'|] eqn:E; [|done]. intros [= <-]. by apply child_made in E.
  - destruct (negb (num_ge index Hardened)); [|done]. destruct (negb (num_lt index (num_of_Z 0))); [|done]. cbn [guard_or mbind result_bind]. unfold child_public.
    destruct (HDPublicKey.child q index) as [d'|] eqn:E; [|done]. intros [= <-]. by apply child_made_public in E.
Qed.

Lemma steps_ok k indexes c : made k -> entries_ok c ->
  fst (derive_all k indexes c) = steps k indexes /\ entries_ok (snd (derive_all k indexes c)).
Proof.
  revert k c. induction indexes as [|index indexes IH]; intros k c Hk Hc; cbn [derive_all steps]; [done|].
  destruct (step_ok k index Undefined c Hk Hc) as [Hr Hc']. unfold mbind, js_bind.
  destruct (deriveWithNumber k index Undefined c) as [[d|e] c'] eqn:E; cbn [fst snd] in *; rewrite <-Hr; cbn [result_bind]; [|done].
  apply IH; [|done]. by apply (step_made k index Undefined).
Qed.

Lemma steps_made k indexes d : made k -> steps k indexes = Ok d -> made d.
Proof.
  revert k. induction indexes as [|index indexes IH]; intros k Hk; cbn [steps]; [by intros [= <-]|].
  destruct (step k index Undefined) as [d'|] eqn:E; [|done]. cbn [mbind result_bind]. apply IH. by apply (step_made k index Undefined).
Qed.

Lemma derive_ok k arg hardened c : made k -> entries_ok c ->
  fst (HDKeys.derive k arg hardened c) = Uncached.derive k arg hardened /\ entries_ok (snd (HDKeys.derive k arg hardened c)).
Proof.
  intros Hk Hc. destruct arg as [n|s|]; cbn [HDKeys.derive Uncached.derive]; [by apply step_ok| |done].
  unfold deriveFromString, path_guard. destruct k as [p|q].
  - destruct (HDPrivateKey.isValidPath s); [|done]. rewrite js_guard_ok. by apply steps_ok.
  - destruct (negb (has_quote s)); [|done]. destruct (HDPublicKey.isValidPath s); [|done]. by apply steps_ok.
Qed.

(** The caches that come up: empty, and after each call on a key *)
Inductive reachable : cache -> Prop :=
  | reachable_empty : reachable HDKeyCache.empty
  | reachable_derive k arg hardened c : made k -> reachable c -> reachable (snd (HDKeys.derive k arg hardened c)).

Lemma reachable_entries c : reachable c -> entries_ok c.
Proof. induction 1 as [|k arg hardened c Hk _ IH]; [apply map_Forall_empty|by apply derive_ok]. Qed.

End WithLaws.
End CacheLemmas.

(** ** Theorems *)
Section CacheTheorems.
Import HDKeys CacheLemmas.
Context `{CryptoLaws} `{Curve} `{DigestsLaws}.

(** C18: whatever keys of either kind were derived before, through the one cache they share, a key
    derives exactly what it derives without a cache, errors included. *)
Theorem cache_unseen k arg hardened c : reachable c -> made k ->
  fst (HDKeys.derive k arg hardened c) = Uncached.derive k arg hardened.
Proof. intros Hc Hk. by apply derive_ok, reachable_entries. Qed.

End CacheTheorems.
