(* ===== verification/Bip32.v ===== *)
(** * Extended keys against BIP32

    A reference definition of private derivation and serialization after BIP32, and the theorems that
    say where the code agrees with it: along a whole path, from the text of the path and the text of a
    key to the text of the key derived; and where it does not. *)
From S2P Require Import Prelude JsNumber JsValue Encoding Signature ScriptNum Script Base58 Keys KeysSpec Hmac KeyCache PublicKeys HDKeys HDKeysSpec HDDerive HDCache.
From Stdlib Require Import Ascii String.
Local Open Scope Z_scope.
Local Open Scope js_scope.

(** ** The reference *)
Module Bip32.
Section WithCurve.
Context `{Crypto} `{Curve} `{Digests}.

(** [ser_k(i)]: [k] bytes, most significant first *)
Fixpoint ser (k : nat) (i : Z) : list Z := match k with O => [] | S k => ser k (i / 256) ++ [i mod 256] end.

(** [ser_P] of the point of a number *)
Definition serP (k : Z) : list Z := (if Z.odd (y_of (mul curve_g k)) then 3 else 2) :: ser 32 (x_of (mul curve_g k)).

Definition parse256 (b : list Z) : Z := value 256 (rev b).

Definition HMAC_SHA512 (key data : list Z) : list Z := rfc2104 sha512 128 key data.

Definition order : Z := 0xFFFFFFFFFFFFFFFFFFFFFFFFFFFFFFFEBAAEDCE6AF48A03BBFD25E8CD0364141.
Definition hardened (i : Z) : bool := 2 ^ 31 <=? i.

(** An extended private key, and its place in the tree *)
Record xprv := mkXprv { k : Z; c : list Z; depth : Z; parent : list Z; number : Z }.

Definition CKDpriv (x : xprv) (i : Z) : option xprv :=
  let data := if hardened i then [0] ++ ser 32 (k x) ++ ser 4 i else serP (k x) ++ ser 4 i in
  let I := HMAC_SHA512 (c x) data in
  let IL := parse256 (firstn 32 I) in
  let ki := (IL + k x) mod order in
  if (order <=? IL) || (ki =? 0) then None
  else Some (mkXprv ki (skipn 32 I) (depth x + 1) (firstn 4 (sha256ripemd160 (serP (k x)))) i).

(** What the code computes in its place: the number of a hardened child's parent goes into the hash with
    its shortest bytes, and the left half of the hash may be the order or more. *)
Definition CKDshort (x : xprv) (i : Z) : option xprv :=
  let data := if hardened i then [0] ++ rev (BN.le_bytes (k x)) ++ ser 4 i else serP (k x) ++ ser 4 i in
  let I := HMAC_SHA512 (c x) data in
  let ki := (parse256 (firstn 32 I) + k x) mod order in
  if ki =? 0 then None
  else Some (mkXprv ki (skipn 32 I) (depth x + 1) (firstn 4 (sha256ripemd160 (serP (k x)))) i).

(** Along a path of BIP32, the keys with a hardened child need all 32 bytes. *)
Fixpoint wide (x : xprv) (path : list Z) : Prop :=
  match path with
  | [] => True
  | i :: path => (hardened i = true -> 2 ^ 248 <= k x) /\ match CKDpriv x i with Some x' => wide x' path | None => True end
  end.

Definition version (n : network) : list Z := match n with livenet => [0x04; 0x88; 0xad; 0xe4] | testnet => [0x04; 0x35; 0x83; 0x94] end.

Definition serialize (n : network) (x : xprv) : list Z :=
  version n ++ ser 1 (depth x) ++ parent x ++ ser 4 (number x) ++ c x ++ [0] ++ ser 32 (k x).

(** The text of an extended key *)
Definition text (n : network) (x : xprv) : string := Base58Check.encode (serialize n x).

(** The path of a list of child numbers *)
Definition step_text (i : Z) : string := if hardened i then decimal (i - 2 ^ 31) ++ "'" else decimal i.
Fixpoint path_text (path : list Z) : string := match path with [] => "" | i :: path => "/" ++ step_text i ++ path_text path end.
Definition path_from_m (path : list Z) : string := "m" ++ path_text path.

End WithCurve.
End Bip32.

(** ** Bytes *)
Module SerLemmas.
Import Bip32 DeriveLemmas IntegerLemmas BufferUtil PublicKeyLemmas FieldLemmas.

Lemma ser_ok k i : zlen (ser k i) = Z.of_nat k /\ bytes_ok (ser k i).
Proof.
  revert i. induction k as [|k IH]; intros i; cbn [ser]; [done|]. destruct (IH (i / 256)) as [Hl Hok]. split.
  - rewrite zlen_app, Hl. change (zlen [i mod 256]) with 1. lia.
  - apply Forall_app. split; [done|]. apply Forall_cons. split; [apply Z.mod_pos_bound; lia|by apply Forall_nil].
Qed.

Lemma ser_value k i : BN.fromBuffer (ser k i) = i mod 256 ^ Z.of_nat k.
Proof.
  revert i. induction k as [|k IH]; intros i; [by rewrite Z.mod_1_r|]. cbn [ser]. unfold BN.fromBuffer in *. rewrite fold_left_app. cbn [fold_left].
  rewrite IH, Nat2Z.inj_succ, Z.pow_succ_r, (Z.rem_mul_r i 256) by lia. lia.
Qed.

(** Bytes are what they are read as. *)
Lemma ser_unique k i b : zlen b = Z.of_nat k -> bytes_ok b -> BN.fromBuffer b = i mod 256 ^ Z.of_nat k -> b = ser k i.
Proof. intros Hl Hok Hv. destruct (ser_ok k i). apply fromBuffer_same_length; [done..|congruence|]. by rewrite ser_value. Qed.

Lemma index_ser i : 0 <= i < 2 ^ 32 -> integerAsBuffer (num_of_Z i) = ser 4 i.
Proof.
  intros Hi. apply ser_unique; [done|apply integerAsBuffer_ok|]. rewrite integerAsBuffer_value by (unfold safe; lia). done.
Qed.

Lemma depth_ser d : 0 <= d < 2 ^ 32 -> integerAsSingleByteBuffer (num_of_Z d) = ser 1 d.
Proof.
  intros Hd. unfold integerAsSingleByteBuffer. rewrite to_int32_int by (unfold safe; lia). change 255 with (Z.ones 8). rewrite Z.land_ones by lia.
  cbn [ser app]. f_equal. unfold wrap32. rewrite <-Zminus_mod_idemp_r. change (2 ^ 31 mod 2 ^ 8) with 0. rewrite Z.sub_0_r.
  change (2 ^ 32) with (2 ^ 8 * 2 ^ 24). rewrite Z.rem_mul_r, Z.mul_comm, Z_mod_plus_full, Zmod_mod by lia. rewrite <-Zplus_mod_idemp_r. by rewrite Z.add_0_r.
Qed.

Lemma parse_eq b : parse256 b = BN.fromBuffer b.
Proof. unfold parse256. by rewrite value_256, fromBuffer_le_value. Qed.

(** A number that needs 32 bytes is written with all of them, *)
Lemma large_bytes k : 2 ^ 248 <= k < PrivKey.getN -> rev (BN.le_bytes k) = ser 32 k.
Proof.
  intros Hk. assert (PrivKey.getN < 256 ^ 32) as HN by done.
  destruct (hexBytes_shortest k ltac:(lia)) as (b & Hb & Hok & _ & Hv & Hlen). unfold BN.hexBytes in Hb.
  rewrite (proj2 (Z.ltb_ge k 0)) in Hb by lia. injection Hb as ->. specialize (Hlen 32%nat ltac:(lia) ltac:(change (Z.of_nat 32) with 32; lia)).
  pose proof (ScriptNumLemmas.fromBuffer_bound b Hok) as [_ Hbd]. rewrite Hv in Hbd.
  apply ser_unique; [|done|rewrite Hv, Z.mod_small; [done|change (Z.of_nat 32) with 32; lia]].
  destruct (Z.lt_ge_cases (zlen b) 32) as [Hlt|]; [exfalso|lia].
  assert (256 ^ zlen b <= 256 ^ 31) by (apply Z.pow_le_mono_r; lia). change (256 ^ 31) with (2 ^ 248) in *. lia.
Qed.

(** a smaller one with fewer. *)
Lemma small_bytes k : 0 <= k < 2 ^ 248 -> zlen (rev (BN.le_bytes k)) < 32.
Proof.
  intros Hk. destruct (hexBytes_shortest k ltac:(lia)) as (b & Hb & _ & _ & _ & Hlen). unfold BN.hexBytes in Hb.
  rewrite (proj2 (Z.ltb_ge k 0)) in Hb by lia. injection Hb as ->. specialize (Hlen 31%nat ltac:(lia)). change (256 ^ Z.of_nat 31) with (2 ^ 248) in Hlen.
  specialize (Hlen ltac:(lia)). lia.
Qed.

End SerLemmas.

(** ** The code derives what the reference derives *)
Module Bip32Lemmas.
Import Networks Bip32 SerLemmas DeriveLemmas IntegerLemmas BufferUtil PublicKeyLemmas FieldLemmas CacheLemmas HDKeys.
Section WithLaws.
Context `{CryptoLaws} `{CurveLaws} `{DigestsLaws}.

Lemma serP_encodes a : valid a -> encodes a (serP a).
Proof.
  intros Hv. destruct (compress a (valid_finite a Hv)) as (xb & Hx & Hl & Hok & Hc & _). unfold encodes. rewrite Hc. unfold serP. do 2 f_equal.
  destruct (coordinates a (valid_finite a Hv)) as [Hr _]. apply ser_unique; [done|done|]. rewrite Hx, Z.mod_small; [done|exact Hr].
Qed.

(** A key of the tree: its number has a point the code accepts, the other fields have their sizes. *)
Record in_tree (x : xprv) : Prop := {
  in_tree_k : 0 < k x < PrivKey.getN;
  in_tree_valid : valid (k x);
  in_tree_c : zlen (c x) = 32 /\ bytes_ok (c x);
  in_tree_parent : zlen (parent x) = 4 /\ bytes_ok (parent x);
  in_tree_number : 0 <= number x < 2 ^ 32;
}.

Definition buffers_of (n : network) (x : xprv) : buffers :=
  mkBuffers (Bip32.version n) (ser 1 (depth x)) (parent x) (ser 4 (number x)) (c x) (ser 32 (k x)) [].

Lemma serialize_sequence n x : serialize n x = HDPrivateKey.sequence (buffers_of n x).
Proof. done. Qed.

Lemma version_eq n : Bip32.version n = integerAsBuffer (num_of_Z (field Networks.xprivkey n)).
Proof. by destruct n. Qed.

Lemma buffers_sized n x : in_tree x -> sized 32 (buffers_of n x).
Proof.
  intros [? ? ? ? ?]. split; cbn -[ser zlen]; try assumption; try (apply (ser_ok 1) || apply (ser_ok 4) || apply (ser_ok 32)).
  rewrite version_eq. split; [done|apply integerAsBuffer_ok].
Qed.

Lemma buffers_network n x : HDPrivLemmas.net_of (buffers_of n x) = Some n.
Proof.
  unfold HDPrivLemmas.net_of, buffers_of. cbn [HDKeys.version]. rewrite version_eq. destruct (version_roundtrip Networks.xprivkey n) as [Hr Hg]; [by right|]. by rewrite Hr.
Qed.

Lemma order_bound : PrivKey.getN < 256 ^ 32.
Proof. done. Qed.

Lemma key_value x : in_tree x -> BN.fromBuffer (ser 32 (k x)) = k x.
Proof. intros [? _ _ _ _]. rewrite ser_value. apply Z.mod_small. change (Z.of_nat 32) with 32. pose proof order_bound. lia. Qed.

(** The key of the code that stands for a key of the tree *)
Definition key_of_tree (n : network) (x : xprv) : HDPrivateKey.t :=
  HDPrivLemmas.with_keys (buffers_of n x) (Base58Check.checksum (serialize n x))
    (private_key (k x) (Some n), public_key (k x) (Some n), Buf.slice 0 4 (sha256ripemd160 (serP (k x)))).

Lemma tree_keys n x : in_tree x -> HDPrivLemmas.keys_of (buffers_of n x)
  = Ok (private_key (k x) (Some n), public_key (k x) (Some n), Buf.slice 0 4 (sha256ripemd160 (serP (k x)))).
Proof.
  intros Hx. apply (priv_keys_iff _ _ (buffers_sized n x Hx)). cbv zeta. rewrite buffers_network. cbn [key_bytes_ buffers_of]. rewrite (key_value x Hx).
  destruct Hx as [Hk Hv _ _ _]. split; [lia|]. split; [lia|]. split; [done|]. exists (serP (k x)). split; [by apply serP_encodes|done].
Qed.

Lemma keys_of_checksum c b : HDPrivLemmas.keys_of (with_checksum c b) = HDPrivLemmas.keys_of b.
Proof. reflexivity. Qed.

Lemma tree_made n x : in_tree x -> HDPrivLemmas.made (key_of_tree n x).
Proof.
  intros Hx. split; [by apply sized_checksum, buffers_sized|]. split; [apply CheckLemmas.check_length|]. split; [apply CheckLemmas.check_bytes_ok|].
  eexists. split; [|reflexivity]. change (HDPrivateKey._buffers (key_of_tree n x)) with (with_checksum (Base58Check.checksum (serialize n x)) (buffers_of n x)).
  rewrite keys_of_checksum. by apply tree_keys.
Qed.

(** Its text is the text of the reference, and gives it. *)
Lemma tree_text n x : HDPrivateKey.xprivkey (key_of_tree n x) = text n x.
Proof. done. Qed.

Lemma tree_from_text random n x : in_tree x -> HDPrivateKey.new random (HDPrivateKey.DText (text n x)) = Ok (key_of_tree n x).
Proof. intros Hx. rewrite <-tree_text. by apply HDPrivLemmas.text_gives; [apply tree_made|]. Qed.

Lemma tree_facts n x : in_tree x -> priv_facts (key_of_tree n x) (k x) (Some n) (serP (k x)).
Proof.
  intros Hx. pose proof (key_value x Hx) as Hv. pose proof (buffers_network n x) as Hn. destruct Hx as [Hk Hval _ _ _].
  split; cbn [key_of_tree HDPrivLemmas.with_keys HDPrivateKey.privateKey HDPrivateKey.publicKey HDPrivateKey.fingerPrint HDPrivateKey.hd_network HDPrivateKey.depth HDPrivateKey._buffers fst snd with_checksum key_bytes_ depth_byte HDKeys.version]; try assumption; try reflexivity.
  by apply serP_encodes.
Qed.

(** The public key of a key of the tree *)
Lemma serP_ok a : zlen (serP a) = 33 /\ bytes_ok (serP a).
Proof. unfold serP. split; [rewrite zlen_cons, (proj1 (ser_ok 32 _)); done|constructor; [by destruct (Z.odd _)|apply ser_ok]]. Qed.

Lemma tree_public n x : in_tree x -> exists q, HDPublicKey.buildFromPrivate (key_of_tree n x) = Ok q
  /\ q = HDPubLemmas.with_keys (public_buffers n (key_of_tree n x) (serP (k x))) (public_key (k x) (Some n), Buf.slice 0 4 (sha256ripemd160 (serP (k x))))
  /\ HDPubLemmas.made q /\ HDPubLemmas.public_version q.
Proof.
  intros Hx. pose proof (in_tree_valid x Hx) as Hv. destruct (serP_ok (k x)) as [Hl Hok]. set (b := public_buffers n (key_of_tree n x) (serP (k x))).
  assert (sized 33 b) as Hb by (apply public_sized; [apply (tree_made n x Hx)|assumption|assumption]).
  eexists. split; [apply (buildFromPrivate_iff _ (k x) n (serP (k x))); [apply (tree_made n x Hx)|by apply tree_facts|split; [exact Hv|reflexivity]]|].
  split; [reflexivity|]. split; [|destruct n; split; vm_compute; discriminate].
  split; [by apply sized_checksum|]. eexists. split; [|reflexivity].
  apply (pub_keys_iff b (k x) n); [by apply serP_encodes|exact Hv|destruct n; by vm_compute|reflexivity].
Qed.

(** *** One step *)
Lemma index_cases i : 0 <= i < 2 ^ 32 ->
  num_ge (num_of_Z i) Hardened = hardened i /\ num_lt (num_of_Z i) MaxIndex = true /\ num_ge (num_of_Z i) (num_of_Z 0) = true /\ num_lt (num_of_Z i) Hardened = negb (hardened i).
Proof.
  intros Hi. unfold num_ge, Hardened, hardened. change MaxIndex with (num_of_Z (2 ^ 32)). rewrite !num_le_safe, !num_lt_safe by (unfold safe; lia).
  split; [done|]. split; [lia|]. split; [lia|]. destruct (Z.ltb_spec i 0x80000000), (Z.leb_spec (2 ^ 31) i); lia || done.
Qed.

Lemma step_number p i : 0 <= i < 2 ^ 32 -> Uncached.step (HPriv p) (num_of_Z i) Undefined = Uncached.child_private p (num_of_Z i) (hardened i).
Proof.
  intros Hi. destruct (index_cases i Hi) as (H1' & H2' & H3' & H4'). cbn [Uncached.step]. unfold HDPrivateKey.isValidPath_number. cbn [is_true]. rewrite andb_false_r. cbv zeta.
  rewrite H2', H3', H1'. cbn [andb guard_or mbind result_bind]. rewrite H4'. by destruct (hardened i).
Qed.

Lemma ckd_in_tree x i x' : 0 <= i < 2 ^ 32 -> CKDshort x i = Some x' -> valid (k x') -> in_tree x'.
Proof.
  intros Hi. unfold CKDshort. set (I := HMAC_SHA512 _ _). destruct (Z.eqb_spec ((parse256 (firstn 32 I) + k x) mod order) 0) as [|Hne]; [done|].
  intros [= <-] Hv. cbn [k c parent number] in *. assert (zlen I = 64) as Hl by apply sha512_length. assert (bytes_ok I) as Hok by apply sha512_ok.
  split; cbn [k c parent number]; [|done| | |done].
  - pose proof (Z.mod_pos_bound (parse256 (firstn 32 I) + k x) order ltac:(done)). change PrivKey.getN with order. lia.
  - rewrite <-(zdrop_drop 32). split; [rewrite zlen_zdrop; lia|]. rewrite zdrop_drop. by apply Forall_drop.
  - rewrite <-(ztake_take 4). split; [rewrite zlen_ztake, hash160_length; lia|]. rewrite ztake_take. apply Forall_take, hash160_ok.
Qed.

(** BIP32 and the code agree at a key that needs all its bytes. *)
Lemma ckd_short x i x' : in_tree x -> (hardened i = true -> 2 ^ 248 <= k x) -> CKDpriv x i = Some x' -> CKDshort x i = Some x'.
Proof.
  intros Hx Hbig. unfold CKDpriv, CKDshort.
  assert ((if hardened i then [0] ++ rev (BN.le_bytes (k x)) ++ ser 4 i else serP (k x) ++ ser 4 i)
    = if hardened i then [0] ++ ser 32 (k x) ++ ser 4 i else serP (k x) ++ ser 4 i) as ->.
  { destruct (hardened i); [|done]. by rewrite large_bytes by (destruct Hx as [[? ?] _ _ _ _]; split; [by apply Hbig|done]). }
  cbv zeta. by destruct (order <=? _).
Qed.

(** The fields of the child are the ones the code fills in. *)
Lemma child_fields n x i I : 0 <= i < 2 ^ 32 ->
  buffers_of n (mkXprv (child_number (k x) I) (skipn 32 I) (depth x + 1) (firstn 4 (sha256ripemd160 (serP (k x)))) i)
  = child_buffers Networks.xprivkey n (HDPrivateKey.depth (key_of_tree n x)) (HDPrivateKey.fingerPrint (key_of_tree n x)) (num_of_Z i) (zdrop 32 I) (ser 32 (child_number (k x) I)).
Proof.
  intros Hi. unfold buffers_of, child_buffers. cbn [k c parent number depth]. rewrite version_eq, (index_ser i Hi), zdrop_drop. f_equal.
  - change (HDPrivateKey.depth (key_of_tree n x)) with (depth x mod 256). rewrite depth_ser by (pose proof (Z.mod_pos_bound (depth x) 256); lia).
    cbn [ser app]. f_equal. by rewrite Zplus_mod_idemp_l.
  - change (HDPrivateKey.fingerPrint (key_of_tree n x)) with (Buf.slice 0 4 (sha256ripemd160 (serP (k x)))).
    rewrite slice_take, ztake_take by (rewrite ?hash160_length; lia). done.
Qed.

(** One step of the code, exactly *)
Lemma child_short n x i d : in_tree x -> 0 <= i < 2 ^ 32 ->
  HDPrivateKey.child (key_of_tree n x) (num_of_Z i) (hardened i) = Ok d <-> exists x', CKDshort x i = Some x' /\ valid (k x') /\ d = key_of_tree n x'.
Proof.
  intros Hx Hi. rewrite (child_iff (key_of_tree n x) (k x) n (serP (k x))) by (by apply sized_checksum, buffers_sized || by apply tree_facts).
  cbv zeta. change (chainCode (HDPrivateKey._buffers (key_of_tree n x))) with (c x). unfold CKDshort.
  assert (hashed (k x) (serP (k x)) (num_of_Z i) (hardened i) = if hardened i then [0] ++ rev (BN.le_bytes (k x)) ++ ser 4 i else serP (k x) ++ ser 4 i) as ->.
  { unfold hashed. rewrite index_ser by done. destruct (hardened i); [|done]. by rewrite <-(assoc_L (++)). }
  change hmac512 with HMAC_SHA512. set (I := HMAC_SHA512 _ _).
  assert ((parse256 (firstn 32 I) + k x) mod order = child_number (k x) I) as -> by (unfold child_number; by rewrite parse_eq, ztake_take).
  pose proof (child_fields n x i I Hi) as Eb. unfold private_of. clearbody I. set (k' := child_number (k x) I) in *.
  assert (0 <= k' < 256 ^ 32) as Hr. { pose proof (Z.mod_pos_bound (BN.fromBuffer (ztake 32 I) + k x) PrivKey.getN ltac:(done)). pose proof order_bound. unfold k', child_number. lia. }
  destruct (toBuffer_size 32 k' ltac:(lia) Hr) as (kb & Ekb & Lkb & Vkb & Okb). change (Z.of_nat 32) with 32 in *.
  assert (kb = ser 32 k') as -> by (apply ser_unique; [done|done|]; rewrite Vkb, Z.mod_small by exact Hr; done).
  split.
  - intros (kb & Ekb' & _ & _ & _ & Hne & Hv & enc & He & ->). assert (kb = ser 32 k') as -> by congruence.
    rewrite (proj2 (Z.eqb_neq _ _) Hne). eexists. split; [reflexivity|]. split; [exact Hv|]. cbn [k].
    pose proof (serP_encodes k' Hv) as He'. assert (enc = serP k') as -> by (unfold encodes in *; congruence). by rewrite <-Eb.
  - destruct (Z.eqb_spec k' 0) as [|Hne]; [by intros (? & ? & _)|]. intros (x' & [= <-] & Hv & ->). cbn [k] in *.
    exists (ser 32 k'). split; [exact Ekb|]. split; [exact Lkb|]. split; [exact Okb|]. split; [exact Vkb|].
    split; [exact Hne|]. split; [exact Hv|]. exists (serP k'). split; [by apply serP_encodes|]. by rewrite <-Eb.
Qed.

Lemma step_short n x i d : in_tree x -> 0 <= i < 2 ^ 32 ->
  Uncached.step (HPriv (key_of_tree n x)) (num_of_Z i) Undefined = Ok d <-> exists x', CKDshort x i = Some x' /\ valid (k x') /\ d = HPriv (key_of_tree n x').
Proof.
  intros Hx Hi. rewrite step_number by done. unfold Uncached.child_private. pose proof (child_short n x i) as Hc.
  destruct (HDPrivateKey.child (key_of_tree n x) (num_of_Z i) (hardened i)) as [p|e]; cbn [mbind result_bind].
  - destruct (proj1 (Hc p Hx Hi) eq_refl) as (x' & Ex & Hv & ->). split; [intros [= <-]; by exists x'|]. intros (x2 & Ex2 & _ & ->). congruence.
  - split; [done|]. intros (x' & Ex & Hv & _). by pose proof (proj2 (Hc (key_of_tree n x') Hx Hi) (ex_intro _ x' (conj Ex (conj Hv eq_refl)))).
Qed.

End WithLaws.
End Bip32Lemmas.

(** ** Paths as text *)
Module PathLemmas.
Import Bip32 HDKeys Bip32Lemmas.

Definition no_slash (s : string) : Prop := Forall (fun c => c <> "/"%char) (list_ascii_of_string s).

Lemma split_text s path : no_slash s -> Forall (fun i => no_slash (step_text i)) path -> split (s ++ path_text path) = s :: map step_text path.
Proof.
  intros Hs Hpath. revert s Hs. induction Hpath as [|i path Hi _ IH]; intros s Hs; cbn [path_text map].
  - induction s as [|c s IHs]; [done|]. change ((String c s ++ "")%string) with (String c (s ++ "")). cbn [split].
    apply Forall_cons in Hs as [Hc Hs]. rewrite bool_decide_false by done. by rewrite IHs.
  - induction s as [|c s IHs].
    + change (("" ++ "/" ++ step_text i ++ path_text path)%string) with (String "/" (step_text i ++ path_text path)). cbn [split]. rewrite bool_decide_true by done. by rewrite IH.
    + apply Forall_cons in Hs as [Hc Hs]. change ((String c s ++ "/" ++ step_text i ++ path_text path)%string) with (String c (s ++ "/" ++ step_text i ++ path_text path)).
      cbn [split]. rewrite bool_decide_false by done. by rewrite IHs.
Qed.

Lemma step_no_slash i : 0 <= i < 2 ^ 32 -> no_slash (step_text i).
Proof.
  intros Hi. assert (forall z, 0 <= z -> no_slash (decimal z)) as Hd.
  { intros z Hz. eapply Forall_impl; [by apply decimal_chars|]. by intros c [d Hc] ->. }
  unfold step_text, hardened. destruct (Z.leb_spec (2 ^ 31) i); [|apply Hd; lia].
  unfold no_slash. rewrite chars_app. apply Forall_app. split; [apply Hd; lia|]. by repeat constructor.
Qed.

Lemma strip_quote_quote s : strip_quote (s ++ "'") = Some s.
Proof.
  induction s as [|c s IH]; [done|]. change ((String c s ++ "'")%string) with (String c (s ++ "'")). cbn [strip_quote]. rewrite IH.
  by destruct (s ++ "'")%string eqn:E; [destruct s|].
Qed.

Lemma strip_quote_none s : Forall (fun c => c <> "'"%char) (list_ascii_of_string s) -> strip_quote s = None.
Proof.
  induction s as [|c s IH]; [done|]. intros [Hc Hs]%Forall_cons. cbn [strip_quote]. rewrite IH by done. destruct s; [by rewrite bool_decide_false|done].
Qed.

(** The text of a step gives its number. *)
Lemma step_index_text i : 0 <= i < 2 ^ 32 -> step_index (step_text i) = num_of_Z i.
Proof.
  intros Hi.
  assert (forall z, 0 <= z -> exists c s, decimal z = String c s /\ c <> "-"%char) as Hfirst.
  { intros z Hz. pose proof (decimal_chars z Hz) as Hall. pose proof (decimal_nonempty z Hz) as Hne. destruct (decimal z) as [|c s]; [done|].
    exists c, s. split; [done|]. apply Forall_cons in Hall as [[d Hd] _]. by intros ->. }
  assert (forall z, 0 <= z -> Number (decimal z) = num_of_Z z) as Hnum.
  { intros z Hz. apply Number_digits; [by apply decimal_nonempty|]. rewrite read_decimal by done. f_equal. lia. }
  unfold step_text, step_index, hardened. destruct (Z.leb_spec (2 ^ 31) i).
  - rewrite strip_quote_quote. cbn [default from_option]. unfold id. rewrite bool_decide_true by eauto.
    destruct (Hfirst (i - 2 ^ 31) ltac:(lia)) as (c & s & E & Hc). pose proof (Hnum (i - 2 ^ 31) ltac:(lia)) as Hn. rewrite E in *.
    rewrite bool_decide_false by done. rewrite Hn. unfold Hardened. rewrite num_add_safe by (unfold safe; lia). f_equal. lia.
  - rewrite strip_quote_none.
    2:{ eapply Forall_impl; [apply decimal_chars; lia|]. by intros c [d Hd] ->. }
    cbn [default from_option]. rewrite bool_decide_false by (by intros [? ?]). destruct (Hfirst i ltac:(lia)) as (c & s & E & Hc).
    pose proof (Hnum i ltac:(lia)) as Hn. rewrite E in *. by rewrite bool_decide_false by done.
Qed.

Lemma path_indexes path : Forall (fun i => 0 <= i < 2 ^ 32) path -> getDerivationIndexes (path_from_m path) = Some (map num_of_Z path).
Proof.
  intros Hpath. unfold getDerivationIndexes, path_from_m. destruct path as [|i path]; [by vm_compute|]. rewrite bool_decide_false.
  2:{ change (("m" ++ path_text (i :: path))%string) with (String "m" (String "/" (step_text i ++ path_text path))). unfold RootElementAlias.
      intros Hin. repeat (apply elem_of_cons in Hin as [Hin|Hin]; [discriminate|]). by apply elem_of_nil in Hin. }
  rewrite split_text; [|by repeat constructor|by eapply Forall_impl; [exact Hpath|apply step_no_slash]].
  cbn [head tail default from_option]. unfold id. rewrite bool_decide_true by (unfold RootElementAlias; left). cbn [negb].
  assert (map step_index (map step_text (i :: path)) = map num_of_Z (i :: path)) as ->.
  { rewrite map_map. apply map_ext_in. intros j Hj%list_elem_of_In. rewrite Forall_forall in Hpath. by apply step_index_text, Hpath. }
  replace (existsb isNaN _) with false; [done|]. symmetry. apply not_true_iff_false. intros (x & Hx & Hn)%existsb_exists.
  apply in_map_iff in Hx as (j & <- & Hj%list_elem_of_In). rewrite Forall_forall in Hpath. specialize (Hpath j Hj).
  destruct (Z.eq_dec j 0) as [->|]; [done|]. by rewrite num_of_Z_finite in Hn by (unfold safe; lia).
Qed.

Lemma path_valid path : Forall (fun i => 0 <= i < 2 ^ 32) path -> HDPrivateKey.isValidPath (path_from_m path) = true.
Proof.
  intros Hpath. unfold HDPrivateKey.isValidPath. rewrite path_indexes by done. apply forallb_forall. intros x (i & <- & Hi%list_elem_of_In)%in_map_iff.
  rewrite Forall_forall in Hpath. destruct (index_cases i (Hpath i Hi)) as (_ & H2 & H3 & _). unfold HDPrivateKey.isValidPath_number. cbn [is_true].
  by rewrite andb_false_r, H2, H3.
Qed.

End PathLemmas.

(** ** Theorems *)
Section Bip32Theorems.
Import Networks Bip32 SerLemmas Bip32Lemmas PathLemmas DeriveLemmas PublicKeyLemmas HDKeys CacheLemmas FieldLemmas IntegerLemmas.
Context `{CryptoLaws} `{CurveLaws} `{DigestsLaws}.

(** The keys along a path; the code must accept the point of each. *)
Inductive descends (ckd : xprv -> Z -> option xprv) : xprv -> list Z -> xprv -> Prop :=
  | descends_here x : descends ckd x [] x
  | descends_child x i x' path y : ckd x i = Some x' -> valid (k x') -> descends ckd x' path y -> descends ckd x (i :: path) y.

Lemma steps_short n x path d : in_tree x -> Forall (fun i => 0 <= i < 2 ^ 32) path ->
  Uncached.steps (HPriv (key_of_tree n x)) (map num_of_Z path) = Ok d <-> exists y, descends CKDshort x path y /\ d = HPriv (key_of_tree n y).
Proof.
  intros Hx Hpath. revert x Hx. induction Hpath as [|i path Hi _ IH]; intros x Hx; cbn [map Uncached.steps].
  - split; [intros [= <-]; exists x; by split; [constructor|]|]. intros (y & Hd & ->). by inversion Hd.
  - pose proof (step_short n x i) as Hs. destruct (Uncached.step _ _ _) as [d'|e]; cbn [mbind result_bind].
    + destruct (proj1 (Hs d' Hx Hi) eq_refl) as (x' & Ex & Hv & ->). rewrite IH by (by apply (ckd_in_tree x i)). split.
      * intros (y & Hd & ->). exists y. split; [by eapply descends_child|done].
      * intros (y & Hd & ->). inversion Hd; subst. simplify_eq. by exists y.
    + split; [done|]. intros (y & Hd & ->). inversion Hd as [|? ? x' ? ? Ex Hv]; subst.
      by pose proof (proj2 (Hs (HPriv (key_of_tree n x')) Hx Hi) (ex_intro _ x' (conj Ex (conj Hv eq_refl)))).
Qed.

Lemma descends_wide x path y : in_tree x -> Forall (fun i => 0 <= i < 2 ^ 32) path -> wide x path -> descends CKDpriv x path y -> descends CKDshort x path y.
Proof.
  intros Hx Hpath Hw Hd. induction Hd as [x|x i x' path y Ex Hv _ IH]; [constructor|]. apply Forall_cons in Hpath as [Hi Hpath].
  destruct Hw as [Hbig Hw]. rewrite Ex in Hw. pose proof (ckd_short x i x' Hx Hbig Ex) as Es. eapply descends_child; [exact Es|done|].
  apply IH; [by apply (ckd_in_tree x i)|done|done].
Qed.

(** C16: the text of an extended private key of the tree is accepted and given back, and deriving along
    any path written as text ("m/44'/0/7"), whatever the cache holds, gives the key at the end of the path
    of [CKDshort], down to its text (number, chain code, depth, fingerprint and child number, in base58
    with a checksum), or throws where there is none.  This is the key BIP32 defines when every key on the
    path with a hardened child is at least 2^248; a smaller one is hashed with fewer than its 32 bytes,
    and the child is another key (see [hardened_child_of_small_key]). *)
Theorem path_derivation random n x path cached : in_tree x -> Forall (fun i => 0 <= i < 2 ^ 32) path -> reachable cached ->
  exists p, HDPrivateKey.new random (HDPrivateKey.DText (text n x)) = Ok p /\ HDPrivateKey.toString p = text n x
  /\ let derived := fst (derive (HPriv p) (ByPath (path_from_m path)) Undefined cached) in
     let gives y := exists d, derived = Ok (HPriv d) /\ HDPrivateKey.toString d = text n y /\ PrivKey.bn (HDPrivateKey.privateKey d) = k y in
     (forall y, descends CKDshort x path y -> gives y)
     /\ ((forall y, ~ descends CKDshort x path y) -> exists e, derived = Throw e)
     /\ (forall y, descends CKDpriv x path y -> wide x path -> gives y).
Proof.
  intros Hx Hpath Hc. exists (key_of_tree n x). split; [by apply tree_from_text|]. split; [done|]. cbv zeta.
  destruct (derive_ok (HPriv (key_of_tree n x)) (ByPath (path_from_m path)) Undefined cached (tree_made n x Hx) (reachable_entries cached Hc)) as [-> _].
  cbn [Uncached.derive Uncached.path_guard]. rewrite path_valid, path_indexes by done. cbn [guard_or mbind result_bind default from_option id].
  pose proof (fun d => steps_short n x path d Hx Hpath) as Hs.
  assert (forall y, descends CKDshort x path y -> exists d, Uncached.steps (HPriv (key_of_tree n x)) (map num_of_Z path) = Ok (HPriv d)
    /\ HDPrivateKey.toString d = text n y /\ PrivKey.bn (HDPrivateKey.privateKey d) = k y) as Hgives.
  { intros y Hy. exists (key_of_tree n y). split; [apply Hs; by exists y|done]. }
  split; [exact Hgives|]. split; [|intros y Hy Hw; apply Hgives; by apply descends_wide].
  intros Hno. destruct (Uncached.steps _ _) as [d|e]; [|by exists e]. destruct (proj1 (Hs d) eq_refl) as (y & Hy & _). by destruct (Hno y).
Qed.

(** for a hardened child of a key below 2^248 the code hashes fewer bytes than BIP32 says: the leading
    zeros of the number are missing, so the child is not the one other wallets derive. *)
Theorem hardened_child_of_small_key n x i : in_tree x -> k x < 2 ^ 248 -> 0 <= i < 2 ^ 32 ->
  exists data, HDPrivateKey.child_data (key_of_tree n x) (num_of_Z i) true = Ok data
  /\ zlen data < zlen ([0] ++ ser 32 (k x) ++ ser 4 i)
  /\ data = [0] ++ rev (BN.le_bytes (k x)) ++ ser 4 i.
Proof.
  intros Hx Hk Hi. exists (hashed (k x) (serP (k x)) (num_of_Z i) true). split; [by apply (child_data_eq _ _ (Some n)), tree_facts|].
  unfold hashed. rewrite index_ser, <-(assoc_L (++)) by done. split; [|done]. pose proof (in_tree_k x Hx). pose proof (small_bytes (k x) ltac:(lia)).
  rewrite !zlen_app, (proj1 (ser_ok 32 _)). lia.
Qed.

(** The checksum as [toObject] gives it and the constructor takes it *)
Lemma checksum_argument cs : zlen cs = 4 -> bytes_ok cs ->
  exists s, HDPrivateKey.checksum_field (FNumber (num_of_Z (BufferUtil.integerFromBuffer cs))) = Ok s /\ (s = FUndefined \/ s = FBuffer cs).
Proof.
  intros Hl Hok. unfold HDPrivateKey.checksum_field. eexists. split; [reflexivity|]. destruct (_ || _); [by left|right]. by rewrite integer_roundtrip.
Qed.

Lemma version_named n o : o_network o = Some (Name (name n)) -> version_field Networks.xprivkey o = Ok (FBuffer (Bip32.version n)).
Proof. unfold version_field. intros ->. destruct n; by vm_compute. Qed.

(** The object of a key of the tree *)
Definition object_of (n : network) (x : xprv) : plain_object :=
  mkPlain (name n) (depth x mod 256) (BufferUtil.integerFromBuffer (Buf.slice 0 4 (sha256ripemd160 (serP (k x))))) (BufferUtil.integerFromBuffer (parent x))
    (BufferUtil.integerFromBuffer (ser 4 (number x))) (Hex.hexSlice (c x)) (Hex.hexSlice (rev (BN.le_bytes (k x))))
    (BufferUtil.integerFromBuffer (Base58Check.checksum (serialize n x))) (text n x).

Lemma toObject_eq n x : in_tree x -> HDPrivateKey.toObject (key_of_tree n x) = Ok (object_of n x).
Proof.
  intros Hx. pose proof (in_tree_k x Hx) as Hk. unfold HDPrivateKey.toObject. cbn [HDPrivateKey._buffers key_of_tree HDPrivLemmas.with_keys HDKeys.version with_checksum buffers_of].
  assert (as_network (getNetwork (Num (BufferUtil.integerFromBuffer (Bip32.version n))) (Some Networks.xprivkey)) = Some n) as -> by (destruct n; by vm_compute).
  assert (PrivKey.toBuffer (private_key (k x) (Some n)) = Ok (rev (BN.le_bytes (k x)))) as Hb.
  { unfold PrivKey.toBuffer, BN.hexBytes. cbn [private_key PrivKey.bn]. by rewrite (proj2 (Z.ltb_ge (k x) 0)) by lia. }
  change (HDPrivateKey.privateKey (key_of_tree n x)) with (private_key (k x) (Some n)). rewrite Hb. cbn [mbind result_bind]. reflexivity.
Qed.

(** The fields the constructor makes of it *)
Lemma object_arguments n x : in_tree x -> exists s, (s = FUndefined \/ s = FBuffer (Base58Check.checksum (serialize n x))) /\
  HDPrivateKey.buildFromObject (as_argument (object_of n x)) = HDPrivateKey.buildFromBuffers
    (fields_of (mkBuffers (Bip32.version n) (ser 1 (depth x)) (parent x) (ser 4 (number x)) (c x) (rev (BN.le_bytes (k x))) []) s).
Proof.
  intros Hx. pose proof (in_tree_k x Hx) as Hk. destruct (in_tree_c x Hx) as [Lc Oc], (in_tree_parent x Hx) as [Lp Op].
  destruct (hexBytes_shortest (k x) ltac:(lia)) as (kb & Hkb & Okb & Nkb & _). unfold BN.hexBytes in Hkb. rewrite (proj2 (Z.ltb_ge (k x) 0)) in Hkb by lia. injection Hkb as <-.
  destruct (checksum_argument (Base58Check.checksum (serialize n x)) (CheckLemmas.check_length _) (CheckLemmas.check_bytes_ok _)) as (s & Hs & Hcase).
  exists s. split; [exact Hcase|]. unfold HDPrivateKey.buildFromObject. rewrite (version_named n) by done. unfold as_argument, object_of.
  cbn [o_depth o_parentFingerPrint o_childIndex o_chainCode o_key o_checksum p_depth p_parentFingerPrint p_childIndex p_chainCode p_key p_checksum].
  cbn [mbind result_bind hex_field number_field]. unfold BufferUtil.hexToBuffer.
  assert (c x <> []) as Nc by (intros E; by rewrite E in Lc).
  rewrite !Hex.isHexa_hexSlice, !Hex.hex_roundtrip by assumption. cbn [guard_or mbind result_bind]. rewrite Hs. cbn [mbind result_bind].
  rewrite !integer_roundtrip by (assumption || apply (ser_ok 4)). rewrite depth_ser by (pose proof (Z.mod_pos_bound (depth x) 256); lia).
  assert (ser 1 (depth x mod 256) = ser 1 (depth x)) as -> by (cbn [ser app]; by rewrite Zmod_mod). reflexivity.
Qed.

(** the object a private extended key is written as makes the key again exactly when its number needs
    all 32 bytes; the object of a smaller key is refused, because its leading zeros are missing. *)
Theorem object_roundtrip random n x : in_tree x -> exists o, HDPrivateKey.toObject (key_of_tree n x) = Ok o /\
  HDPrivateKey.fromObject random (as_argument o) = if 2 ^ 248 <=? k x then Ok (key_of_tree n x) else Throw BufferUtil.AssertionError.
Proof.
  intros Hx. exists (object_of n x). split; [by apply toObject_eq|]. destruct (object_arguments n x Hx) as (s & Hs & Ho).
  change (HDPrivateKey.fromObject random (as_argument (object_of n x))) with (HDPrivateKey.buildFromObject (as_argument (object_of n x))). rewrite Ho.
  pose proof (in_tree_k x Hx) as Hk. pose proof (buffers_sized n x Hx) as Hb. destruct (Z.leb_spec (2 ^ 248) (k x)) as [Hl|Hl].
  - rewrite large_bytes by lia. change (mkBuffers _ _ _ _ _ _ _) with (buffers_of n x). apply HDPrivLemmas.build_iff.
    assert (exists g, validateBufferArguments 32 (fields_of (buffers_of n x) s) = Ok (with_checksum [] (buffers_of n x), g)
      /\ HDPrivLemmas.checksum_of (buffers_of n x) g = Ok (Base58Check.checksum (serialize n x))) as (g & Hv & Hc).
    { destruct Hs as [->| ->].
      - exists None. split; [by apply (validate_fields 32 _ FUndefined Hb)|done].
      - eexists. split; [apply (validate_given 32 _ _ Hb), CheckLemmas.check_length|]. unfold HDPrivLemmas.checksum_of. by rewrite bool_decide_true. }
    exists (with_checksum [] (buffers_of n x)), g, (Base58Check.checksum (serialize n x)). eexists. split; [exact Hv|]. split; [exact Hc|].
    split; [rewrite keys_of_checksum; exact (tree_keys n x Hx)|done].
  - pose proof (small_bytes (k x) ltac:(lia)) as Hsmall. unfold HDPrivateKey.buildFromBuffers.
    pose proof (validate_key 32 (buffers_of n x) (rev (BN.le_bytes (k x))) s Hb ltac:(lia)) as Hval.
    cbn [HDKeys.version depth_byte parentFingerPrint childIndex chainCode buffers_of] in Hval. by rewrite Hval.
Qed.

(** the text of a public extended key is accepted where a private one is expected: the first coordinate
    of its point becomes the private key.  The test of the text looks at neither the version nor the byte
    before the key. *)
Theorem public_text_accepted random n x q : in_tree x -> HDPublicKey.buildFromPrivate (key_of_tree n x) = Ok q ->
  let a := x_of (mul curve_g (k x)) in 0 < a < order -> valid a ->
  exists p, HDPrivateKey.fromString random (HDPublicKey.toString q) = Ok p /\ PrivKey.bn (HDPrivateKey.privateKey p) = a
  /\ HDPrivateKey.toString p <> HDPublicKey.toString q.
Proof.
  intros Hx Hq a Ha Hv. destruct (tree_public n x Hx) as (q' & Hq' & Eq & Hqm & _). assert (q' = q) as -> by congruence. clear Hq'.
  set (b := public_buffers n (key_of_tree n x) (serP (k x))) in *.
  assert (sized 33 b) as Hb by (apply public_sized; [apply (tree_made n x Hx)|apply serP_ok|apply serP_ok]).
  destruct (HDPubLemmas.pub_sequence_ok b Hb) as [Hl Hok].
  set (bp := mkBuffers (HDKeys.version b) (depth_byte b) (parentFingerPrint b) (childIndex b) (chainCode b) (ser 32 a) []).
  assert (sized 32 bp) as Hbp. { destruct Hb as [? ? ? ? ? _]. split; try assumption. apply (ser_ok 32). }
  assert (HDPrivLemmas.net_of bp = Some n) as Hn by (destruct n; by vm_compute).
  assert (BN.fromBuffer (key_bytes_ bp) = a) as Hkey. { unfold bp. cbn [key_bytes_]. rewrite ser_value, Z.mod_small; [done|]. pose proof order_bound. change PrivKey.getN with order in *. change (Z.of_nat 32) with 32. lia. }
  assert (HDPrivateKey.fromString random (HDPublicKey.toString q) = HDPrivateKey.buildFromBuffers (fields_of bp (FBuffer []))) as Hnew.
  { rewrite Eq. change (HDPublicKey.toString (HDPubLemmas.with_keys b (public_key (k x) (Some n), Buf.slice 0 4 (sha256ripemd160 (serP (k x)))))) with (Base58Check.encode (HDPublicKey.sequence b)).
    unfold HDPrivateKey.fromString. rewrite HDPrivLemmas.priv_new_text by assumption. f_equal.
    destruct Hb as [[? _] [? _] [? _] [? _] [? _] _]. unfold HDPublicKey.sequence. change (key_bytes_ b) with ([if Z.odd (y_of (mul curve_g (k x))) then 3 else 2] ++ ser 32 a).
    apply serialized_private; try assumption; try reflexivity; apply (ser_ok 32). }
  pose proof (serP_encodes a Hv) as Henc.
  assert (HDPrivLemmas.keys_of bp = Ok (private_key a (Some n), public_key a (Some n), Buf.slice 0 4 (sha256ripemd160 (serP a)))) as Hkeys.
  { apply (priv_keys_iff _ _ Hbp). cbv zeta. rewrite Hkey, Hn. change PrivKey.getN with order. split; [lia|]. split; [lia|]. split; [exact Hv|]. by exists (serP a). }
  pose proof (proj2 (build_priv bp _ (FBuffer []) Hbp (or_intror eq_refl)) (ex_intro _ _ (conj Hkeys eq_refl))) as Hbuild.
  eexists. rewrite Hnew. split; [exact Hbuild|]. split; [done|]. apply texts_differ; [|exact Hqm].
  eapply HDPrivLemmas.build_made; [|exact Hbuild]. destruct Hbp as [[_ ?] [_ ?] [_ ?] [_ ?] [_ ?] [_ ?]]. split_and!; try assumption. by apply Forall_nil.
Qed.

(** What a network is looked up as *)
Lemma get_cases net : get net = None \/ (exists n, get net = Some (Obj n)) \/ exists s, get net = Some (Inherited s).
Proof.
  assert (forall s, property s = None \/ (exists n, property s = Some (Obj n)) \/ exists s', property s = Some (Inherited s')) as Hp.
  { intros s. unfold property. destruct (networkMaps loaded !! s) as [n|]; [right; left; by eexists|]. case_bool_decide; [right; right; by eexists|by left]. }
  destruct net as [[n|s|z|s]|]; [right; left; by exists n|apply Hp|apply Hp|by left|by left].
Qed.

(** C20: the seed of a tree, as bytes or as their hexadecimal text, must have 16 to 64 bytes; the key made
    from it is the master key of BIP32 on the network asked for; where BIP32 has none, or an inherited property has
    the name asked for, the code throws. *)
Theorem master_key S net : bytes_ok S -> S <> [] ->
  let n := default livenet (as_network (get net)) in
  let I := HMAC_SHA512 (Utf8.bytes_of_text "Bitcoin seed") S in
  let x := mkXprv (parse256 (firstn 32 I)) (skipn 32 I) 0 [0; 0; 0; 0] 0 in
  HDPrivateKey.fromSeed (HDPrivateKey.SText (Hex.hexSlice S)) net = HDPrivateKey.fromSeed (HDPrivateKey.SBuffer S) net
  /\ (zlen S < 16 -> HDPrivateKey.fromSeed (HDPrivateKey.SBuffer S) net = Throw (BitcoreError "HDPrivateKey.InvalidEntropyArgument.NotEnoughEntropy"))
  /\ (64 < zlen S -> HDPrivateKey.fromSeed (HDPrivateKey.SBuffer S) net = Throw (BitcoreError "HDPrivateKey.InvalidEntropyArgument.TooMuchEntropy"))
  /\ (16 <= zlen S <= 64 -> valid (k x) -> k x < order -> (forall s, get net <> Some (Inherited s)) ->
        exists p, HDPrivateKey.fromSeed (HDPrivateKey.SBuffer S) net = Ok p /\ HDPrivateKey.toString p = text n x)
  /\ (16 <= zlen S <= 64 -> k x = 0 \/ order <= k x \/ (exists s, get net = Some (Inherited s)) ->
        HDPrivateKey.fromSeed (HDPrivateKey.SBuffer S) net = Throw TypeError).
Proof.
  intros Hok Hne n I x. split.
  { unfold HDPrivateKey.fromSeed, BufferUtil.hexToBuffer. rewrite Hex.isHexa_hexSlice, Hex.hex_roundtrip by done. done. }
  split; [intros Hl; unfold HDPrivateKey.fromSeed; cbn [mbind result_bind]; by rewrite (proj2 (Z.ltb_lt _ 16)) by lia|].
  split; [intros Hl; unfold HDPrivateKey.fromSeed; cbn [mbind result_bind]; rewrite (proj2 (Z.ltb_ge _ 16)), Z.gtb_ltb, (proj2 (Z.ltb_lt 64 _)) by lia; done|].
  assert (16 <= zlen S <= 64 -> (exists s, get net = Some (Inherited s)) -> HDPrivateKey.fromSeed (HDPrivateKey.SBuffer S) net = Throw TypeError) as Hodd.
  { intros Hl [s Hs]. unfold HDPrivateKey.fromSeed. cbn [mbind result_bind]. rewrite (proj2 (Z.ltb_ge _ 16)), Z.gtb_ltb, (proj2 (Z.ltb_ge 64 _)) by lia.
    cbn [negb guard_or mbind result_bind]. rewrite hmac_eq, Hs. reflexivity. }
  assert (16 <= zlen S <= 64 -> (forall s, get net <> Some (Inherited s)) -> HDPrivateKey.fromSeed (HDPrivateKey.SBuffer S) net
    = HDPrivateKey.buildFromBuffers (fields_of (mkBuffers (Bip32.version n) [0] [0; 0; 0; 0] [0; 0; 0; 0] (skipn 32 I) (firstn 32 I) []) FUndefined)) as Hseed.
  { intros Hl Hnet. unfold HDPrivateKey.fromSeed. cbn [mbind result_bind]. rewrite (proj2 (Z.ltb_ge _ 16)), Z.gtb_ltb, (proj2 (Z.ltb_ge 64 _)) by lia. cbn [negb guard_or mbind result_bind].
    rewrite hmac_eq. cbn [mbind result_bind]. destruct (hmac_halves (Utf8.bytes_of_text "Bitcoin seed") S) as (E1 & E2 & _).
    change hmac512 with HMAC_SHA512 in E1, E2. fold I in E1, E2. change (hmac512 (Utf8.bytes_of_text "Bitcoin seed") S) with I. rewrite E1, E2, ztake_take, zdrop_drop.
    assert (default (Obj defaultNetwork) (get net) = Obj n) as ->.
    { unfold n. destruct (get_cases net) as [->|[[m ->]|[s Hs]]]; [done|done|by destruct (Hnet s)]. }
    rewrite version_eq. reflexivity. }
  assert (zlen (firstn 32 I) = 32 /\ bytes_ok (firstn 32 I) /\ zlen (skipn 32 I) = 32 /\ bytes_ok (skipn 32 I)) as (L1 & O1 & L2 & O2).
  { destruct (hmac_halves (Utf8.bytes_of_text "Bitcoin seed") S) as (_ & _ & L1 & L2 & O1 & O2). rewrite ztake_take in *. rewrite zdrop_drop in *. done. }
  pose proof (ScriptNumLemmas.fromBuffer_bound _ O1) as Hbd. rewrite L1 in Hbd. change (k x) with (parse256 (firstn 32 I)). rewrite parse_eq.
  set (b := mkBuffers (Bip32.version n) [0] [0; 0; 0; 0] [0; 0; 0; 0] (skipn 32 I) (firstn 32 I) []).
  assert (sized 32 b) as Hb.
  { constructor; cbn [HDKeys.version depth_byte parentFingerPrint childIndex chainCode key_bytes_ b]; rewrite ?version_eq; split;
      try assumption; try reflexivity; try (by repeat constructor). apply integerAsBuffer_ok. }
  split.
  - intros Hl Hv Hk Hnet. assert (in_tree x) as Hx.
    { constructor; cbn [k c parent number x]; rewrite ?parse_eq; try done; [|by repeat constructor]. pose proof (valid_nonzero _ Hv) as Hnz. change order with PrivKey.getN in Hk.
      destruct (Z.eq_dec (BN.fromBuffer (firstn 32 I)) 0) as [E0|]; [rewrite E0 in Hnz; by destruct Hnz|lia]. }
    exists (key_of_tree n x). split; [|done]. rewrite (Hseed Hl Hnet). apply build_priv; [done|by left|].
    assert (b = buffers_of n x) as Eb. { unfold b, buffers_of. cbn [k c depth parent number x]. f_equal. apply ser_unique; [done|done|]. rewrite parse_eq, Z.mod_small; [done|exact Hbd]. }
    fold b. rewrite Eb. eexists. split; [exact (tree_keys n x Hx)|done].
  - intros Hl Hk. assert ((exists s, get net = Some (Inherited s)) \/ (forall s, get net <> Some (Inherited s)) /\ (BN.fromBuffer (firstn 32 I) = 0 \/ order <= BN.fromBuffer (firstn 32 I))) as [Ho|[Hnet Hk']].
    { destruct (get_cases net) as [Hg|[[m Hg]|Ho]]; [| |by left]; right; (split; [by rewrite Hg|]); (destruct Hk as [Hk|[Hk|[s Hs]]]; [by left|by right|congruence]). }
    { by apply Hodd. }
    rewrite (Hseed Hl Hnet). unfold HDPrivateKey.buildFromBuffers. fold b. rewrite (validate_fields 32 b FUndefined Hb eq_refl). cbn [mbind result_bind].
    rewrite private_new. cbn [key_bytes_ with_checksum b]. destruct Hk' as [->|Hk']; [done|]. rewrite (proj2 (Z.ltb_ge _ PrivKey.getN)) by exact Hk'. by rewrite orb_true_r.
Qed.

End Bip32Theorems.

(** ** Witnesses *)
Section Bip32Witnesses.
Import Networks Bip32 Bip32Lemmas PublicKeyLemmas HDKeys CacheLemmas.
#[local] Existing Instance demo_crypto.
#[local] Existing Instance demo_laws.
#[local] Existing Instance demo_curve.
#[local] Existing Instance demo_curve_laws.
#[local] Existing Instance demo_digests.
#[local] Existing Instance demo_digests_laws.

(** A key whose number needs all its bytes, one that does not, and the descendants of the first *)
Definition demo_root : xprv := mkXprv (2 ^ 255 + 77) (repeat 9 32) 0 [0; 0; 0; 0] 0.
Definition small_root : xprv := mkXprv 258 (repeat 9 32) 255 [1; 2; 3; 200] (2 ^ 32 - 1).
Definition demo_path : list Z := [2 ^ 31 + 44; 7].
Definition next (x : xprv) (i : Z) : xprv := default x (CKDpriv x i).

Lemma demo_in_tree x : 0 < k x < PrivKey.getN -> zlen (c x) = 32 /\ bytes_ok (c x) -> zlen (parent x) = 4 /\ bytes_ok (parent x) ->
  0 <= number x < 2 ^ 32 -> in_tree x.
Proof. intros Hk Hc Hp Hn. split; [exact Hk|apply demo_valid; rewrite Z.mod_small; lia|exact Hc|exact Hp|exact Hn]. Qed.

Lemma demo_root_in_tree : in_tree demo_root.
Proof. apply demo_in_tree; [done|split; [done|by repeat constructor]|split; [done|by repeat constructor]|done]. Qed.

Lemma small_root_in_tree : in_tree small_root.
Proof. apply demo_in_tree; [done|split; [done|by repeat constructor]|split; [done|by repeat constructor]|done]. Qed.

Lemma demo_descends : descends CKDpriv demo_root demo_path (next (next demo_root (2 ^ 31 + 44)) 7) /\ wide demo_root demo_path.
Proof.
  assert (forall x i path y, bool_decide (is_Some (CKDpriv x i)) && bool_decide (k (next x i) mod PrivKey.getN <> 0) = true ->
    descends CKDpriv (next x i) path y -> descends CKDpriv x (i :: path) y) as Hstep.
  { intros x i path y. rewrite !andb_true_iff, !bool_decide_eq_true. intros [[x' Hx'] Hv] Hd.
    apply (descends_child _ x i (next x i)); [by unfold next; rewrite Hx'|by apply demo_valid|exact Hd]. }
  split; [|vm_compute; done]. unfold demo_path. apply Hstep; [vm_compute; reflexivity|]. apply Hstep; [vm_compute; reflexivity|]. apply descends_here.
Qed.

(** After another key was derived through the cache: a path of BIP32, and a hardened child of a small key *)
Lemma path_derivation_witness : path_from_m demo_path = "m/44'/7"%string
  /\ (exists p d, HDPrivateKey.new [] (HDPrivateKey.DText (text testnet demo_root)) = Ok p
      /\ fst (derive (HPriv p) (ByPath "m/44'/7") Undefined (snd (derive (HPriv (key_of_tree livenet small_root)) (ByPath "m/0") Undefined HDKeyCache.empty))) = Ok (HPriv d)
      /\ HDPrivateKey.toString d = text testnet (next (next demo_root (2 ^ 31 + 44)) 7))
  /\ exists p d, HDPrivateKey.new [] (HDPrivateKey.DText (text livenet small_root)) = Ok p
      /\ fst (derive (HPriv p) (ByPath "m/3'") Undefined HDKeyCache.empty) = Ok (HPriv d)
      /\ HDPrivateKey.toString d = text livenet (default small_root (CKDshort small_root (2 ^ 31 + 3))).
Proof.
  split; [vm_compute; reflexivity|]. split.
  - destruct (path_derivation [] testnet demo_root demo_path
      (snd (derive (HPriv (key_of_tree livenet small_root)) (ByPath "m/0") Undefined HDKeyCache.empty)) demo_root_in_tree) as (p & Hp & _ & _ & _ & Hd).
    + repeat constructor; done.
    + apply reachable_derive; [apply tree_made, small_root_in_tree|apply reachable_empty].
    + destruct (Hd _ (proj1 demo_descends) (proj2 demo_descends)) as (d & Hd' & Ht & _). exists p, d. exact (conj Hp (conj Hd' Ht)).
  - destruct (path_derivation [] livenet small_root [2 ^ 31 + 3] HDKeyCache.empty small_root_in_tree) as (p & Hp & _ & Hd & _).
    + repeat constructor; done.
    + apply reachable_empty.
    + destruct (Hd (default small_root (CKDshort small_root (2 ^ 31 + 3)))) as (d & Hd' & Ht & _); [|exists p, d; exact (conj Hp (conj Hd' Ht))].
      apply (descends_child _ small_root (2 ^ 31 + 3) (default small_root (CKDshort small_root (2 ^ 31 + 3)))); [vm_compute; reflexivity| |apply descends_here].
      apply demo_valid. vm_compute. discriminate.
Defined.

Lemma hardened_child_of_small_key_witness : exists data,
  HDPrivateKey.child_data (key_of_tree livenet small_root) (num_of_Z (2 ^ 31)) true = Ok data /\ zlen data = 7.
Proof.
  destruct (hardened_child_of_small_key livenet small_root (2 ^ 31) small_root_in_tree ltac:(done) ltac:(done)) as (data & Hd & _ & Hl).
  exists data. split; [exact Hd|]. rewrite Hl. vm_compute. reflexivity.
Defined.

Lemma object_roundtrip_witness : exists o, HDPrivateKey.toObject (key_of_tree testnet small_root) = Ok o
  /\ HDPrivateKey.fromObject [] (as_argument o) = Throw BufferUtil.AssertionError.
Proof.
  destruct (object_roundtrip [] testnet small_root small_root_in_tree) as (o & Ho & Hr). exists o. split; [exact Ho|]. rewrite Hr. reflexivity.
Defined.

Lemma public_text_accepted_witness : exists q p, HDPublicKey.buildFromPrivate (key_of_tree livenet small_root) = Ok q
  /\ HDPrivateKey.fromString [] (HDPublicKey.toString q) = Ok p /\ PrivKey.bn (HDPrivateKey.privateKey p) = 258.
Proof.
  destruct (tree_public livenet small_root small_root_in_tree) as (q & Hq & _).
  assert (valid (x_of (mul curve_g (k small_root)))) as Hv by (apply demo_valid; vm_compute; discriminate).
  destruct (public_text_accepted [] livenet small_root q small_root_in_tree Hq (conj eq_refl eq_refl) Hv) as (p & Hp & Hk & _).
  exists q, p. split; [exact Hq|]. split; [exact Hp|]. exact Hk.
Defined.

Lemma master_key_witness : exists p, HDPrivateKey.fromSeed (HDPrivateKey.SText "000102030405060708090a0b0c0d0e0f") (Some (Name "testnet")) = Ok p.
Proof.
  destruct (master_key [0; 1; 2; 3; 4; 5; 6; 7; 8; 9; 10; 11; 12; 13; 14; 15] (Some (Name "testnet"))) as (Htext & _ & _ & Hok & _).
  - by repeat constructor.
  - discriminate.
  - destruct Hok as (p & Hp & _); [split; vm_compute; discriminate|apply demo_valid; vm_compute; discriminate|vm_compute; reflexivity|intros s; vm_compute; discriminate|].
    exists p. rewrite <-Hp. exact Htext.
Defined.

(** Both orders, on the test network *)
Lemma public_derivation_witness : exists x,
  (d ← HDPrivateKey.child (key_of_tree testnet demo_root) (num_of_Z 7) false; HDPublicKey.buildFromPrivate d) = Ok x
  /\ (q ← HDPublicKey.buildFromPrivate (key_of_tree testnet demo_root); HDPublicKey.child q (num_of_Z 7)) = Ok x.
Proof.
  assert (is_ok (d ← HDPrivateKey.child (key_of_tree testnet demo_root) (num_of_Z 7) false; HDPublicKey.buildFromPrivate d) = true) as Hok by (vm_compute; reflexivity).
  destruct (d ← HDPrivateKey.child (key_of_tree testnet demo_root) (num_of_Z 7) false; HDPublicKey.buildFromPrivate d) as [x|e] eqn:E; [|discriminate Hok].
  exists x. split; [reflexivity|]. exact (proj1 (public_derivation (key_of_tree testnet demo_root) testnet (num_of_Z 7) x (tree_made testnet demo_root demo_root_in_tree) eq_refl) E).
Defined.

Lemma cache_unseen_witness : let c := snd (derive (HPriv (key_of_tree livenet demo_root)) (ByPath "m/1/2") Undefined HDKeyCache.empty) in
  fst (derive (HPriv (key_of_tree livenet demo_root)) (ByNumber (num_of_Z 1)) Undefined c)
  = Uncached.derive (HPriv (key_of_tree livenet demo_root)) (ByNumber (num_of_Z 1)) Undefined.
Proof.
  apply (cache_unseen (HPriv (key_of_tree livenet demo_root)) (ByNumber (num_of_Z 1)) Undefined); [|apply tree_made, demo_root_in_tree].
  apply reachable_derive; [apply tree_made, demo_root_in_tree|apply reachable_empty].
Defined.

Lemma extended_text_witness : exists q, HDPublicKey.buildFromPrivate (key_of_tree livenet demo_root) = Ok q
  /\ HDPublicKey.fromString (HDPublicKey.toString q) = Ok q.
Proof.
  destruct (tree_public livenet demo_root demo_root_in_tree) as (q & Hq & _ & Hm & Hv). exists q. split; [exact Hq|].
  apply (extended_text [] (key_of_tree livenet demo_root) q); [apply tree_made, demo_root_in_tree|reflexivity|exact Hm|exact Hv].
Defined.

Lemma private_text_exact_witness : exists p, HDPrivateKey.fromString [] (text livenet demo_root) = Ok p
  /\ exists d, Base58Check.decode (text livenet demo_root) = Ok d /\ zlen d = 78.
Proof.
  exists (key_of_tree livenet demo_root).
  pose proof (tree_from_text [] livenet demo_root demo_root_in_tree) as Hp. split; [exact Hp|].
  destruct (private_text_exact [] (text livenet demo_root) (key_of_tree livenet demo_root) Hp) as (_ & _ & d & Hd & Hl & _).
  - vm_compute. discriminate.
  - vm_compute. reflexivity.
  - exists d. by split.
Defined.

End Bip32Witnesses.
