(* ===== verification/Transaction.v ===== *)
(** * bitcore's transactions

    Models modules 30-38 of [src/Sources/WebClient/js/bitcore.js]: [Input] and its two
    signable kinds ([PublicKeyHashInput], [MultiSigScriptHashInput]), [Output],
    [UnspentOutput], [TransactionSignature], [Sighash] and [Transaction] itself with its
    cached amounts, fee estimation and change output.

    Satoshi amounts are JavaScript numbers ([number]); an output also keeps the [BN] that is
    serialized.  A method that reads or writes the transaction object runs in [js t]; an
    exception leaves the writes made before it.  Hashes and ECDSA are the interfaces
    [Crypto] and [Ecdsa]. *)
From S2P Require Import Prelude JsNumber Encoding Script.
Local Open Scope Z_scope.
Local Open Scope js_scope.

(** ECDSA over secp256k1 (the bundled elliptic library): signatures are DER byte strings,
    public keys their encoded bytes. *)
Class Ecdsa := {
  PrivateKey : Type;
  toPublicKey : PrivateKey -> list Z;
  ecdsa_sign : list Z -> PrivateKey -> list Z;
  ecdsa_verify : list Z -> list Z -> list Z -> bool;
}.

Definition SIGHASH_ALL := 0x01.
Definition SIGHASH_NONE := 0x02.
Definition SIGHASH_SINGLE := 0x03.
Definition SIGHASH_ANYONECANPAY := 0x80.

(** [TransactionSignature] *)
Record TransactionSignature := mkSig {
  sig_publicKey : list Z;
  sig_prevTxId : list Z;
  sig_outputIndex : Z;
  sig_inputIndex : nat;
  sig_signature : list Z;
  sig_sigtype : Z;
}.

(** ** Output *)
Module Output.

Record t := mk {
  _satoshis : number;
  _satoshisBN : Z;
  _scriptBuffer : list Z;
  _script : option Script.t;
}.
#[global] Instance eta_t : Eta t := fun o => mk (_satoshis o) (_satoshisBN o) (_scriptBuffer o) (_script o).

Definition satoshis (o : t) : number := _satoshis o.

(** The [script] getter: the cached script, or the parsed bytes. *)
Definition script (o : t) : result Script.t :=
  match _script o with Some s => Ok s | None => Script.fromBuffer (_scriptBuffer o) end.

(** The [satoshis] setter, on a number and on a [BN] *)
Definition set_satoshis (num : number) (o : t) : t :=
  o <| _satoshisBN := BN.fromNumber num |> <| _satoshis := num |>.
Definition set_satoshisBN (num : Z) (o : t) : t :=
  o <| _satoshisBN := num |> <| _satoshis := BN.toNumber num |>.

(** [setScript] on a script *)
Definition setScript (s : Script.t) (o : t) : result t :=
  b ← Script.toBuffer s;
  Ok (o <| _scriptBuffer := b |> <| _script := Some s |>).

(** [new Output({satoshis, script})] *)
Definition new (sat : number) (s : Script.t) : result t :=
  setScript s (set_satoshis sat (mk num_nan 0 [] None)).

Definition fromBufferReader : js BufferReader.t t :=
  bn ← BufferReader.readUInt64LEBN;
  let o := set_satoshisBN bn (mk num_nan 0 [] None) in
  size ← BufferReader.readVarintNum;
  if negb (size =? 0) then b ← BufferReader.read size; mret (o <| _scriptBuffer := b |>)
  else mret (o <| _scriptBuffer := [] |>).

Definition toBufferWriter (o : t) (w : BufferWriter.t) : result BufferWriter.t :=
  w ← BufferWriter.writeUInt64LEBN (_satoshisBN o) w;
  w ← BufferWriter.writeVarintNum (zlen (_scriptBuffer o)) w;
  Ok (BufferWriter.write (_scriptBuffer o) w).

End Output.

(** ** Input *)
Module Input.

Definition DEFAULT_SEQNUMBER := 0xFFFFFFFF.

(** The class of an input, with the fields a multisig input adds. *)
Record multisig := mkMultisig {
  publicKeys : list (list Z);
  redeemScript : Script.t;
  threshold : Z;
  signatures : list (option TransactionSignature);
}.
#[global] Instance eta_multisig : Eta multisig := fun m =>
  mkMultisig (publicKeys m) (redeemScript m) (threshold m) (signatures m).

Inductive class := Base | PublicKeyHash | MultiSigScriptHash (m : multisig).

Record t := mk {
  output : option Output.t;
  prevTxId : list Z;
  outputIndex : Z;
  sequenceNumber : Z;
  _scriptBuffer : list Z;
  _script : option Script.t;
  kind : class;
}.
#[global] Instance eta_t : Eta t := fun i =>
  mk (output i) (prevTxId i) (outputIndex i) (sequenceNumber i) (_scriptBuffer i) (_script i) (kind i).

Definition script (i : t) : result Script.t :=
  match _script i with Some s => Ok s | None => Script.fromBuffer (_scriptBuffer i) end.

Definition setScript (s : Script.t) (i : t) : result t :=
  b ← Script.toBuffer s;
  Ok (i <| _script := Some s |> <| _scriptBuffer := b |>).

(** [new clazz({output, prevTxId, outputIndex, script: Script.empty()})] *)
Definition new (k : class) (out : Output.t) (txId : list Z) (index : Z) : result t :=
  setScript Script.empty (mk (Some out) txId index DEFAULT_SEQNUMBER [] None k).

(** [new Input(input)]: the fields are taken over and the script re-set through the getter. *)
Definition copy (i : t) : result t :=
  s ← script i;
  setScript s (i <| kind := Base |>).

Definition fromBufferReader : js BufferReader.t t :=
  prevTxId ← BufferReader.readReverse (Some 32);
  outputIndex ← BufferReader.readUInt32LE;
  scriptBuffer ← BufferReader.readVarLengthBuffer;
  sequenceNumber ← BufferReader.readUInt32LE;
  mret (mk None prevTxId outputIndex sequenceNumber scriptBuffer None Base).

Definition toBufferWriter (i : t) (w : BufferWriter.t) : result BufferWriter.t :=
  w ← Ok (BufferWriter.writeReverse (prevTxId i) w);
  w ← BufferWriter.writeUInt32LE (outputIndex i) w;
  w ← BufferWriter.writeVarintNum (zlen (_scriptBuffer i)) w;
  w ← Ok (BufferWriter.write (_scriptBuffer i) w);
  BufferWriter.writeUInt32LE (sequenceNumber i) w.

(** A coinbase input *)
Definition isNull (i : t) : bool :=
  bool_decide (prevTxId i = repeat 0 32) && (outputIndex i =? 0xffffffff).

(** *** Multisig bookkeeping *)

(** [countSignatures] *)
Definition countSignatures (m : multisig) : Z := zlen (filter (fun s => is_Some s) (signatures m)).

Definition countMissingSignatures (m : multisig) : Z := threshold m - countSignatures m.

(** [publicKeyIndex[key]]: the last index at which the key occurs. *)
Fixpoint index_from (n : nat) (k : list Z) (ks : list (list Z)) : option nat :=
  match ks with
  | [] => None
  | k' :: ks =>
      match index_from (S n) k ks with
      | Some i => Some i
      | None => if bool_decide (k = k') then Some n else None
      end
  end.
Definition publicKeyIndex (m : multisig) (k : list Z) : option nat := index_from 0 k (publicKeys m).

Definition publicKeysWithoutSignature (m : multisig) : list (list Z) :=
  List.filter (fun k => match publicKeyIndex m k ≫= (fun i => signatures m !! i) with
                        | Some (Some _) => false | _ => true end) (publicKeys m).

(** [_createSignatures]: the present signatures, each followed by its type byte *)
Definition createSignatures (m : multisig) : list (list Z) :=
  omap (fun s => s' ← s; Some (sig_signature s' ++ [sig_sigtype s' mod 256])) (signatures m).

(** [_updateScript] *)
Definition updateScript (m : multisig) (i : t) : result t :=
  s ← Script.buildP2SHMultisigIn (publicKeys m) (threshold m) (createSignatures m)
        (Some (redeemScript m)) true;
  setScript s i.

Definition clearSignatures (i : t) : result t :=
  match kind i with
  | Base => Throw (BitcoreError "AbstractMethodInvoked")
  | PublicKeyHash => setScript Script.empty i
  | MultiSigScriptHash m =>
      let m := m <| signatures := repeat None (length (publicKeys m)) |> in
      updateScript m (i <| kind := MultiSigScriptHash m |>)
  end.

(** *** Sizes *)

Definition SCRIPT_MAX_SIZE := 73 + 34.
Definition OPCODES_SIZE := 7.
Definition SIGNATURE_SIZE := 74.
Definition PUBKEY_SIZE := 34.

(** [_estimateSize] *)
Definition estimateSize (i : t) : result Z :=
  match kind i with
  | Base => w ← toBufferWriter i BufferWriter.new; Ok (zlen (BufferWriter.toBuffer w))
  | PublicKeyHash => Ok SCRIPT_MAX_SIZE
  | MultiSigScriptHash m =>
      Ok (OPCODES_SIZE + threshold m * SIGNATURE_SIZE + zlen (publicKeys m) * PUBKEY_SIZE)
  end.

Section WithCrypto.
Context `{Crypto}.

Definition isFullySigned (i : t) : result bool :=
  match kind i with
  | Base => Throw (BitcoreError "AbstractMethodInvoked")
  | PublicKeyHash => s ← script i; Ok (Script.isPublicKeyHashIn s)
  | MultiSigScriptHash m => Ok (countSignatures m =? threshold m)
  end.

(** [new MultiSigScriptHashInput({output, prevTxId, outputIndex, script}, pubkeys, threshold)] *)
Definition newMultisig (out : Output.t) (txId : list Z) (index : Z) (pubkeys : list (list Z))
    (threshold : Z) : result t :=
  redeem ← Script.buildMultisigOut pubkeys threshold true;
  p2sh ← Script.buildScriptHashOut redeem;
  outscript ← Output.script out;
  guard_or InvalidState (Script.equals p2sh outscript);;
  new (MultiSigScriptHash (mkMultisig pubkeys redeem threshold (repeat None (length pubkeys)))) out txId index.

End WithCrypto.
End Input.

(** ** Unspent outputs *)

Record UnspentOutput := mkUnspent {
  txId : list Z;
  utxo_outputIndex : Z;
  utxo_script : Script.t;
  utxo_satoshis : number;
}.

(** [new Script(script)]: a copy through its bytes *)
Definition Script_copy (s : Script.t) : result Script.t := b ← Script.toBuffer s; Script.fromBuffer b.

(** [new UnspentOutput(data)]: the id has at most 64 hexadecimal digits and is not empty. *)
Definition newUnspentOutput (data : UnspentOutput) : result UnspentOutput :=
  guard_or (ErrorMessage "Invalid TXID in object") ((0 <? zlen (txId data)) && (zlen (txId data) <=? 32));;
  s ← Script_copy (utxo_script data);
  Ok (mkUnspent (txId data) (utxo_outputIndex data) s (utxo_satoshis data)).

(** ** Transaction *)
Module Transaction.

Record t := mk {
  version : Z;
  inputs : list Input.t;
  outputs : list Output.t;
  nLockTime : Z;
  _inputAmount : option number;
  _outputAmount : option number;
  _changeScript : option Script.t;
  _changeIndex : option nat;
  _fee : option number;
}.
#[global] Instance eta_t : Eta t := fun x =>
  mk (version x) (inputs x) (outputs x) (nLockTime x) (_inputAmount x) (_outputAmount x)
     (_changeScript x) (_changeIndex x) (_fee x).

Definition DUST_AMOUNT := 546.
Definition FEE_SECURITY_MARGIN := 15.
Definition MAX_MONEY := 21000000 * 10 ^ 8.
Definition NLOCKTIME_BLOCKHEIGHT_LIMIT := 5 * 10 ^ 8.
Definition FEE_PER_KB := 1000.
Definition CHANGE_OUTPUT_MAX_SIZE := 20 + 4 + 34 + 4.
Definition MAXIMUM_EXTRA_SIZE := 4 + 9 + 9 + 4.
Definition CURRENT_VERSION := 1.
Definition DEFAULT_NLOCKTIME := 0.

(** [new Transaction()] *)
Definition new : t := mk CURRENT_VERSION [] [] DEFAULT_NLOCKTIME None None None None None.

(** *** Serialization *)

Fixpoint each_write {A} (f : A -> BufferWriter.t -> result BufferWriter.t) (l : list A) (w : BufferWriter.t)
    : result BufferWriter.t :=
  match l with [] => Ok w | x :: l => w ← f x w; each_write f l w end.

Definition toBufferWriter (x : t) (w : BufferWriter.t) : result BufferWriter.t :=
  w ← BufferWriter.writeUInt32LE (version x) w;
  w ← BufferWriter.writeVarintNum (Z.of_nat (length (inputs x))) w;
  w ← each_write Input.toBufferWriter (inputs x) w;
  w ← BufferWriter.writeVarintNum (Z.of_nat (length (outputs x))) w;
  w ← each_write Output.toBufferWriter (outputs x) w;
  BufferWriter.writeUInt32LE (nLockTime x) w.

Definition toBuffer (x : t) : result (list Z) :=
  w ← toBufferWriter x BufferWriter.new; Ok (BufferWriter.toBuffer w).

(** [for (i = 0; i < n; i++) push(read())].  Every turn consumes at least a byte or throws
    [RangeError] at the end of the buffer, so as many turns as bytes are enough. *)
Fixpoint read_times {A} (fuel : nat) (n : Z) (m : js BufferReader.t A) : js BufferReader.t (list A) :=
  if n <=? 0 then mret []
  else match fuel with
       | O => js_throw RangeError
       | S fuel => x ← m; l ← read_times fuel (n - 1) m; mret (x :: l)
       end.

(** [fromBufferReader] on a fresh transaction *)
Definition fromBufferReader : js BufferReader.t t :=
  r ← js_get;
  js_lift (guard_or InvalidArgument (negb (BufferReader.finished r)));;
  let fuel := S (length (BufferReader.buf r)) in
  version ← BufferReader.readUInt32LE;
  sizeTxIns ← BufferReader.readVarintNum;
  inputs ← read_times fuel sizeTxIns Input.fromBufferReader;
  sizeTxOuts ← BufferReader.readVarintNum;
  outputs ← read_times fuel sizeTxOuts Output.fromBufferReader;
  nLockTime ← BufferReader.readUInt32LE;
  mret (mk version inputs outputs nLockTime None None None None None).

Definition fromBuffer (b : list Z) : result t := fst (fromBufferReader (BufferReader.new b)).

Definition shallowCopy (x : t) : result t := b ← toBuffer x; fromBuffer b.

(** *** Cached amounts *)

(** [_getOutputAmount] *)
Definition getOutputAmount : js t number :=
  x ← js_get;
  match _outputAmount x with
  | Some a => mret a
  | None =>
      let a := fold_left (fun acc o => num_add acc (Output.satoshis o)) (outputs x) (num_of_Z 0) in
      js_modify (fun x => x <| _outputAmount := Some a |>);; mret a
  end.

(** The partial sum of the inputs up to the first one without its output. *)
Fixpoint sum_inputs (acc : number) (is_ : list Input.t) : number * bool :=
  match is_ with
  | [] => (acc, true)
  | i :: is_ =>
      match Input.output i with
      | None => (acc, false)
      | Some o => sum_inputs (num_add acc (Output.satoshis o)) is_
      end
  end.

(** [_getInputAmount]: when an input lacks its output, the exception leaves the partial sum
    in the cache. *)
Definition getInputAmount : js t number :=
  x ← js_get;
  match _inputAmount x with
  | Some a => mret a
  | None =>
      let '(a, ok) := sum_inputs (num_of_Z 0) (inputs x) in
      js_modify (fun x => x <| _inputAmount := Some a |>);;
      js_lift (guard_or (BitcoreError "Transaction.Input.MissingPreviousOutput") ok);; mret a
  end.

Definition getUnspentValue : js t number :=
  i ← getInputAmount; o ← getOutputAmount; mret (num_sub i o).

(** *** Fees *)

Fixpoint sum_sizes {A} (f : A -> result Z) (acc : Z) (l : list A) : result Z :=
  match l with [] => Ok acc | x :: l => n ← f x; sum_sizes f (acc + n) l end.

(** [_estimateSize] *)
Definition estimateSize (x : t) : result Z :=
  n ← sum_sizes Input.estimateSize MAXIMUM_EXTRA_SIZE (inputs x);
  sum_sizes (fun o => s ← Output.script o; b ← Script.toBuffer s; Ok (zlen b + 9)) n (outputs x).

(** [Transaction._estimateFee(size, amountAvailable)] *)
Definition estimateFee_of (size : Z) (amountAvailable : number) : number :=
  let fee := Math_ceil (num_div (num_of_Z size) (num_of_Z FEE_PER_KB)) in
  let size := if num_gt amountAvailable fee then size + CHANGE_OUTPUT_MAX_SIZE else size in
  num_mul (Math_ceil (num_div (num_of_Z size) (num_of_Z 1000))) (num_of_Z FEE_PER_KB).

Definition estimateFee : js t number :=
  x ← js_get;
  size ← js_lift (estimateSize x);
  available ← getUnspentValue;
  mret (estimateFee_of size available).

Definition getFee : js t number :=
  x ← js_get;
  match _changeScript x with
  | None => getUnspentValue
  | Some _ => match _fee x with None => estimateFee | Some f => mret f end
  end.

(** *** Outputs and the change output *)

(** [_addOutput] *)
Definition addOutput_ (o : Output.t) : js t unit :=
  js_modify (fun x => x <| outputs ::= (fun l => l ++ [o]) |> <| _outputAmount := None |>).

(** [_removeOutput]: nothing is removed when the index is out of range. *)
Definition removeOutput_ (index : nat) : js t unit :=
  js_modify (fun x => x <| outputs ::= delete index |> <| _outputAmount := None |>).

(** [_clearSignatures]: the inputs before a failing one stay cleared. *)
Fixpoint clear_each (is_ : list Input.t) : list Input.t * result unit :=
  match is_ with
  | [] => ([], Ok tt)
  | i :: rest =>
      match Input.clearSignatures i with
      | Ok i' => let '(rest', r) := clear_each rest in (i' :: rest', r)
      | Throw e => (i :: rest, Throw e)
      end
  end.
Definition clearSignatures : js t unit :=
  x ← js_get;
  let '(is_, r) := clear_each (inputs x) in
  js_modify (fun x => x <| inputs := is_ |>);; js_lift r.

(** [_updateChangeOutput] *)
Definition updateChangeOutput : js t unit :=
  x ← js_get;
  match _changeScript x with
  | None => mret tt
  | Some changeScript =>
      clearSignatures;;
      x ← js_get;
      match _changeIndex x with Some i => removeOutput_ i | None => mret tt end;;
      available ← getUnspentValue;
      fee ← getFee;
      let changeAmount := num_sub available fee in
      if num_gt changeAmount (num_of_Z 0) then
        js_modify (fun x => x <| _changeIndex := Some (length (outputs x)) |>);;
        o ← js_lift (Output.new changeAmount changeScript);
        addOutput_ o
      else js_modify (fun x => x <| _changeIndex := None |>)
  end.

Definition addOutput (o : Output.t) : js t unit := addOutput_ o;; updateChangeOutput.

Definition removeOutput (index : nat) : js t unit := removeOutput_ index;; updateChangeOutput.

Definition change (a : Address) : js t unit :=
  s ← js_lift (Script.fromAddress a);
  js_modify (fun x => x <| _changeScript := Some s |>);; updateChangeOutput.

Definition fee (amount : number) : js t unit :=
  js_modify (fun x => x <| _fee := Some amount |>);; updateChangeOutput.

Definition getChangeOutput (x : t) : option Output.t := _changeIndex x ≫= fun i => outputs x !! i.

Definition to_ (a : Address) (amount : number) : js t unit :=
  s ← js_lift (Script.fromAddress a);
  o ← js_lift (Output.new amount s);
  addOutput o.

Definition addData (data : list Z) : js t unit :=
  s ← js_lift (Script.buildDataOut (Some data));
  o ← js_lift (Output.new (num_of_Z 0) s);
  addOutput o.

(** *** Inputs *)

Definition uncheckedAddInput (i : Input.t) : js t unit :=
  js_modify (fun x => x <| inputs ::= (fun l => l ++ [i]) |> <| _inputAmount := None |>);;
  updateChangeOutput.

(** [addInput(input)] *)
Definition addInput (i : Input.t) : js t unit :=
  js_lift (guard_or (BitcoreError "Transaction.NeedMoreInfo") (bool_decide (is_Some (Input.output i))));;
  uncheckedAddInput i.

(** [_fromNonP2SH] *)
Definition fromNonP2SH (utxo : UnspentOutput) : js t unit :=
  u ← js_lift (newUnspentOutput utxo);
  o ← js_lift (Output.new (utxo_satoshis u) (utxo_script u));
  i ← js_lift (Input.new (if Script.isPublicKeyHashOut (utxo_script u) then Input.PublicKeyHash else Input.Base)
                 o (txId u) (utxo_outputIndex u));
  addInput i.

Definition spends (id : list Z) (index : Z) (i : Input.t) : bool :=
  bool_decide (Input.prevTxId i = id) && (Input.outputIndex i =? index).

(** [from(utxo)] *)
Definition from (utxo : UnspentOutput) : js t unit :=
  x ← js_get;
  if existsb (spends (txId utxo) (utxo_outputIndex utxo)) (inputs x) then mret tt
  else fromNonP2SH utxo.

(** The index of the first input that spends an output. *)
Fixpoint findIndex {A} (f : A -> bool) (l : list A) : option nat :=
  match l with [] => None | x :: l => if f x then Some O else S <$> findIndex f l end.

(** [removeInput(txId, outputIndex)] *)
Definition removeInput (id : list Z) (index : Z) : js t unit :=
  x ← js_get;
  match findIndex (spends id index) (inputs x) with
  | None => js_throw (BitcoreError "Transaction.InvalidIndex")
  | Some n =>
      js_modify (fun x => x <| inputs ::= delete n |> <| _inputAmount := None |>);;
      updateChangeOutput
  end.

Definition hasAllUtxoInfo (x : t) : bool := forallb (fun i => bool_decide (is_Some (Input.output i))) (inputs x).

(** *** Lock times *)

Definition lockUntilBlockHeight (height : Z) : js t unit :=
  js_lift (guard_or (BitcoreError "Transaction.BlockHeightTooHigh") (height <? NLOCKTIME_BLOCKHEIGHT_LIMIT));;
  js_lift (guard_or (BitcoreError "Transaction.NLockTimeOutOfRange") (0 <=? height));;
  js_modify (fun x => x <| nLockTime := height |>).

(** [lockUntilDate] on a number of seconds *)
Definition lockUntilDate (time : Z) : js t unit :=
  js_lift (guard_or InvalidArgument (negb (time =? 0)));;
  js_lift (guard_or (BitcoreError "Transaction.LockTimeTooEarly") (negb (time <? NLOCKTIME_BLOCKHEIGHT_LIMIT)));;
  js_modify (fun x => x <| nLockTime := time |>).

Inductive lock_time := BlockHeight (h : Z) | Date (ms : Z).
Definition getLockTime (x : t) : option lock_time :=
  if nLockTime x =? 0 then None
  else if nLockTime x <? NLOCKTIME_BLOCKHEIGHT_LIMIT then Some (BlockHeight (nLockTime x))
  else Some (Date (1000 * nLockTime x)).

End Transaction.

(** ** Sighash *)
Module Sighash.
Import Transaction.

Definition SIGHASH_SINGLE_BUG : list Z := repeat 0 31 ++ [1].

(** [new Input(input).setScript(s)] *)
Definition blank (s : Script.t) (i : Input.t) : result Input.t :=
  i ← Input.copy i; Input.setScript s i.

Fixpoint map_result {A B} (f : A -> result B) (l : list A) : result (list B) :=
  match l with [] => Ok [] | x :: l => y ← f x; ys ← map_result f l; Ok (y :: ys) end.

(** The output that stands in for the ones before the signed index. *)
Definition filler : Output.t := Output.mk (BN.toNumber (2 ^ 64 - 1)) (2 ^ 64 - 1) [] (Some Script.empty).

Definition is_none (ty : Z) : bool := Z.land ty 31 =? SIGHASH_NONE.
Definition is_single (ty : Z) : bool := Z.land ty 31 =? SIGHASH_SINGLE.
Definition anyone_can_pay (ty : Z) : bool := negb (Z.land ty SIGHASH_ANYONECANPAY =? 0).

(** The inputs of the copy: scripts blanked but for the signed one, sequence numbers of the
    others cleared for [NONE] and [SINGLE]. *)
Definition sighash_inputs (ty : Z) (n : nat) (subscript : Script.t) (is_ : list Input.t) : result (list Input.t) :=
  is_ ← map_result (blank Script.empty) is_;
  i ← match is_ !! n with Some i => blank subscript i | None => Throw TypeError end;
  let is_ := <[n := i]> is_ in
  let is_ := if is_none ty || is_single ty
             then imap (fun k i => if bool_decide (k = n) then i else i <| Input.sequenceNumber := 0 |>) is_
             else is_ in
  Ok (if anyone_can_pay ty then match is_ !! n with Some i => [i] | None => is_ end else is_).

Definition sighash_outputs (ty : Z) (n : nat) (os : list Output.t) : list Output.t :=
  if is_none ty then []
  else if is_single ty then imap (fun k o => if bool_decide (k < n)%nat then filler else o) (take (S n) os)
  else os.

Section WithCrypto.
Context `{Crypto}.

(** The bytes that are hashed. *)
Definition preimage (x : t) (ty : Z) (n : nat) (subscript : Script.t) : result (list Z) :=
  is_ ← sighash_inputs ty n subscript (inputs x);
  b ← toBuffer (x <| inputs := is_ |> <| outputs := sighash_outputs ty n (outputs x) |>);
  h ← Buf.writeInt32LE ty;
  Ok (b ++ h).

Definition sighash (x : t) (ty : Z) (n : nat) (subscript : Script.t) : result (list Z) :=
  txcopy ← shallowCopy x;
  subscript ← Script_copy subscript;
  let subscript := Script.removeCodeseparators subscript in
  if is_single ty && (length (outputs txcopy) <=? n)%nat
  then (map_result (blank Script.empty) (inputs txcopy));; Ok SIGHASH_SINGLE_BUG
  else b ← preimage txcopy ty n subscript; Ok (rev (sha256sha256 b)).

Context `{Ecdsa}.

Definition sign (x : t) (key : PrivateKey) (ty : Z) (n : nat) (subscript : Script.t) : result (list Z) :=
  hashbuf ← sighash x ty n subscript; Ok (ecdsa_sign hashbuf key).

Definition verify (x : t) (sig : list Z) (ty : Z) (pub : list Z) (n : nat) (subscript : Script.t) : result bool :=
  hashbuf ← sighash x ty n subscript; Ok (ecdsa_verify hashbuf sig pub).

End WithCrypto.
End Sighash.

(** ** Signing a transaction *)
Module Signing.
Import Transaction.
Section WithCrypto.
Context `{Crypto} `{Ecdsa}.

(** The script an input's signature commits to: the redeem script of a multisig input, the
    spent output's script otherwise. *)
Definition input_subscript (i : Input.t) : result Script.t :=
  match Input.kind i with
  | Input.MultiSigScriptHash m => Ok (Input.redeemScript m)
  | _ => match Input.output i with Some o => Output.script o | None => Throw TypeError end
  end.

(** [input.isValidSignature(transaction, signature)] *)
Definition isValidSignature (x : t) (i : Input.t) (s : TransactionSignature) : result bool :=
  sub ← input_subscript i;
  Sighash.verify x (sig_signature s) (sig_sigtype s) (sig_publicKey s) (sig_inputIndex s) sub.

(** [input.addSignature(transaction, signature)] *)
Definition input_addSignature (x : t) (i : Input.t) (s : TransactionSignature) : result Input.t :=
  match Input.kind i with
  | Input.Base => Throw (BitcoreError "AbstractMethodInvoked")
  | Input.PublicKeyHash =>
      ok ← isValidSignature x i s;
      guard_or InvalidState ok;;
      sc ← Script.buildPublicKeyHashIn (sig_publicKey s) (sig_signature s) (Some (sig_sigtype s));
      Input.setScript sc i
  | Input.MultiSigScriptHash m =>
      guard_or InvalidState (negb (Input.countSignatures m =? Input.threshold m));;
      match Input.publicKeyIndex m (sig_publicKey s) with
      | None => Throw InvalidArgument
      | Some k =>
          ok ← isValidSignature x i s;
          guard_or InvalidState ok;;
          let m := m <| Input.signatures ::= <[k := Some s]> |> in
          Input.updateScript m (i <| Input.kind := Input.MultiSigScriptHash m |>)
      end
  end.

(** [input.getSignatures(transaction, privateKey, index, sigtype)] *)
Definition input_getSignatures (x : t) (key : PrivateKey) (index : nat) (ty : Z) (i : Input.t)
    : result (list TransactionSignature) :=
  let pub := toPublicKey key in
  let make sub :=
    der ← Sighash.sign x key ty index sub;
    Ok (mkSig pub (Input.prevTxId i) (Input.outputIndex i) index der ty) in
  match Input.kind i with
  | Input.Base => Throw (BitcoreError "AbstractMethodInvoked")
  | Input.PublicKeyHash =>
      o ← match Input.output i with Some o => Ok o | None => Throw InvalidState end;
      sc ← Output.script o;
      h ← Script.getPublicKeyHash sc;
      if bool_decide (sha256ripemd160 pub = h) then s ← make sc; Ok [s] else Ok []
  | Input.MultiSigScriptHash m =>
      guard_or InvalidState (bool_decide (is_Some (Input.output i)));;
      Sighash.map_result (fun _ => make (Input.redeemScript m))
        (filter (fun k => k = pub) (Input.publicKeys m))
  end.

Fixpoint each_signatures (x : t) (key : PrivateKey) (ty : Z) (index : nat) (is_ : list Input.t)
    : result (list TransactionSignature) :=
  match is_ with
  | [] => Ok []
  | i :: is_ =>
      s ← input_getSignatures x key index ty i;
      ss ← each_signatures x key ty (S index) is_;
      Ok (s ++ ss)
  end.

(** [transaction.getSignatures(privKey, sigtype)]; an absent or zero type means [SIGHASH_ALL]. *)
Definition getSignatures (key : PrivateKey) (sigtype : option Z) (x : t) : result (list TransactionSignature) :=
  let ty := match sigtype with None | Some 0 => SIGHASH_ALL | Some n => n end in
  each_signatures x key ty 0 (inputs x).

Definition applySignature (s : TransactionSignature) : js t unit :=
  x ← js_get;
  match inputs x !! sig_inputIndex s with
  | None => js_throw TypeError
  | Some i =>
      i ← js_lift (input_addSignature x i s);
      js_modify (fun x => x <| inputs ::= <[sig_inputIndex s := i]> |>)
  end.

Definition sign (key : PrivateKey) (sigtype : option Z) : js t unit :=
  x ← js_get;
  js_lift (guard_or InvalidState (hasAllUtxoInfo x));;
  sigs ← js_lift (getSignatures key sigtype x);
  js_each applySignature sigs.

Definition isFullySigned (x : t) : result bool :=
  if existsb (fun i => match Input.kind i with Input.Base => true | _ => false end) (inputs x)
  then Throw (BitcoreError "Transaction.UnableToVerifySignature")
  else bs ← Sighash.map_result Input.isFullySigned (inputs x); Ok (forallb id bs).

(** [_fromMultisigUtxo], through [from(utxo, pubkeys, threshold)] *)
Definition fromMultisigUtxo (utxo : UnspentOutput) (pubkeys : list (list Z)) (threshold : Z) : js t unit :=
  js_lift (guard_or InvalidArgument (threshold <=? zlen pubkeys));;
  u ← js_lift (newUnspentOutput utxo);
  o ← js_lift (Output.new (utxo_satoshis u) (utxo_script u));
  i ← js_lift (Input.newMultisig o (txId u) (utxo_outputIndex u) pubkeys threshold);
  addInput i.

Definition from_multisig (utxo : UnspentOutput) (pubkeys : list (list Z)) (threshold : Z) : js t unit :=
  x ← js_get;
  if existsb (spends (txId utxo) (utxo_outputIndex utxo)) (inputs x) then mret tt
  else fromMultisigUtxo utxo pubkeys threshold.

(** [_getHash] and [id] (the id is the reversed hash) *)
Definition getHash (x : t) : result (list Z) := b ← toBuffer x; Ok (sha256sha256 b).
Definition id_ (x : t) : result (list Z) := h ← getHash x; Ok (rev h).

(** *** The checks of [serialize] *)

Record serialize_opts := mkOpts {
  disableLargeFees : bool; disableSmallFees : bool; disableDustOutputs : bool;
  disableIsFullySigned : bool; disableMoreOutputThanInput : bool;
}.

Inductive serialization_error :=
  | ChangeAddressMissing | FeeTooLarge | FeeTooSmall | DustOutputs | MissingSignatures | InvalidOutputAmountSum.

Definition isFeeTooLarge : js t bool :=
  fee ← getUnspentValue;
  est ← estimateFee;
  mret (num_gt fee (Math_floor (num_mul (num_of_Z FEE_SECURITY_MARGIN) est))).

Definition isFeeTooSmall : js t bool :=
  fee ← getUnspentValue;
  est ← estimateFee;
  mret (num_lt fee (Math_ceil (num_div est (num_of_Z FEE_SECURITY_MARGIN)))).

Fixpoint has_dust (os : list Output.t) : result bool :=
  match os with
  | [] => Ok false
  | o :: os =>
      if num_lt (Output.satoshis o) (num_of_Z DUST_AMOUNT) then
        s ← Output.script o; if negb (Script.isDataOut s) then Ok true else has_dust os
      else has_dust os
  end.

(** [getSerializationError]: the last test of the source compares the method
    [this._getUnspentValue] itself with 0 and never holds. *)
Definition getSerializationError (opts : serialize_opts) : js t (option serialization_error) :=
  x ← js_get;
  let missingChange := negb (bool_decide (is_Some (_changeScript x))) in
  feeIsTooLarge ← isFeeTooLarge;
  feeIsTooSmall ← isFeeTooSmall;
  fullySigned ← js_lift (isFullySigned x);
  dust ← js_lift (has_dust (outputs x));
  mret (if negb (disableLargeFees opts) && feeIsTooLarge then
          Some (if missingChange then ChangeAddressMissing else FeeTooLarge)
        else if negb (disableSmallFees opts) && feeIsTooSmall then Some FeeTooSmall
        else if negb (disableDustOutputs opts) && dust then Some DustOutputs
        else if negb (disableIsFullySigned opts) && negb fullySigned then Some MissingSignatures
        else None).

End WithCrypto.
End Signing.

(** ** Lemmas: the wire format *)
Module WireFormat.
Import Transaction Codec.

Definition u32 (n : Z) : Prop := 0 <= n < 2 ^ 32.

Definition wf_output (o : Output.t) : Prop :=
  0 <= Output._satoshisBN o < 2 ^ 64 /\ bytes_ok (Output._scriptBuffer o) /\ zlen (Output._scriptBuffer o) < 2 ^ 30.

Definition wf_input (i : Input.t) : Prop :=
  zlen (Input.prevTxId i) = 32 /\ bytes_ok (Input.prevTxId i) /\ u32 (Input.outputIndex i)
  /\ u32 (Input.sequenceNumber i) /\ bytes_ok (Input._scriptBuffer i) /\ zlen (Input._scriptBuffer i) < 2 ^ 30.

Definition wf_tx (x : t) : Prop :=
  u32 (version x) /\ u32 (nLockTime x) /\ Forall wf_input (inputs x) /\ Forall wf_output (outputs x)
  /\ zlen (inputs x) < 2 ^ 30 /\ zlen (outputs x) < 2 ^ 30.

(** What is left of an input, an output and a transaction once serialized and parsed. *)
Definition strip_input (i : Input.t) : Input.t :=
  Input.mk None (Input.prevTxId i) (Input.outputIndex i) (Input.sequenceNumber i) (Input._scriptBuffer i) None Input.Base.
Definition strip_output (o : Output.t) : Output.t :=
  Output.mk (BN.toNumber (Output._satoshisBN o)) (Output._satoshisBN o) (Output._scriptBuffer o) None.
Definition strip (x : t) : t :=
  mk (version x) (strip_input <$> inputs x) (strip_output <$> outputs x) (nLockTime x) None None None None None.

(** The bytes of an output and of an input. *)
Definition u64_bytes (n : Z) : list Z := match BN.toBuffer 8 n with Ok b => rev b | Throw _ => [] end.

Definition output_bytes (o : Output.t) : list Z :=
  u64_bytes (Output._satoshisBN o) ++ varint_bytes (zlen (Output._scriptBuffer o)) ++ Output._scriptBuffer o.

Definition input_bytes (i : Input.t) : list Z :=
  rev (Input.prevTxId i) ++ le4 (Input.outputIndex i)
  ++ (varint_bytes (zlen (Input._scriptBuffer i)) ++ Input._scriptBuffer i) ++ le4 (Input.sequenceNumber i).

Definition tx_bytes (x : t) : list Z :=
  le4 (version x) ++ varint_bytes (zlen (inputs x)) ++ (inputs x ≫= input_bytes)
  ++ varint_bytes (zlen (outputs x)) ++ (outputs x ≫= output_bytes) ++ le4 (nLockTime x).

Lemma u64_codec_bytes n : 0 <= n < 2 ^ 64 -> zlen (u64_bytes n) = 8
  /\ writes (BufferWriter.writeUInt64LEBN n) (u64_bytes n) /\ reads BufferReader.readUInt64LEBN (u64_bytes n) n.
Proof.
  intros Hn. destruct (toBuffer_8 n Hn) as (b & Hb & Hlen & Hval & Hok). unfold u64_bytes. rewrite Hb.
  assert (zlen (rev b) = 8) as Hrev by (unfold zlen in *; by rewrite length_rev).
  split; [done|]. split.
  - apply writes_result. by rewrite Hb.
  - intros r l Hat. rewrite (ReaderLemmas.readUInt64LEBN_at _ _ l Hat Hrev), rev_involutive, Hval. by rewrite Hrev.
Qed.

Lemma output_codec o : wf_output o ->
  writes (Output.toBufferWriter o) (output_bytes o) /\ reads Output.fromBufferReader (output_bytes o) (strip_output o).
Proof.
  intros (Hsat & Hok & Hlen). destruct (u64_codec_bytes _ Hsat) as (_ & Hw8 & Hr8).
  pose proof (zlen_nonneg (Output._scriptBuffer o)) as H0. split.
  - apply writes_bind; [done|]. apply writes_bind; [apply writes_varint; lia|apply writes_write].
  - apply reads_bind with (v := Output._satoshisBN o); [done|]. cbv zeta.
    apply reads_bind with (v := zlen (Output._scriptBuffer o)); [apply reads_varint; lia|].
    destruct (Z.eqb_spec (zlen (Output._scriptBuffer o)) 0) as [Hz|Hz]; cbn [negb].
    + unfold strip_output, Output.set_satoshisBN, upd. cbn.
      assert (Output._scriptBuffer o = []) as ->; [|apply reads_ret].
      destruct (Output._scriptBuffer o); [done|]. rewrite zlen_cons in Hz. pose proof (zlen_nonneg l). lia.
    + rewrite <-(app_nil_r (Output._scriptBuffer o)) at 2.
      apply reads_bind with (v := Output._scriptBuffer o); [by apply reads_read|apply reads_ret].
Qed.

Lemma input_codec i : wf_input i ->
  writes (Input.toBufferWriter i) (input_bytes i) /\ reads Input.fromBufferReader (input_bytes i) (strip_input i).
Proof.
  intros (Hid & Hidok & Hoi & Hseq & Hok & Hlen). pose proof (zlen_nonneg (Input._scriptBuffer i)) as H0.
  assert (zlen (rev (Input.prevTxId i)) = 32) as Hrev by (unfold zlen in *; by rewrite length_rev). split.
  - apply writes_bind; [apply (writes_write (rev (Input.prevTxId i)))|].
    apply writes_bind; [by apply writes_u32|]. rewrite <-app_assoc. apply writes_bind; [apply writes_varint; lia|].
    apply writes_bind; [apply writes_write|by apply writes_u32].
  - unfold Input.fromBufferReader, input_bytes.
    apply reads_bind with (v := Input.prevTxId i).
    { rewrite <-(rev_involutive (Input.prevTxId i)) at 2. by apply reads_readReverse. }
    apply reads_bind with (v := Input.outputIndex i); [by apply reads_u32|].
    apply reads_bind with (v := Input._scriptBuffer i); [apply reads_var_buffer; lia|].
    rewrite <-(app_nil_r (le4 (Input.sequenceNumber i))).
    apply reads_bind with (v := Input.sequenceNumber i); [by apply reads_u32|apply reads_ret].
Qed.

(** Sequences of items. *)
Lemma each_codec {A B} (f : A -> BufferWriter.t -> result BufferWriter.t) (m : js BufferReader.t B)
    (g : A -> B) (bytes_of : A -> list Z) (l : list A) :
  Forall (fun x => writes (f x) (bytes_of x) /\ reads m (bytes_of x) (g x)) l ->
  writes (each_write f l) (l ≫= bytes_of)
  /\ forall fuel, (length l <= fuel)%nat -> reads (read_times fuel (zlen l) m) (l ≫= bytes_of) (g <$> l).
Proof.
  induction 1 as [|x l [Hw Hr] _ [IHw IHr]]; split.
  - apply writes_ret.
  - intros [|fuel] _; apply reads_ret.
  - by apply writes_bind.
  - intros [|fuel] Hf; cbn [length] in Hf; [lia|]. cbn [read_times mbind list_bind fmap list_fmap].
    rewrite zlen_cons. pose proof (zlen_nonneg l). rewrite (proj2 (Z.leb_gt _ 0)) by lia.
    apply reads_bind with (v := g x); [done|]. replace (1 + zlen l - 1) with (zlen l) by lia.
    rewrite <-(app_nil_r (mbind bytes_of l)). apply reads_bind with (v := g <$> l); [apply IHr; lia|apply reads_ret].
Qed.

Lemma tx_writes x : wf_tx x -> writes (toBufferWriter x) (tx_bytes x).
Proof.
  intros (Hv & Hl & Hi & Ho & Hni & Hno).
  destruct (each_codec Input.toBufferWriter Input.fromBufferReader strip_input input_bytes (inputs x)) as [Hwi _].
  { eapply Forall_impl; [done|]. apply input_codec. }
  destruct (each_codec Output.toBufferWriter Output.fromBufferReader strip_output output_bytes (outputs x)) as [Hwo _].
  { eapply Forall_impl; [done|]. apply output_codec. }
  pose proof (zlen_nonneg (inputs x)). pose proof (zlen_nonneg (outputs x)).
  unfold toBufferWriter. fold (zlen (inputs x)) (zlen (outputs x)).
  apply writes_bind; [by apply writes_u32|]. apply writes_bind; [apply writes_varint; lia|].
  apply writes_bind; [done|]. apply writes_bind; [apply writes_varint; lia|]. apply writes_bind; [done|by apply writes_u32].
Qed.

Lemma toBuffer_bytes x : wf_tx x -> toBuffer x = Ok (tx_bytes x).
Proof. intros. by apply (writes_concat (toBufferWriter x)), tx_writes. Qed.

Lemma each_length {A} (bytes_of : A -> list Z) (l : list A) :
  (forall x, 1 <= zlen (bytes_of x)) -> zlen l <= zlen (l ≫= bytes_of).
Proof.
  intros Hb. induction l as [|x l IH]; [done|]. change ((x :: l) ≫= bytes_of) with (bytes_of x ++ (l ≫= bytes_of)).
  rewrite zlen_cons, zlen_app. specialize (Hb x). lia.
Qed.

Lemma zlen_le4 n : zlen (le4 n) = 4.
Proof. done. Qed.

Lemma input_bytes_length i : 1 <= zlen (input_bytes i).
Proof.
  unfold input_bytes. rewrite !zlen_app, !zlen_le4.
  pose proof (zlen_nonneg (rev (Input.prevTxId i))). pose proof (zlen_nonneg (Input._scriptBuffer i)).
  pose proof (zlen_nonneg (varint_bytes (zlen (Input._scriptBuffer i)))). lia.
Qed.

Lemma output_bytes_length o : 1 <= zlen (output_bytes o).
Proof.
  unfold output_bytes. rewrite !zlen_app, zlen_varint_bytes. pose proof (varint_size_bound (zlen (Output._scriptBuffer o))).
  pose proof (zlen_nonneg (Output._scriptBuffer o)). pose proof (zlen_nonneg (u64_bytes (Output._satoshisBN o))). lia.
Qed.

(** A reader that stands before a byte has not finished. *)
Lemma not_finished r l : ReaderLemmas.at_ r l -> 1 <= zlen l -> BufferReader.finished r = false.
Proof.
  intros Hat Hl. pose proof (ReaderLemmas.at_len _ _ Hat). unfold BufferReader.finished, BufferReader.eof.
  rewrite Z.geb_leb. apply Z.leb_gt. lia.
Qed.

Lemma tx_bytes_length x : 1 <= zlen (tx_bytes x) /\ zlen (inputs x) + zlen (outputs x) <= zlen (tx_bytes x).
Proof.
  pose proof (each_length input_bytes (inputs x) input_bytes_length).
  pose proof (each_length output_bytes (outputs x) output_bytes_length).
  unfold tx_bytes. rewrite !zlen_app, !zlen_le4, !zlen_varint_bytes. pose proof (varint_size_bound (zlen (inputs x))).
  pose proof (varint_size_bound (zlen (outputs x))). pose proof (zlen_nonneg (inputs x)). pose proof (zlen_nonneg (outputs x)). lia.
Qed.

Lemma tx_reads x : wf_tx x -> reads fromBufferReader (tx_bytes x) (strip x).
Proof.
  intros (Hv & Hl & Hi & Ho & Hni & Hno) r k Hat.
  destruct (each_codec Input.toBufferWriter Input.fromBufferReader strip_input input_bytes (inputs x)) as [_ Hri].
  { eapply Forall_impl; [done|]. apply input_codec. }
  destruct (each_codec Output.toBufferWriter Output.fromBufferReader strip_output output_bytes (outputs x)) as [_ Hro].
  { eapply Forall_impl; [done|]. apply output_codec. }
  pose proof (zlen_nonneg (inputs x)). pose proof (zlen_nonneg (outputs x)).
  destruct (tx_bytes_length x) as [Hpos Hsize]. pose proof (ReaderLemmas.at_len _ _ Hat) as Hlen. rewrite zlen_app in Hlen. pose proof (zlen_nonneg k).
  assert (0 <= BufferReader.pos r) as Hp by apply Hat.
  assert (length (inputs x) <= S (length (BufferReader.buf r)) /\ length (outputs x) <= S (length (BufferReader.buf r)))%nat as [Hfi Hfo]
    by (unfold zlen in *; lia).
  unfold fromBufferReader. js_look. rewrite (not_finished r _ Hat) by (rewrite zlen_app; lia). rewrite (js_lift_ok _ _ _ tt eq_refl).
  cbv beta zeta. match goal with |- ?m r = _ => enough (reads m (tx_bytes x) (strip x)) as Hr by exact (Hr r k Hat) end. unfold tx_bytes.
  apply reads_bind with (v := version x); [by apply reads_u32|].
  apply reads_bind with (v := zlen (inputs x)); [apply reads_varint; lia|].
  apply reads_bind with (v := strip_input <$> inputs x); [by apply Hri|].
  apply reads_bind with (v := zlen (outputs x)); [apply reads_varint; lia|].
  apply reads_bind with (v := strip_output <$> outputs x); [by apply Hro|].
  rewrite <-(app_nil_r (le4 (nLockTime x))).
  apply reads_bind with (v := nLockTime x); [by apply reads_u32|apply reads_ret].
Qed.

Lemma fromBuffer_bytes x : wf_tx x -> zlen (tx_bytes x) < 2 ^ 31 -> fromBuffer (tx_bytes x) = Ok (strip x).
Proof. intros Hwf. by apply reads_fresh, tx_reads. Qed.

(** Only the wire fields matter for the bytes. *)
Lemma shallowCopy_strip x : wf_tx x -> zlen (tx_bytes x) < 2 ^ 31 -> shallowCopy x = Ok (strip x).
Proof. intros. unfold shallowCopy. rewrite toBuffer_bytes by done. by apply fromBuffer_bytes. Qed.
End WireFormat.

(** ** Lemmas: what a signature commits to *)
Module SighashLemmas.
Import Transaction Sighash WireFormat.

(** A script that survives [new Input(input)]. *)
Definition parseable (b : list Z) : Prop :=
  exists s b', Script.fromBuffer b = Ok s /\ Script.toBuffer s = Ok b'.

(** A subscript, its bytes once copied and rid of code separators. *)
Definition subscript_bytes (sub : Script.t) (b : list Z) : Prop :=
  exists s, Script_copy sub = Ok s /\ Script.toBuffer (Script.removeCodeseparators s) = Ok b
    /\ bytes_ok b /\ zlen b < 2 ^ 30.

(** The k-th input as it is hashed for a signature of input [n]. *)
Definition sig_input (ty : Z) (n : nat) (subb : list Z) (k : nat) (i : Input.t) : Input.t :=
  Input.mk None (Input.prevTxId i) (Input.outputIndex i)
    (if (is_none ty || is_single ty) && negb (bool_decide (k = n)) then 0 else Input.sequenceNumber i)
    (if bool_decide (k = n) then subb else []) None Input.Base.

Definition sig_inputs (ty : Z) (n : nat) (subb : list Z) (is_ : list Input.t) : list Input.t :=
  if anyone_can_pay ty
  then match is_ !! n with Some i => [sig_input ty n subb n i] | None => [] end
  else imap (sig_input ty n subb) is_.

(** The transaction as it is hashed. *)
Definition sig_tx (x : t) (ty : Z) (n : nat) (subb : list Z) : t :=
  mk (version x) (sig_inputs ty n subb (inputs x)) (strip_output <$> sighash_outputs ty n (outputs x))
     (nLockTime x) None None None None None.

Definition blank0 (i : Input.t) : Input.t :=
  Input.mk None (Input.prevTxId i) (Input.outputIndex i) (Input.sequenceNumber i) [] (Some Script.empty) Input.Base.

Lemma blank_strip i : parseable (Input._scriptBuffer i) -> blank Script.empty (strip_input i) = Ok (blank0 i).
Proof.
  intros (s & b' & Hs & Hb). unfold blank, Input.copy, Input.script, strip_input. cbn [Input._script Input._scriptBuffer].
  rewrite Hs. cbn [mbind result_bind]. unfold Input.setScript. rewrite Hb. done.
Qed.

Lemma map_blank is_ : Forall (fun i => parseable (Input._scriptBuffer i)) is_ ->
  map_result (blank Script.empty) (strip_input <$> is_) = Ok (blank0 <$> is_).
Proof.
  induction 1 as [|i is_ Hi _ IH]; [done|]. rewrite !fmap_cons. cbn [map_result].
  by rewrite (blank_strip i Hi), IH.
Qed.

Lemma sighash_inputs_eq ty n sub subb is_ i :
  Forall (fun i => parseable (Input._scriptBuffer i)) is_ -> is_ !! n = Some i -> Script.toBuffer sub = Ok subb ->
  exists is', sighash_inputs ty n sub (strip_input <$> is_) = Ok is' /\ strip_input <$> is' = sig_inputs ty n subb is_.
Proof.
  intros Hp Hn Hsub. unfold sighash_inputs. rewrite map_blank by done. cbn [mbind result_bind].
  rewrite list_lookup_fmap, Hn. cbn [fmap option_fmap option_map].
  assert (blank sub (blank0 i) = Ok (Input.mk None (Input.prevTxId i) (Input.outputIndex i) (Input.sequenceNumber i)
            subb (Some sub) Input.Base)) as ->.
  { unfold blank, Input.copy, Input.script, blank0. cbn. unfold Input.setScript. cbn. by rewrite Hsub. }
  cbn [mbind result_bind]. eexists. split; [done|]. unfold sig_inputs.
  set (is1 := <[n := _]> (blank0 <$> is_)). set (is2 := if is_none ty || is_single ty then _ else _).
  assert (strip_input <$> is2 = imap (sig_input ty n subb) is_) as Hall.
  { apply list_eq. intros k. rewrite list_lookup_fmap, list_lookup_imap.
    assert (is1 !! k = if bool_decide (k = n) then Some (Input.mk None (Input.prevTxId i) (Input.outputIndex i)
              (Input.sequenceNumber i) subb (Some sub) Input.Base) else blank0 <$> is_ !! k) as H1.
    { subst is1. case_bool_decide; subst.
      - apply list_lookup_insert_eq. rewrite length_fmap. by apply lookup_lt_Some in Hn.
      - rewrite list_lookup_insert_ne by done. by rewrite list_lookup_fmap. }
    subst is2. destruct (is_none ty || is_single ty) eqn:Hc; rewrite ?list_lookup_imap, H1; unfold sig_input;
      rewrite Hc; case_bool_decide; subst; rewrite ?Hn; [done| |done|]; by destruct (is_ !! k). }
  destruct (anyone_can_pay ty); [|done].
  assert (strip_input <$> is2 !! n = Some (sig_input ty n subb n i)) as H2.
  { rewrite <-list_lookup_fmap, Hall, list_lookup_imap, Hn. done. }
  rewrite Hn. destruct (is2 !! n) as [j|]; [|done]. apply (inj Some) in H2. by rewrite <-H2.
Qed.

Lemma bind_strip {A} (f : A -> list Z) (g : A -> A) (l : list A) : (forall x, f (g x) = f x) -> (g <$> l) ≫= f = l ≫= f.
Proof.
  intros Hfg. induction l as [|x l IH]; [done|]. rewrite fmap_cons.
  change ((g x :: (g <$> l)) ≫= f) with (f (g x) ++ ((g <$> l) ≫= f)). by rewrite Hfg, IH.
Qed.

Lemma zlen_fmap {A B} (f : A -> B) l : zlen (f <$> l) = zlen l.
Proof. unfold zlen. by rewrite length_fmap. Qed.

(** The bytes depend on the wire fields only. *)
Lemma tx_bytes_strip x : tx_bytes (strip x) = tx_bytes x.
Proof. unfold tx_bytes, strip. cbn. by rewrite !zlen_fmap, !bind_strip. Qed.

Lemma Forall_strip {A} (P : A -> Prop) (g : A -> A) l : (forall x, P (g x) -> P x) -> Forall P (g <$> l) -> Forall P l.
Proof. intros HP. rewrite Forall_fmap. intros H. eapply Forall_impl; [exact H|]. apply HP. Qed.

Lemma sighash_outputs_strip ty n os :
  strip_output <$> sighash_outputs ty n (strip_output <$> os) = strip_output <$> sighash_outputs ty n os.
Proof.
  unfold sighash_outputs. destruct (is_none ty); [done|]. rewrite <-fmap_take.
  destruct (is_single ty).
  - apply list_eq. intros k. rewrite !list_lookup_fmap, !list_lookup_imap, list_lookup_fmap.
    destruct (take (S n) os !! k); [|done]. cbn. by case_bool_decide.
  - by rewrite <-list_fmap_compose.
Qed.

Lemma wf_sighash_outputs ty n os : Forall wf_output os -> Forall wf_output (sighash_outputs ty n os).
Proof.
  intros H. unfold sighash_outputs. destruct (is_none ty); [done|]. destruct (is_single ty); [|done].
  rewrite Forall_lookup in *. intros k o. rewrite list_lookup_imap.
  destruct (take (S n) os !! k) as [o'|] eqn:Hk; [|done]. cbn. intros [= <-]. case_bool_decide.
  - repeat split; cbn; try lia; done.
  - apply lookup_take_Some in Hk as [Hk _]. by eapply H.
Qed.

Lemma length_sighash_outputs ty n os : zlen (sighash_outputs ty n os) <= zlen os.
Proof.
  unfold sighash_outputs, zlen. destruct (is_none ty); [cbn; lia|]. destruct (is_single ty); [|done].
  rewrite length_imap, length_take. lia.
Qed.

Lemma wf_sig_inputs ty n subb is_ : Forall wf_input is_ -> bytes_ok subb -> zlen subb < 2 ^ 30 ->
  Forall wf_input (sig_inputs ty n subb is_) /\ zlen (sig_inputs ty n subb is_) <= zlen is_.
Proof.
  intros H Hok Hlen. assert (forall k i, wf_input i -> wf_input (sig_input ty n subb k i)) as Hwf.
  { intros k i. unfold wf_input, sig_input, u32. cbn. intros.
    destruct (is_none ty || is_single ty), (bool_decide (k = n)); cbn; intuition (done || lia). }
  unfold sig_inputs. destruct (anyone_can_pay ty).
  - destruct (is_ !! n) as [i|] eqn:Hn; [|split; [done|apply zlen_nonneg]].
    split; [apply Forall_singleton, Hwf; by eapply Forall_lookup in Hn|].
    apply lookup_lt_Some in Hn. unfold zlen. cbn [length]. lia.
  - split; [|unfold zlen; by rewrite length_imap]. rewrite Forall_lookup in *. intros k i.
    rewrite list_lookup_imap. destruct (is_ !! k) eqn:Hk; [|done]. cbn. intros [= <-]. by eapply Hwf, H.
Qed.

Section Sighash.
Context `{Crypto}.

Lemma sighash_eq x ty n sub subb i :
  wf_tx x -> zlen (tx_bytes x) < 2 ^ 31 -> Forall (fun i => parseable (Input._scriptBuffer i)) (inputs x) ->
  inputs x !! n = Some i -> subscript_bytes sub subb -> 0 <= ty < 2 ^ 31 ->
  sighash x ty n sub =
    Ok (if is_single ty && (length (outputs x) <=? n)%nat then SIGHASH_SINGLE_BUG
        else rev (sha256sha256 (tx_bytes (sig_tx x ty n subb) ++ le4 ty))).
Proof.
  intros Hwf Hlen Hp Hn (s & Hs & Hsub & Hsok & Hslen) Hty. unfold sighash. rewrite shallowCopy_strip by done.
  cbn [mbind result_bind]. rewrite Hs. cbn [mbind result_bind outputs inputs strip]. rewrite length_fmap.
  destruct (is_single ty && (length (outputs x) <=? n)%nat); [by rewrite map_blank|].
  destruct (sighash_inputs_eq ty n (Script.removeCodeseparators s) subb (inputs x) i) as (is' & His' & Hstrip); [done..|].
  unfold preimage. cbn [inputs outputs strip]. rewrite His'. cbn [mbind result_bind].
  destruct Hwf as (Hv & Hl & Hi & Ho & Hni & Hno).
  destruct (wf_sig_inputs ty n subb (inputs x)) as [Hwi Hwl]; [done..|].
  match goal with |- context [toBuffer ?z] => set (y := z) end.
  assert (strip y = sig_tx x ty n subb) as Hy.
  { subst y. unfold strip, sig_tx, upd. cbn. rewrite Hstrip, sighash_outputs_strip. done. }
  rewrite toBuffer_bytes.
  2:{ subst y. unfold wf_tx, upd. cbn. repeat split; try apply Hv; try apply Hl.
      - apply (Forall_strip _ strip_input); [done|]. by rewrite Hstrip.
      - apply wf_sighash_outputs. apply Forall_fmap. eapply Forall_impl; [exact Ho|]. done.
      - rewrite <-(zlen_fmap strip_input), Hstrip. lia.
      - pose proof (length_sighash_outputs ty n (strip_output <$> outputs x)) as Hle. rewrite zlen_fmap in Hle. lia. }
  cbn [mbind result_bind]. unfold Buf.writeInt32LE. rewrite checkInt_ok by lia. cbn [mbind result_bind].
  by rewrite <-tx_bytes_strip, Hy.
Qed.
End Sighash.
End SighashLemmas.

(** ** Lemmas: signing pay-to-public-key-hash inputs *)

(** What the signature scheme promises: signatures verify under their key, and keys are
    encoded in compressed form. *)
Class EcdsaLaws `{Crypto} `{Ecdsa} := {
  verify_sign h k : ecdsa_verify h (ecdsa_sign h k) (toPublicKey k) = true;
  sign_ok h k : bytes_ok (ecdsa_sign h k);
  pub_ok k : bytes_ok (toPublicKey k);
  pub_length k : zlen (toPublicKey k) = 33;
  pub_valid k : PublicKey_isValid (toPublicKey k) = true;
}.

Module SigningLemmas.
Import Codec Transaction Sighash WireFormat SighashLemmas Signing.
Section SignP2pkh.
Context `{CryptoLaws} `{Ecdsa} `{!EcdsaLaws}.

(** The script paying to a key hash. *)
Definition p2pkh_script (h : list Z) (net : option network) : Script.t :=
  Script.mk [Script.mkChunk 118 None; Script.mkChunk 169 None; Script.mkChunk 20 (Some (h, 20));
             Script.mkChunk 136 None; Script.mkChunk 172 None] net.

Lemma p2pkh_copy h net : zlen h = 20 -> bytes_ok h -> Script_copy (p2pkh_script h net) = Ok (p2pkh_script h None).
Proof.
  intros Hlen Hok. unfold Script_copy. unfold p2pkh_script at 1. rewrite p2pkh_bytes. cbn [mbind result_bind].
  destruct (ScriptLemmas.fromBuffer_toBuffer (Script.chunks (p2pkh_script h None))) as (b & Hb & Hp).
  { repeat (apply Forall_cons; split); try apply Forall_nil; try done; unfold ScriptLemmas.wf_chunk; cbn [Script.push Script.opcodenum];
      first [right; lia|split; [done|left; lia]]. }
  unfold p2pkh_script in Hb. cbn [Script.chunks] in Hb. rewrite p2pkh_bytes in Hb. injection Hb as <-.
  apply Hp. rewrite !zlen_cons, zlen_app, Hlen. done.
Qed.

Lemma p2pkh_subscript h net : zlen h = 20 -> bytes_ok h -> exists b, subscript_bytes (p2pkh_script h net) b.
Proof.
  intros Hlen Hok. exists (118 :: 169 :: 20 :: h ++ [136; 172]), (p2pkh_script h None).
  split; [by apply p2pkh_copy|split; [apply p2pkh_bytes|split]].
  - repeat (apply Forall_cons; split; [unfold byte_ok; lia|]). apply Forall_app. split; [done|].
    repeat (apply Forall_cons; split; [unfold byte_ok; lia|]). done.
  - rewrite !zlen_cons, zlen_app, Hlen. done.
Qed.

(** An input ready to be signed by [key]: P2PKH, spending an output paid to the key's hash. *)
Definition signable (key : PrivateKey) (i : Input.t) : Prop :=
  Input.kind i = Input.PublicKeyHash /\
  exists o net, Input.output i = Some o /\ Output.script o = Ok (p2pkh_script (sha256ripemd160 (toPublicKey key)) net).

(** The script of a signed input. *)
Definition signed_script (key : PrivateKey) (der : list Z) (ty : Z) : Script.t :=
  Script.mk [Script.mkChunk (zlen der + 1) (Some (der ++ [ty], zlen der + 1));
             Script.mkChunk 33 (Some (toPublicKey key, 33))] None.

Lemma build_signed_script key der ty : 8 <= zlen der <= 72 -> 1 <= ty < 256 ->
  Script.buildPublicKeyHashIn (toPublicKey key) der (Some ty) = Ok (signed_script key der ty).
Proof.
  intros Hder Hty. unfold Script.buildPublicKeyHashIn.
  assert (match ty with 0 => 1 | _ => ty end = ty) as -> by (destruct ty; [lia|done..]).
  rewrite Z.mod_small by lia. unfold Script.adds, Script.add, Script.addByType, Script.addBuffer.
  assert (zlen (der ++ [ty]) = zlen der + 1) as -> by (rewrite zlen_app; done).
  rewrite (pub_length key). unfold Opcode.OP_PUSHDATA1.
  rewrite (proj2 (Z.leb_le 0 (zlen der + 1))), (proj2 (Z.ltb_lt (zlen der + 1) 76)) by lia. done.
Qed.

Definition signed_bytes (key : PrivateKey) (der : list Z) (ty : Z) : list Z :=
  zlen der + 1 :: (der ++ [ty]) ++ 33 :: toPublicKey key.

Lemma signed_script_bytes key der ty : 8 <= zlen der <= 72 ->
  Script.toBuffer (signed_script key der ty) = Ok (signed_bytes key der ty).
Proof.
  intros Hder. unfold signed_script. apply prints_push; [lia|]. rewrite <-(app_nil_r (toPublicKey key)) at 2.
  apply prints_push; [lia|done].
Qed.

Lemma signed_bytes_ok key der ty : 8 <= zlen der <= 72 -> bytes_ok der -> 1 <= ty < 256 ->
  bytes_ok (signed_bytes key der ty) /\ zlen (signed_bytes key der ty) <= 108 /\ parseable (signed_bytes key der ty).
Proof.
  intros Hder Hok Hty.
  assert (zlen (signed_bytes key der ty) = zlen der + 36) as Hlen.
  { unfold signed_bytes. rewrite zlen_cons, !zlen_app, !zlen_cons, pub_length. change (zlen (@nil Z)) with 0. lia. }
  split; [|split; [lia|]].
  - unfold signed_bytes. apply Forall_cons; split; [unfold byte_ok; lia|]. apply Forall_app; split.
    + apply Forall_app; split; [done|]. apply Forall_singleton. unfold byte_ok; lia.
    + apply Forall_cons; split; [unfold byte_ok; lia|]. apply pub_ok.
  - destruct (ScriptLemmas.fromBuffer_toBuffer (Script.chunks (signed_script key der ty))) as (b & Hb & Hp).
    { repeat (apply Forall_cons; split); try apply Forall_nil; try done; unfold ScriptLemmas.wf_chunk; cbn [Script.push Script.opcodenum].
      - split; [rewrite zlen_app; done|left; lia].
      - split; [apply pub_length|left; lia]. }
    change (Script.mk (Script.chunks (signed_script key der ty)) None) with (signed_script key der ty) in *.
    rewrite signed_script_bytes in Hb by done. injection Hb as <-.
    exists (signed_script key der ty), (signed_bytes key der ty). split; [apply Hp; lia|by apply signed_script_bytes].
Qed.

Lemma signed_isPublicKeyHashIn key der ty : 8 <= zlen der <= 72 ->
  Script.isPublicKeyHashIn (signed_script key der ty) = (71 <=? zlen (der ++ [ty])).
Proof.
  intros. unfold Script.isPublicKeyHashIn, Script.buf_is. cbn. rewrite pub_valid, Z.geb_leb, andb_true_r, zlen_app.
  change (zlen [ty]) with 1. by rewrite (proj2 (Z.leb_le _ 73)), andb_true_r by lia.
Qed.

(** A transaction ready for hashing: well formed, with short parseable input scripts, and
    small enough whatever signature scripts its inputs get. *)
Definition short_script (b : list Z) : Prop := bytes_ok b /\ zlen b <= 300 /\ parseable b.

Definition hashable (x : t) : Prop :=
  wf_tx x /\ Forall (fun i => short_script (Input._scriptBuffer i)) (inputs x)
  /\ zlen (outputs x ≫= output_bytes) + 400 * zlen (inputs x) < 2 ^ 30.

Lemma hashable_size x : hashable x -> zlen (tx_bytes x) < 2 ^ 31.
Proof.
  intros (Hwf & Hs & Hlen). destruct Hwf as (_ & _ & Hi & _).
  assert (zlen (inputs x ≫= input_bytes) <= 400 * zlen (inputs x)) as Hin.
  { clear Hlen. induction (inputs x) as [|i l IH]; [done|]. apply Forall_cons in Hs as [[_ [Hi1 _]] Hs].
    apply Forall_cons in Hi as [(Hid & _) Hi].
    change ((i :: l) ≫= input_bytes) with (input_bytes i ++ (l ≫= input_bytes)). rewrite zlen_app, zlen_cons.
    specialize (IH Hi Hs). unfold input_bytes at 1. rewrite !zlen_app, !zlen_le4, zlen_varint_bytes.
    assert (zlen (rev (Input.prevTxId i)) = 32) as -> by (unfold zlen in *; by rewrite length_rev).
    pose proof (varint_size_bound (zlen (Input._scriptBuffer i))). lia. }
  unfold tx_bytes. rewrite !zlen_app, !zlen_le4, !zlen_varint_bytes.
  pose proof (varint_size_bound (zlen (inputs x))). pose proof (varint_size_bound (zlen (outputs x))). lia.
Qed.

(** Replace the script of input [k]. *)
Definition resign (k : nat) (b : list Z) (s : Script.t) (x : t) : t :=
  x <| inputs ::= alter (fun i => i <| Input._script := Some s |> <| Input._scriptBuffer := b |>) k |>.

Lemma hashable_resign k b s x : hashable x -> short_script b -> hashable (resign k b s x).
Proof.
  intros (Hwf & Hs & Hlen) Hb. destruct Hwf as (Hv & Hl & Hi & Ho & Hni & Hno). unfold hashable, wf_tx, resign, upd. cbn.
  assert (zlen (alter (fun i => Input.mk (Input.output i) (Input.prevTxId i) (Input.outputIndex i) (Input.sequenceNumber i)
            b (Some s) (Input.kind i)) k (inputs x)) = zlen (inputs x)) as Hz by (unfold zlen; by rewrite length_alter).
  rewrite Hz. split; [|split; [|done]]; [split_and!; try done|].
  - apply Forall_alter; [done|]. intros i Hk Hw. destruct Hw as (? & ? & ? & ? & _). destruct Hb as (? & ? & _).
    unfold wf_input. cbn. split_and!; try done. lia.
  - apply Forall_alter; [done|]. done.
Qed.

Lemma sig_tx_resign k b s x ty n subb : sig_tx (resign k b s x) ty n subb = sig_tx x ty n subb.
Proof.
  unfold sig_tx, resign, upd. cbn. f_equal. unfold sig_inputs. destruct (anyone_can_pay ty).
  - destruct (decide (k = n)) as [->|].
    + rewrite list_lookup_alter_eq. by destruct (inputs x !! n).
    + by rewrite list_lookup_alter_ne.
  - apply list_eq. intros j. rewrite !list_lookup_imap. destruct (decide (k = j)) as [->|].
    + rewrite list_lookup_alter_eq. by destruct (inputs x !! j).
    + by rewrite list_lookup_alter_ne.
Qed.

Lemma resign_lookup k b s x n : inputs (resign k b s x) !! n =
  (if bool_decide (k = n) then (fun i => i <| Input._script := Some s |> <| Input._scriptBuffer := b |>) <$> inputs x !! n
   else inputs x !! n).
Proof.
  unfold resign, upd. cbn. case_bool_decide; subst; [by rewrite list_lookup_alter_eq|by rewrite list_lookup_alter_ne].
Qed.

(** An input without its script, and a transaction but for its input scripts *)
Definition unscript (i : Input.t) : Input.t := i <| Input._script := None |> <| Input._scriptBuffer := [] |>.
Definition same_but_scripts (y x : t) : Prop :=
  y <| inputs := [] |> = x <| inputs := [] |> /\ unscript <$> inputs y = unscript <$> inputs x.

#[local] Instance same_but_scripts_trans : Transitive same_but_scripts.
Proof. intros a b c [] []. split; congruence. Qed.

Lemma resign_same k b s x : same_but_scripts (resign k b s x) x.
Proof.
  split; [done|]. apply list_eq. intros n. rewrite !list_lookup_fmap, resign_lookup. case_bool_decide; [|done].
  by destruct (inputs x !! n).
Qed.

(** Input scripts do not influence what is signed. *)
Lemma sighash_resign k b s x ty n sub subb i : hashable x -> short_script b -> inputs x !! n = Some i ->
  subscript_bytes sub subb -> 0 <= ty < 2 ^ 31 ->
  sighash (resign k b s x) ty n sub = sighash x ty n sub.
Proof.
  intros Hx Hb Hn Hsub Hty. pose proof (hashable_resign k b s x Hx Hb) as Hy.
  assert (exists i', inputs (resign k b s x) !! n = Some i') as [i' Hi'].
  { rewrite resign_lookup, Hn. case_bool_decide; eauto. }
  assert (forall z, hashable z -> Forall (fun i => parseable (Input._scriptBuffer i)) (inputs z)) as Hp.
  { intros z (_ & Hz & _). eapply Forall_impl; [exact Hz|]. by intros ? (_ & _ & ?). }
  rewrite (sighash_eq (resign k b s x) ty n sub subb i'), (sighash_eq x ty n sub subb i); try done;
    try apply Hx; try apply Hy; try (by apply hashable_size); try (by apply Hp).
  by rewrite sig_tx_resign.
Qed.

(** The signature of input [k], whose hash is [h]. *)
Definition sig_of (key : PrivateKey) (ty : Z) (k : nat) (i : Input.t) (h : list Z) : TransactionSignature :=
  mkSig (toPublicKey key) (Input.prevTxId i) (Input.outputIndex i) k (ecdsa_sign h key) ty.

(** The hashes [hs] are those of the inputs of [x], in order. *)
Definition hashes (key : PrivateKey) (ty : Z) (x : t) (hs : list (list Z)) : Prop :=
  length hs = length (inputs x) /\
  forall k i h net, inputs x !! k = Some i -> hs !! k = Some h ->
    sighash x ty k (p2pkh_script (sha256ripemd160 (toPublicKey key)) net) = Ok h.

Definition key_script (key : PrivateKey) (net : option network) : Script.t :=
  p2pkh_script (sha256ripemd160 (toPublicKey key)) net.

Lemma key_subscript key net : exists b, subscript_bytes (key_script key net) b.
Proof. apply p2pkh_subscript; [apply hash160_length|apply hash160_ok]. Qed.

Lemma Script_copy_network key net : Script_copy (key_script key net) = Script_copy (key_script key None).
Proof. done. Qed.

Lemma input_sig key ty x k i h : signable key i -> 0 < ty < 256 ->
  (forall net, sighash x ty k (key_script key net) = Ok h) ->
  input_getSignatures x key k ty i = Ok [sig_of key ty k i h].
Proof.
  intros (Hk & o & net & Ho & Hs) Hty Hh. unfold input_getSignatures. rewrite Hk, Ho. cbn [mbind result_bind].
  rewrite Hs. cbn [mbind result_bind]. unfold Script.getPublicKeyHash, Script.isPublicKeyHashOut. cbn.
  rewrite hash160_length. cbn. rewrite bool_decide_true by done. unfold Sighash.sign.
  fold (key_script key net). by rewrite Hh.
Qed.

(** [getSignatures] returns one signature per input. *)
Lemma each_sigs key ty x : 0 < ty < 256 -> forall is_ hs k, length hs = length is_ -> Forall (signable key) is_ ->
  (forall j i h, is_ !! j = Some i -> hs !! j = Some h -> forall net, sighash x ty (k + j) (key_script key net) = Ok h) ->
  each_signatures x key ty k is_ = Ok (imap (fun j p => sig_of key ty (k + j) (fst p) (snd p)) (zip is_ hs)).
Proof.
  intros Hty. induction is_ as [|i is_ IH]; intros hs k Hlen Hsg Hh; [done|].
  destruct hs as [|h hs]; [done|]. apply Forall_cons in Hsg as [Hi Hsg]. cbn [each_signatures].
  rewrite (input_sig key ty x k i h); [|done|done|]. 2:{ intros net. specialize (Hh 0%nat i h eq_refl eq_refl net). by rewrite Nat.add_0_r in Hh. }
  cbn [mbind result_bind]. rewrite (IH hs (S k)); [|cbn in Hlen; lia|done|].
  2:{ intros j i' h' Hj Hj' net. specialize (Hh (S j) i' h' Hj Hj' net). by rewrite Nat.add_succ_r in Hh. }
  cbn. rewrite Nat.add_0_r. do 2 f_equal. apply imap_ext. intros j p _. cbn. by rewrite Nat.add_succ_r.
Qed.

(** Applying a fresh signature of an input signs it and touches nothing else. *)
Lemma apply_sig key ty x k i h : hashable x -> inputs x !! k = Some i -> signable key i -> 0 < ty < 128 ->
  (forall net, sighash x ty k (key_script key net) = Ok h) -> 8 <= zlen (ecdsa_sign h key) <= 72 ->
  applySignature (sig_of key ty k i h) x =
    (Ok tt, resign k (signed_bytes key (ecdsa_sign h key) ty) (signed_script key (ecdsa_sign h key) ty) x).
Proof.
  intros Hx Hi (Hk & o & net & Ho & Hs) Hty Hh Hder. unfold applySignature. js_run. cbn [sig_of sig_inputIndex].
  rewrite Hi. unfold input_addSignature, isValidSignature, input_subscript. rewrite Hk, Ho, Hs. cbn [mbind result_bind].
  unfold Sighash.verify. cbn [sig_of sig_sigtype sig_inputIndex sig_signature sig_publicKey].
  fold (key_script key net). rewrite Hh. cbn [mbind result_bind]. rewrite verify_sign. cbn [guard_or mbind result_bind].
  rewrite build_signed_script by lia. cbn [mbind result_bind]. unfold Input.setScript. rewrite signed_script_bytes by lia.
  cbn [mbind result_bind]. f_equal. unfold resign, upd. f_equal. cbn.
  apply list_eq. intros j. destruct (decide (k = j)) as [->|Hne].
  - rewrite list_lookup_alter_eq, list_lookup_insert_eq by (by eapply lookup_lt_Some). by rewrite Hi.
  - by rewrite list_lookup_alter_ne, list_lookup_insert_ne.
Qed.

(** Input [j] of [x] carries the key's signature of [x] and the key, for an output paid to it. *)
Definition spent (key : PrivateKey) (ty : Z) (x : t) (j : nat) (i : Input.t) : Prop :=
  exists h o net, 8 <= zlen (ecdsa_sign h key) <= 72 /\ sighash x ty j (key_script key None) = Ok h
  /\ Input.kind i = Input.PublicKeyHash /\ Input.output i = Some o /\ Output.script o = Ok (key_script key net)
  /\ Input._script i = Some (signed_script key (ecdsa_sign h key) ty).

(** The first thing an input's script pushes: the signature, with its type *)
Definition pushed_signature (i : Input.t) : list Z :=
  match Input._script i with Some s => default [] (head (Script.chunks s) ≫= Script.buf) | None => [] end.

(** A DER signature of 70 bytes or more is recognised by the classifier of input scripts, and a shorter
    one is not. *)
Definition recognised (i : Input.t) : bool := 71 <=? zlen (pushed_signature i).

(** Whether a signed input counts as signed *)
Definition sized_input (i : Input.t) : Prop := Input.kind i = Input.PublicKeyHash /\ Input.isFullySigned i = Ok (recognised i).

Lemma spent_signed key ty x j i : spent key ty x j i -> sized_input i.
Proof.
  intros (h & o & net & Hder & _ & Hk & _ & _ & Hs). split; [done|].
  unfold Input.isFullySigned, Input.script, recognised, pushed_signature. rewrite Hk, Hs.
  cbn [mbind result_bind]. by rewrite signed_isPublicKeyHashIn.
Qed.

Lemma resign_spent key ty k x i h : 8 <= zlen (ecdsa_sign h key) <= 72 -> inputs x !! k = Some i -> signable key i ->
  sighash x ty k (key_script key None) = Ok h ->
  let x' := resign k (signed_bytes key (ecdsa_sign h key) ty) (signed_script key (ecdsa_sign h key) ty) x in
  sighash x' ty k (key_script key None) = Ok h -> exists i', inputs x' !! k = Some i' /\ spent key ty x' k i'.
Proof.
  intros Hder Hi (Hk & o & net & Ho & Hs) Hh x' Hh'. unfold x' in *. rewrite resign_lookup, bool_decide_true, Hi by done.
  eexists. split; [reflexivity|]. exists h, o, net. do 5 (split; [done|]). done.
Qed.

Lemma sign_loop key ty : 0 < ty < 128 -> forall is_ hs k x,
  drop k (inputs x) = is_ -> length hs = length is_ -> hashable x -> Forall (signable key) is_ ->
  Forall (fun h => 8 <= zlen (ecdsa_sign h key) <= 72) hs ->
  (forall j i h, is_ !! j = Some i -> hs !! j = Some h -> forall net, sighash x ty (k + j) (key_script key net) = Ok h) ->
  (forall j i, (j < k)%nat -> inputs x !! j = Some i -> spent key ty x j i) ->
  exists y, js_each applySignature (imap (fun j p => sig_of key ty (k + j) (fst p) (snd p)) (zip is_ hs)) x = (Ok tt, y)
    /\ (forall j i, inputs y !! j = Some i -> spent key ty y j i) /\ hashable y /\ same_but_scripts y x.
Proof.
  intros Hty. induction is_ as [|i is_ IH]; intros hs k x Hdrop Hlen Hx Hsg Hder Hh Hdone.
  { exists x. split; [done|]. split; [|by split_and!]. intros j i Hj. apply (Hdone j); [|done].
    apply lookup_lt_Some in Hj. assert (length (drop k (inputs x)) = 0%nat) as H0' by (by rewrite Hdrop).
    rewrite length_drop in H0'. lia. }
  destruct hs as [|h hs]; [done|]. apply Forall_cons in Hsg as [Hi Hsg]. apply Forall_cons in Hder as [Hd Hder].
  assert (inputs x !! k = Some i) as Hk.
  { rewrite <-(Nat.add_0_r k), <-lookup_drop, Hdrop. done. }
  assert (forall net, sighash x ty k (key_script key net) = Ok h) as Hhk.
  { intros net. specialize (Hh 0%nat i h eq_refl eq_refl net). by rewrite Nat.add_0_r in Hh. }
  cbn [zip_with imap js_each fst snd]. unfold mbind at 1, js_bind at 1. rewrite Nat.add_0_r.
  rewrite (apply_sig key ty x k i h) by done. cbv beta iota.
  set (x' := resign k _ _ x).
  destruct (signed_bytes_ok key (ecdsa_sign h key) ty) as (Hb1 & Hb2 & Hb3); [lia|apply sign_ok|lia|].
  assert (short_script (signed_bytes key (ecdsa_sign h key) ty)) as Hshort by (split; [done|split; [lia|done]]).
  destruct (key_subscript key None) as [subb Hsub].
  assert (forall j i', inputs x !! j = Some i' -> sighash x' ty j (key_script key None) = sighash x ty j (key_script key None)) as Hsame'.
  { intros j i' Hj. subst x'. by rewrite (sighash_resign _ _ _ x ty _ _ subb i') by (done || lia). }
  destruct (IH hs (S k) x') as (y & Hy & Hall & Hhash & Hsame); try done.
  - apply list_eq. intros j. rewrite lookup_drop. subst x'. rewrite resign_lookup, bool_decide_false by lia.
    change (is_ !! j) with ((i :: is_) !! S j). rewrite <-Hdrop, lookup_drop. f_equal. lia.
  - by injection Hlen.
  - by apply hashable_resign.
  - intros j i' h' Hj Hj' net. destruct (key_subscript key net) as [b Hb].
    assert (inputs x !! (k + S j)%nat = Some i') as Hlk.
    { rewrite <-lookup_drop, Hdrop. done. }
    subst x'. replace (S k + j)%nat with (k + S j)%nat by lia.
    rewrite (sighash_resign _ _ _ x ty _ _ b i') by (done || lia). by apply (Hh (S j) i' h').
  - intros j i' Hj Hj'. destruct (decide (j = k)) as [->|].
    + destruct (resign_spent key ty k x i h Hd Hk Hi (Hhk None)) as (i2 & Hi2 & Hsi2).
      { fold x'. by rewrite (Hsame' k i Hk). }
      fold x' in Hi2, Hsi2. rewrite Hi2 in Hj'. by injection Hj' as <-.
    + assert (inputs x !! j = Some i') as Hj2 by (subst x'; by rewrite resign_lookup, bool_decide_false in Hj' by lia).
      destruct (Hdone j i') as (h2 & o & net & ? & Hs2 & ?); [lia|done|]. exists h2, o, net. by rewrite (Hsame' j i' Hj2).
  - exists y. split; [|split; [done|split; [done|etransitivity; [exact Hsame|apply resign_same]]]].
    etransitivity; [|exact Hy]. f_equal. apply imap_ext. intros j p _. cbn. by rewrite Nat.add_succ_r.
Qed.

Lemma isFullySigned_all x : Forall sized_input (inputs x) -> isFullySigned x = Ok (forallb recognised (inputs x)).
Proof.
  intros Hall. unfold isFullySigned.
  assert (existsb (fun i => match Input.kind i with Input.Base => true | _ => false end) (inputs x) = false) as ->.
  { induction Hall as [|i l [Hk _] _ IH]; [done|]. cbn. by rewrite Hk. }
  assert (map_result Input.isFullySigned (inputs x) = Ok (map recognised (inputs x))) as ->.
  { induction Hall as [|i l [_ Hs] _ IH]; [done|]. cbn. rewrite Hs. cbn. by rewrite IH. }
  cbn. f_equal. induction (inputs x) as [|i l IH]; [done|]. cbn [map forallb]. apply Forall_cons in Hall as [_ Hall]. by rewrite (IH Hall).
Qed.
End SignP2pkh.
End SigningLemmas.

(** ** Lemmas: amounts, fees and change *)
Module AmountLemmas.
Import Transaction.

(** The output holds [z] satoshis. *)
Definition worth (o : Output.t) (z : Z) : Prop := Output._satoshis o = num_of_Z z /\ 0 <= z.
Definition funded (i : Input.t) (z : Z) : Prop := exists o, Input.output i = Some o /\ worth o z.

Definition sum (zs : list Z) : Z := fold_right Z.add 0 zs.

Lemma sum_nonneg {A} (P : A -> Z -> Prop) l zs : (forall x z, P x z -> 0 <= z) -> Forall2 P l zs -> 0 <= sum zs.
Proof. intros HP. induction 1 as [|x z l zs Hx _ IH]; [done|]. apply HP in Hx. change (sum (z :: zs)) with (z + sum zs). lia. Qed.

Lemma sum_app l k : sum (l ++ k) = sum l + sum k.
Proof. induction l as [|z l IH]; [done|]. change (sum ((z :: l) ++ k)) with (z + sum (l ++ k)). change (sum (z :: l)) with (z + sum l). lia. Qed.

Lemma worth_nonneg o z : worth o z -> 0 <= z.
Proof. by intros []. Qed.

Lemma funded_nonneg i z : funded i z -> 0 <= z.
Proof. by intros (? & _ & []). Qed.

Lemma fold_outputs os zs : Forall2 worth os zs -> forall acc, 0 <= acc -> acc + sum zs < 2 ^ 53 ->
  fold_left (fun acc o => num_add acc (Output.satoshis o)) os (num_of_Z acc) = num_of_Z (acc + sum zs).
Proof.
  induction 1 as [|o z os zs [Ho Hz] Hos IH]; intros acc Ha Hs; cbn [fold_left sum fold_right] in *; [f_equal; lia|].
  fold (sum zs) in *. pose proof (sum_nonneg worth os zs worth_nonneg Hos).
  unfold Output.satoshis at 2. rewrite Ho, num_add_safe, IH by (unfold safe; lia). f_equal. lia.
Qed.

Lemma fold_inputs is_ zs : Forall2 funded is_ zs -> forall acc, 0 <= acc -> acc + sum zs < 2 ^ 53 ->
  sum_inputs (num_of_Z acc) is_ = (num_of_Z (acc + sum zs), true).
Proof.
  induction 1 as [|i z is_ zs (o & Hi & Ho & Hz) His IH]; intros acc Ha Hs; cbn [sum_inputs sum fold_right] in *; [do 2 f_equal; lia|].
  fold (sum zs) in *. pose proof (sum_nonneg funded is_ zs funded_nonneg His).
  rewrite Hi. unfold Output.satoshis. rewrite Ho, num_add_safe, IH by (unfold safe; lia). do 2 f_equal. lia.
Qed.

(** A cache is empty or right. *)
Definition cached (c : option number) (z : Z) : Prop := c = None \/ c = Some (num_of_Z z).

Lemma getOutputAmount_eq x zs : Forall2 worth (outputs x) zs -> sum zs < 2 ^ 53 -> cached (_outputAmount x) (sum zs) ->
  getOutputAmount x = (Ok (num_of_Z (sum zs)), x <| _outputAmount := Some (num_of_Z (sum zs)) |>).
Proof.
  intros Hos Hs Hc. unfold getOutputAmount. js_run. destruct Hc as [->|Hc].
  - by rewrite (fold_outputs _ zs Hos 0) by lia.
  - rewrite Hc. by destruct x; cbn in *; subst.
Qed.

Lemma getInputAmount_eq x zs : Forall2 funded (inputs x) zs -> sum zs < 2 ^ 53 -> cached (_inputAmount x) (sum zs) ->
  getInputAmount x = (Ok (num_of_Z (sum zs)), x <| _inputAmount := Some (num_of_Z (sum zs)) |>).
Proof.
  intros His Hs Hc. unfold getInputAmount. js_run. destruct Hc as [->|Hc].
  - by rewrite (fold_inputs _ zs His 0) by lia.
  - rewrite Hc. by destruct x; cbn in *; subst.
Qed.

(** The two caches filled in. *)
Definition with_caches (a o : Z) (x : t) : t :=
  x <| _inputAmount := Some (num_of_Z a) |> <| _outputAmount := Some (num_of_Z o) |>.

(** A transaction whose amounts add up to [a] in and [o] out, both below 2^51 (all the
    satoshis there will ever be are fewer than that). *)
Definition balanced (x : t) (a o : Z) : Prop :=
  exists ins outs, Forall2 funded (inputs x) ins /\ Forall2 worth (outputs x) outs /\ a = sum ins /\ o = sum outs
    /\ a < 2 ^ 51 /\ o < 2 ^ 51 /\ cached (_inputAmount x) a /\ cached (_outputAmount x) o.

Lemma balanced_bounds x a o : balanced x a o -> 0 <= a < 2 ^ 51 /\ 0 <= o < 2 ^ 51.
Proof.
  intros (ins & outs & Hi & Ho & -> & -> & ? & ? & _).
  pose proof (sum_nonneg funded _ _ funded_nonneg Hi). pose proof (sum_nonneg worth _ _ worth_nonneg Ho). lia.
Qed.

Lemma balanced_caches x a o : balanced x a o -> balanced (with_caches a o x) a o.
Proof.
  intros (ins & outs & Hi & Ho & -> & -> & ? & ? & _). exists ins, outs. unfold with_caches, upd, cached. cbn. repeat split; auto.
Qed.

Lemma getUnspentValue_eq x a o : balanced x a o ->
  getUnspentValue x = (Ok (num_of_Z (a - o)), with_caches a o x).
Proof.
  intros Hb. pose proof (balanced_bounds x a o Hb). destruct Hb as (ins & outs & Hi & Ho & -> & -> & Ha & Hos & Hca & Hco).
  unfold getUnspentValue. unfold mbind, js_bind. rewrite (getInputAmount_eq x ins) by (done || lia).
  rewrite (getOutputAmount_eq _ outs) by (done || lia). unfold mret, js_ret. rewrite num_sub_safe by (unfold safe; lia). done.
Qed.

(** The fee of a transaction of [size] bytes, [a] satoshis being available: a thousand
    satoshis per started kilobyte, a change output being counted when it can be paid for. *)
Definition cdiv (n d : Z) : Z := - (- n / d).
Definition fee_for (size a : Z) : Z :=
  1000 * cdiv (size + if cdiv size 1000 <? a then 62 else 0) 1000.

Lemma cdiv_bounds n : 0 < n -> 0 < cdiv n 1000 <= n.
Proof. intros. unfold cdiv. zlia. Qed.

Lemma estimateFee_of_eq size a : 0 < size < 2 ^ 39 -> safe a -> estimateFee_of size (num_of_Z a) = num_of_Z (fee_for size a).
Proof.
  intros Hs Ha. unfold estimateFee_of, FEE_PER_KB, CHANGE_OUTPUT_MAX_SIZE. cbv zeta.
  rewrite (num_div_ceil size 1000) by lia. fold (cdiv size 1000). pose proof (cdiv_bounds size ltac:(lia)).
  unfold num_gt. rewrite num_lt_safe by (unfold safe in *; lia). unfold fee_for.
  set (size' := size + if cdiv size 1000 <? a then 62 else 0).
  assert ((if cdiv size 1000 <? a then size + (20 + 4 + 34 + 4) else size) = size') as ->
    by (unfold size'; destruct (_ <? _); lia).
  assert (0 < size' < 2 ^ 40) as Hs' by (unfold size'; destruct (_ <? _); lia).
  rewrite num_div_ceil by lia. fold (cdiv size' 1000). pose proof (cdiv_bounds size' ltac:(lia)).
  rewrite num_mul_safe by (unfold safe; lia). f_equal. lia.
Qed.

Lemma fee_for_bounds size a : 0 < size < 2 ^ 39 -> 0 < fee_for size a < 2 ^ 52.
Proof.
  intros Hs. unfold fee_for. destruct (cdiv size 1000 <? a).
  - pose proof (cdiv_bounds (size + 62) ltac:(lia)). lia.
  - pose proof (cdiv_bounds (size + 0) ltac:(lia)). lia.
Qed.

Lemma estimateFee_eq x a o size : balanced x a o -> estimateSize x = Ok size -> 0 < size < 2 ^ 39 ->
  estimateFee x = (Ok (num_of_Z (fee_for size (a - o))), with_caches a o x).
Proof.
  intros Hb Hsz Hs. pose proof (balanced_bounds x a o Hb). unfold estimateFee. js_run. rewrite Hsz.
  rewrite (getUnspentValue_eq x a o Hb). rewrite estimateFee_of_eq by (unfold safe; lia). done.
Qed.

(** *** Pay-to-public-key-hash inputs *)

Definition cleared (i : Input.t) : Input.t := i <| Input._script := Some Script.empty |> <| Input._scriptBuffer := [] |>.
Definition is_p2pkh (i : Input.t) : Prop := Input.kind i = Input.PublicKeyHash.

Lemma clear_each_p2pkh is_ : Forall is_p2pkh is_ -> clear_each is_ = (cleared <$> is_, Ok tt).
Proof.
  induction 1 as [|i is_ Hi _ IH]; [done|]. cbn [clear_each]. unfold Input.clearSignatures. rewrite Hi.
  unfold Input.setScript. cbn [Script.toBuffer Script.empty]. cbn. rewrite IH. done.
Qed.

Lemma sum_sizes_p2pkh is_ acc : Forall is_p2pkh is_ -> sum_sizes Input.estimateSize acc is_ = Ok (acc + 107 * zlen is_).
Proof.
  intros H. revert acc. induction H as [|i is_ Hi _ IH]; intros acc; cbn [sum_sizes].
  - change (zlen (@nil Input.t)) with 0. f_equal. lia.
  - assert (Input.estimateSize i = Ok 107) as -> by (unfold Input.estimateSize; by rewrite Hi).
    cbn [mbind result_bind]. rewrite IH, zlen_cons. f_equal. lia.
Qed.

(** The serialized size of the outputs, each with nine bytes of overhead. *)
Definition outputs_size (os : list Output.t) : result Z :=
  sum_sizes (fun o => s ← Output.script o; b ← Script.toBuffer s; Ok (zlen b + 9)) 0 os.

Lemma sum_sizes_acc {A} (f : A -> result Z) l : forall acc n, sum_sizes f acc l = Ok n <-> sum_sizes f 0 l = Ok (n - acc).
Proof.
  induction l as [|x l IH]; intros acc n; cbn [sum_sizes].
  - split; intros [=]; f_equal; lia.
  - destruct (f x) as [k|]; cbn [mbind result_bind]; [|done]. rewrite (IH (acc + k)), (IH (0 + k)).
    replace (n - (acc + k)) with (n - acc - (0 + k)) by lia. done.
Qed.

Lemma estimateSize_p2pkh x sz : Forall is_p2pkh (inputs x) -> outputs_size (outputs x) = Ok sz ->
  estimateSize x = Ok (26 + 107 * zlen (inputs x) + sz).
Proof.
  intros Hi Ho. unfold estimateSize. rewrite sum_sizes_p2pkh by done. cbn [mbind result_bind].
  apply sum_sizes_acc. unfold MAXIMUM_EXTRA_SIZE.
  by replace (26 + 107 * zlen (inputs x) + sz - (4 + 9 + 9 + 4 + 107 * zlen (inputs x))) with sz by lia.
Qed.

(** The transaction without its present change output. *)
Definition without_change (x : t) : t :=
  match _changeIndex x with
  | Some i => x <| outputs ::= delete i |> <| _outputAmount := None |>
  | None => x
  end.

Definition output_of (z : Z) (s : Script.t) (b : list Z) : Output.t :=
  Output.mk (num_of_Z z) (BN.fromNumber (num_of_Z z)) b (Some s).

Lemma balanced_cleared x a o : balanced x a o -> balanced (x <| inputs ::= fmap cleared |>) a o.
Proof.
  intros (ins & outs & Hi & Ho & Ha & Hoo & ? & ? & Hc & Hc'). exists ins, outs. unfold upd. cbn.
  split; [|by repeat split]. apply Forall2_fmap_l. eapply Forall2_impl; [exact Hi|].
  intros i z (o' & Hio & Hw). by exists o'.
Qed.

(** What [_updateChangeOutput] leaves. *)
Definition change_result (x : t) (cs : Script.t) (csb : list Z) (a o change : Z) : t :=
  let y := with_caches a o ((without_change x) <| inputs ::= fmap cleared |>) in
  if 0 <? change then
    y <| _changeIndex := Some (length (outputs y)) |> <| outputs ::= (fun l => l ++ [output_of change cs csb]) |>
      <| _outputAmount := None |>
  else y <| _changeIndex := None |>.

Lemma updateChangeOutput_eq x cs csb a o sz :
  _changeScript x = Some cs -> Script.toBuffer cs = Ok csb -> _fee x = None -> Forall is_p2pkh (inputs x) ->
  balanced (without_change x) a o -> outputs_size (outputs (without_change x)) = Ok sz -> 0 <= sz < 2 ^ 38 ->
  zlen (inputs x) < 2 ^ 30 ->
  updateChangeOutput x =
    (Ok tt, change_result x cs csb a o (a - o - fee_for (26 + 107 * zlen (inputs x) + sz) (a - o))).
Proof.
  intros Hcs Hcsb Hfee Hk Hb Hsz Hszb Hn. pose proof (zlen_nonneg (inputs x)) as Hn0.
  pose proof (balanced_bounds _ a o Hb) as Hab.
  set (x1 := (without_change x) <| inputs ::= fmap cleared |>).
  assert (balanced x1 a o) as Hb1 by (exact (balanced_cleared _ a o Hb)).
  assert (inputs x1 = cleared <$> inputs x /\ outputs x1 = outputs (without_change x)) as [Hin Hout].
  { unfold x1, without_change, upd. by destruct (_changeIndex x). }
  assert (_changeScript x1 = Some cs /\ _fee x1 = None) as [Hcs1 Hfee1].
  { unfold x1, without_change, upd. by destruct (_changeIndex x). }
  assert (estimateSize x1 = Ok (26 + 107 * zlen (inputs x) + sz)) as Hest.
  { rewrite (estimateSize_p2pkh x1 sz); rewrite ?Hin, ?Hout; [unfold zlen; by rewrite length_fmap| |done].
    apply Forall_fmap. eapply Forall_impl; [exact Hk|]. done. }
  set (size := 26 + 107 * zlen (inputs x) + sz) in *. assert (0 < size < 2 ^ 39) as Hsize by (unfold size; lia).
  pose proof (fee_for_bounds size (a - o) Hsize) as Hfb.
  unfold updateChangeOutput. rewrite (js_bind_ok _ _ x x x) by done. rewrite Hcs.
  rewrite (js_bind_ok _ _ x tt (x <| inputs := cleared <$> inputs x |>)).
  2:{ unfold clearSignatures. js_run. by rewrite clear_each_p2pkh. }
  rewrite (js_bind_ok js_get _ _ _ _ eq_refl).
  rewrite (js_bind_ok _ _ _ tt x1).
  2:{ unfold removeOutput_, x1, without_change. js_run. cbn. destruct (_changeIndex x) eqn:Hci; by rewrite ?Hci. }
  rewrite (js_bind_ok _ _ _ _ _ (getUnspentValue_eq x1 a o Hb1)).
  rewrite (js_bind_ok _ _ _ (num_of_Z (fee_for size (a - o))) (with_caches a o x1)).
  2:{ unfold getFee. rewrite (js_bind_ok js_get _ _ _ _ eq_refl). unfold with_caches at 1 2. unfold upd. cbn [_changeScript _fee].
      rewrite Hcs1, Hfee1. apply (estimateFee_eq (with_caches a o x1)); [by apply balanced_caches|done|done]. }
  cbv zeta. unfold num_gt. rewrite num_sub_safe, num_lt_safe by (unfold safe; lia).
  unfold change_result. fold x1. destruct (0 <? a - o - fee_for size (a - o)); [|done].
  unfold Output.new, Output.setScript. js_run. by rewrite Hcsb.
Qed.
End AmountLemmas.

(** ** Theorems *)
Section TransactionTheorems.
Import Transaction Sighash WireFormat SighashLemmas Signing SigningLemmas AmountLemmas.

(** C30: parsing a serialized transaction gives its wire fields back, and serializing those
    again gives the same bytes. *)
Theorem tx_roundtrip x :
  wf_tx x -> zlen (tx_bytes x) < 2 ^ 31 ->
  exists b, toBuffer x = Ok b /\ fromBuffer b = Ok (strip x) /\ toBuffer (strip x) = Ok b.
Proof.
  intros Hwf Hlen. exists (tx_bytes x). rewrite toBuffer_bytes by done. split; [done|].
  split; [by apply fromBuffer_bytes|]. rewrite toBuffer_bytes, tx_bytes_strip; [done|].
  destruct Hwf as (? & ? & Hi & Ho & ? & ?). unfold wf_tx, strip. cbn. rewrite !zlen_fmap. split_and!; try done.
  - apply Forall_fmap. eapply Forall_impl; [exact Hi|]. done.
  - apply Forall_fmap. eapply Forall_impl; [exact Ho|]. done.
Qed.

Context `{CryptoLaws} `{Ecdsa} `{!EcdsaLaws}.

Lemma hashable_sighash x ty n sub subb i : hashable x -> inputs x !! n = Some i -> subscript_bytes sub subb ->
  0 <= ty < 2 ^ 31 ->
  sighash x ty n sub =
    Ok (if is_single ty && (length (outputs x) <=? n)%nat then SIGHASH_SINGLE_BUG
        else rev (sha256sha256 (tx_bytes (sig_tx x ty n subb) ++ le4 ty))).
Proof.
  intros Hx Hn Hsub Hty. apply (sighash_eq x ty n sub subb i); try done; [apply Hx|by apply hashable_size|].
  destruct Hx as (_ & Hx & _). eapply Forall_impl; [exact Hx|]. by intros ? (_ & _ & ?).
Qed.

(** The fields of an input a signature always commits to. *)
Definition same_outpoint (i j : Input.t) : Prop :=
  Input.prevTxId i = Input.prevTxId j /\ Input.outputIndex i = Input.outputIndex j
  /\ Input.sequenceNumber i = Input.sequenceNumber j.

(** a signature of type ANYONECANPAY|NONE (the server's on the refund, the client's on the
    last payment) commits to one input, the version and the lock time: whatever other inputs
    and outputs the other party puts in, the signed hash is the same. *)
Theorem sighash_none_anyonecanpay x y n m sub subb i j :
  hashable x -> hashable y -> inputs x !! n = Some i -> inputs y !! m = Some j -> same_outpoint i j ->
  version x = version y -> nLockTime x = nLockTime y -> subscript_bytes sub subb ->
  sighash x (Z.lor SIGHASH_ANYONECANPAY SIGHASH_NONE) n sub = sighash y (Z.lor SIGHASH_ANYONECANPAY SIGHASH_NONE) m sub.
Proof.
  intros Hx Hy Hi Hj (Hid & Hoi & Hseq) Hv Hl Hsub.
  rewrite (hashable_sighash x _ n sub subb i), (hashable_sighash y _ m sub subb j) by (done || by vm_compute).
  change (Z.lor SIGHASH_ANYONECANPAY SIGHASH_NONE) with 130. change (is_single 130) with false. cbn [andb].
  do 5 f_equal. unfold sig_tx, sig_inputs, sighash_outputs. change (anyone_can_pay 130) with true.
  change (is_none 130) with true. rewrite Hi, Hj, Hv, Hl. unfold sig_input. rewrite !bool_decide_true by done.
  rewrite !andb_false_r. by rewrite Hid, Hoi, Hseq.
Qed.

(** a signature of type ANYONECANPAY|SINGLE (the client's on every other payment) commits in
    addition to the output at the signed index, and to no other output or input: the server can
    add its own output after the client's change. *)
Theorem sighash_single_anyonecanpay x y n sub subb i j o p :
  hashable x -> hashable y -> inputs x !! n = Some i -> inputs y !! n = Some j -> same_outpoint i j ->
  outputs x !! n = Some o -> outputs y !! n = Some p -> strip_output o = strip_output p ->
  version x = version y -> nLockTime x = nLockTime y -> subscript_bytes sub subb ->
  sighash x (Z.lor SIGHASH_ANYONECANPAY SIGHASH_SINGLE) n sub = sighash y (Z.lor SIGHASH_ANYONECANPAY SIGHASH_SINGLE) n sub.
Proof.
  intros Hx Hy Hi Hj (Hid & Hoi & Hseq) Ho Hp Hop Hv Hl Hsub.
  rewrite (hashable_sighash x _ n sub subb i), (hashable_sighash y _ n sub subb j) by (done || by vm_compute).
  change (Z.lor SIGHASH_ANYONECANPAY SIGHASH_SINGLE) with 131. change (is_single 131) with true. cbn [andb].
  pose proof (lookup_lt_Some _ _ _ Ho) as Hlo. pose proof (lookup_lt_Some _ _ _ Hp) as Hlp.
  rewrite !(proj2 (Nat.leb_gt _ _)) by lia. do 5 f_equal. unfold sig_tx. f_equal; [done| | |done].
  { unfold sig_inputs. change (anyone_can_pay 131) with true. rewrite Hi, Hj. unfold sig_input.
    rewrite !bool_decide_true, !andb_false_r by done. by rewrite Hid, Hoi, Hseq. }
  unfold sighash_outputs. change (is_none 131) with false. change (is_single 131) with true. cbv iota.
  apply list_eq. intros k. rewrite !list_lookup_fmap, !list_lookup_imap.
  destruct (decide (k < S n)%nat) as [Hk|Hk].
  - rewrite !lookup_take_lt by lia. destruct (decide (k = n)) as [->|].
    + rewrite Ho, Hp. cbn. rewrite bool_decide_false by lia. by rewrite Hop.
    + destruct (lookup_lt_is_Some_2 (outputs x) k ltac:(lia)) as [o' ->].
      destruct (lookup_lt_is_Some_2 (outputs y) k ltac:(lia)) as [p' ->]. cbn. by rewrite bool_decide_true by lia.
  - by rewrite !lookup_take_ge by lia.
Qed.

(** Signing a transaction whose inputs all spend outputs paid to the key *)
Lemma sign_p2pkh_spent key x :
  hashable x -> Forall (signable key) (inputs x) ->
  (forall h, 8 <= zlen (ecdsa_sign h key) <= 72) ->
  exists y, Signing.sign key None x = (Ok tt, y) /\ (forall j i, inputs y !! j = Some i -> spent key SIGHASH_ALL y j i)
    /\ hashable y /\ same_but_scripts y x.
Proof.
  intros Hx Hsg Hder. unfold Signing.sign. rewrite (js_bind_ok js_get _ _ _ _ eq_refl).
  rewrite (js_bind_ok _ _ x tt x).
  2:{ unfold js_lift, guard_or, hasAllUtxoInfo. f_equal.
      assert (forallb (fun i => bool_decide (is_Some (Input.output i))) (inputs x) = true) as ->; [|done].
      clear Hx. induction Hsg as [|i l (_ & o & net & Ho & _) _ IH]; [done|]. cbn [forallb]. by rewrite Ho, IH. }
  (* the hashes of all inputs *)
  destruct (key_subscript key None) as [subb Hsub].
  assert (forall net, subscript_bytes (key_script key net) subb) as Hsubn by (intros net; exact Hsub).
  set (hs := imap (fun k _ => rev (sha256sha256 (tx_bytes (sig_tx x SIGHASH_ALL k subb) ++ le4 SIGHASH_ALL))) (inputs x)).
  assert (forall j i h, inputs x !! j = Some i -> hs !! j = Some h ->
            forall net, sighash x SIGHASH_ALL j (key_script key net) = Ok h) as Hh.
  { intros j i h Hj Hjh net. unfold hs in Hjh. rewrite list_lookup_imap, Hj in Hjh. injection Hjh as <-.
    rewrite (hashable_sighash x _ j _ subb i) by (done || by vm_compute). done. }
  assert (length hs = length (inputs x)) as Hlen by (unfold hs; by rewrite length_imap).
  rewrite (js_bind_ok _ _ x (imap (fun j p => sig_of key SIGHASH_ALL (0 + j) (fst p) (snd p)) (zip (inputs x) hs)) x).
  2:{ unfold js_lift. f_equal. unfold getSignatures. by apply each_sigs. }
  assert (Forall (fun h => 8 <= zlen (ecdsa_sign h key) <= 72) hs) as Hders
    by (apply Forall_true; intros h; apply Hder).
  destruct (sign_loop key SIGHASH_ALL ltac:(done) (inputs x) hs 0 x (drop_0 _) Hlen Hx Hsg Hders Hh) as (y & Hy & Hall & Hsame);
    [intros; lia|].
  exists y. split; [exact Hy|]. split; [exact Hall|exact Hsame].
Qed.

Lemma spent_all_signed key ty x : (forall j i, inputs x !! j = Some i -> spent key ty x j i) -> Forall sized_input (inputs x).
Proof. intros Hall. apply Forall_lookup. intros j i Hj. eapply spent_signed. by apply (Hall j). Qed.

(** signing a transaction whose inputs all spend outputs paid to the key signs every input and
    changes nothing but their scripts; [isFullySigned] then holds exactly when every DER signature has
    the 70 bytes the classifier of input scripts expects. *)
Theorem sign_p2pkh_complete key x :
  hashable x -> Forall (signable key) (inputs x) ->
  (forall h, 8 <= zlen (ecdsa_sign h key) <= 72) ->
  exists y, Signing.sign key None x = (Ok tt, y) /\ isFullySigned y = Ok (forallb recognised (inputs y)) /\ same_but_scripts y x.
Proof.
  intros Hx Hsg Hder. destruct (sign_p2pkh_spent key x Hx Hsg Hder) as (y & Hy & Hall & _ & Hsame).
  exists y. split; [exact Hy|]. split; [by eapply isFullySigned_all, spent_all_signed|exact Hsame].
Qed.

(** a DER signature of fewer than 70 bytes (a small [r] or [s]) is valid and accepted, but
    leaves its input "not fully signed": the script classifier wants 71 to 73 bytes. *)
Theorem short_signature_not_recognised key x k i h :
  hashable x -> inputs x !! k = Some i -> signable key i -> 8 <= zlen (ecdsa_sign h key) < 70 ->
  (forall net, sighash x SIGHASH_ALL k (key_script key net) = Ok h) ->
  exists i', input_addSignature x i (sig_of key SIGHASH_ALL k i h) = Ok i' /\ Input.isFullySigned i' = Ok false.
Proof.
  intros Hx Hi (Hk & o & net & Ho & Hs) Hder Hh. unfold input_addSignature, isValidSignature, input_subscript.
  rewrite Hk, Ho, Hs. cbn [mbind result_bind]. unfold Sighash.verify.
  cbn [sig_of sig_sigtype sig_inputIndex sig_signature sig_publicKey]. fold (key_script key net). rewrite Hh.
  cbn [mbind result_bind]. rewrite verify_sign. cbn [guard_or mbind result_bind].
  rewrite build_signed_script by (unfold SIGHASH_ALL; lia). cbn [mbind result_bind]. unfold Input.setScript. rewrite signed_script_bytes by lia.
  eexists. split; [done|]. unfold Input.isFullySigned, Input.script, upd. cbn [Input.kind Input._script]. rewrite Hk.
  cbn [mbind result_bind]. unfold Script.isPublicKeyHashIn, Script.buf_is, signed_script. cbn [Script.chunks Script.buf Script.push fmap option_fmap option_map fst].
  rewrite zlen_app, Z.geb_leb. change (zlen [SIGHASH_ALL]) with 1. by rewrite (proj2 (Z.leb_gt 71 _)) by lia.
Qed.

(** the fee estimate is a thousand satoshis for every started kilobyte, where 62 bytes for a
    change output are added when the available amount exceeds the kilobyte count. *)
Theorem fee_estimate_formula size a :
  0 < size < 2 ^ 39 -> safe a -> estimateFee_of size (num_of_Z a) = num_of_Z (fee_for size a).
Proof. apply estimateFee_of_eq. Qed.

(** after [_updateChangeOutput] on pay-to-public-key-hash inputs, the outputs add up to the
    inputs less the estimated fee when that leaves anything, and there is no change output
    otherwise. *)
Theorem change_output_balances x cs csb a o sz :
  _changeScript x = Some cs -> Script.toBuffer cs = Ok csb -> _fee x = None -> Forall is_p2pkh (inputs x) ->
  balanced (without_change x) a o -> outputs_size (outputs (without_change x)) = Ok sz -> 0 <= sz < 2 ^ 38 ->
  zlen (inputs x) < 2 ^ 30 ->
  let fee := fee_for (26 + 107 * zlen (inputs x) + sz) (a - o) in
  exists y, updateChangeOutput x = (Ok tt, y) /\ inputs y = cleared <$> inputs x /\
    if 0 <? a - o - fee
    then getChangeOutput y = Some (output_of (a - o - fee) cs csb) /\ fst (getUnspentValue y) = Ok (num_of_Z fee)
    else _changeIndex y = None /\ fst (getUnspentValue y) = Ok (num_of_Z (a - o)).
Proof.
  intros Hcs Hcsb Hfee Hk Hb Hsz Hszb Hn fee. pose proof (balanced_bounds _ _ _ Hb) as Hab.
  pose proof (zlen_nonneg (inputs x)) as Hn0.
  assert (0 < 26 + 107 * zlen (inputs x) + sz < 2 ^ 39) as Hsize by lia.
  pose proof (fee_for_bounds _ (a - o) Hsize) as Hfb. fold fee in Hfb.
  eexists. split; [by apply updateChangeOutput_eq|]. fold fee. set (change := a - o - fee).
  assert (balanced (with_caches a o ((without_change x) <| inputs ::= fmap cleared |>)) a o) as Hb1
    by (by apply balanced_caches, (balanced_cleared (without_change x))).
  unfold change_result. set (y := with_caches a o _) in *.
  assert (inputs y = cleared <$> inputs x) as Hin.
  { unfold y, with_caches, without_change, upd. by destruct (_changeIndex x). }
  destruct (Z.ltb_spec 0 change) as [Hc|Hc].
  - split; [done|]. split.
    + unfold getChangeOutput, upd. cbn. by rewrite list_lookup_middle.
    + destruct Hb1 as (ins & outs & Hi & Ho & Ha & Hoo & Hba & Hbo & Hca & Hco).
      rewrite (getUnspentValue_eq _ a (o + change)).
      * cbn [fst]. do 2 f_equal. unfold change. lia.
      * exists ins, (outs ++ [change]). unfold upd. cbn [inputs outputs _inputAmount _outputAmount].
        rewrite sum_app. cbn [sum fold_right]. fold (sum outs). split_and!; try done; try lia.
        -- apply Forall2_app; [done|]. constructor; [|done]. split; [done|lia].
        -- by left.
  - split; [done|]. split; [done|]. rewrite (getUnspentValue_eq _ a o); [done|].
    destruct Hb1 as (ins & outs & Hi & Ho & Ha & Hoo & Hba & Hbo & Hca & Hco). by exists ins, outs.
Qed.

(** the serialization checks never report an overspent transaction as such: the comparison
    of the source is made on the method, not on its result. *)
Theorem overspend_never_reported opts x r y :
  getSerializationError opts x = (Ok r, y) -> r <> Some InvalidOutputAmountSum.
Proof.
  unfold getSerializationError. unfold mbind, js_bind, js_get.
  destruct (isFeeTooLarge x) as [[l|] x1]; [|done]. destruct (isFeeTooSmall x1) as [[s|] x2]; [|done].
  unfold js_lift. destruct (isFullySigned x) as [f|]; [|done]. destruct (has_dust (outputs x)) as [d|]; [|done].
  intros [= <- _]. by repeat case_match.
Qed.
End TransactionTheorems.

(** ** A concrete signature scheme

    Signatures repeat a checksum of the key and the hash; they verify under the key they were
    made with.  It only serves to run the definitions. *)
Definition demo_scheme (len : nat) : Ecdsa := {|
  PrivateKey := Z;
  toPublicKey k := 2 :: repeat (k mod 256) 32;
  ecdsa_sign h k := repeat (checksum (k mod 256 :: h)) len;
  ecdsa_verify h s p := bool_decide (s = repeat (checksum (byte_at p 1 :: h)) len);
|}.
Definition demo_ecdsa : Ecdsa := demo_scheme 71.

Lemma repeat_ok b n : byte_ok b -> bytes_ok (repeat b n).
Proof. intros Hb. apply Forall_forall. intros x Hx%list_elem_of_In%repeat_spec. by subst. Qed.

Lemma demo_scheme_laws len : @EcdsaLaws demo_crypto (demo_scheme len).
Proof.
  split; intros.
  - cbn -[checksum repeat]. by rewrite bool_decide_true.
  - apply repeat_ok, checksum_ok.
  - cbn -[repeat]. apply Forall_cons; split; [unfold byte_ok; lia|]. apply repeat_ok. unfold byte_ok. apply Z.mod_pos_bound. lia.
  - done.
  - done.
Qed.

Definition demo_ecdsa_laws : @EcdsaLaws demo_crypto demo_ecdsa := demo_scheme_laws 71.

(** ** Witnesses *)
Section TransactionWitnesses.
Import Transaction Sighash WireFormat SighashLemmas Signing SigningLemmas AmountLemmas.
#[local] Existing Instance demo_crypto.
#[local] Existing Instance demo_laws.
#[local] Existing Instance demo_ecdsa.
#[local] Existing Instance demo_ecdsa_laws.

Definition demo_key : @PrivateKey demo_ecdsa := 1.

(** The key hash of a key, and an input that spends 9000 satoshis paid to key 1. *)
Definition demo_hash (k : Z) : list Z := repeat (checksum (2 :: repeat k 32)) 20.
Definition demo_coin (k a : Z) : Output.t :=
  output_of a (p2pkh_script (demo_hash k) None) (118 :: 169 :: 20 :: demo_hash k ++ [136; 172]).
Definition demo_input (id : Z) : Input.t :=
  Input.mk (Some (demo_coin 1 9000)) (repeat id 32) 0 Input.DEFAULT_SEQNUMBER [] (Some Script.empty) Input.PublicKeyHash.
Definition demo_tx (ids : list Z) (payees : list Z) : t :=
  mk 1 (demo_input <$> ids) ((fun k => demo_coin k 5000) <$> payees) 0 None None None None None.

Lemma demo_hash_ok k : bytes_ok (demo_hash k).
Proof. apply repeat_ok, checksum_ok. Qed.

Lemma demo_p2pkh_ok k : bytes_ok (118 :: 169 :: 20 :: demo_hash k ++ [136; 172]).
Proof.
  repeat (apply Forall_cons; split; [unfold byte_ok; lia|]). apply Forall_app; split; [apply demo_hash_ok|].
  repeat (apply Forall_cons; split; [unfold byte_ok; lia|]). done.
Qed.

Lemma demo_coin_wf k : wf_output (demo_coin k 5000).
Proof. split; [by vm_compute|]. split; [apply demo_p2pkh_ok|]. vm_compute. reflexivity. Qed.

Lemma demo_input_wf id : byte_ok id -> wf_input (demo_input id).
Proof.
  intros Hid. unfold wf_input. split; [reflexivity|]. split; [by apply repeat_ok|]. split; [by vm_compute|]. split; [by vm_compute|]. split; [by apply Forall_nil|done].
Qed.

Lemma demo_coin_bytes k : output_bytes (demo_coin k 5000) = u64_bytes 5000 ++ [25] ++ 118 :: 169 :: 20 :: demo_hash k ++ [136; 172].
Proof. reflexivity. Qed.

Lemma demo_hashable ids payees : Forall byte_ok ids -> zlen ids <= 100 -> zlen payees <= 100 -> hashable (demo_tx ids payees).
Proof.
  intros Hids Hi Ho. split; [|split].
  - unfold wf_tx, demo_tx. cbn [version nLockTime inputs outputs]. rewrite !zlen_fmap. split_and!; try done; try lia.
    + apply Forall_fmap. eapply Forall_impl; [exact Hids|]. apply demo_input_wf.
    + apply Forall_fmap, Forall_true, demo_coin_wf.
  - cbn [inputs demo_tx]. apply Forall_fmap, Forall_true. intros id. split; [by apply Forall_nil|]. split; [done|].
    by exists Script.empty, [].
  - cbn [inputs outputs demo_tx]. rewrite zlen_fmap.
    assert (zlen (((fun k => demo_coin k 5000) <$> payees) ≫= output_bytes) <= 34 * zlen payees).
    { clear Ho. induction payees as [|k l IH]; [done|]. rewrite fmap_cons, zlen_cons. cbn [mbind list_bind].
      rewrite zlen_app, demo_coin_bytes. change (zlen (u64_bytes 5000 ++ _)) with 34. lia. }
    lia.
Qed.

Lemma demo_signable id : signable demo_key (demo_input id).
Proof. split; [done|]. exists (demo_coin 1 9000), None. done. Qed.

Lemma tx_roundtrip_witness : exists b, toBuffer (demo_tx [1; 2] [3]) = Ok b /\ fromBuffer b = Ok (strip (demo_tx [1; 2] [3])).
Proof.
  destruct (tx_roundtrip (demo_tx [1; 2] [3])) as (b & Hb & Hp & _).
  - apply demo_hashable; [|done|done]. repeat (apply Forall_cons; split; [unfold byte_ok; lia|]). done.
  - reflexivity.
  - exists b. split; [exact Hb|exact Hp].
Defined.

Lemma demo_subscript : exists b, subscript_bytes (p2pkh_script (demo_hash 1) None) b.
Proof. apply p2pkh_subscript; [done|apply demo_hash_ok]. Qed.

Lemma sighash_none_anyonecanpay_witness :
  sighash (demo_tx [1; 2] [3]) 130 0 (p2pkh_script (demo_hash 1) None) = sighash (demo_tx [7; 1] [5; 6]) 130 1 (p2pkh_script (demo_hash 1) None).
Proof.
  destruct demo_subscript as [b Hb].
  apply (sighash_none_anyonecanpay (demo_tx [1; 2] [3]) (demo_tx [7; 1] [5; 6]) 0 1 _ b (demo_input 1) (demo_input 1)).
  - apply demo_hashable; [|done|done]. repeat (apply Forall_cons; split; [unfold byte_ok; lia|]). done.
  - apply demo_hashable; [|done|done]. repeat (apply Forall_cons; split; [unfold byte_ok; lia|]). done.
  - reflexivity.
  - reflexivity.
  - repeat split.
  - reflexivity.
  - reflexivity.
  - exact Hb.
Defined.

Lemma sighash_single_anyonecanpay_witness :
  sighash (demo_tx [1] [3]) 131 0 (p2pkh_script (demo_hash 1) None) = sighash (demo_tx [1; 9] [3; 4]) 131 0 (p2pkh_script (demo_hash 1) None).
Proof.
  destruct demo_subscript as [b Hb].
  apply (sighash_single_anyonecanpay (demo_tx [1] [3]) (demo_tx [1; 9] [3; 4]) 0 _ b (demo_input 1) (demo_input 1)
           (demo_coin 3 5000) (demo_coin 3 5000)).
  - apply demo_hashable; [|done|done]. repeat (apply Forall_cons; split; [unfold byte_ok; lia|]). done.
  - apply demo_hashable; [|done|done]. repeat (apply Forall_cons; split; [unfold byte_ok; lia|]). done.
  - reflexivity.
  - reflexivity.
  - repeat split.
  - reflexivity.
  - reflexivity.
  - reflexivity.
  - reflexivity.
  - reflexivity.
  - exact Hb.
Defined.

Lemma sign_p2pkh_complete_witness : exists y,
  Signing.sign demo_key None (demo_tx [1; 2] [3]) = (Ok tt, y) /\ Signing.isFullySigned y = Ok (forallb recognised (inputs y)).
Proof.
  destruct (sign_p2pkh_complete demo_key (demo_tx [1; 2] [3])) as (y & Hy & Hf & _).
  - apply demo_hashable; [|done|done]. repeat (apply Forall_cons; split; [unfold byte_ok; lia|]). done.
  - repeat (apply Forall_cons; split; [apply demo_signable|]). apply Forall_nil; exact I.
  - intros h. change (8 <= 71 <= 72). lia.
  - exists y. split; [exact Hy|exact Hf].
Defined.

Lemma fee_estimate_formula_witness : estimateFee_of 950 (num_of_Z 9000) = num_of_Z 2000.
Proof. apply (fee_estimate_formula 950 9000); [lia|unfold safe; lia]. Defined.

(** A transaction with a change script. *)
Definition demo_funding : t := (demo_tx [1; 2] [3]) <| _changeScript := Some (p2pkh_script (demo_hash 1) None) |>.

Lemma change_output_balances_witness : exists y,
  updateChangeOutput demo_funding = (Ok tt, y)
  /\ getChangeOutput y = Some (output_of 12000 (p2pkh_script (demo_hash 1) None) (118 :: 169 :: 20 :: demo_hash 1 ++ [136; 172])).
Proof.
  destruct (change_output_balances demo_funding (p2pkh_script (demo_hash 1) None) (118 :: 169 :: 20 :: demo_hash 1 ++ [136; 172])
    18000 5000 34) as (y & Hy & _ & Hc).
  - reflexivity.
  - reflexivity.
  - reflexivity.
  - repeat (apply Forall_cons; split; [reflexivity|]). apply Forall_nil; exact I.
  - exists [9000; 9000], [5000].
    split; [repeat constructor; eexists; (split; [reflexivity|split; [reflexivity|lia]])|].
    split; [repeat constructor; lia|]. split_and!; try reflexivity; by left.
  - reflexivity.
  - lia.
  - reflexivity.
  - exists y. split; [exact Hy|]. exact (proj1 Hc).
Defined.

Lemma overspend_never_reported_witness : exists r y,
  getSerializationError (mkOpts false false false false false) (demo_tx [1] [3; 4]) = (Ok r, y)
  /\ fst (getUnspentValue (demo_tx [1] [3; 4])) = Ok (num_of_Z (-1000)) /\ r <> Some InvalidOutputAmountSum.
Proof.
  destruct (getSerializationError (mkOpts false false false false false) (demo_tx [1] [3; 4])) as [[r|e] y] eqn:Hr.
  - exists r, y. split; [reflexivity|]. split; [vm_compute; reflexivity|].
    exact (overspend_never_reported _ _ _ _ Hr).
  - exfalso. vm_compute in Hr. discriminate Hr.
Defined.

(** With signatures of 60 bytes. *)
Lemma short_signature_not_recognised_witness : exists i',
  @Signing.input_addSignature demo_crypto (demo_scheme 60) (demo_tx [1] [3]) (demo_input 1)
    (@SigningLemmas.sig_of (demo_scheme 60) 1 1 0 (demo_input 1)
       (match Sighash.sighash (demo_tx [1] [3]) 1 0 (SigningLemmas.p2pkh_script (demo_hash 1) None) with Ok h => h | Throw _ => [] end)) = Ok i'
  /\ Input.isFullySigned i' = Ok false.
Proof.
  apply (@short_signature_not_recognised demo_crypto (demo_scheme 60) (demo_scheme_laws 60) 1 (demo_tx [1] [3]) 0 (demo_input 1)).
  - apply demo_hashable; [|done|done]. repeat (apply Forall_cons; split; [unfold byte_ok; lia|]). done.
  - reflexivity.
  - split; [reflexivity|]. exists (demo_coin 1 9000), None. split; reflexivity.
  - change (8 <= 60 < 70). lia.
  - intros [[]|]; vm_compute; reflexivity.
Defined.
End TransactionWitnesses.
