(* ===== verification/TxObject.v ===== *)
(** * The object form of a transaction

    Models [toObject] and [fromObject] of [Transaction], [Input], [MultiSigScriptHashInput], [Output] and
    [TransactionSignature] of [src/Sources/WebClient/js/bitcore.js]: the plain objects, with scripts as
    text and bytes in hexadecimal, in which the two parties of a channel hand transactions over. *)
From S2P Require Import Prelude JsNumber JsValue Unit Encoding Signature Script Base58 ScriptText Transaction.
From Stdlib Require Import Ascii String.
Local Open Scope Z_scope.
Local Open Scope js_scope.

Module TxObject.
Import Transaction.

(** ** The objects *)
Record output_object := mkOutputObject { oo_satoshis : number; oo_script : string }.

Record signature_object := mkSignatureObject {
  so_publicKey : string; so_prevTxId : string; so_outputIndex : Z; so_inputIndex : nat; so_signature : string; so_sigtype : Z;
}.

(** The fields a multisig input adds *)
Record multisig_object := mkMultisigObject {
  mo_threshold : Z; mo_publicKeys : list string; mo_signatures : list (option signature_object);
}.

Record input_object := mkInputObject {
  io_prevTxId : string; io_outputIndex : Z; io_sequenceNumber : Z; io_script : string; io_output : option output_object;
  io_multisig : option multisig_object;
}.

Record object := mkObject {
  o_version : Z; o_inputs : list input_object; o_outputs : list output_object; o_nLockTime : Z;
  o_changeScript : option string; o_changeIndex : option nat; o_fee : option number;
}.

(** ** Writing *)
Definition output_toObject (o : Output.t) : result output_object :=
  s ← Output.script o;
  Ok (mkOutputObject (Output.satoshis o) (ScriptText.toString s)).

Definition signature_toObject (s : TransactionSignature) : signature_object :=
  mkSignatureObject (Hex.hexSlice (sig_publicKey s)) (Hex.hexSlice (sig_prevTxId s)) (sig_outputIndex s) (sig_inputIndex s)
    (Hex.hexSlice (sig_signature s)) (sig_sigtype s).

Definition multisig_toObject (m : Input.multisig) : multisig_object :=
  mkMultisigObject (Input.threshold m) (map Hex.hexSlice (Input.publicKeys m)) (map (fmap signature_toObject) (Input.signatures m)).

Definition input_toObject (i : Input.t) : result input_object :=
  s ← Input.script i;
  out ← match Input.output i with Some o => o ← output_toObject o; Ok (Some o) | None => Ok None end;
  Ok (mkInputObject (Hex.hexSlice (Input.prevTxId i)) (Input.outputIndex i) (Input.sequenceNumber i) (ScriptText.toString s) out
        (match Input.kind i with Input.MultiSigScriptHash m => Some (multisig_toObject m) | _ => None end)).

Definition toObject (x : t) : result object :=
  inputs ← Sighash.map_result input_toObject (inputs x);
  outputs ← Sighash.map_result output_toObject (outputs x);
  Ok (mkObject (version x) inputs outputs (nLockTime x) (ScriptText.toString <$> _changeScript x) (_changeIndex x) (_fee x)).

(** [UnspentOutput.toObject()]; the address, which no unspent output of the channel has, is left out. *)
Record utxo_object := mkUtxoObject { uo_txid : string; uo_vout : Z; uo_scriptPubKey : string; uo_amount : number }.

Definition utxo_toObject (u : UnspentOutput) : result utxo_object :=
  script ← Script.toBuffer (utxo_script u);
  unit ← Unit.fromSatoshis (utxo_satoshis u);
  amount ← Unit.toBTC unit;
  Ok (mkUtxoObject (Hex.hexSlice (txId u)) (utxo_outputIndex u) (Hex.hexSlice script) amount).

(** ** Reading *)

(** What the definitions below follow: an output that has the empty text as its script is left without
    any bytes, and an identifier that is not hexadecimal stays text; neither can be written again. *)
Definition covered (o : object) : bool :=
  forallb (fun i => Hex.isHexa (io_prevTxId i)) (o_inputs o)
  && forallb (fun out => negb (bool_decide (oo_script out = EmptyString))) (o_outputs o ++ omap io_output (o_inputs o)).

(** [new Output({satoshis, script})] on a text *)
Definition output_fromObject (o : output_object) : result Output.t :=
  s ← ScriptText.fromString (oo_script o);
  Output.new (oo_satoshis o) s.

Section WithCrypto.
Context `{Crypto}.

(** [new PublicKey(text)] *)
Definition key_fromString (s : string) : result (list Z) :=
  guard_or InvalidArgument (negb (bool_decide (s = EmptyString)));;
  b ← Hex.hexWrite s;
  guard_or TypeError (PublicKey_isValid b);;
  Ok b.

(** [new TransactionSignature(object)]; the signature is kept as its DER bytes. *)
Definition signature_fromObject (o : signature_object) : result TransactionSignature :=
  key ← key_fromString (so_publicKey o);
  guard_or InvalidArgument (negb (bool_decide (so_signature o = EmptyString)));;
  guard_or InvalidArgument (negb (bool_decide (so_prevTxId o = EmptyString)));;
  guard_or InvalidState (Hex.isHexa (so_signature o));;
  guard_or InvalidState (Hex.isHexa (so_prevTxId o));;
  guard_or InvalidArgument (negb (so_sigtype o =? 0));;
  prev ← Hex.hexWrite (so_prevTxId o);
  b ← Hex.hexWrite (so_signature o);
  signature ← Signature.fromDER b true;
  der ← Signature.toDER signature;
  Ok (mkSig key prev (so_outputIndex o) (so_inputIndex o) der (so_sigtype o)).

(** [_deserializeSignatures] *)
Definition deserialize (l : list (option signature_object)) : result (list (option TransactionSignature)) :=
  Sighash.map_result (fun s => match s with Some s => s ← signature_fromObject s; Ok (Some s) | None => Ok None end) l.

(** [_fromObject] of an input of a class; the script of its output has been read already. *)
Definition input_fromObject (kind : Input.class) (out : option (number * Script.t)) (o : input_object) : result Input.t :=
  prev ← Hex.hexWrite (io_prevTxId o);
  out ← match out with Some (satoshis, s) => out ← Output.new satoshis s; Ok (Some out) | None => Ok None end;
  s ← ScriptText.fromString (io_script o);
  Input.setScript s (Input.mk out prev (io_outputIndex o) (io_sequenceNumber o) [] None kind).

(** [new Input.MultiSigScriptHash(input, input.publicKeys, input.threshold, input.signatures)] *)
Definition multisig_fromObject (satoshis : number) (outscript : Script.t) (m : multisig_object) (o : input_object) : result Input.t :=
  i ← input_fromObject Input.Base (Some (satoshis, outscript)) o;
  guard_or InvalidArgument (mo_threshold m <=? zlen (mo_publicKeys m));;
  Opcode.smallInt (mo_threshold m);;
  keys ← Sighash.map_result key_fromString (mo_publicKeys m);
  redeem ← Script.buildMultisigOut keys (mo_threshold m) true;
  p2sh ← Script.buildScriptHashOut redeem;
  guard_or InvalidState (Script.equals p2sh outscript);;
  signatures ← deserialize (mo_signatures m);
  Ok (i <| Input.kind := Input.MultiSigScriptHash (Input.mkMultisig keys redeem (mo_threshold m) signatures) |>).

Definition UnsupportedScript : js_error := BitcoreError "Transaction.Input.UnsupportedScript".

(** The input a transaction makes of an object *)
Definition read_input (o : input_object) : result Input.t :=
  match io_output o with
  | None => input_fromObject Input.Base None o
  | Some out =>
      s ← ScriptText.fromString (oo_script out);
      if Script.isPublicKeyHashOut s then input_fromObject Input.PublicKeyHash (Some (oo_satoshis out, s)) o
      else
        p2sh ← Script.isScriptHashOut s;
        match io_multisig o with
        | Some m =>
            if p2sh && negb (mo_threshold m =? 0) then multisig_fromObject (oo_satoshis out) s m o else Throw UnsupportedScript
        | None => Throw UnsupportedScript
        end
  end.

(** [self.addInput(txin)], [self.uncheckedAddInput(new Input(input))] *)
Fixpoint add_inputs (l : list input_object) : js t unit :=
  match l with
  | [] => mret tt
  | o :: l =>
      i ← js_lift (read_input o);
      (match io_output o with Some _ => addInput i | None => uncheckedAddInput i end);;
      add_inputs l
  end.

Fixpoint add_outputs (l : list output_object) : js t unit :=
  match l with
  | [] => mret tt
  | o :: l => out ← js_lift (output_fromObject o); addOutput out;; add_outputs l
  end.

(** [_checkConsistency] *)
Definition checkConsistency : js t unit :=
  x ← js_get;
  match _changeIndex x with
  | None => mret tt
  | Some n =>
      js_lift (c ← match _changeScript x with Some c => Ok c | None => Throw InvalidState end;
               o ← match outputs x !! n with Some o => Ok o | None => Throw InvalidState end;
               s ← Output.script o;
               guard_or InvalidState (bool_decide (ScriptText.toString s = ScriptText.toString c)))
  end.

(** [fromObject] on a transaction just constructed; the index 0, the empty text and a fee of 0 or NaN
    are falsy. *)
Definition fromObject (o : object) : js t unit :=
  add_inputs (o_inputs o);;
  add_outputs (o_outputs o);;
  (match o_changeIndex o with Some (S n) => js_modify (fun x => x <| _changeIndex := Some (S n) |>) | _ => mret tt end);;
  (match o_changeScript o with
   | Some text =>
       if bool_decide (text = EmptyString) then mret tt
       else s ← js_lift (ScriptText.fromString text); js_modify (fun x => x <| _changeScript := Some s |>)
   | None => mret tt
   end);;
  (match o_fee o with
   | Some f => if num_eq f (num_of_Z 0) || negb (num_eq f f) then mret tt else fee f
   | None => mret tt
   end);;
  js_modify (fun x => x <| nLockTime := o_nLockTime o |> <| version := o_version o |>);;
  checkConsistency.

End WithCrypto.
End TxObject.

(** ** What a reader gets back *)
Module ObjectLemmas.
Import Transaction TxObject ScriptTextLemmas.

Lemma map_result_all {A B} (f : A -> result B) (g : A -> B) l : Forall (fun x => f x = Ok (g x)) l -> Sighash.map_result f l = Ok (map g l).
Proof. induction 1 as [|x l Hx _ IH]; [done|]. cbn [Sighash.map_result map]. by rewrite Hx, IH. Qed.

Lemma map_result_map {A B C} (f : B -> result C) (g : A -> B) l : Sighash.map_result f (map g l) = Sighash.map_result (fun x => f (g x)) l.
Proof. induction l as [|x l IH]; [done|]. cbn [map Sighash.map_result]. by rewrite IH. Qed.

(** A script whose text is read back, with the bytes it stands for *)
Definition has_text (s : result Script.t) (b : list Z) : Prop :=
  exists cs net, s = Ok (Script.mk cs net) /\ Forall text_chunk cs /\ Script.toBuffer (Script.mk cs None) = Ok b.

(** The script without its network, which the text does not have *)
Definition reread (s : result Script.t) : option Script.t := match s with Ok s => Some (Script.mk (Script.chunks s) None) | Throw _ => None end.

Lemma has_text_read s b : has_text s b -> exists cs net, s = Ok (Script.mk cs net) /\ reread s = Some (Script.mk cs None)
  /\ ScriptText.fromString (ScriptText.toString (Script.mk cs net)) = Ok (Script.mk cs None) /\ Script.toBuffer (Script.mk cs None) = Ok b.
Proof. intros (cs & net & -> & Hcs & Hb). exists cs, net. split_and!; [done|done|by apply text_given|done]. Qed.

(** *** Outputs *)
Record plain_output (o : Output.t) : Prop := {
  po_text : has_text (Output.script o) (Output._scriptBuffer o);
  po_some : exists s, Output.script o = Ok s /\ Script.chunks s <> [];
  po_satoshis : BN.fromNumber (Output._satoshis o) = Output._satoshisBN o;
}.

Definition reread_output (o : Output.t) : Output.t := o <| Output._script := reread (Output.script o) |>.

Definition output_object_of (o : Output.t) : output_object :=
  mkOutputObject (Output.satoshis o) (match Output.script o with Ok s => ScriptText.toString s | Throw _ => "" end).

Lemma output_written o : plain_output o -> output_toObject o = Ok (output_object_of o).
Proof. intros [(cs & net & Hs & _) _ _]. unfold output_toObject, output_object_of. by rewrite Hs. Qed.

Lemma output_made o : plain_output o -> exists s, ScriptText.fromString (oo_script (output_object_of o)) = Ok s
  /\ reread (Output.script o) = Some s /\ Output.new (oo_satoshis (output_object_of o)) s = Ok (reread_output o).
Proof.
  intros [Ht _ Hsat]. destruct (has_text_read _ _ Ht) as (cs & net & Hs & Hr & Hread & Hb). exists (Script.mk cs None).
  unfold output_object_of, reread_output. cbn [oo_script oo_satoshis]. rewrite Hs. split; [done|]. split; [done|].
  unfold Output.new, Output.setScript. rewrite Hb. cbn [mbind result_bind]. f_equal. destruct o. unfold Output.satoshis, Output.set_satoshis in *. cbn in *. by rewrite Hsat.
Qed.

Lemma output_text o : plain_output o -> oo_script (output_object_of o) <> EmptyString.
Proof.
  intros [(cs & net & Hs & Hcs & _) (s & Hs' & Hne) _]. unfold output_object_of. cbn [oo_script]. rewrite Hs in *. injection Hs' as <-. cbn [Script.chunks] in Hne.
  destruct Hcs as [|c cs Hc Hcs]; [done|]. destruct (text_words c cs Hc Hcs) as (w & l & E & _ & _ & Hw & _).
  unfold ScriptText.toString, Script.chunks. rewrite prints_words, E, text_of_words. by destruct w.
Qed.

(** *** Inputs *)
Section WithCrypto.
Context `{Crypto}.

Definition plain_key (k : list Z) : Prop := bytes_ok k /\ k <> [] /\ PublicKey_isValid k = true.

(** A signature whose bytes are the DER encoding of what they are read as *)
Record plain_signature (s : TransactionSignature) : Prop := {
  ps_key : plain_key (sig_publicKey s);
  ps_id : bytes_ok (sig_prevTxId s) /\ sig_prevTxId s <> [];
  ps_bytes : bytes_ok (sig_signature s) /\ sig_signature s <> [];
  ps_der : (g ← Signature.fromDER (sig_signature s) true; Signature.toDER g) = Ok (sig_signature s);
  ps_type : sig_sigtype s <> 0;
}.

(** A multisig input of a script-hash output: its redeem script is the one of its keys and hashes to the output. *)
Record plain_multisig (m : Input.multisig) (s : Script.t) : Prop := {
  pm_threshold : Input.threshold m <> 0;
  pm_redeem : Script.buildMultisigOut (Input.publicKeys m) (Input.threshold m) true = Ok (Input.redeemScript m);
  pm_hash : exists p2sh, Script.buildScriptHashOut (Input.redeemScript m) = Ok p2sh /\ Script.equals p2sh s = true;
  pm_script : Script.isPublicKeyHashOut s = false /\ Script.isScriptHashOut s = Ok true;
  pm_keys : Forall plain_key (Input.publicKeys m);
  pm_signatures : Forall (fun s => match s with Some s => plain_signature s | None => True end) (Input.signatures m);
}.

Record plain_input (i : Input.t) : Prop := {
  pi_id : bytes_ok (Input.prevTxId i) /\ Input.prevTxId i <> [];
  pi_text : has_text (Input.script i) (Input._scriptBuffer i);
  pi_kind : match Input.kind i, Input.output i with
    | Input.Base, None => True
    | Input.PublicKeyHash, Some o => plain_output o /\ exists s, Output.script o = Ok s /\ Script.isPublicKeyHashOut s = true
    | Input.MultiSigScriptHash m, Some o => plain_output o /\ exists s, Output.script o = Ok s /\ plain_multisig m s
    | _, _ => False
    end;
}.

Definition reread_input (i : Input.t) : Input.t :=
  i <| Input._script := reread (Input.script i) |> <| Input.output ::= fmap reread_output |>.

Definition input_object_of (i : Input.t) : input_object :=
  mkInputObject (Hex.hexSlice (Input.prevTxId i)) (Input.outputIndex i) (Input.sequenceNumber i)
    (match Input.script i with Ok s => ScriptText.toString s | Throw _ => "" end) (output_object_of <$> Input.output i)
    (match Input.kind i with Input.MultiSigScriptHash m => Some (multisig_toObject m) | _ => None end).

Lemma input_outputs i o : plain_input i -> Input.output i = Some o -> plain_output o.
Proof. intros [_ _ Hk] Ho. rewrite Ho in Hk. destruct (Input.kind i); [done|by destruct Hk..]. Qed.

Lemma input_written i : plain_input i -> input_toObject i = Ok (input_object_of i).
Proof.
  intros Hi. pose proof (pi_text i Hi) as (cs & net & Hs & _). unfold input_toObject, input_object_of. rewrite Hs. cbn [mbind result_bind].
  destruct (Input.output i) as [o|] eqn:Ho; [|done]. by rewrite (output_written o (input_outputs i o Hi Ho)).
Qed.

Lemma hex_some b : bytes_ok b -> b <> [] -> bool_decide (Hex.hexSlice b = EmptyString) = false.
Proof. intros Hb Hne. apply bool_decide_false. intros E. pose proof (Hex.isHexa_hexSlice b Hb Hne) as Hx. by rewrite E in Hx. Qed.

Lemma key_read k : plain_key k -> key_fromString (Hex.hexSlice k) = Ok k.
Proof.
  intros (Hk & Hne & Hv). unfold key_fromString. rewrite (hex_some k Hk Hne).
  cbn [negb guard_or mbind result_bind]. rewrite Hex.hex_roundtrip by done. cbn [mbind result_bind]. by rewrite Hv.
Qed.

Lemma signature_read s : plain_signature s -> signature_fromObject (signature_toObject s) = Ok s.
Proof.
  intros [Hk [Hi Hi'] [Hb Hb'] Hd Ht]. unfold signature_fromObject, signature_toObject.
  cbn [so_publicKey so_prevTxId so_outputIndex so_inputIndex so_signature so_sigtype]. rewrite (key_read _ Hk). cbn [mbind result_bind].
  rewrite (Hex.isHexa_hexSlice _ Hi Hi'), (Hex.isHexa_hexSlice _ Hb Hb').
  rewrite (hex_some _ Hi Hi'), (hex_some _ Hb Hb').
  rewrite (proj2 (Z.eqb_neq _ 0) Ht). cbn [negb guard_or mbind result_bind]. rewrite !Hex.hex_roundtrip by done. cbn [mbind result_bind].
  destruct (Signature.fromDER (sig_signature s) true) as [g|]; [|done]. cbn [mbind result_bind] in *. rewrite Hd. by destruct s.
Qed.

Lemma signatures_read l : Forall (fun s => match s with Some s => plain_signature s | None => True end) l ->
  deserialize (map (fmap signature_toObject) l) = Ok l.
Proof.
  intros Hl. unfold deserialize. rewrite map_result_map, (map_result_all _ id); [by rewrite map_id|].
  eapply Forall_impl; [exact Hl|]. intros [s|] Hs; [|done]. cbn [fmap option_fmap option_map]. by rewrite signature_read.
Qed.

Lemma keys_read l : Forall plain_key l -> Sighash.map_result key_fromString (map Hex.hexSlice l) = Ok l.
Proof.
  intros Hl. rewrite map_result_map, (map_result_all _ id); [by rewrite map_id|]. eapply Forall_impl; [exact Hl|]. intros k Hk. by rewrite key_read.
Qed.

(** A script that was built had its threshold checked. *)
Lemma built_threshold ks n s : Script.buildMultisigOut ks n true = Ok s -> (n <=? zlen ks) = true /\ is_ok (Opcode.smallInt n) = true.
Proof.
  unfold Script.buildMultisigOut. destruct (n <=? zlen ks); [|done]. cbn [guard_or mbind result_bind]. by destruct (Opcode.smallInt n).
Qed.

Lemma input_read kind i out : plain_input i ->
  match out, Input.output i with Some (sat, s), Some o => Output.new sat s = Ok (reread_output o) | None, None => True | _, _ => False end ->
  input_fromObject kind out (input_object_of i) = Ok ((reread_input i) <| Input.kind := kind |>).
Proof.
  intros [[Hb Hne] Ht _] Hout. destruct (has_text_read _ _ Ht) as (cs & net & Hs & Hr & Hread & Hbuf).
  unfold input_fromObject, input_object_of, reread_input. cbn [io_prevTxId io_outputIndex io_sequenceNumber io_script]. rewrite Hs. cbn [reread Script.chunks].
  rewrite Hex.hex_roundtrip by done. cbn [mbind result_bind].
  assert (forall f : option Output.t -> result Input.t, (o ← match out with Some (sat, s) => o ← Output.new sat s; Ok (Some o) | None => Ok None end; f o)
    = f (reread_output <$> Input.output i)) as ->.
  { intros f. destruct out as [[sat s]|], (Input.output i) as [o|]; try done. by rewrite Hout. }
  rewrite Hread. cbn [mbind result_bind]. unfold Input.setScript. rewrite Hbuf. cbn [mbind result_bind]. by destruct i.
Qed.

Lemma input_given i : plain_input i -> read_input (input_object_of i) = Ok (reread_input i).
Proof.
  intros Hi. pose proof (pi_kind i Hi) as Hk. unfold read_input.
  change (io_output (input_object_of i)) with (output_object_of <$> Input.output i).
  destruct (Input.output i) as [o|] eqn:Ho; cbn [fmap option_fmap option_map].
  - destruct (output_made o (input_outputs i o Hi Ho)) as (s & Hread & Hre & Hnew). rewrite Hread. cbn [mbind result_bind].
    assert (forall s', Output.script o = Ok s' -> s = Script.mk (Script.chunks s') None) as Hs by (intros s' Hs'; rewrite Hs' in Hre; by injection Hre as <-).
    destruct (Input.kind i) as [| |m] eqn:Ek; [done| |].
    + destruct Hk as (_ & s' & Hs' & Hp). rewrite (Hs s' Hs') in *. change (Script.isPublicKeyHashOut (Script.mk (Script.chunks s') None)) with (Script.isPublicKeyHashOut s').
      rewrite Hp, (input_read _ i) by (done || by rewrite Ho). f_equal. destruct i. cbn in *. by rewrite Ek.
    + destruct Hk as (_ & s' & Hs' & Hm). rewrite (Hs s' Hs') in *. destruct (pm_script _ _ Hm) as [Hp Hh].
      change (Script.isPublicKeyHashOut (Script.mk (Script.chunks s') None)) with (Script.isPublicKeyHashOut s').
      change (Script.isScriptHashOut (Script.mk (Script.chunks s') None)) with (Script.isScriptHashOut s'). rewrite Hp, Hh. cbn [mbind result_bind].
      unfold input_object_of at 1. rewrite Ek. cbn [io_multisig multisig_toObject mo_threshold]. rewrite (proj2 (Z.eqb_neq _ 0) (pm_threshold _ _ Hm)). cbn [negb andb].
      destruct (built_threshold _ _ _ (pm_redeem _ _ Hm)) as [Hle Hsm]. unfold multisig_fromObject.
      rewrite (input_read _ i) by (done || by rewrite Ho). cbn [mbind result_bind multisig_toObject mo_threshold mo_publicKeys mo_signatures].
      assert (zlen (map Hex.hexSlice (Input.publicKeys m)) = zlen (Input.publicKeys m)) as -> by (unfold zlen; by rewrite length_map).
      rewrite Hle. cbn [guard_or mbind result_bind]. destruct (Opcode.smallInt (Input.threshold m)); [|done]. cbn [mbind result_bind].
      rewrite (keys_read _ (pm_keys _ _ Hm)). cbn [mbind result_bind]. rewrite (pm_redeem _ _ Hm). cbn [mbind result_bind].
      destruct (pm_hash _ _ Hm) as (p2sh & -> & Heq). cbn [mbind result_bind]. change (Script.equals p2sh (Script.mk (Script.chunks s') None)) with (Script.equals p2sh s').
      rewrite Heq. cbn [guard_or mbind result_bind]. rewrite (signatures_read _ (pm_signatures _ _ Hm)). cbn [mbind result_bind]. f_equal.
      destruct i. cbn in *. rewrite Ek. by destruct m.
  - destruct (Input.kind i) as [| |m] eqn:Ek; [|done..]. rewrite (input_read _ i) by (done || by rewrite Ho). f_equal. destruct i. cbn in *. by rewrite Ek.
Qed.

(** *** Transactions *)
Record plain_tx (x : t) : Prop := {
  px_inputs : Forall plain_input (inputs x);
  px_outputs : Forall plain_output (outputs x);
  px_change : _changeScript x = None /\ _changeIndex x = None;
}.

(** A fee of 0 or NaN is falsy. *)
Definition kept_fee (f : option number) : option number :=
  f ← f; if num_eq f (num_of_Z 0) || negb (num_eq f f) then None else Some f.

(** The same transaction, its scripts parsed and its amounts not yet added up *)
Definition reread_tx (x : t) : t :=
  mk (version x) (map reread_input (inputs x)) (map reread_output (outputs x)) (nLockTime x) None None None None (kept_fee (_fee x)).

Definition object_of (x : t) : object :=
  mkObject (version x) (map input_object_of (inputs x)) (map output_object_of (outputs x)) (nLockTime x) None None (_fee x).

Lemma object_written x : plain_tx x -> toObject x = Ok (object_of x).
Proof.
  intros [Hi Ho [Hc Hn]]. unfold toObject. rewrite (map_result_all _ input_object_of) by (eapply Forall_impl; [exact Hi|apply input_written]).
  cbn [mbind result_bind]. rewrite (map_result_all _ output_object_of) by (eapply Forall_impl; [exact Ho|apply output_written]).
  cbn [mbind result_bind]. by rewrite Hc, Hn.
Qed.

Lemma object_covered x : plain_tx x -> covered (object_of x) = true.
Proof.
  intros [Hi Ho _]. unfold covered, object_of. cbn [o_inputs o_outputs]. apply andb_true_iff. split.
  - apply forallb_forall. intros o Hin. apply in_map_iff in Hin as (i & <- & Hin). rewrite List.Forall_forall in Hi. apply Hex.isHexa_hexSlice; by apply (pi_id i (Hi i Hin)).
  - apply forallb_forall. intros o Hin. apply negb_true_iff, bool_decide_false. apply in_app_or in Hin as [Hin|Hin].
    + apply in_map_iff in Hin as (out & <- & Hin). rewrite List.Forall_forall in Ho. by apply output_text, Ho.
    + apply list_elem_of_In, list_elem_of_omap in Hin as (io & Hin & E). apply list_elem_of_In, in_map_iff in Hin as (i & <- & Hin).
      rewrite List.Forall_forall in Hi. specialize (Hi i Hin). cbn [input_object_of io_output] in E. destruct (Input.output i) as [out|] eqn:Eo; [|done].
      injection E as <-. by apply output_text, (input_outputs i).
Qed.

(** While the transaction has no change script, adding only adds. *)
Lemma no_change x : _changeScript x = None -> updateChangeOutput x = (Ok tt, x).
Proof. intros Hc. unfold updateChangeOutput, js_get, mbind, js_bind at 1. by rewrite Hc. Qed.

Lemma unchecked_add i x : _changeScript x = None ->
  uncheckedAddInput i x = (Ok tt, x <| inputs := inputs x ++ [i] |> <| _inputAmount := None |>).
Proof. intros Hc. unfold uncheckedAddInput, js_modify, mbind, js_bind. by rewrite no_change. Qed.

Lemma add_input o i x : _changeScript x = None -> read_input o = Ok i -> (io_output o = None <-> Input.output i = None) ->
  forall l, add_inputs (o :: l) x = add_inputs l (x <| inputs := inputs x ++ [i] |> <| _inputAmount := None |>).
Proof.
  intros Hc Hr Ho l.
  assert ((match io_output o with Some _ => addInput i | None => uncheckedAddInput i end) x = uncheckedAddInput i x) as E.
  { destruct (io_output o); [|done]. assert (is_Some (Input.output i)) as Hi by (destruct (Input.output i); [by eexists|by pose proof (proj2 Ho eq_refl)]).
    unfold addInput, js_lift, mbind, js_bind at 1. by rewrite bool_decide_true. }
  cbn [add_inputs]. unfold js_lift, mbind, js_bind. rewrite Hr, E, unchecked_add by done. done.
Qed.

Lemma add_inputs_given l : Forall plain_input l -> forall x, _changeScript x = None -> _inputAmount x = None ->
  add_inputs (map input_object_of l) x = (Ok tt, x <| inputs := inputs x ++ map reread_input l |>).
Proof.
  induction 1 as [|i l Hi _ IH]; intros x Hc Ha; cbn [map].
  - cbn. rewrite app_nil_r. by destruct x.
  - rewrite (add_input _ (reread_input i)); [|done|by apply input_given|cbn; destruct (Input.output i); by split].
    rewrite IH by done. destruct x. cbn in *. subst. by rewrite <-(assoc_L (++)).
Qed.

Lemma add_outputs_given l : Forall plain_output l -> forall x, _changeScript x = None -> _outputAmount x = None ->
  add_outputs (map output_object_of l) x = (Ok tt, x <| outputs := outputs x ++ map reread_output l |>).
Proof.
  induction 1 as [|o l Ho _ IH]; intros x Hc Ha; cbn [map add_outputs].
  - cbn. rewrite app_nil_r. by destruct x.
  - destruct (output_made o Ho) as (s & Hread & _ & Hnew). unfold js_lift, output_fromObject. cbn [mbind]. unfold js_bind at 1.
    rewrite Hread. cbn [mbind result_bind]. rewrite Hnew. unfold addOutput, addOutput_, js_modify, mbind, js_bind at 1. unfold js_bind at 1.
    rewrite no_change by done. fold (add_outputs (map output_object_of l)). rewrite IH by done. destruct x. cbn in *. subst. by rewrite <-(assoc_L (++)).
Qed.

Lemma object_read x : plain_tx x -> fromObject (object_of x) Transaction.new = (Ok tt, reread_tx x).
Proof.
  intros [Hi Ho _]. unfold fromObject, object_of. cbn [o_inputs o_outputs o_changeIndex o_changeScript o_fee o_nLockTime o_version].
  unfold mbind, js_bind. rewrite (add_inputs_given _ Hi), (add_outputs_given _ Ho) by done.
  cbn [inputs outputs new app]. unfold mret, js_ret, js_modify. unfold reread_tx, kept_fee.
  destruct (_fee x) as [f|]; cbn [mbind option_bind]; [|done]. destruct (_ || _); [done|].
  unfold fee, js_modify. unfold mbind, js_bind. by rewrite no_change.
Qed.

(** Reading changes no byte. *)
Lemma each_write_map {A} (f : A -> BufferWriter.t -> result BufferWriter.t) (g : A -> A) l : (forall x w, f (g x) w = f x w) ->
  forall w, each_write f (map g l) w = each_write f l w.
Proof. intros Hf. induction l as [|x l IH]; intros w; [done|]. cbn [map each_write]. rewrite Hf. destruct (f x w); [apply IH|done]. Qed.

Lemma reread_bytes x : toBuffer (reread_tx x) = toBuffer x.
Proof.
  unfold toBuffer, toBufferWriter, reread_tx. cbn [version inputs outputs nLockTime]. rewrite !length_map.
  assert (forall l w, each_write Input.toBufferWriter (map reread_input l) w = each_write Input.toBufferWriter l w) as Hi by (intros l; by apply each_write_map).
  assert (forall l w, each_write Output.toBufferWriter (map reread_output l) w = each_write Output.toBufferWriter l w) as Ho by (intros l; by apply each_write_map).
  destruct (BufferWriter.writeUInt32LE _ _); [|done]. cbn [mbind result_bind]. destruct (BufferWriter.writeVarintNum _ _); [|done]. cbn [mbind result_bind].
  rewrite Hi. destruct (each_write Input.toBufferWriter _ _); [|done]. cbn [mbind result_bind]. destruct (BufferWriter.writeVarintNum _ _); [|done]. cbn [mbind result_bind]. by rewrite Ho.
Qed.

(** *** Change *)

(** No signature is left on an input. *)
Definition unsigned (i : Input.t) : Prop :=
  match Input.kind i with
  | Input.Base => False
  | Input.PublicKeyHash => Input.script i = Ok Script.empty
  | Input.MultiSigScriptHash m => Input.countSignatures m = 0
  end.

Lemma cleared_unsigned i i' : Input.clearSignatures i = Ok i' -> unsigned i'.
Proof.
  unfold Input.clearSignatures, unsigned. destruct (Input.kind i) as [| |m] eqn:Ek; [done| |].
  - unfold Input.setScript. destruct (Script.toBuffer Script.empty); [|done]. cbn [mbind result_bind]. intros [= <-]. cbn. by rewrite Ek.
  - unfold Input.updateScript. destruct (Script.buildP2SHMultisigIn _ _ _ _ _) as [s|]; [|done]. cbn [mbind result_bind]. unfold Input.setScript.
    destruct (Script.toBuffer s); [|done]. cbn [mbind result_bind]. intros [= <-]. cbn. unfold Input.countSignatures. destruct m. cbn.
    generalize (List.length publicKeys). intros n. induction n as [|n IH]; [done|]. cbn [repeat]. rewrite filter_cons_False; [exact IH|by intros [? ?]].
Qed.

Lemma clear_each_unsigned l l' : clear_each l = (l', Ok tt) -> Forall unsigned l'.
Proof.
  revert l'. induction l as [|i l IH]; intros l'; cbn [clear_each]; [by intros [= <-]|].
  destruct (Input.clearSignatures i) as [i'|] eqn:E; [|done]. destruct (clear_each l) as [r e]. intros [= <- ->].
  constructor; [by eapply cleared_unsigned|by apply IH].
Qed.

(** Computing amounts leaves the inputs alone. *)
Abbreviation keeps_inputs := (keeps inputs eq).

Lemma keeps_amounts : keeps_inputs getUnspentValue.
Proof. unfold getUnspentValue, getInputAmount, getOutputAmount. repeat keeps_step. Qed.

Lemma keeps_fee : keeps_inputs getFee.
Proof. unfold getFee, estimateFee. repeat (apply keeps_amounts || keeps_step). Qed.

(** What [_updateChangeOutput] does when the signatures are gone *)
Definition replace_change (s : Script.t) : js t unit :=
  x ← js_get;
  match _changeIndex x with Some i => removeOutput_ i | None => mret tt end;;
  available ← getUnspentValue;
  fee ← getFee;
  let changeAmount := num_sub available fee in
  if num_gt changeAmount (num_of_Z 0) then
    js_modify (fun x => x <| _changeIndex := Some (List.length (outputs x)) |>);;
    o ← js_lift (Output.new changeAmount s);
    addOutput_ o
  else js_modify (fun x => x <| _changeIndex := None |>).

Lemma keeps_replace s : keeps_inputs (replace_change s).
Proof. unfold replace_change, removeOutput_, addOutput_. repeat (apply keeps_amounts || apply keeps_fee || keeps_step). Qed.

Lemma change_eq x s : _changeScript x = Some s -> updateChangeOutput x = (clearSignatures;; replace_change s) x.
Proof. intros Hs. unfold updateChangeOutput, js_get, mbind, js_bind. by rewrite Hs. Qed.

(** A new change output costs every signature. *)
Lemma change_unsigned x x' s : _changeScript x = Some s -> updateChangeOutput x = (Ok tt, x') -> Forall unsigned (inputs x').
Proof.
  intros Hs. rewrite (change_eq x s Hs). unfold mbind, js_bind.
  assert (clearSignatures x = let '(l, r) := clear_each (inputs x) in (r, x <| inputs := l |>)) as ->.
  { unfold clearSignatures, js_get, js_modify, js_lift, mbind, js_bind. by destruct (clear_each (inputs x)). }
  destruct (clear_each (inputs x)) as [l [[]|e]] eqn:E; [|done].
  intros E'. pose proof (keeps_replace s (x <| inputs := l |>)) as Hk. rewrite E' in Hk. cbn [snd] in Hk. rewrite <-Hk. cbn. by eapply clear_each_unsigned.
Qed.

Lemma bind_ok {S A B} (m : js S A) (f : A -> js S B) s b s2 : (m ≫= f) s = (Ok b, s2) -> exists a s1, m s = (Ok a, s1) /\ f a s1 = (Ok b, s2).
Proof. unfold mbind, js_bind. destruct (m s) as [[a|e] s1]; [by eauto|done]. Qed.

(** *** What reading does step by step *)
Definition fresh (x : t) : Prop := _changeScript x = None /\ _changeIndex x = None.

Lemma fresh_inputs l x : fresh x -> fresh (snd (add_inputs l x)).
Proof.
  revert x. induction l as [|o l IH]; intros x Hx; [done|]. cbn [add_inputs]. unfold js_lift, mbind, js_bind. destruct (read_input o) as [i|]; [|done].
  assert (fresh (snd ((match io_output o with Some _ => addInput i | None => uncheckedAddInput i end) x))) as Hf.
  { destruct (io_output o); [unfold addInput, js_lift, mbind, js_bind at 1; destruct (guard_or _ _); [|done]|]; by rewrite unchecked_add by apply Hx. }
  destruct ((match io_output o with Some _ => addInput i | None => uncheckedAddInput i end) x) as [[[]|e] x']; [by apply IH|done].
Qed.

Lemma fresh_outputs l x : fresh x -> fresh (snd (add_outputs l x)).
Proof.
  revert x. induction l as [|o l IH]; intros x Hx; [done|]. cbn [add_outputs]. unfold js_lift, mbind, js_bind. destruct (output_fromObject o) as [out|]; [|done].
  unfold addOutput, addOutput_, js_modify, mbind, js_bind. rewrite no_change by apply Hx. by apply IH.
Qed.

(** The state in which the change of an object that is read is looked at *)
Lemma read_before_change o x' : fromObject o Transaction.new = (Ok tt, x') -> exists x, fresh x
  /\ ((match o_changeIndex o with Some (S n) => js_modify (fun x => x <| _changeIndex := Some (S n) |>) | _ => mret tt end);;
      (match o_changeScript o with
       | Some text => if bool_decide (text = EmptyString) then mret tt
           else s ← js_lift (ScriptText.fromString text); js_modify (fun x => x <| _changeScript := Some s |>)
       | None => mret tt end);;
      (match o_fee o with Some f => if num_eq f (num_of_Z 0) || negb (num_eq f f) then mret tt else fee f | None => mret tt end);;
      js_modify (fun x => x <| nLockTime := o_nLockTime o |> <| version := o_version o |>);;
      checkConsistency) x = (Ok tt, x').
Proof.
  intros Hr. unfold fromObject in Hr. unfold mbind at 1, js_bind at 1 in Hr. pose proof (fresh_inputs (o_inputs o) Transaction.new (conj eq_refl eq_refl)) as Hi.
  destruct (add_inputs (o_inputs o) Transaction.new) as [[[]|e] x1]; [|done]. unfold mbind at 1, js_bind at 1 in Hr.
  pose proof (fresh_outputs (o_outputs o) x1 Hi) as Ho. destruct (add_outputs (o_outputs o) x1) as [[[]|e] x2]; [|done]. by exists x2.
Qed.

Lemma consistent x r : checkConsistency x = r -> snd r = x.
Proof. intros <-. unfold checkConsistency, js_get, js_lift, mbind, js_bind, mret, js_ret. by destruct (_changeIndex x). Qed.

End WithCrypto.
End ObjectLemmas.

(** ** Theorems *)
Section ObjectTheorems.
Import Transaction TxObject ObjectLemmas ScriptTextLemmas.
Context `{Crypto}.

(** C31: a transaction without change, of inputs whose keys, signatures and scripts are well formed, is
    read back from its object: the same fields, classes of inputs, keys and signatures, and the same bytes. *)
Theorem tx_object_roundtrip x : plain_tx x -> exists o, toObject x = Ok o /\ covered o = true
  /\ fromObject o Transaction.new = (Ok tt, reread_tx x) /\ toBuffer (reread_tx x) = toBuffer x.
Proof.
  intros Hx. exists (object_of x). split; [by apply object_written|]. split; [by apply object_covered|]. split; [by apply object_read|apply reread_bytes].
Qed.

(** whatever object is read, a change output in front of all others is not known as the change
    afterwards, and an object that has a change script and a fee gives a transaction without signatures. *)
Theorem change_not_reread o x : fromObject o Transaction.new = (Ok tt, x) ->
  (o_changeIndex o = Some O -> kept_fee (o_fee o) = None -> getChangeOutput x = None)
  /\ (forall text f, o_changeScript o = Some text -> text <> EmptyString -> kept_fee (o_fee o) = Some f -> Forall unsigned (inputs x)).
Proof.
  intros Hr. destruct (read_before_change o x Hr) as (y & [Hys Hyi] & E). split.
  - intros Hc Hf. rewrite Hc in E. assert ((match o_fee o with Some f => if num_eq f (num_of_Z 0) || negb (num_eq f f) then mret tt else fee f | None => mret tt end) = @mret (js t) _ unit tt) as Ef.
    { unfold kept_fee in Hf. destruct (o_fee o); [|done]. cbn [mbind option_bind] in Hf. by destruct (_ || _). }
    rewrite Ef in E. unfold mret, js_ret, js_modify, js_lift, mbind, js_bind in E. unfold getChangeOutput.
    destruct (o_changeScript o) as [text|]; [destruct (bool_decide _); [|destruct (ScriptText.fromString text); [|done]]|];
      apply consistent in E; cbn [snd] in E; rewrite E; cbn; by rewrite Hyi.
  - intros text f Ht Hne Hf. rewrite Ht, bool_decide_false in E by done. unfold kept_fee in Hf. destruct (o_fee o) as [f'|]; [|done]. cbn [mbind option_bind] in Hf.
    destruct (_ || _); [done|]. injection Hf as ->.
    apply bind_ok in E as ([] & y1 & E1 & E). apply bind_ok in E as ([] & y2 & E2 & E). apply bind_ok in E as ([] & y3 & E3 & E).
    apply bind_ok in E as ([] & y4 & E4 & E). apply consistent in E. cbn [snd] in E. subst x. injection E4 as <-. cbn.
    assert (exists s, _changeScript y2 = Some s) as [s Hs].
    { apply bind_ok in E2 as (s & y' & Es & E2). injection E2 as <-. by eexists. }
    unfold fee, js_modify in E3. apply bind_ok in E3 as ([] & y' & E3 & E5). injection E3 as <-. by apply (change_unsigned _ _ s) in E5.
Qed.

End ObjectTheorems.

(** ** Witnesses *)
Section ObjectWitnesses.
Import Transaction TxObject ObjectLemmas ScriptTextLemmas AmountLemmas.
#[local] Existing Instance demo_crypto.

(** A transaction of a channel: one of two signatures is there for a 2-of-2 output. *)
Definition object_keys : list (list Z) := [2 :: repeat 5 32; 3 :: repeat 6 32].
Definition redeem_script : Script.t := match Script.buildMultisigOut object_keys 2 true with Ok s => s | Throw _ => Script.empty end.
Definition channel_script : Script.t := match Script.buildScriptHashOut redeem_script with Ok s => s | Throw _ => Script.empty end.
Definition coin_of (z : Z) (s : Script.t) : Output.t :=
  output_of z s (match Script.toBuffer s with Ok b => b | Throw _ => [] end).
Definition object_signature : TransactionSignature := mkSig (2 :: repeat 5 32) (repeat 7 32) 0 0 [48; 6; 2; 1; 1; 2; 1; 2] 131.
Definition channel_input : Input.t :=
  Input.mk (Some (coin_of 9000 channel_script)) (repeat 7 32) 0 Input.DEFAULT_SEQNUMBER [] (Some Script.empty)
    (Input.MultiSigScriptHash (Input.mkMultisig object_keys redeem_script 2 [Some object_signature; None])).
Definition channel_tx : t := mk 1 [channel_input] [coin_of 8000 channel_script] 0 None None None None None.

Lemma bytes_by_test b : forallb (fun x => (0 <=? x) && (x <? 256)) b = true -> bytes_ok b.
Proof. intros Hb. rewrite forallb_forall in Hb. apply List.Forall_forall. intros x Hx. specialize (Hb x Hx). unfold byte_ok. lia. Qed.

Lemma channel_plain z : plain_output (coin_of z channel_script).
Proof.
  split; [|by eexists|done]. eexists _, _. split; [done|]. split; [|done]. repeat apply Forall_cons_2; [..|by apply Forall_nil_2].
  - split; [done|]. split; [done|by eexists].
  - split; [by apply bytes_by_test|by left].
  - split; [done|]. split; [done|by eexists].
Qed.

Lemma channel_tx_plain : plain_tx channel_tx.
Proof.
  split; [|by apply Forall_singleton, channel_plain|done]. apply Forall_singleton. split.
  - split; [by apply bytes_by_test|done].
  - exists [], None. split; [done|]. by split; [apply Forall_nil_2|].
  - split; [by apply channel_plain|]. eexists. split; [done|]. split.
    + done.
    + by vm_compute.
    + eexists. split; [by vm_compute|by vm_compute].
    + by split; vm_compute.
    + apply Forall_cons_2; [|apply Forall_singleton]; (split; [by apply bytes_by_test|done]).
    + apply Forall_cons_2; [|by apply Forall_singleton]. split.
      * split; [by apply bytes_by_test|done].
      * split; [by apply bytes_by_test|done].
      * split; [by apply bytes_by_test|done].
      * by vm_compute.
      * done.
Qed.

Lemma tx_object_roundtrip_witness : exists o, toObject channel_tx = Ok o /\ fromObject o Transaction.new = (Ok tt, reread_tx channel_tx).
Proof. destruct (tx_object_roundtrip channel_tx channel_tx_plain) as (o & Ho & _ & Hr & _). exists o. split; [exact Ho|exact Hr]. Defined.

(** Its object, were the output its change, without and with a fee *)
Definition channel_object (fee : option number) : object :=
  let o := object_of channel_tx in
  mkObject 1 (o_inputs o) (o_outputs o) 0 (Some (ScriptText.toString channel_script)) (Some O) fee.
Definition read_object (fee : option number) : t := snd (fromObject (channel_object fee) Transaction.new).

Lemma object_reads fee : fst (fromObject (channel_object fee) Transaction.new) = Ok tt ->
  fromObject (channel_object fee) Transaction.new = (Ok tt, read_object fee).
Proof. unfold read_object. destruct (fromObject (channel_object fee) Transaction.new) as [r x]. cbn. by intros ->. Qed.

Lemma change_not_reread_witness : getChangeOutput (read_object None) = None /\ Forall unsigned (inputs (read_object (Some (num_of_Z 1000)))).
Proof.
  split.
  - destruct (change_not_reread (channel_object None) (read_object None)) as [H1 _]; [apply object_reads; vm_compute; reflexivity|].
    apply H1; reflexivity.
  - destruct (change_not_reread (channel_object (Some (num_of_Z 1000))) (read_object (Some (num_of_Z 1000)))) as [_ H2]; [apply object_reads; vm_compute; reflexivity|].
    apply (H2 (ScriptText.toString channel_script) (num_of_Z 1000)); [reflexivity|intros E; vm_compute in E; discriminate E|vm_compute; reflexivity].
Defined.

End ObjectWitnesses.
