(* ===== verification/TxVerify.v ===== *)
(** * The sanity tests of a transaction

    Models [Transaction.prototype.verify] and [isCoinbase] of [src/Sources/WebClient/js/bitcore.js] (module
    37), [_newOutputOrder] behind [sortOutputs], and [checkedSerialize].  [verify] compares the size of
    the transaction with a constant of [Block]; module 4, which exports it, loads module 2 and through it
    module 37 before its exports are set, so the constant is [undefined] and no size is too large. *)
From S2P Require Import Prelude JsNumber Encoding Script Base58 Hmac Transaction.
From Stdlib Require Import Ascii String.
Local Open Scope Z_scope.
Local Open Scope js_scope.

Module TxVerify.
Import Transaction.

(** What [verify] says instead of [true]; the numbers are positions. *)
Inductive verify_error :=
  | TxinsEmpty | TxoutsEmpty | TxoutNegative (i : nat) | TxoutTooLarge (i : nat) | TotalTooLarge (i : nat)
  | DuplicateInput (i : nat) | CoinbaseScriptSize | NullInput (i : nat).

Definition isCoinbase (x : t) : bool := match inputs x with [i] => Input.isNull i | _ => false end.

(** The loop over the outputs *)
Fixpoint check_outputs (i : nat) (valueoutbn : Z) (l : list Output.t) : option verify_error :=
  match l with
  | [] => None
  | txout :: l =>
      let valuebn := Output._satoshisBN txout in
      if valuebn <? 0 then Some (TxoutNegative i)
      else if valuebn >? MAX_MONEY then Some (TxoutTooLarge i)
      else
        let valueoutbn := valueoutbn + valuebn in
        if valueoutbn >? MAX_MONEY then Some (TotalTooLarge i) else check_outputs (S i) valueoutbn l
  end.

(** [txin.prevTxId + ':' + txin.outputIndex]: the identifier is a buffer, and becomes the text its bytes
    are in UTF-8.  The last colon tells text and index apart. *)
Definition inputid (txin : Input.t) : list Z * Z := (Utf8.utf8Slice (Input.prevTxId txin), Input.outputIndex txin).

(** The loop over the inputs, [txinmap] being the keys met *)
Fixpoint check_inputs (i : nat) (txinmap : list (list Z * Z)) (l : list Input.t) : option verify_error :=
  match l with
  | [] => None
  | txin :: l => if bool_decide (inputid txin ∈ txinmap) then Some (DuplicateInput i) else check_inputs (S i) (inputid txin :: txinmap) l
  end.

Fixpoint check_null (i : nat) (l : list Input.t) : option verify_error :=
  match l with [] => None | txin :: l => if Input.isNull txin then Some (NullInput i) else check_null (S i) l end.

(** [None] is [true].  The script of an input is the field, not its getter: it is [null] after reading. *)
Definition verify (x : t) : result (option verify_error) :=
  if bool_decide (inputs x = []) then Ok (Some TxinsEmpty)
  else if bool_decide (outputs x = []) then Ok (Some TxoutsEmpty)
  else
    _ ← toBuffer x;
    match check_outputs 0 0 (outputs x) with
    | Some e => Ok (Some e)
    | None =>
        match check_inputs 0 [] (inputs x) with
        | Some e => Ok (Some e)
        | None =>
            match inputs x with
            | i :: _ =>
                if isCoinbase x then
                  s ← match Input._script i with Some s => Ok s | None => Throw TypeError end;
                  buf ← Script.toBuffer s;
                  Ok (if (zlen buf <? 2) || (zlen buf >? 100) then Some CoinbaseScriptSize else None)
                else Ok (check_null 0 (inputs x))
            | [] => Ok None
            end
        end
    end.

(** [_newOutputOrder(newOutputs)], the new order being given by the places its outputs had.  When there
    is no change output, [undefined] is none of them. *)
Definition newOutputOrder (places : list nat) : js t unit :=
  x ← js_get;
  match findIndex (fun place => bool_decide (Some place = _changeIndex x)) (take (List.length (outputs x)) places) with
  | None => js_throw (BitcoreError "Transaction.InvalidSorting")
  | Some changeIndex => js_modify (fun x => x <| outputs := omap (fun place => outputs x !! place) places |> <| _changeIndex := Some changeIndex |>)
  end.

Section WithCrypto.
Context `{Crypto}.

(** [uncheckedSerialize] and [checkedSerialize(opts)] *)
Definition uncheckedSerialize (x : t) : result string := b ← toBuffer x; Ok (Hex.hexSlice b).

Definition error_class (e : Signing.serialization_error) : js_error :=
  BitcoreError (match e with
    | Signing.ChangeAddressMissing => "Transaction.ChangeAddressMissing"
    | Signing.FeeTooLarge | Signing.FeeTooSmall => "Transaction.FeeError"
    | Signing.DustOutputs => "Transaction.DustOutputs"
    | Signing.MissingSignatures => "Transaction.MissingSignatures"
    | Signing.InvalidOutputAmountSum => "Transaction.InvalidOutputAmountSum"
    end).

Definition checkedSerialize (opts : Signing.serialize_opts) : js t string :=
  error ← Signing.getSerializationError opts;
  match error with
  | Some e => js_throw (error_class e)
  | None => x ← js_get; js_lift (uncheckedSerialize x)
  end.

End WithCrypto.
End TxVerify.

Module VerifyLemmas.
Import Transaction TxVerify.

Definition total (l : list Output.t) : Z := foldr (fun o acc => Output._satoshisBN o + acc) 0 l.
Definition value_ok (o : Output.t) : Prop := 0 <= Output._satoshisBN o <= MAX_MONEY.

Lemma total_nonneg l : Forall value_ok l -> 0 <= total l.
Proof. unfold value_ok. induction 1 as [|o l Ho _ IH]; cbn [total foldr]; [lia|]. fold (total l). lia. Qed.

Lemma check_outputs_none l : forall i v, v <= MAX_MONEY -> check_outputs i v l = None <-> Forall value_ok l /\ v + total l <= MAX_MONEY.
Proof.
  induction l as [|o l IH]; intros i v Hv; cbn [check_outputs].
  { split; [intros _; split; [by apply Forall_nil|cbn; lia]|done]. }
  rewrite Forall_cons. change (total (o :: l)) with (Output._satoshisBN o + total l). unfold value_ok at 1.
  destruct (Z.ltb_spec (Output._satoshisBN o) 0); [split; [done|lia]|]. destruct (Z.gtb_spec (Output._satoshisBN o) MAX_MONEY); [split; [done|lia]|].
  destruct (Z.gtb_spec (v + Output._satoshisBN o) MAX_MONEY).
  - split; [done|]. intros [[_ Hl] Ht]. pose proof (total_nonneg l Hl). lia.
  - rewrite IH by lia. split; intros [Hl Ht]; (split; [|lia]); [split; [lia|done]|apply Hl].
Qed.

Lemma check_inputs_none l : forall i seen, NoDup seen -> check_inputs i seen l = None <-> NoDup (map inputid l ++ seen).
Proof.
  induction l as [|txin l IH]; intros i seen Hs; cbn [check_inputs map app]; [done|]. rewrite NoDup_cons, elem_of_app.
  destruct (bool_decide_reflect (inputid txin ∈ seen)) as [Hin|Hin].
  - split; [done|]. intros [Hn _]. by destruct Hn; right.
  - rewrite IH by (by constructor). by rewrite <-Permutation_middle, NoDup_cons, elem_of_app.
Qed.

Lemma check_null_none l : forall i, check_null i l = None <-> Forall (fun i => Input.isNull i = false) l.
Proof.
  induction l as [|txin l IH]; intros i; cbn [check_null]; [split; [intros; by apply Forall_nil|done]|].
  rewrite Forall_cons. destruct (Input.isNull txin); [split; [done|by intros [? _]]|]. rewrite IH. split; [done|by intros [_ ?]].
Qed.

(** Bytes that are no UTF-8 text all read the same. *)
Lemma undecodable b l : 0x80 <= b < 0xc0 -> Forall (fun x => 0x7f < x) l -> Utf8.utf8Slice (b :: l) = [0xfffd].
Proof.
  intros Hb Hl. unfold Utf8.utf8Slice.
  assert (forall l tmp, Forall (fun x => 0x7f < x) l -> Utf8.slice_loop l tmp = Utf8.decodeUtf8Char (tmp ++ l)) as Hloop.
  { clear. intros l tmp Hl. revert tmp. induction Hl as [|x l Hx _ IH]; intros tmp; cbn [Utf8.slice_loop]; [by rewrite app_nil_r|].
    rewrite (proj2 (Z.leb_gt x 0x7f)) by done. rewrite IH. by rewrite <-(assoc_L (++)). }
  rewrite Hloop by (constructor; [lia|done]). cbn [app]. unfold Utf8.decodeUtf8Char. cbn [Utf8.decodeURIComponent].
  by rewrite (proj2 (Z.ltb_lt b 0xc0)) by lia.
Qed.

(** *** Orders *)
Lemma findIndex_some {A} (f : A -> bool) l n : findIndex f l = Some n -> exists p, l !! n = Some p /\ f p = true.
Proof.
  revert n. induction l as [|p l IH]; intros n; cbn [findIndex]; [done|]. destruct (f p) eqn:E; [intros [= <-]; by exists p|].
  destruct (findIndex f l) as [m|]; [|done]. intros [= <-]. by apply IH.
Qed.

Lemma findIndex_none {A} (f : A -> bool) l : findIndex f l = None -> Forall (fun p => f p = false) l.
Proof.
  induction l as [|p l IH]; cbn [findIndex]; [constructor|]. destruct (f p) eqn:E; [done|]. destruct (findIndex f l); [done|]. constructor; auto.
Qed.

Lemma omap_lookup {A} (os : list A) l : Forall (fun p => (p < List.length os)%nat) l ->
  forall n p, l !! n = Some p -> omap (fun p => os !! p) l !! n = os !! p.
Proof.
  induction 1 as [|p l Hp _ IH]; [done|]. destruct (lookup_lt_is_Some_2 _ _ Hp) as [o Ho]. cbn. rewrite Ho. intros [|n] q; [by intros [= <-]|apply IH].
Qed.

Lemma omap_seq {A} (os : list A) : omap (fun p => os !! p) (seq 0 (List.length os)) ≡ₚ os.
Proof.
  induction os as [|o l IH] using rev_ind; [done|]. rewrite length_app, seq_app, omap_app. cbn [List.length seq Nat.add].
  rewrite (list_omap_ext _ (fun p => l !! p) (seq 0 (List.length l)) (seq 0 (List.length l))).
  - rewrite IH. cbn. by rewrite lookup_app_r, Nat.sub_diag by lia.
  - apply Forall_Forall2_diag, Forall_forall. intros p [_ Hlt]%elem_of_seq. apply lookup_app_l. lia.
Qed.

End VerifyLemmas.

(** ** Theorems *)
Section VerifyTheorems.
Import Transaction TxVerify VerifyLemmas.

(** C33: [verify] returns [true] exactly for a transaction that can be written, has inputs and outputs, pays
    amounts of money that add up to one, spends outputs whose keys differ, and is either a coinbase with
    a parsed script of 2 to 100 bytes or has no null input; no size is too large. *)
Theorem verify_exact x : verify x = Ok None <->
  is_ok (toBuffer x) = true /\ inputs x <> [] /\ outputs x <> [] /\ Forall value_ok (outputs x) /\ total (outputs x) <= MAX_MONEY
  /\ NoDup (map inputid (inputs x))
  /\ if isCoinbase x then exists i s b, inputs x = [i] /\ Input._script i = Some s /\ Script.toBuffer s = Ok b /\ 2 <= zlen b <= 100
     else Forall (fun i => Input.isNull i = false) (inputs x).
Proof.
  unfold verify. destruct (bool_decide_reflect (inputs x = [])) as [|Hi]; [split; [done|tauto]|].
  destruct (bool_decide_reflect (outputs x = [])) as [|Ho]; [split; [done|tauto]|].
  destruct (toBuffer x) as [b0|]; cbn [mbind result_bind is_ok]; [|split; [done|by intros [? _]]].
  pose proof (check_outputs_none (outputs x) 0 0 ltac:(done)) as Hout. rewrite Z.add_0_l in Hout.
  destruct (check_outputs 0 0 (outputs x)) as [e|]; [split; [done|]; intros (_ & _ & _ & Hv & Ht & _); by destruct (proj2 Hout (conj Hv Ht))|].
  destruct (proj1 Hout eq_refl) as [Hv Ht].
  pose proof (check_inputs_none (inputs x) 0 [] (NoDup_nil_2)) as Hin. rewrite app_nil_r in Hin.
  destruct (check_inputs 0 [] (inputs x)) as [e|]; [split; [done|]; intros (_ & _ & _ & _ & _ & Hd & _); by apply Hin in Hd|].
  pose proof (proj1 Hin eq_refl) as Hd. pose proof (check_null_none (inputs x) 0) as Hnull. clear Hin Hout.
  assert (forall P Q : Prop, (P <-> Q) -> P <-> true = true /\ inputs x <> [] /\ outputs x <> [] /\ Forall value_ok (outputs x) /\ total (outputs x) <= MAX_MONEY
    /\ NoDup (map inputid (inputs x)) /\ Q) as Hrest by (intros; tauto).
  apply Hrest. clear Hrest. unfold isCoinbase in *. destruct (inputs x) as [|i [|j l]]; [done| |].
  - destruct (Input.isNull i); [|split; [intros E; apply Hnull; by injection E|intros E; f_equal; by apply Hnull]].
    split.
    + destruct (Input._script i) as [s|] eqn:Es; [|done]. cbn [mbind result_bind]. destruct (Script.toBuffer s) as [b|] eqn:Eb; [|done]. cbn [mbind result_bind].
      destruct (Z.ltb_spec (zlen b) 2), (Z.gtb_spec (zlen b) 100); cbn [orb]; try done. intros _. exists i, s, b. split_and!; done || lia.
    + intros (i' & s & b & [= <-] & -> & Hb & Hl). cbn [mbind result_bind]. rewrite Hb. cbn [mbind result_bind].
      rewrite (proj2 (Z.ltb_ge _ _)) by lia. destruct (Z.gtb_spec (zlen b) 100); [lia|done].
  - split; [intros E; apply Hnull; by injection E|intros E; f_equal; by apply Hnull].
Qed.

(** two inputs that spend outputs of different transactions are reported as one spent twice, when the
    identifiers are bytes that UTF-8 cannot read. *)
Theorem false_duplicate x i j l a b ra rb : inputs x = i :: j :: l -> Input.prevTxId i = a :: ra -> Input.prevTxId j = b :: rb ->
  Input.outputIndex i = Input.outputIndex j -> 0x80 <= a < 0xc0 -> 0x80 <= b < 0xc0 -> Forall (fun c => 0x7f < c) (ra ++ rb) ->
  is_ok (toBuffer x) = true -> outputs x <> [] -> Forall value_ok (outputs x) -> total (outputs x) <= MAX_MONEY ->
  verify x = Ok (Some (DuplicateInput 1)).
Proof.
  intros Hx Hi Hj Hn Ha Hb [Hra Hrb]%Forall_app Hok Ho Hv Ht. unfold verify. rewrite Hx, bool_decide_false, bool_decide_false by done.
  destruct (toBuffer x); [|done]. cbn [mbind result_bind]. rewrite (proj2 (check_outputs_none (outputs x) 0 0 ltac:(done))) by (rewrite Z.add_0_l; done).
  cbn [check_inputs]. rewrite bool_decide_false by (intros Hin; inversion Hin). rewrite bool_decide_true; [done|].
  unfold inputid. rewrite Hi, Hj, Hn, !undecodable by done. by left.
Qed.

(** putting the outputs into another order keeps the output that is the change; without a change
    output no order is accepted. *)
Theorem order_keeps_change places x : places ≡ₚ seq 0 (List.length (outputs x)) ->
  match _changeIndex x with
  | Some c => (c < List.length (outputs x))%nat -> exists y, newOutputOrder places x = (Ok tt, y)
      /\ outputs y ≡ₚ outputs x /\ getChangeOutput y = getChangeOutput x
  | None => newOutputOrder places x = (Throw (BitcoreError "Transaction.InvalidSorting"), x)
  end.
Proof.
  intros Hp. assert (take (List.length (outputs x)) places = places) as Htake by (apply take_ge; apply Permutation_length in Hp; rewrite length_seq in Hp; lia).
  unfold newOutputOrder, js_get, mbind, js_bind. rewrite Htake.
  assert (Forall (fun p => (p < List.length (outputs x))%nat) places) as Hbound.
  { rewrite Hp. apply Forall_forall. intros p [_ Hlt]%elem_of_seq. lia. }
  destruct (_changeIndex x) as [c|] eqn:Ec.
  - intros Hlt. destruct (findIndex _ places) as [n|] eqn:E.
    + apply findIndex_some in E as (p & Hn & Hpc). apply bool_decide_eq_true in Hpc. injection Hpc as ->. eexists. split; [done|]. cbn. split.
      * rewrite Hp. apply omap_seq.
      * unfold getChangeOutput. cbn. rewrite Ec. cbn. by apply omap_lookup.
    + apply findIndex_none in E. rewrite Hp, Forall_forall in E. assert (c ∈ seq 0 (List.length (outputs x))) as Hc by (apply elem_of_seq; lia).
      specialize (E c Hc). by apply bool_decide_eq_false in E.
  - destruct (findIndex _ places) as [n|] eqn:E; [|done]. apply findIndex_some in E as (p & _ & Hpc). by apply bool_decide_eq_true in Hpc.
Qed.

End VerifyTheorems.

(** ** Witnesses *)
Section VerifyWitnesses.
Import Transaction TxVerify VerifyLemmas AmountLemmas.

Definition plain_coin (z : Z) : Output.t := output_of z Script.empty [].
Definition spending (b : Z) : Input.t := Input.mk None (repeat b 32) 0 Input.DEFAULT_SEQNUMBER [] None Input.Base.
Definition two_inputs : t := mk 1 [spending 128; spending 129] [plain_coin 5; plain_coin 6] 0 None None None (Some 1%nat) None.

Lemma false_duplicate_witness : verify two_inputs = Ok (Some (DuplicateInput 1)).
Proof.
  apply (false_duplicate two_inputs (spending 128) (spending 129) [] 128 129 (repeat 128 31) (repeat 129 31));
    [reflexivity|reflexivity|reflexivity|reflexivity|lia|lia|repeat constructor|vm_compute; reflexivity|done| |vm_compute; discriminate].
  repeat constructor; vm_compute; discriminate.
Defined.

Lemma order_keeps_change_witness : exists y, newOutputOrder [1; 0]%nat two_inputs = (Ok tt, y) /\ getChangeOutput y = Some (plain_coin 6).
Proof.
  pose proof (order_keeps_change [1; 0]%nat two_inputs ltac:(apply perm_swap)) as H. cbn in H.
  destruct H as (y & Hy & _ & Hc); [lia|]. exists y. split; [exact Hy|exact Hc].
Defined.

End VerifyWitnesses.
