(* ===== verification/Interpreter.v ===== *)
(** * bitcore's script interpreter

    Models module 27 ([Interpreter]) of [src/Sources/WebClient/js/bitcore.js]: the evaluation of a
    script on a stack of byte strings, one opcode per [step], and [verify], which runs the script
    of an input, the script of the output it spends and, for pay-to-script-hash, the redeem script.

    The stacks are kept with their top first ([push] is a cons, [stack[stack.length - k]] the
    element [k - 1]).  An operation returns false with [errstr] set, or throws; the text of an
    exception caught by [evaluate] is left out of [errstr]. *)
From S2P Require Import Prelude JsNumber Encoding Signature Script Transaction.
Local Open Scope Z_scope.
Local Open Scope js_scope.

(** The hash functions the opcodes use besides those of [Crypto]. *)
Class Hashes := {
  ripemd160 : list Z -> list Z;
  sha1 : list Z -> list Z;
  sha256 : list Z -> list Z;
}.

(** [switch (op)]: the first case that lists the value. *)
Fixpoint switch {A} (op : Z) (cases : list (list Z * A)) (default : A) : A :=
  match cases with
  | [] => default
  | (ops, a) :: cases => if existsb (Z.eqb op) ops then a else switch op cases default
  end.

Module Interpreter.

Record t := mk {
  script : Script.t;
  tx : Transaction.t;
  nin : nat;
  stack : list (list Z);
  altstack : list (list Z);
  pc : nat;
  pbegincodehash : nat;
  nOpCount : Z;
  vfExec : list bool;
  errstr : string;
  flags : Z;
}.
#[global] Instance eta_interpreter : Eta t := fun i =>
  mk (script i) (tx i) (nin i) (stack i) (altstack i) (pc i) (pbegincodehash i) (nOpCount i) (vfExec i) (errstr i) (flags i).

(** [initialize()] and [set({script, stack, tx, nin, flags})] *)
Definition start (script : Script.t) (stack : list (list Z)) (tx : Transaction.t) (nin : nat) (flags : Z) : t :=
  mk script tx nin stack [] 0 0 0 [] "" flags.

Definition true_ : list Z := [1].
Definition false_ : list Z := [].
Definition MAX_SCRIPT_ELEMENT_SIZE := 520.

Definition SCRIPT_VERIFY_NONE := 0.
Definition SCRIPT_VERIFY_P2SH := Z.shiftl 1 0.
Definition SCRIPT_VERIFY_STRICTENC := Z.shiftl 1 1.
Definition SCRIPT_VERIFY_DERSIG := Z.shiftl 1 2.
Definition SCRIPT_VERIFY_LOW_S := Z.shiftl 1 3.
Definition SCRIPT_VERIFY_NULLDUMMY := Z.shiftl 1 4.
Definition SCRIPT_VERIFY_SIGPUSHONLY := Z.shiftl 1 5.
Definition SCRIPT_VERIFY_MINIMALDATA := Z.shiftl 1 6.
Definition SCRIPT_VERIFY_DISCOURAGE_UPGRADABLE_NOPS := Z.shiftl 1 7.

(** [(flags & flag) !== 0] *)
Definition has (flags flag : Z) : bool := negb (Z.land flags flag =? 0).

(** [castToBool]: some byte is not zero, the sign bit of a last byte aside. *)
Fixpoint castToBool (b : list Z) : bool :=
  match b with
  | [] => false
  | x :: rest =>
      if negb (x =? 0) then negb (match rest with [] => x =? 0x80 | _ :: _ => false end) else castToBool rest
  end.

Definition bool_buf (b : bool) : list Z := if b then true_ else false_.

Abbreviation M := (js t).

(** [this.errstr = e; return false] *)
Definition fail (e : string) : M bool := js_modify (fun i => i <| errstr := e |>);; mret false.
Definition INVALID_STACK : M bool := fail "SCRIPT_ERR_INVALID_STACK_OPERATION".
Definition set_stack (st : list (list Z)) : M bool := js_modify (fun i => i <| stack := st |>);; mret true.

(** An operation that needs some elements on the stack: [None] when they are missing. *)
Definition on_stack (f : list (list Z) -> option (list (list Z))) : M bool :=
  i ← js_get;
  match f (stack i) with Some st => set_stack st | None => INVALID_STACK end.

Definition fRequireMinimal (i : t) : bool := has (flags i) SCRIPT_VERIFY_MINIMALDATA.

(** *** Stack operations *)

Definition op_2drop st := match st with _ :: _ :: st => Some st | _ => None end : option (list (list Z)).
Definition op_2dup (st : list (list Z)) := match st with x2 :: x1 :: st => Some (x2 :: x1 :: x2 :: x1 :: st) | _ => None end.
Definition op_3dup (st : list (list Z)) :=
  match st with x3 :: x2 :: x1 :: st => Some (x3 :: x2 :: x1 :: x3 :: x2 :: x1 :: st) | _ => None end.
Definition op_2over (st : list (list Z)) :=
  match st with x4 :: x3 :: x2 :: x1 :: st => Some (x2 :: x1 :: x4 :: x3 :: x2 :: x1 :: st) | _ => None end.
Definition op_2rot (st : list (list Z)) :=
  match st with x6 :: x5 :: x4 :: x3 :: x2 :: x1 :: st => Some (x2 :: x1 :: x6 :: x5 :: x4 :: x3 :: st) | _ => None end.
Definition op_2swap (st : list (list Z)) :=
  match st with x4 :: x3 :: x2 :: x1 :: st => Some (x2 :: x1 :: x4 :: x3 :: st) | _ => None end.
Definition op_ifdup (st : list (list Z)) :=
  match st with x :: st => Some (if castToBool x then x :: x :: st else x :: st) | _ => None end.
Definition op_depth (st : list (list Z)) := Some (BN.toScriptNumBuffer (Z.of_nat (length st)) :: st).
Definition op_drop (st : list (list Z)) := match st with _ :: st => Some st | _ => None end.
Definition op_dup (st : list (list Z)) := match st with x :: st => Some (x :: x :: st) | _ => None end.
Definition op_nip (st : list (list Z)) := match st with x2 :: _ :: st => Some (x2 :: st) | _ => None end.
Definition op_over (st : list (list Z)) := match st with x2 :: x1 :: st => Some (x1 :: x2 :: x1 :: st) | _ => None end.
Definition op_rot (st : list (list Z)) :=
  match st with x3 :: x2 :: x1 :: st => Some (x1 :: x3 :: x2 :: st) | _ => None end.
Definition op_swap (st : list (list Z)) := match st with x2 :: x1 :: st => Some (x1 :: x2 :: st) | _ => None end.
Definition op_tuck (st : list (list Z)) := match st with x2 :: x1 :: st => Some (x2 :: x1 :: x2 :: st) | _ => None end.
Definition op_size (st : list (list Z)) :=
  match st with x :: st => Some (BN.toScriptNumBuffer (zlen x) :: x :: st) | _ => None end.

(** [OP_PICK] and [OP_ROLL] *)
Definition op_pick (roll : bool) : M bool :=
  i ← js_get;
  match stack i with
  | buf :: (_ :: _) as st =>
      n ← js_lift (BN.fromScriptNumBuffer buf (fRequireMinimal i));
      js_modify (fun i => i <| stack := tail st |>);;
      if (n <? 0) || (n >=? zlen (tail st)) then INVALID_STACK
      else
        match tail st !! Z.to_nat n with
        | Some x => set_stack (x :: (if roll then delete (Z.to_nat n) (tail st) else tail st))
        | None => INVALID_STACK
        end
  | _ => INVALID_STACK
  end.

Definition op_toaltstack : M bool :=
  i ← js_get;
  match stack i with
  | x :: st => js_modify (fun i => i <| stack := st |> <| altstack := x :: altstack i |>);; mret true
  | [] => INVALID_STACK
  end.
Definition op_fromaltstack : M bool :=
  i ← js_get;
  match altstack i with
  | x :: st => js_modify (fun i => i <| altstack := st |> <| stack := x :: stack i |>);; mret true
  | [] => fail "SCRIPT_ERR_INVALID_ALTSTACK_OPERATION"
  end.

(** [OP_EQUAL] and [OP_EQUALVERIFY] *)
Definition op_equal (verify : bool) : M bool :=
  i ← js_get;
  match stack i with
  | buf2 :: buf1 :: st =>
      let fEqual := bool_decide (buf1 = buf2) in
      set_stack (bool_buf fEqual :: st);;
      if verify then if fEqual then set_stack st else fail "SCRIPT_ERR_EQUALVERIFY"
      else mret true
  | _ => INVALID_STACK
  end.

(** *** Control *)

(** [OP_IF] and [OP_NOTIF] *)
Definition op_if (notif fExec : bool) : M bool :=
  i ← js_get;
  if fExec then
    match stack i with
    | [] => fail "SCRIPT_ERR_UNBALANCED_CONDITIONAL"
    | buf :: st =>
        let fValue := if notif then negb (castToBool buf) else castToBool buf in
        js_modify (fun i => i <| stack := st |> <| vfExec ::= cons fValue |>);; mret true
    end
  else js_modify (fun i => i <| vfExec ::= cons false |>);; mret true.

Definition op_else : M bool :=
  i ← js_get;
  match vfExec i with
  | [] => fail "SCRIPT_ERR_UNBALANCED_CONDITIONAL"
  | f :: fs => js_modify (fun i => i <| vfExec := negb f :: fs |>);; mret true
  end.
Definition op_endif : M bool :=
  i ← js_get;
  match vfExec i with
  | [] => fail "SCRIPT_ERR_UNBALANCED_CONDITIONAL"
  | _ :: fs => js_modify (fun i => i <| vfExec := fs |>);; mret true
  end.

Definition op_verify : M bool :=
  i ← js_get;
  match stack i with
  | [] => INVALID_STACK
  | buf :: st => if castToBool buf then set_stack st else fail "SCRIPT_ERR_VERIFY"
  end.

Definition op_nopn : M bool :=
  i ← js_get;
  if has (flags i) SCRIPT_VERIFY_DISCOURAGE_UPGRADABLE_NOPS then fail "SCRIPT_ERR_DISCOURAGE_UPGRADABLE_NOPS"
  else mret true.

(** *** Arithmetic *)

Definition num_of_bool (b : bool) : Z := if b then 1 else 0.

Definition unary (op n : Z) : Z :=
  switch op
    [([Opcode.OP_1ADD], n + 1); ([Opcode.OP_1SUB], n - 1); ([Opcode.OP_NEGATE], - n);
     ([Opcode.OP_ABS], if n <? 0 then - n else n); ([Opcode.OP_NOT], num_of_bool (n =? 0));
     ([Opcode.OP_0NOTEQUAL], num_of_bool (negb (n =? 0)))] n.

Definition op_unary (op : Z) : M bool :=
  i ← js_get;
  match stack i with
  | [] => INVALID_STACK
  | buf :: st =>
      bn ← js_lift (BN.fromScriptNumBuffer buf (fRequireMinimal i));
      set_stack (BN.toScriptNumBuffer (unary op bn) :: st)
  end.

Definition binary (op bn1 bn2 : Z) : Z :=
  switch op
    [([Opcode.OP_ADD], bn1 + bn2); ([Opcode.OP_SUB], bn1 - bn2);
     ([Opcode.OP_BOOLAND], num_of_bool (negb (bn1 =? 0) && negb (bn2 =? 0)));
     ([Opcode.OP_BOOLOR], num_of_bool (negb (bn1 =? 0) || negb (bn2 =? 0)));
     ([Opcode.OP_NUMEQUAL; Opcode.OP_NUMEQUALVERIFY], num_of_bool (bn1 =? bn2));
     ([Opcode.OP_NUMNOTEQUAL], num_of_bool (negb (bn1 =? bn2)));
     ([Opcode.OP_LESSTHAN], num_of_bool (bn1 <? bn2)); ([Opcode.OP_GREATERTHAN], num_of_bool (bn1 >? bn2));
     ([Opcode.OP_LESSTHANOREQUAL], num_of_bool (bn1 <=? bn2)); ([Opcode.OP_GREATERTHANOREQUAL], num_of_bool (bn1 >=? bn2));
     ([Opcode.OP_MIN], if bn1 <? bn2 then bn1 else bn2); ([Opcode.OP_MAX], if bn1 >? bn2 then bn1 else bn2)] 0.

Definition op_binary (op : Z) : M bool :=
  i ← js_get;
  match stack i with
  | buf2 :: buf1 :: st =>
      bn1 ← js_lift (BN.fromScriptNumBuffer buf1 (fRequireMinimal i));
      bn2 ← js_lift (BN.fromScriptNumBuffer buf2 (fRequireMinimal i));
      let out := BN.toScriptNumBuffer (binary op bn1 bn2) in
      set_stack (out :: st);;
      if op =? Opcode.OP_NUMEQUALVERIFY then
        if castToBool out then set_stack st else fail "SCRIPT_ERR_NUMEQUALVERIFY"
      else mret true
  | _ => INVALID_STACK
  end.

Definition op_within : M bool :=
  i ← js_get;
  match stack i with
  | buf3 :: buf2 :: buf1 :: st =>
      bn1 ← js_lift (BN.fromScriptNumBuffer buf1 (fRequireMinimal i));
      bn2 ← js_lift (BN.fromScriptNumBuffer buf2 (fRequireMinimal i));
      bn3 ← js_lift (BN.fromScriptNumBuffer buf3 (fRequireMinimal i));
      set_stack (bool_buf ((bn2 <=? bn1) && (bn1 <? bn3)) :: st)
  | _ => INVALID_STACK
  end.

(** *** Signatures *)

(** [checkSignatureEncoding(buf)] *)
Definition checkSignatureEncoding (buf : list Z) : M bool :=
  i ← js_get;
  if has (flags i) (Z.lor (Z.lor SCRIPT_VERIFY_DERSIG SCRIPT_VERIFY_LOW_S) SCRIPT_VERIFY_STRICTENC)
     && negb (Signature.isTxDER buf)
  then fail "SCRIPT_ERR_SIG_DER_INVALID_FORMAT"
  else if has (flags i) SCRIPT_VERIFY_LOW_S then
    sig ← js_lift (Signature.fromTxFormat buf);
    if negb (Signature.hasLowS sig) then fail "SCRIPT_ERR_SIG_DER_HIGH_S" else mret true
  else if has (flags i) SCRIPT_VERIFY_STRICTENC then
    sig ← js_lift (Signature.fromTxFormat buf);
    if negb (Signature.hasDefinedHashtype sig) then fail "SCRIPT_ERR_SIG_HASHTYPE" else mret true
  else mret true.

Section WithCrypto.
Context `{Crypto} `{Ecdsa} `{Hashes}.

Definition checkPubkeyEncoding (buf : list Z) : M bool :=
  i ← js_get;
  if has (flags i) SCRIPT_VERIFY_STRICTENC && negb (PublicKey_isValid buf) then fail "SCRIPT_ERR_PUBKEYTYPE"
  else mret true.

(** [checkSignatureEncoding(bufSig) && checkPubkeyEncoding(bufPubkey)] *)
Definition checkEncodings (bufSig bufPubkey : list Z) : M bool :=
  ok ← checkSignatureEncoding bufSig;
  if ok : bool then checkPubkeyEncoding bufPubkey else mret false.

(** [PublicKey.fromBuffer(buf, false)]: the headers 6 and 7 are read as 4. *)
Definition PublicKey_fromBuffer (buf : list Z) : result (list Z) :=
  let buf := match buf with h :: rest => (if (h =? 6) || (h =? 7) then 4 else h) :: rest | [] => [] end in
  if PublicKey_isValid buf then Ok buf else Throw TypeError.

(** The guarded part of the signature opcodes: an exception counts as a failed check. *)
Definition checkSig (x : Transaction.t) (n : nat) (bufSig bufPubkey : list Z) (subscript : Script.t) : bool :=
  match (sig ← Signature.fromTxFormat bufSig;
         pubkey ← PublicKey_fromBuffer bufPubkey;
         der ← Signature.toDER sig;
         ty ← match Signature.nhashtype sig with Some ty => Ok ty | None => Throw InvalidArgument end;
         Sighash.verify x der ty pubkey n subscript) with
  | Ok b => b
  | Throw _ => false
  end.

(** The script from the last code separator on, the signatures taken out of it *)
Fixpoint drop_signatures (sigs : list (list Z)) (subscript : Script.t) : result Script.t :=
  match sigs with
  | [] => Ok subscript
  | bufSig :: sigs =>
      tmpScript ← Script.add (Script.IBuf bufSig) Script.empty;
      subscript ← Script.findAndDelete tmpScript subscript;
      drop_signatures sigs subscript
  end.
Definition subscript (i : t) (sigs : list (list Z)) : result Script.t :=
  drop_signatures sigs (Script.mk (drop (pbegincodehash i) (Script.chunks (script i))) None).

(** [OP_CHECKSIG] and [OP_CHECKSIGVERIFY] *)
Definition op_checksig (verify : bool) : M bool :=
  i ← js_get;
  match stack i with
  | bufPubkey :: bufSig :: st =>
      sub ← js_lift (subscript i [bufSig]);
      ok ← checkEncodings bufSig bufPubkey;
      if negb ok then mret false
      else
        let fSuccess := checkSig (tx i) (nin i) bufSig bufPubkey sub in
        set_stack (bool_buf fSuccess :: st);;
        if verify then if fSuccess then set_stack st else fail "SCRIPT_ERR_CHECKSIGVERIFY"
        else mret true
  | _ => INVALID_STACK
  end.

(** The loop of [OP_CHECKMULTISIG]: the signatures and the keys still to be matched, in the order
    they are tried; [None] when an encoding is refused. *)
Fixpoint match_signatures (x : Transaction.t) (n : nat) (sub : Script.t) (sigs keys : list (list Z)) : M (option bool) :=
  match sigs with
  | [] => mret (Some true)
  | bufSig :: sigs' =>
      match keys with
      | [] => mret (Some false)
      | bufPubkey :: keys =>
          ok ← checkEncodings bufSig bufPubkey;
          if negb ok then mret None
          else
            if checkSig x n bufSig bufPubkey sub then
              if (length keys <? length sigs')%nat then mret (Some false) else match_signatures x n sub sigs' keys
            else if (length keys <? length sigs)%nat then mret (Some false) else match_signatures x n sub sigs keys
      end
  end.

(** [OP_CHECKMULTISIG] and [OP_CHECKMULTISIGVERIFY] *)
Definition op_checkmultisig (verify : bool) : M bool :=
  i ← js_get;
  match stack i with
  | [] => INVALID_STACK
  | bufKeys :: st1 =>
      nKeysCount ← js_lift (BN.fromScriptNumBuffer bufKeys (fRequireMinimal i));
      if (nKeysCount <? 0) || (nKeysCount >? 20) then fail "SCRIPT_ERR_PUBKEY_COUNT"
      else
        js_modify (fun i => i <| nOpCount ::= Z.add nKeysCount |>);;
        i ← js_get;
        if nOpCount i >? 201 then fail "SCRIPT_ERR_OP_COUNT"
        else
          let keys := take (Z.to_nat nKeysCount) st1 in
          match drop (Z.to_nat nKeysCount) st1 with
          | [] => INVALID_STACK
          | bufSigs :: st2 =>
              nSigsCount ← js_lift (BN.fromScriptNumBuffer bufSigs (fRequireMinimal i));
              if (nSigsCount <? 0) || (nSigsCount >? nKeysCount) then fail "SCRIPT_ERR_SIG_COUNT"
              else
                let sigs := take (Z.to_nat nSigsCount) st2 in
                match drop (Z.to_nat nSigsCount) st2 with
                | [] => INVALID_STACK
                | dummy :: st =>
                    sub ← js_lift (subscript i sigs);
                    fSuccess ← match_signatures (tx i) (nin i) sub sigs keys;
                    match fSuccess with
                    | None => mret false
                    | Some fSuccess =>
                        set_stack (dummy :: st);;
                        i ← js_get;
                        if has (flags i) SCRIPT_VERIFY_NULLDUMMY && negb (zlen dummy =? 0) then fail "SCRIPT_ERR_SIG_NULLDUMMY"
                        else
                          set_stack (bool_buf fSuccess :: st);;
                          if verify then if fSuccess : bool then set_stack st else fail "SCRIPT_ERR_CHECKMULTISIGVERIFY"
                          else mret true
                    end
                end
          end
  end.

Definition hash (op : Z) (buf : list Z) : list Z :=
  switch op
    [([Opcode.OP_RIPEMD160], ripemd160 buf); ([Opcode.OP_SHA1], sha1 buf); ([Opcode.OP_SHA256], sha256 buf);
     ([Opcode.OP_HASH160], sha256ripemd160 buf); ([Opcode.OP_HASH256], sha256sha256 buf)] [].

(** *** One instruction *)

Definition disabled : list Z :=
  [Opcode.OP_CAT; Opcode.OP_SUBSTR; Opcode.OP_LEFT; Opcode.OP_RIGHT; Opcode.OP_INVERT; Opcode.OP_AND; Opcode.OP_OR;
   Opcode.OP_XOR; Opcode.OP_2MUL; Opcode.OP_2DIV; Opcode.OP_MUL; Opcode.OP_DIV; Opcode.OP_MOD; Opcode.OP_LSHIFT;
   Opcode.OP_RSHIFT].

Definition push (buf : list Z) : M bool := i ← js_get; set_stack (buf :: stack i).

(** The cases of the [switch] in [step] *)
Definition cases (op : Z) (fExec : bool) : list (list Z * M bool) :=
  [([Opcode.OP_1NEGATE; Opcode.OP_1; Opcode.OP_2; Opcode.OP_3; Opcode.OP_4; Opcode.OP_5; Opcode.OP_6; Opcode.OP_7;
     Opcode.OP_8; Opcode.OP_9; Opcode.OP_10; Opcode.OP_11; Opcode.OP_12; Opcode.OP_13; Opcode.OP_14; Opcode.OP_15;
     Opcode.OP_16], push (BN.toScriptNumBuffer (op - (Opcode.OP_1 - 1))));
   ([Opcode.OP_NOP], mret true);
   ([Opcode.OP_NOP1; Opcode.OP_NOP2; Opcode.OP_NOP3; Opcode.OP_NOP4; Opcode.OP_NOP5; Opcode.OP_NOP6; Opcode.OP_NOP7;
     Opcode.OP_NOP8; Opcode.OP_NOP9; Opcode.OP_NOP10], op_nopn);
   ([Opcode.OP_IF; Opcode.OP_NOTIF], op_if (op =? Opcode.OP_NOTIF) fExec);
   ([Opcode.OP_ELSE], op_else); ([Opcode.OP_ENDIF], op_endif); ([Opcode.OP_VERIFY], op_verify);
   ([Opcode.OP_RETURN], fail "SCRIPT_ERR_OP_RETURN");
   ([Opcode.OP_TOALTSTACK], op_toaltstack); ([Opcode.OP_FROMALTSTACK], op_fromaltstack);
   ([Opcode.OP_2DROP], on_stack op_2drop); ([Opcode.OP_2DUP], on_stack op_2dup); ([Opcode.OP_3DUP], on_stack op_3dup);
   ([Opcode.OP_2OVER], on_stack op_2over); ([Opcode.OP_2ROT], on_stack op_2rot); ([Opcode.OP_2SWAP], on_stack op_2swap);
   ([Opcode.OP_IFDUP], on_stack op_ifdup); ([Opcode.OP_DEPTH], on_stack op_depth); ([Opcode.OP_DROP], on_stack op_drop);
   ([Opcode.OP_DUP], on_stack op_dup); ([Opcode.OP_NIP], on_stack op_nip); ([Opcode.OP_OVER], on_stack op_over);
   ([Opcode.OP_PICK; Opcode.OP_ROLL], op_pick (op =? Opcode.OP_ROLL));
   ([Opcode.OP_ROT], on_stack op_rot); ([Opcode.OP_SWAP], on_stack op_swap); ([Opcode.OP_TUCK], on_stack op_tuck);
   ([Opcode.OP_SIZE], on_stack op_size);
   ([Opcode.OP_EQUAL; Opcode.OP_EQUALVERIFY], op_equal (op =? Opcode.OP_EQUALVERIFY));
   ([Opcode.OP_1ADD; Opcode.OP_1SUB; Opcode.OP_NEGATE; Opcode.OP_ABS; Opcode.OP_NOT; Opcode.OP_0NOTEQUAL], op_unary op);
   ([Opcode.OP_ADD; Opcode.OP_SUB; Opcode.OP_BOOLAND; Opcode.OP_BOOLOR; Opcode.OP_NUMEQUAL; Opcode.OP_NUMEQUALVERIFY;
     Opcode.OP_NUMNOTEQUAL; Opcode.OP_LESSTHAN; Opcode.OP_GREATERTHAN; Opcode.OP_LESSTHANOREQUAL;
     Opcode.OP_GREATERTHANOREQUAL; Opcode.OP_MIN; Opcode.OP_MAX], op_binary op);
   ([Opcode.OP_WITHIN], op_within);
   ([Opcode.OP_RIPEMD160; Opcode.OP_SHA1; Opcode.OP_SHA256; Opcode.OP_HASH160; Opcode.OP_HASH256],
    on_stack (fun st => match st with buf :: st => Some (hash op buf :: st) | [] => None end));
   ([Opcode.OP_CODESEPARATOR], js_modify (fun i => i <| pbegincodehash := pc i |>);; mret true);
   ([Opcode.OP_CHECKSIG; Opcode.OP_CHECKSIGVERIFY], op_checksig (op =? Opcode.OP_CHECKSIGVERIFY));
   ([Opcode.OP_CHECKMULTISIG; Opcode.OP_CHECKMULTISIGVERIFY], op_checkmultisig (op =? Opcode.OP_CHECKMULTISIGVERIFY))].

(** A push of data *)
Definition push_data (c : Script.chunk) (minimal : bool) : M bool :=
  if minimal && negb (Script.chunk_minimal c) then fail "SCRIPT_ERR_MINIMALDATA"
  else
    match Script.push c with
    | None => push false_
    | Some (buf, len) =>
        if negb (len =? zlen buf) then js_throw (ErrorMessage "Length of push value not equal to length of data")
        else push buf
    end.

(** [++nOpCount > 201] *)
Definition count_op : M bool :=
  js_modify (fun i => i <| nOpCount ::= Z.succ |>);;
  i ← js_get; mret (nOpCount i >? 201).

Definition step : M bool :=
  i ← js_get;
  let fExec := forallb id (vfExec i) in
  match Script.chunks (script i) !! pc i with
  | None => js_throw TypeError
  | Some chunk =>
      js_modify (fun i => i <| pc ::= S |>);;
      let op := Script.opcodenum chunk in
      if match Script.buf chunk with Some b => zlen b >? MAX_SCRIPT_ELEMENT_SIZE | None => false end
      then fail "SCRIPT_ERR_PUSH_SIZE"
      else
        too_many ← (if op >? Opcode.OP_16 then count_op else mret false);
        if too_many : bool then fail "SCRIPT_ERR_OP_COUNT"
        else if existsb (Z.eqb op) disabled then fail "SCRIPT_ERR_DISABLED_OPCODE"
        else if fExec && (0 <=? op) && (op <=? Opcode.OP_PUSHDATA4) then push_data chunk (fRequireMinimal i)
        else if fExec || ((Opcode.OP_IF <=? op) && (op <=? Opcode.OP_ENDIF)) then
          switch op (cases op fExec) (fail "SCRIPT_ERR_BAD_OPCODE")
        else mret true
  end.

(** *** A whole script *)

(** [while (pc < chunks.length) step()]: every step moves [pc], so as many steps as chunks are
    enough. *)
Fixpoint steps (fuel : nat) : M bool :=
  i ← js_get;
  if (pc i <? length (Script.chunks (script i)))%nat then
    match fuel with
    | O => js_throw RangeError
    | S fuel => fSuccess ← step; if fSuccess : bool then steps fuel else mret false
    end
  else mret true.

Definition evaluate : M bool :=
  i ← js_get;
  b ← js_lift (Script.toBuffer (script i));
  if zlen b >? 10000 then fail "SCRIPT_ERR_SCRIPT_SIZE"
  else
    ok ← js_catch
      (ok ← steps (length (Script.chunks (script i)));
       i ← js_get;
       if ok : bool then
         if (1000 <? length (stack i) + length (altstack i))%nat then fail "SCRIPT_ERR_STACK_SIZE" else mret true
       else mret false)
      (fun _ => fail "SCRIPT_ERR_UNKNOWN_ERROR");
    i ← js_get;
    if ok : bool then
      match vfExec i with [] => mret true | _ :: _ => fail "SCRIPT_ERR_UNBALANCED_CONDITIONAL" end
    else mret false.

(** The top of the stack decides. *)
Definition result_of (empty false_result : string) : M bool :=
  i ← js_get;
  match stack i with
  | [] => fail empty
  | buf :: _ => if castToBool buf then mret true else fail false_result
  end.

(** [verify(scriptSig, scriptPubkey, tx, nin, flags)] *)
Definition verify (scriptSig scriptPubkey : Script.t) (x : Transaction.t) (n : nat) (fl : Z) : M bool :=
  js_modify (fun i => i <| script := scriptSig |> <| tx := x |> <| nin := n |> <| flags := fl |>);;
  if has fl SCRIPT_VERIFY_SIGPUSHONLY && negb (Script.isPushOnly scriptSig) then fail "SCRIPT_ERR_SIG_PUSHONLY"
  else
    ok ← evaluate;
    if negb ok then mret false
    else
      i ← js_get;
      let stackCopy := stack i in
      js_modify (fun i => start scriptPubkey (stack i) x n fl);;
      ok ← evaluate;
      if negb ok then mret false
      else
        ok ← result_of "SCRIPT_ERR_EVAL_FALSE_NO_RESULT" "SCRIPT_ERR_EVAL_FALSE_IN_STACK";
        if negb ok then mret false
        else
          p2sh ← (if has fl SCRIPT_VERIFY_P2SH then js_lift (Script.isScriptHashOut scriptPubkey) else mret false);
          if negb p2sh then mret true
          else if negb (Script.isPushOnly scriptSig) then fail "SCRIPT_ERR_SIG_PUSHONLY"
          else
            match stackCopy with
            | [] => js_throw (ErrorMessage "internal error - stack copy empty")
            | redeemScriptSerialized :: stackCopy =>
                redeemScript ← js_lift (Script.fromBuffer redeemScriptSerialized);
                js_modify (fun _ => start redeemScript stackCopy x n fl);;
                ok ← evaluate;
                if negb ok then mret false
                else result_of "SCRIPT_ERR_EVAL_FALSE_NO_P2SH_STACK" "SCRIPT_ERR_EVAL_FALSE_IN_P2SH_STACK"
            end.

(** [Interpreter().verify(...)], on a fresh interpreter *)
Definition verify_script (scriptSig scriptPubkey : Script.t) (x : Transaction.t) (n : nat) (fl : Z) : result bool :=
  fst (verify scriptSig scriptPubkey x n fl (start Script.empty [] x n 0)).

End WithCrypto.
End Interpreter.
