(* ===== verification/InterpreterSpec.v ===== *)
(** * The script interpreter: what holds of every script, and of the standard ones *)
From S2P Require Import Prelude JsNumber Encoding Signature ScriptNum Script Transaction Interpreter.
Local Open Scope Z_scope.
Local Open Scope js_scope.

Module InterpreterLemmas.
Import Interpreter.
Section WithCrypto.
Context `{Crypto} `{Ecdsa} `{Hashes}.

(** *** What no operation changes

    The script, the transaction, the flags and [pc] stay; [nOpCount] only grows. *)
Definition frame (i : t) := (script i, tx i, nin i, flags i, pc i, nOpCount i).
Definition grows (a b : Script.t * Transaction.t * nat * Z * nat * Z) : Prop := fst a = fst b /\ snd a <= snd b.
#[local] Instance grows_preorder : PreOrder grows.
Proof. split; [intros a; split; [done|lia]|intros a b c [Ha Hb] [Hc Hd]; split; [congruence|lia]]. Qed.

Abbreviation tame := (keeps frame grows).
Create HintDb tame.
Ltac tame_auto := repeat first [solve [auto with tame] | keeps_step].

Lemma tame_fail e : tame (fail e).
Proof. unfold fail. tame_auto. Qed.
Lemma tame_set_stack st : tame (set_stack st).
Proof. unfold set_stack. tame_auto. Qed.
#[local] Hint Resolve tame_fail tame_set_stack : tame.
Lemma tame_invalid : tame INVALID_STACK.
Proof. apply tame_fail. Qed.
#[local] Hint Resolve tame_invalid : tame.
Lemma tame_on_stack f : tame (on_stack f).
Proof. unfold on_stack. tame_auto. Qed.
Lemma tame_push b : tame (push b).
Proof. unfold push. tame_auto. Qed.
Lemma tame_checkEncodings s p : tame (checkEncodings s p).
Proof. unfold checkEncodings, checkSignatureEncoding, checkPubkeyEncoding. tame_auto. Qed.
#[local] Hint Resolve tame_on_stack tame_push tame_checkEncodings : tame.
Lemma tame_match x n sub sigs keys : tame (match_signatures x n sub sigs keys).
Proof.
  revert sigs. induction keys as [|k keys IH]; intros [|s sigs]; cbn [match_signatures]; tame_auto.
Qed.
#[local] Hint Resolve tame_match : tame.

Lemma tame_count n : 0 <= n -> tame (js_modify (fun i => i <| nOpCount ::= Z.add n |>)).
Proof. intros Hn. apply keeps_modify. intros i. split; [done|]. change (nOpCount i <= n + nOpCount i). lia. Qed.

Lemma tame_checkmultisig v : tame (op_checkmultisig v).
Proof.
  unfold op_checkmultisig. apply keeps_bind; [typeclasses eauto|tame_auto|]. intros i.
  destruct (stack i) as [|b st]; [tame_auto|]. apply keeps_bind; [typeclasses eauto|tame_auto|]. intros n.
  destruct (_ || _) eqn:Hn; [tame_auto|]. apply keeps_bind; [typeclasses eauto|apply tame_count; bool_to_Z; lia|]. tame_auto.
Qed.
#[local] Hint Resolve tame_checkmultisig : tame.

Lemma tame_case op f : Forall (fun c => tame (snd c)) (cases op f).
Proof.
  unfold cases, op_nopn, op_if, op_else, op_endif, op_verify, op_toaltstack, op_fromaltstack, op_pick, op_equal, op_unary, op_binary,
    op_within, op_checksig.
  repeat (apply Forall_cons_2; [cbn [snd]; solve [tame_auto]|]). apply Forall_nil_2.
Qed.

Lemma switch_case {A} (P : A -> Prop) op (cs : list (list Z * A)) d : Forall (fun c => P (snd c)) cs -> P d -> P (switch op cs d).
Proof. intros Hc Hd. induction Hc as [|[ops a] cs Ha _ IH]; cbn; [done|]. by destruct (existsb _ _). Qed.

Lemma tame_switch op f : tame (switch op (cases op f) (fail "SCRIPT_ERR_BAD_OPCODE")).
Proof. apply (switch_case (fun m => tame m)); [apply tame_case|apply tame_fail]. Qed.

Lemma tame_run {A} (m : M A) i r i' : tame m -> m i = (r, i') -> grows (frame i) (frame i').
Proof. intros Hm Hr. specialize (Hm i). by rewrite Hr in Hm. Qed.

(** *** One step *)

(** Opcodes that count towards the limit of 201 *)
Definition counted (c : Script.chunk) : Z := if Script.opcodenum c >? Opcode.OP_16 then 1 else 0.
Definition small_push (c : Script.chunk) : Prop := match Script.buf c with Some b => zlen b <= MAX_SCRIPT_ELEMENT_SIZE | None => True end.

(** What is executed for a chunk once the limits are checked *)
Definition act (c : Script.chunk) (i : t) : M bool :=
  let op := Script.opcodenum c in
  let fExec := forallb id (vfExec i) in
  if fExec && (0 <=? op) && (op <=? Opcode.OP_PUSHDATA4) then push_data c (fRequireMinimal i)
  else if fExec || ((Opcode.OP_IF <=? op) && (op <=? Opcode.OP_ENDIF)) then
    switch op (cases op fExec) (fail "SCRIPT_ERR_BAD_OPCODE")
  else mret true.

Lemma tame_act c i : tame (act c i).
Proof. unfold act, push_data. pose proof tame_switch. tame_auto. Qed.

(** The state in which it is executed *)
Definition entered (c : Script.chunk) (i : t) : t :=
  if Script.opcodenum c >? Opcode.OP_16 then i <| pc ::= S |> <| nOpCount ::= Z.succ |> else i <| pc ::= S |>.

Lemma step_run i c : Script.chunks (script i) !! pc i = Some c -> small_push c ->
  (Script.opcodenum c > Opcode.OP_16 -> nOpCount i < 201) -> Script.opcodenum c ∉ disabled ->
  step i = act c i (entered c i).
Proof.
  intros Hc Hs Hn Hd. unfold step. js_look. cbv zeta. rewrite Hc. js_set.
  assert ((match Script.buf c with Some b => zlen b >? MAX_SCRIPT_ELEMENT_SIZE | None => false end) = false) as ->.
  { unfold small_push in Hs. destruct (Script.buf c); [|done]. rewrite Z.gtb_ltb. by apply Z.ltb_ge. }
  assert (existsb (Z.eqb (Script.opcodenum c)) disabled = false) as ->.
  { apply not_true_iff_false. intros (x & Hx & <-%Z.eqb_eq)%existsb_exists. by apply Hd, list_elem_of_In. }
  unfold entered, act. destruct (Z.gtb_spec (Script.opcodenum c) Opcode.OP_16); [|reflexivity].
  unfold count_op, mbind at 1, js_bind at 1. js_set. js_look.
  assert ((nOpCount (i <| pc ::= S |> <| nOpCount ::= Z.succ |>) >? 201) = false) as ->; [|reflexivity].
  change (nOpCount (i <| pc ::= S |> <| nOpCount ::= Z.succ |>)) with (Z.succ (nOpCount i)). rewrite Z.gtb_ltb. apply Z.ltb_ge. lia.
Qed.

(** A step that succeeds has passed every limit. *)
Lemma step_limits i i' : step i = (Ok true, i') -> exists c, Script.chunks (script i) !! pc i = Some c
  /\ small_push c /\ (Script.opcodenum c > Opcode.OP_16 -> nOpCount i < 201) /\ Script.opcodenum c ∉ disabled.
Proof.
  unfold step. js_look. cbv zeta. destruct (Script.chunks (script i) !! pc i) as [c|]; [|done]. js_set. intros Hs. exists c. split; [done|].
  unfold small_push. split; [|split].
  - destruct (Script.buf c) as [b|]; [|done]. destruct (Z.gtb_spec (zlen b) MAX_SCRIPT_ELEMENT_SIZE); [discriminate Hs|lia].
  - intros Hop. destruct (match Script.buf c with Some _ => _ | None => _ end); [discriminate Hs|].
    rewrite Z.gtb_ltb, (proj2 (Z.ltb_lt _ _)) in Hs by lia. unfold count_op, mbind at 1, js_bind at 1 in Hs. revert Hs. js_set. js_look.
    change (nOpCount (i <| pc ::= S |> <| nOpCount ::= Z.succ |>)) with (Z.succ (nOpCount i)).
    destruct (Z.gtb_spec (Z.succ (nOpCount i)) 201); [discriminate|lia].
  - intros Hd. destruct (match Script.buf c with Some _ => _ | None => _ end); [discriminate Hs|].
    assert (existsb (Z.eqb (Script.opcodenum c)) disabled = true) as Hex.
    { apply existsb_exists. exists (Script.opcodenum c). split; [by apply list_elem_of_In|apply Z.eqb_refl]. }
    destruct (Script.opcodenum c >? Opcode.OP_16).
    + revert Hs. unfold count_op, mbind at 1, js_bind at 1. js_set. js_look. rewrite Hex. by destruct (_ >? _).
    + rewrite Hex in Hs. discriminate Hs.
Qed.

Lemma step_frame i i' : step i = (Ok true, i') -> exists c, Script.chunks (script i) !! pc i = Some c /\ small_push c
  /\ (Script.opcodenum c ∉ disabled) /\ script i' = script i /\ pc i' = S (pc i)
  /\ nOpCount i + counted c <= nOpCount i' /\ (counted c = 1 -> nOpCount i < 201).
Proof.
  intros Hs. destruct (step_limits i i' Hs) as (c & Hc & Hp & Hn & Hd). exists c. split; [done|]. split; [done|]. split; [done|].
  rewrite (step_run i c) in Hs by done. apply (tame_run _ _ _ _ (tame_act c i)) in Hs as [[= Hscr _ _ _ Hpc] Hcount].
  unfold entered, counted in *. cbn [frame snd] in Hcount. destruct (Z.gtb_spec (Script.opcodenum c) Opcode.OP_16).
  - split; [symmetry; exact Hscr|]. split; [symmetry; exact Hpc|].
    change (nOpCount (i <| pc ::= S |> <| nOpCount ::= Z.succ |>)) with (Z.succ (nOpCount i)) in Hcount. split; [lia|intros _; apply Hn; lia].
  - split; [symmetry; exact Hscr|]. split; [symmetry; exact Hpc|].
    change (nOpCount (i <| pc ::= S |>)) with (nOpCount i) in Hcount. split; [lia|lia].
Qed.

(** *** The loop *)

Lemma steps_next f i i' : (pc i < length (Script.chunks (script i)))%nat -> step i = (Ok true, i') -> steps (S f) i = steps f i'.
Proof. intros Hlt Hs. cbn [steps]. js_look. rewrite (proj2 (Nat.ltb_lt _ _) Hlt). by rewrite (js_bind_ok _ _ _ _ _ Hs). Qed.

Lemma steps_done f i : (length (Script.chunks (script i)) <= pc i)%nat -> steps f i = (Ok true, i).
Proof. intros Hle. destruct f; cbn [steps]; js_look; rewrite (proj2 (Nat.ltb_ge _ _) Hle); reflexivity. Qed.

Lemma steps_stop f i i' : step i = (Ok false, i') -> (pc i < length (Script.chunks (script i)))%nat -> steps (S f) i = (Ok false, i').
Proof. intros Hs Hlt. cbn [steps]. js_look. rewrite (proj2 (Nat.ltb_lt _ _) Hlt). by rewrite (js_bind_ok _ _ _ _ _ Hs). Qed.

(** As many steps as there are chunks left are enough. *)
Lemma steps_fuel f : forall i k, (length (Script.chunks (script i)) <= pc i + f)%nat -> steps (f + k) i = steps f i.
Proof.
  induction f as [|f IH]; intros i k Hle.
  - rewrite !steps_done by lia. done.
  - cbn [Nat.add steps]. do 2 js_look. destruct (_ <? _)%nat; [|done].
    destruct (step i) as [[[]|e] i'] eqn:Hs.
    + rewrite !(js_bind_ok _ _ _ _ _ Hs). apply IH. destruct (step_frame _ _ Hs) as (_ & _ & _ & _ & -> & -> & _). lia.
    + by rewrite !(js_bind_ok _ _ _ _ _ Hs).
    + by rewrite !(js_bind_throw _ _ _ _ _ Hs).
Qed.

(** A loop that succeeds has executed every chunk within the limits. *)
Definition count (cs : list Script.chunk) : Z := fold_right (fun c n => counted c + n) 0 cs.

Lemma count_nonneg cs : 0 <= count cs.
Proof. induction cs as [|c cs IH]; cbn; [lia|]. unfold counted at 1. case_match; fold (count cs) in *; lia. Qed.

Lemma steps_limits f : forall i i', steps f i = (Ok true, i') ->
  let rest := drop (pc i) (Script.chunks (script i)) in
  Forall (fun c => small_push c /\ Script.opcodenum c ∉ disabled) rest /\ (0 < count rest -> nOpCount i + count rest <= 201).
Proof.
  assert (forall i, (length (Script.chunks (script i)) <= pc i)%nat -> let rest := drop (pc i) (Script.chunks (script i)) in
    Forall (fun c => small_push c /\ Script.opcodenum c ∉ disabled) rest /\ (0 < count rest -> nOpCount i + count rest <= 201)) as Hend.
  { intros i Hle. rewrite drop_ge by done. split; [done|cbn; lia]. }
  induction f as [|f IH]; intros i i' Hs; cbn [steps] in Hs; revert Hs; js_look;
    (destruct (Nat.ltb_spec (pc i) (length (Script.chunks (script i)))) as [Hlt|Hge]; [|intros _; by apply Hend]).
  - discriminate.
  - destruct (step i) as [[[]|e] i1] eqn:Hst; [|rewrite (js_bind_ok _ _ _ _ _ Hst); discriminate
                                              |rewrite (js_bind_throw _ _ _ _ _ Hst); discriminate].
    rewrite (js_bind_ok _ _ _ _ _ Hst). intros Hs.
    destruct (step_frame _ _ Hst) as (c & Hc & Hp & Hd & Hscr & Hpc & Hcount & Hlim).
    destruct (IH i1 i' Hs) as (Hall & Htot). rewrite Hscr, Hpc in *.
    rewrite (drop_S _ c) by done. split; [by apply Forall_cons|].
    change (count (c :: drop (S (pc i)) (Script.chunks (script i)))) with (counted c + count (drop (S (pc i)) (Script.chunks (script i)))).
    set (r := count _) in *. assert (0 <= r) by apply count_nonneg. assert (counted c = 0 \/ counted c = 1) as [Hz|Hz] by (unfold counted; case_match; lia).
    + lia.
    + specialize (Hlim Hz). lia.
Qed.

(** *** Running a script chunk by chunk, outside any conditional *)

Section Running.
Variables (scr : Script.t) (x : Transaction.t) (n : nat) (pb : nat) (fl : Z).
Implicit Types (st alt : list (list Z)) (k : nat) (ops : Z).
Definition at_ st alt k ops err : t := mk scr x n st alt k pb ops [] err fl.

Lemma run_push st alt k ops err op b : Script.chunks scr !! k = Some (Script.mkChunk op (Some (b, zlen b))) ->
  0 <= op <= 78 -> zlen b <= 520 -> Script.chunk_minimal (Script.mkChunk op (Some (b, zlen b))) = true ->
  step (at_ st alt k ops err) = (Ok true, at_ (b :: st) alt (S k) ops err).
Proof.
  intros Hc Hop Hlen Hmin. rewrite (step_run (at_ st alt k ops err) _ Hc); [|done|cbn; change Opcode.OP_16 with 96; lia|].
  - unfold entered, act. cbn [Script.opcodenum]. change Opcode.OP_16 with 96. change Opcode.OP_PUSHDATA4 with 78.
    rewrite Z.gtb_ltb, (proj2 (Z.ltb_ge 96 op)), (proj2 (Z.leb_le 0 op)), (proj2 (Z.leb_le op 78)) by lia.
    cbn [forallb at_ vfExec andb]. unfold push_data. rewrite Hmin, andb_false_r. cbn [Script.push]. rewrite Z.eqb_refl. reflexivity.
  - intros Hd. assert (Forall (fun d => 78 < d) disabled) as Hall by (by apply (bool_decide_unpack _)).
    rewrite Forall_forall in Hall. specialize (Hall _ Hd). cbn in Hall. lia.
Qed.

Lemma run_empty st alt k ops err : Script.chunks scr !! k = Some (Script.mkChunk 0 None) ->
  step (at_ st alt k ops err) = (Ok true, at_ ([] :: st) alt (S k) ops err).
Proof.
  intros Hc. rewrite (step_run (at_ st alt k ops err) _ Hc); [|done|cbn; change Opcode.OP_16 with 96; lia|by apply (bool_decide_unpack _)].
  unfold act, push_data. cbn. by rewrite andb_false_r.
Qed.

Lemma run_op st alt k ops err op : Script.chunks scr !! k = Some (Script.mkChunk op None) -> 78 < op ->
  (op > 96 -> ops < 201) -> op ∉ disabled ->
  step (at_ st alt k ops err)
  = switch op (cases op true) (fail "SCRIPT_ERR_BAD_OPCODE") (at_ st alt (S k) (ops + counted (Script.mkChunk op None)) err).
Proof.
  intros Hc Hop Hops Hd. rewrite (step_run (at_ st alt k ops err) _ Hc); [|done|exact Hops|exact Hd].
  unfold entered, act, counted. cbn [Script.opcodenum]. change Opcode.OP_16 with 96. change Opcode.OP_PUSHDATA4 with 78.
  rewrite (proj2 (Z.leb_gt op 78)) by lia. rewrite !andb_false_r. cbn [forallb at_ vfExec orb].
  destruct (op >? 96); [rewrite Z.add_1_r|rewrite Z.add_0_r]; reflexivity.
Qed.

(** The loop, from a state reached by steps *)
Lemma run_next f st alt k ops err st' alt' ops' : (k < length (Script.chunks scr))%nat ->
  step (at_ st alt k ops err) = (Ok true, at_ st' alt' (S k) ops' err) ->
  steps (S f) (at_ st alt k ops err) = steps f (at_ st' alt' (S k) ops' err).
Proof. intros Hk Hs. by apply steps_next. Qed.
End Running.

Lemma evaluate_done scr st x n fl b i' : Script.toBuffer scr = Ok b -> zlen b <= 10000 ->
  steps (length (Script.chunks scr)) (start scr st x n fl) = (Ok true, i') ->
  (length (stack i') + length (altstack i') <= 1000)%nat -> vfExec i' = [] ->
  evaluate (start scr st x n fl) = (Ok true, i').
Proof.
  intros Hb Hlen Hs Hst Hvf. unfold evaluate. js_look. change (script (start scr st x n fl)) with scr. rewrite Hb.
  rewrite (js_bind_ok (js_lift (Ok b)) _ _ b _ eq_refl). rewrite Z.gtb_ltb, (proj2 (Z.ltb_ge _ _)) by lia.
  unfold mbind at 1, js_bind at 1, js_catch. rewrite (js_bind_ok _ _ _ _ _ Hs). js_look.
  rewrite (proj2 (Nat.ltb_ge _ _)) by lia. cbn [mret js_ret]. js_look. by rewrite Hvf.
Qed.

Lemma evaluate_false scr st x n fl b i' : Script.toBuffer scr = Ok b -> zlen b <= 10000 ->
  steps (length (Script.chunks scr)) (start scr st x n fl) = (Ok false, i') ->
  evaluate (start scr st x n fl) = (Ok false, i').
Proof.
  intros Hb Hlen Hs. unfold evaluate. js_look. change (script (start scr st x n fl)) with scr. rewrite Hb.
  rewrite (js_bind_ok (js_lift (Ok b)) _ _ b _ eq_refl). rewrite Z.gtb_ltb, (proj2 (Z.ltb_ge _ _)) by lia.
  unfold mbind at 1, js_bind at 1, js_catch. rewrite (js_bind_ok _ _ _ _ _ Hs). js_look. reflexivity.
Qed.

End WithCrypto.
End InterpreterLemmas.

Section InterpreterTheorems.
Import Interpreter InterpreterLemmas.
Context `{Crypto} `{Ecdsa} `{Hashes}.

(** C14: the evaluation of a script always ends: it returns true or false, and throws only what
    printing the script throws; as many steps as the script has chunks are enough. *)
Theorem evaluate_total i :
  match Script.toBuffer (script i) with
  | Throw e => evaluate i = (Throw e, i)
  | Ok _ => exists ok i', evaluate i = (Ok ok, i')
  end /\ forall k, steps (length (Script.chunks (script i)) + k) i = steps (length (Script.chunks (script i))) i.
Proof.
  split; [|intros k; apply steps_fuel; lia]. unfold evaluate. js_look.
  destruct (Script.toBuffer (script i)) as [b|e]; [|reflexivity].
  rewrite (js_bind_ok (js_lift (Ok b)) _ i b i eq_refl). destruct (zlen b >? 10000); [by do 2 eexists|].
  match goal with |- context [mbind _ (js_catch ?m ?h) _] => assert (exists ok i', js_catch m h i = (Ok ok, i')) as (ok & i' & Hok) end.
  { unfold js_catch. match goal with |- exists ok i', match ?x with _ => _ end = _ => destruct x as [[ok|e] i1] end; by do 2 eexists. }
  rewrite (js_bind_ok _ _ _ _ _ Hok). js_look. destruct ok; [|by do 2 eexists]. destruct (vfExec i'); by do 2 eexists.
Qed.

(** C15: a script that evaluates to true kept every limit: at most 10000 bytes, no push over 520 bytes,
    no disabled opcode anywhere (executed or not), at most 201 counted opcodes, at most 1000
    elements left, every conditional closed. *)
Theorem evaluate_limits scr st x n fl i' : evaluate (start scr st x n fl) = (Ok true, i') ->
  (exists b, Script.toBuffer scr = Ok b /\ zlen b <= 10000)
  /\ Forall (fun c => match Script.buf c with Some b => zlen b <= 520 | None => True end /\ Script.opcodenum c ∉ disabled)
       (Script.chunks scr)
  /\ zlen (filter (fun c => Script.opcodenum c > 96) (Script.chunks scr)) <= 201
  /\ (length (stack i') + length (altstack i') <= 1000)%nat /\ vfExec i' = [].
Proof.
  unfold evaluate. js_look. change (script (start scr st x n fl)) with scr.
  destruct (Script.toBuffer scr) as [b|e]; [|discriminate]. rewrite (js_bind_ok (js_lift (Ok b)) _ _ b _ eq_refl).
  destruct (Z.gtb_spec (zlen b) 10000); [discriminate|].
  destruct (steps (length (Script.chunks scr)) (start scr st x n fl)) as [[ok|e] i1] eqn:Hst.
  2: { unfold mbind at 1, js_bind at 1, js_catch. rewrite (js_bind_throw _ _ _ _ _ Hst). discriminate. }
  unfold mbind at 1, js_bind at 1, js_catch. rewrite (js_bind_ok _ _ _ _ _ Hst). js_look. destruct ok; [|discriminate].
  destruct (Nat.ltb_spec 1000 (length (stack i1) + length (altstack i1))) as [|Hlen]; [discriminate|].
  cbn [mret js_ret]. js_look. destruct (vfExec i1) eqn:Hvf; [|discriminate]. intros [= <-].
  destruct (steps_limits _ _ _ Hst) as (Hall & Hcount).
  change (0 < count (Script.chunks scr) -> 0 + count (Script.chunks scr) <= 201) in Hcount.
  split; [exists b; split; [done|lia]|]. split; [exact Hall|]. split; [|by split].
  assert (zlen (filter (fun c => Script.opcodenum c > 96) (Script.chunks scr)) = count (Script.chunks scr)) as ->.
  { clear. induction (Script.chunks scr) as [|c cs IH]; [done|]. cbn [count fold_right]. fold (count cs). rewrite <-IH, filter_cons.
    unfold counted. change Opcode.OP_16 with 96. destruct (Z.gtb_spec (Script.opcodenum c) 96).
    - rewrite decide_True by lia. by rewrite zlen_cons.
    - rewrite decide_False by lia. lia. }
  pose proof (count_nonneg (Script.chunks scr)). lia.
Qed.
End InterpreterTheorems.

(** ** Witnesses *)
Section InterpreterWitnesses.
Import Interpreter.
#[local] Instance trivial_ecdsa : Ecdsa := {| PrivateKey := unit; toPublicKey _ := []; ecdsa_sign _ _ := []; ecdsa_verify _ _ _ := false |}.
#[local] Instance trivial_hashes : Hashes := {| ripemd160 b := b; sha1 b := b; sha256 b := b |}.
#[local] Existing Instance demo_crypto.

(** [OP_1 OP_IF OP_2 OP_ELSE OP_3 OP_ENDIF OP_ADD], on a stack that holds 5 *)
Definition branching : Script.t := Script.mk ((fun op => Script.mkChunk op None) <$> [81; 99; 82; 103; 83; 104; 147]) None.

Lemma evaluate_limits_witness : exists i', evaluate (start branching [[5]] Transaction.new 0 0) = (Ok true, i')
  /\ stack i' = [[7]] /\ zlen (filter (fun c => Script.opcodenum c > 96) (Script.chunks branching)) <= 201.
Proof.
  destruct (evaluate (start branching [[5]] Transaction.new 0 0)) as [[[]|e] i'] eqn:He.
  - exists i'. split; [reflexivity|]. split; [vm_compute in He; injection He as <-; reflexivity|].
    exact (proj1 (proj2 (proj2 (evaluate_limits _ _ _ _ _ _ He)))).
  - exfalso. vm_compute in He. discriminate He.
  - exfalso. vm_compute in He. discriminate He.
Defined.
End InterpreterWitnesses.
