(* ===== verification/Spending.v ===== *)
(** * Spending standard outputs: what the interpreter accepts

    The pay-to-public-key-hash and the pay-to-script-hash multisig scripts, run through the
    interpreter of [Interpreter.v] by the lemmas of [InterpreterSpec.v]. *)
From S2P Require Import Prelude JsNumber Encoding Signature ScriptNum Script Transaction Interpreter InterpreterSpec.
Local Open Scope Z_scope.
Local Open Scope js_scope.

Module SpendingLemmas.
Import Interpreter InterpreterLemmas.

(** *** Signatures as they appear in scripts *)

(** The DER encoding of a signature *)
Definition is_der (der : list Z) : Prop :=
  exists r s, 0 < r < 2 ^ 256 /\ 0 < s < 2 ^ 256 /\ Signature.toDER (Signature.new r s) = Ok der.

(** A hash type that [SCRIPT_VERIFY_STRICTENC] accepts *)
Definition defined_type (ty : Z) : Prop := 0 <= ty < 256 /\ 1 <= Z.land ty 15 <= 3.

Lemma der_size der : is_der der -> 8 <= zlen der <= 72.
Proof.
  intros (r & s & Hr & Hs & Hd). destruct (der_codec r s Hr Hs) as (b & Hb & _ & Hl & _). rewrite Hd in Hb. by injection Hb as <-.
Qed.

Lemma der_ok der : is_der der -> bytes_ok der.
Proof.
  intros (r & s & Hr & Hs & Hd). destruct (der_codec r s Hr Hs) as (b & Hb & _ & _ & Hl & _). rewrite Hd in Hb. by injection Hb as <-.
Qed.

Lemma sig_size der ty : is_der der -> 9 <= zlen (der ++ [ty]) <= 73.
Proof. intros Hd%der_size. rewrite zlen_app. change (zlen [ty]) with 1. lia. Qed.

Lemma der_head der : is_der der -> exists l, der = 0x30 :: l.
Proof.
  intros (r & s & _ & _ & Hd). revert Hd. unfold Signature.toDER. cbn [Signature.r Signature.s Signature.new].
  destruct (BN.hexBytes r) as [rb|]; [|done]. cbn [mbind result_bind]. destruct (BN.hexBytes s) as [sb|]; [|done].
  intros [= <-]. by eexists.
Qed.

Lemma defined_hashtype r s ty : defined_type ty -> Signature.hasDefinedHashtype (Signature.mk r s None None (Some ty)) = true.
Proof.
  intros [_ Hty]. unfold Signature.hasDefinedHashtype. cbn [Signature.nhashtype].
  change Signature.SIGHASH_ALL with 1. change Signature.SIGHASH_SINGLE with 3. change 0xf with 15.
  by rewrite Z.gtb_ltb, !(proj2 (Z.ltb_ge _ _)) by lia.
Qed.

(** *** Pushes *)

(** A push of 2 to 75 bytes *)
Abbreviation push_of := key_push.

Lemma push_minimal b : 2 <= zlen b <= 75 -> Script.chunk_minimal (push_of b) = true.
Proof.
  intros Hb. unfold Script.chunk_minimal, Script.buf, key_push. cbn [Script.push Script.opcodenum fmap option_fmap option_map fst].
  rewrite (proj2 (Z.eqb_neq (zlen b) 0)), (proj2 (Z.eqb_neq (zlen b) 1)) by lia. cbn [andb].
  by rewrite (proj2 (Z.leb_le _ 75)), Z.eqb_refl by lia.
Qed.

Lemma push_prints b : 1 <= zlen b <= 75 -> Script.toBuffer (Script.mk [push_of b] None) = Ok (zlen b :: b).
Proof. intros Hb. rewrite <-(app_nil_r b) at 3. apply prints_push; [lia|done]. Qed.

(** [findAndDelete] changes nothing when no chunk prints as the script. *)
Lemma findAndDelete_none b cs : Forall (fun c => exists w, Script.toBuffer (Script.mk [c] None) = Ok w /\ w <> b) cs ->
  Script.findAndDelete_loop b cs = Ok cs.
Proof.
  induction 1 as [|c cs (w & Hw & Hne) _ IH]; [done|]. cbn [Script.findAndDelete_loop]. rewrite Hw. cbn [mbind result_bind].
  rewrite bool_decide_false by congruence. by rewrite IH.
Qed.

Lemma drop_signatures_none sigs cs :
  Forall (fun sig => 1 <= zlen sig <= 75 /\ Forall (fun c => exists w, Script.toBuffer (Script.mk [c] None) = Ok w /\ w <> zlen sig :: sig) cs) sigs ->
  drop_signatures sigs (Script.mk cs None) = Ok (Script.mk cs None).
Proof.
  induction 1 as [|sig sigs (Hlen & Hcs) _ IH]; [done|]. cbn [drop_signatures].
  unfold Script.add, Script.addByType, Script.addBuffer. change Opcode.OP_PUSHDATA1 with 76.
  rewrite (proj2 (Z.leb_le 0 _)), (proj2 (Z.ltb_lt _ 76)) by lia. cbn [andb mbind result_bind].
  unfold Script.insertAtPosition, upd, Script.empty. cbn [Script.chunks Script._network app].
  unfold Script.findAndDelete. fold (push_of sig). rewrite push_prints by done. cbn [mbind result_bind Script.chunks].
  by rewrite findAndDelete_none.
Qed.

Section WithCrypto.
Context `{Crypto} `{Ecdsa} `{Hashes}.

(** A compressed public key *)
Definition compressed_key (pub : list Z) : Prop :=
  (exists h l, pub = h :: l /\ (h = 2 \/ h = 3)) /\ zlen pub = 33 /\ PublicKey_isValid pub = true.

Lemma compressed_fromBuffer pub : compressed_key pub -> PublicKey_fromBuffer pub = Ok pub.
Proof.
  intros ((h & l & -> & Hh) & _ & Hv). unfold PublicKey_fromBuffer.
  rewrite (proj2 (Z.eqb_neq h 6)), (proj2 (Z.eqb_neq h 7)) by lia. cbn [orb]. by rewrite Hv.
Qed.

Lemma checkEncodings_der i der ty pub : is_der der -> defined_type ty -> PublicKey_isValid pub = true ->
  has (flags i) SCRIPT_VERIFY_LOW_S = false -> checkEncodings (der ++ [ty]) pub i = (Ok true, i).
Proof.
  intros (r & s & Hr & Hs & Hd) Hty Hv Hlow. destruct (der_codec r s Hr Hs) as (b & Hb & _ & _ & _ & Hx).
  rewrite Hd in Hb. injection Hb as <-. unfold checkEncodings.
  assert (checkSignatureEncoding (der ++ [ty]) i = (Ok true, i)) as Hc.
  { unfold checkSignatureEncoding. js_look. rewrite Hx, Hlow. cbn [negb andb]. rewrite andb_false_r.
    destruct (has (flags i) SCRIPT_VERIFY_STRICTENC); [|done].
    assert (Signature.fromTxFormat (der ++ [ty]) = Ok (Signature.mk r s None None (Some ty))) as ->
      by (apply fromTxFormat_der; [done..|destruct Hty; unfold byte_ok; lia]).
    rewrite (js_bind_ok (js_lift (Ok _)) _ i _ i eq_refl). by rewrite defined_hashtype. }
  rewrite (js_bind_ok _ _ _ _ _ Hc). unfold checkPubkeyEncoding. js_look. rewrite Hv. cbn [negb]. by rewrite andb_false_r.
Qed.

(** What the signature opcodes decide *)
Definition verdict (x : Transaction.t) (n : nat) (der : list Z) (ty : Z) (pub : list Z) (sub : Script.t) : bool :=
  match Sighash.verify x der ty pub n sub with Ok b => b | Throw _ => false end.

Lemma checkSig_der x n der ty pub sub : is_der der -> byte_ok ty -> PublicKey_fromBuffer pub = Ok pub ->
  checkSig x n (der ++ [ty]) pub sub = verdict x n der ty pub sub.
Proof.
  intros (r & s & Hr & Hs & Hd) Hty Hp. unfold checkSig.
  assert (Signature.fromTxFormat (der ++ [ty]) = Ok (Signature.mk r s None None (Some ty))) as -> by (by apply fromTxFormat_der).
  cbn [mbind result_bind]. rewrite Hp. cbn [mbind result_bind].
  change (Signature.toDER (Signature.mk r s None None (Some ty))) with (Signature.toDER (Signature.new r s)). by rewrite Hd.
Qed.

Lemma castToBool_bool b : castToBool (bool_buf b) = b.
Proof. by destruct b. Qed.

(** *** Single opcodes *)

Section Ops.
Variables (scr : Script.t) (x : Transaction.t) (n : nat) (pb : nat) (fl : Z).
#[local] Abbreviation at_ := (at_ scr x n pb fl).

Lemma run_dup st alt k ops err b : Script.chunks scr !! k = Some (Script.mkChunk 118 None) -> ops < 201 ->
  step (at_ (b :: st) alt k ops err) = (Ok true, at_ (b :: b :: st) alt (S k) (ops + 1) err).
Proof. intros Hc Ho. rewrite (run_op scr x n pb fl _ _ _ _ _ 118 Hc); [reflexivity|lia|lia|by apply (bool_decide_unpack _)]. Qed.

Lemma run_hash160 st alt k ops err b : Script.chunks scr !! k = Some (Script.mkChunk 169 None) -> ops < 201 ->
  step (at_ (b :: st) alt k ops err) = (Ok true, at_ (sha256ripemd160 b :: st) alt (S k) (ops + 1) err).
Proof. intros Hc Ho. rewrite (run_op scr x n pb fl _ _ _ _ _ 169 Hc); [reflexivity|lia|lia|by apply (bool_decide_unpack _)]. Qed.

Lemma run_equal st alt k ops err a b : Script.chunks scr !! k = Some (Script.mkChunk 135 None) -> ops < 201 ->
  step (at_ (b :: a :: st) alt k ops err) = (Ok true, at_ (bool_buf (bool_decide (a = b)) :: st) alt (S k) (ops + 1) err).
Proof. intros Hc Ho. rewrite (run_op scr x n pb fl _ _ _ _ _ 135 Hc); [reflexivity|lia|lia|by apply (bool_decide_unpack _)]. Qed.

Lemma run_equalverify st alt k ops err a b : Script.chunks scr !! k = Some (Script.mkChunk 136 None) -> ops < 201 ->
  step (at_ (b :: a :: st) alt k ops err)
  = if bool_decide (a = b) then (Ok true, at_ st alt (S k) (ops + 1) err)
    else (Ok false, at_ (false_ :: st) alt (S k) (ops + 1) "SCRIPT_ERR_EQUALVERIFY").
Proof.
  intros Hc Ho. rewrite (run_op scr x n pb fl _ _ _ _ _ 136 Hc); [|lia|lia|by apply (bool_decide_unpack _)].
  change (switch 136 (cases 136 true) (fail "SCRIPT_ERR_BAD_OPCODE")) with (op_equal true).
  unfold op_equal. js_look. cbn [stack InterpreterLemmas.at_]. case_bool_decide; reflexivity.
Qed.

(** The chunk prints, and not as the push of [sig]. *)
Definition not_pushing (sig : list Z) (c : Script.chunk) : Prop :=
  exists w, Script.toBuffer (Script.mk [c] None) = Ok w /\ w <> zlen sig :: sig.

Lemma run_checksig st alt k ops err der ty pub : Script.chunks scr !! k = Some (Script.mkChunk 172 None) -> ops < 201 ->
  is_der der -> defined_type ty -> compressed_key pub -> has fl SCRIPT_VERIFY_LOW_S = false ->
  Forall (not_pushing (der ++ [ty])) (drop pb (Script.chunks scr)) ->
  step (at_ (pub :: (der ++ [ty]) :: st) alt k ops err)
  = (Ok true, at_ (bool_buf (verdict x n der ty pub (Script.mk (drop pb (Script.chunks scr)) None)) :: st) alt (S k) (ops + 1) err).
Proof.
  intros Hc Ho Hd Hty Hp Hlow Hsub. rewrite (run_op scr x n pb fl _ _ _ _ _ 172 Hc); [|lia|lia|by apply (bool_decide_unpack _)].
  change (switch 172 (cases 172 true) (fail "SCRIPT_ERR_BAD_OPCODE")) with (op_checksig false).
  pose proof (sig_size der ty Hd). unfold op_checksig. js_look. cbn [stack InterpreterLemmas.at_].
  unfold subscript. cbn [pbegincodehash script InterpreterLemmas.at_].
  rewrite drop_signatures_none by (apply Forall_singleton; split; [lia|done]).
  rewrite (js_bind_ok (js_lift (Ok _)) _ _ _ _ eq_refl).
  rewrite (js_bind_ok _ _ _ _ _ 
    (checkEncodings_der (at_ (pub :: (der ++ [ty]) :: st) alt (S k) (ops + 1) err) der ty pub Hd Hty (proj2 (proj2 Hp)) Hlow)). cbn [negb].
  rewrite checkSig_der by (done || apply compressed_fromBuffer, Hp || (destruct Hty; unfold byte_ok; lia)). reflexivity.
Qed.
End Ops.

(** *** Pay to public key hash *)

(** The script of an input: a signature and a key *)
Definition spend_p2pkh (sig pub : list Z) : Script.t := Script.mk [push_of sig; push_of pub] None.

Lemma not_pushing_op sig op : 0 <= op < 256 -> 1 <= zlen sig -> not_pushing sig (Script.mkChunk op None).
Proof.
  intros Hop Hs. exists [op]. split; [by apply prints_op|]. intros [= _ <-]. by change (zlen []) with 0 in Hs.
Qed.

Lemma not_pushing_push sig b : 1 <= zlen b <= 75 -> b <> sig -> not_pushing sig (push_of b).
Proof. intros Hb Hne. exists (zlen b :: b). split; [by apply push_prints|]. by intros [= _ ?]. Qed.

Lemma start_at scr st x n fl : start scr st x n fl = at_ scr x n 0 fl st [] 0 0 "".
Proof. done. Qed.

(** A chunk that pushes the data [b] *)
Definition pushing (c : Script.chunk) (b : list Z) : Prop :=
  (c = Script.mkChunk 0 None /\ b = [])
  \/ exists op, c = Script.mkChunk op (Some (b, zlen b)) /\ 0 <= op <= 78 /\ zlen b <= 520 /\ Script.chunk_minimal c = true.

Lemma push_pushing b : 2 <= zlen b <= 75 -> pushing (push_of b) b.
Proof. intros Hb. right. exists (zlen b). split; [done|]. split; [lia|]. split; [lia|]. by apply push_minimal. Qed.

Lemma run_pushing scr x n pb fl c b st alt k ops err : pushing c b -> Script.chunks scr !! k = Some c ->
  step (at_ scr x n pb fl st alt k ops err) = (Ok true, at_ scr x n pb fl (b :: st) alt (S k) ops err).
Proof.
  intros [(-> & ->)|(op & -> & Hop & Hlen & Hmin)] Hc; [by apply run_empty|]. by apply (run_push scr x n pb fl _ _ _ _ _ op b).
Qed.

(** Consecutive pushes, from chunk [k] on *)
Lemma run_pushes scr x n pb fl alt ops err : forall cs bs st k f, Forall2 pushing cs bs ->
  (forall j c, cs !! j = Some c -> Script.chunks scr !! (k + j)%nat = Some c) ->
  steps (length cs + f) (at_ scr x n pb fl st alt k ops err)
  = steps f (at_ scr x n pb fl (rev bs ++ st) alt (k + length cs) ops err).
Proof.
  induction cs as [|c cs IH]; intros bs st k f Hcs Hlk.
  - apply Forall2_nil_inv_l in Hcs as ->. cbn. by rewrite Nat.add_0_r.
  - apply Forall2_cons_inv_l in Hcs as (b & bs' & Hc & Hcs & ->). cbn [length Nat.add].
    pose proof (Hlk 0%nat c eq_refl) as Hk. rewrite Nat.add_0_r in Hk.
    rewrite (run_next scr x n pb fl _ _ _ k _ _ (b :: st) alt ops); [|by eapply lookup_lt_Some|by apply (run_pushing scr x n pb fl c)].
    rewrite (IH bs' (b :: st) (S k) f Hcs).
    + cbn [rev]. rewrite <-app_assoc. by rewrite Nat.add_succ_r.
    + intros j c' Hj. rewrite Nat.add_succ_l, <-Nat.add_succ_r. by apply Hlk.
Qed.

(** The pushes of an input script leave their data on the stack. *)
Lemma evaluate_pushes cs bs w x n fl : Forall2 pushing cs bs -> Script.toBuffer (Script.mk cs None) = Ok w -> zlen w <= 10000 ->
  (length bs <= 1000)%nat ->
  evaluate (start (Script.mk cs None) [] x n fl) = (Ok true, at_ (Script.mk cs None) x n 0 fl (rev bs) [] (length cs) 0 "").
Proof.
  intros Hcs Hw Hlen Hbs. apply (evaluate_done _ _ _ _ _ w); [done|done| | |done].
  - rewrite start_at. cbn [Script.chunks]. rewrite <-(Nat.add_0_r (length cs)) at 1.
    rewrite (run_pushes _ x n 0 fl [] 0 "" cs bs [] 0 0 Hcs); [|intros j c Hj; exact Hj].
    rewrite app_nil_r. by apply steps_done.
  - cbn. rewrite length_rev. lia.
Qed.

Lemma pushing_only cs bs : Forall2 pushing cs bs -> Script.isPushOnly (Script.mk cs None) = true.
Proof.
  intros Hcs. unfold Script.isPushOnly. cbn [Script.chunks]. change Opcode.OP_16 with 96.
  induction Hcs as [|c b cs bs Hc _ IH]; [done|]. cbn [forallb]. rewrite IH, andb_true_r.
  destruct Hc as [(-> & _)|(op & -> & Hop & _)]; [done|]. apply Z.leb_le. cbn. lia.
Qed.

(** *** Both scripts *)

(** The top of the stack at the end *)
Definition accepted (i : t) : bool := match stack i with [] => false | b :: _ => castToBool b end.

Lemma result_of_accepted e1 e2 i : exists i', result_of e1 e2 i = (Ok (accepted i), i') /\ stack i' = stack i.
Proof.
  unfold result_of, accepted. js_look. destruct (stack i) as [|b st] eqn:Hst; [by eexists|].
  destruct (castToBool b); by eexists.
Qed.

Section Verify.
Variables (ss spk : Script.t) (x : Transaction.t) (n : nat) (fl : Z) (i1 : t).
Hypothesis Hpush : Script.isPushOnly ss = true.
Hypothesis Hev1 : evaluate (start ss [] x n fl) = (Ok true, i1).

Lemma verify_first : verify_script ss spk x n fl = fst (
    (let stackCopy := stack i1 in
     ok ← evaluate;
     if negb ok then mret false
     else
       ok ← result_of "SCRIPT_ERR_EVAL_FALSE_NO_RESULT" "SCRIPT_ERR_EVAL_FALSE_IN_STACK";
       if negb ok then mret false
       else
         p2sh ← (if has fl SCRIPT_VERIFY_P2SH then js_lift (Script.isScriptHashOut spk) else mret false);
         if negb p2sh then mret true
         else
           match stackCopy with
           | [] => js_throw (ErrorMessage "internal error - stack copy empty")
           | redeemScriptSerialized :: stackCopy =>
               redeemScript ← js_lift (Script.fromBuffer redeemScriptSerialized);
               js_modify (fun _ => start redeemScript stackCopy x n fl);;
               ok ← evaluate;
               if negb ok then mret false
               else result_of "SCRIPT_ERR_EVAL_FALSE_NO_P2SH_STACK" "SCRIPT_ERR_EVAL_FALSE_IN_P2SH_STACK"
           end) (start spk (stack i1) x n fl)).
Proof.
  unfold verify_script, verify. rewrite Hpush. cbn [negb]. rewrite andb_false_r. js_set. cbv iota.
  match goal with |- context [mbind ?f evaluate ?s] => change s with (start ss [] x n fl) end.
  rewrite (js_bind_ok _ _ _ _ _ Hev1). cbn [negb]. js_look. js_set. reflexivity.
Qed.

Lemma verify_plain ok i2 : evaluate (start spk (stack i1) x n fl) = (Ok ok, i2) -> Script.isScriptHashOut spk = Ok false ->
  verify_script ss spk x n fl = Ok (ok && accepted i2).
Proof.
  intros Hev2 Hsh. rewrite verify_first. cbv zeta. rewrite (js_bind_ok _ _ _ _ _ Hev2). destruct ok; [|done].
  destruct (result_of_accepted "SCRIPT_ERR_EVAL_FALSE_NO_RESULT" "SCRIPT_ERR_EVAL_FALSE_IN_STACK" i2) as (i3 & Hr & _).
  cbn [negb andb]. rewrite (js_bind_ok _ _ _ _ _ Hr). destruct (accepted i2); [|done]. cbn [negb].
  rewrite Hsh. by destruct (has fl SCRIPT_VERIFY_P2SH).
Qed.

Lemma verify_rejected i2 : evaluate (start spk (stack i1) x n fl) = (Ok true, i2) -> accepted i2 = false ->
  verify_script ss spk x n fl = Ok false.
Proof.
  intros Hev2 Hacc. rewrite verify_first. cbv zeta. rewrite (js_bind_ok _ _ _ _ _ Hev2). cbn [negb].
  destruct (result_of_accepted "SCRIPT_ERR_EVAL_FALSE_NO_RESULT" "SCRIPT_ERR_EVAL_FALSE_IN_STACK" i2) as (i3 & Hr & _).
  by rewrite (js_bind_ok _ _ _ _ _ Hr), Hacc.
Qed.

Lemma verify_p2sh rs st redeem i2 ok i3 : stack i1 = rs :: st -> evaluate (start spk (rs :: st) x n fl) = (Ok true, i2) ->
  accepted i2 = true -> Script.isScriptHashOut spk = Ok true -> has fl SCRIPT_VERIFY_P2SH = true -> Script.fromBuffer rs = Ok redeem ->
  evaluate (start redeem st x n fl) = (Ok ok, i3) -> verify_script ss spk x n fl = Ok (ok && accepted i3).
Proof.
  intros Hst Hev2 Hacc Hsh Hfl Hrs Hev3. rewrite verify_first, Hst. cbv zeta. rewrite (js_bind_ok _ _ _ _ _ Hev2). cbn [negb].
  destruct (result_of_accepted "SCRIPT_ERR_EVAL_FALSE_NO_RESULT" "SCRIPT_ERR_EVAL_FALSE_IN_STACK" i2) as (i2' & Hr & _).
  rewrite (js_bind_ok _ _ _ _ _ Hr), Hacc. cbn [negb]. rewrite Hfl, Hsh.
  rewrite (js_bind_ok (js_lift (Ok true)) _ _ true _ eq_refl). cbn [negb]. rewrite Hrs.
  rewrite (js_bind_ok (js_lift (Ok redeem)) _ _ redeem _ eq_refl). js_set. rewrite (js_bind_ok _ _ _ _ _ Hev3). destruct ok; [|done].
  cbn [negb andb]. by destruct (result_of_accepted "SCRIPT_ERR_EVAL_FALSE_NO_P2SH_STACK" "SCRIPT_ERR_EVAL_FALSE_IN_P2SH_STACK" i3) as (i4 & -> & _).
Qed.
End Verify.

(** *** The pay-to-public-key-hash script *)

Import SigningLemmas.

Lemma p2pkh_prints h net : zlen h = 20 -> Script.toBuffer (p2pkh_script h net) = Ok (118 :: 169 :: 20 :: h ++ [136; 172]).
Proof. intros _. apply p2pkh_bytes. Qed.

Lemma p2pkh_not_scripthash h net : zlen h = 20 -> Script.isScriptHashOut (p2pkh_script h net) = Ok false.
Proof.
  intros Hh. unfold Script.isScriptHashOut. rewrite p2pkh_prints by done. cbn [mbind result_bind].
  change (byte_at (118 :: 169 :: 20 :: h ++ [136; 172]) 0 =? Opcode.OP_HASH160) with false. by rewrite andb_false_r.
Qed.

Section P2pkh.
Variables (h : list Z) (net : option network) (x : Transaction.t) (n : nat) (fl : Z) (der : list Z) (ty : Z) (pub : list Z).
Hypothesis Hh : zlen h = 20.
Hypothesis Hder : is_der der.
Hypothesis Hty : defined_type ty.
Hypothesis Hpub : compressed_key pub.
Hypothesis Hlow : has fl SCRIPT_VERIFY_LOW_S = false.
Hypothesis Hne : der ++ [ty] <> h.

Lemma p2pkh_not_pushing : Forall (not_pushing (der ++ [ty])) (Script.chunks (p2pkh_script h net)).
Proof.
  pose proof (sig_size der ty Hder). unfold p2pkh_script. cbn [Script.chunks].
  repeat (apply Forall_cons_2; [first [apply not_pushing_op; lia|idtac]|]); [|apply Forall_nil_2].
  rewrite <-Hh. apply (not_pushing_push (der ++ [ty]) h); [lia|congruence].
Qed.

Lemma evaluate_p2pkh : exists i', evaluate (start (p2pkh_script h net) [pub; der ++ [ty]] x n fl)
    = (Ok (bool_decide (sha256ripemd160 pub = h)), i')
  /\ (sha256ripemd160 pub = h -> accepted i' = verdict x n der ty pub (p2pkh_script h None)).
Proof.
  assert (zlen (118 :: 169 :: 20 :: h ++ [136; 172]) <= 10000) as Hsize.
  { rewrite !zlen_cons, zlen_app, Hh. by vm_compute. }
  set (scr := p2pkh_script h net). set (sig := der ++ [ty]).
  assert (forall f, steps (4 + f) (start scr [pub; sig] x n fl) = match step (at_ scr x n 0 fl [h; sha256ripemd160 pub; pub; sig] [] 3 2 "") with
      | (Ok true, i) => steps f i | (Ok false, i) => (Ok false, i) | (Throw e, i) => (Throw e, i) end) as Hrun.
  { intros f. rewrite start_at. cbn [Nat.add].
    rewrite (run_next scr x n 0 fl _ _ _ 0 _ _ _ _ _ ltac:(cbn; lia) (run_dup scr x n 0 fl [sig] [] 0 0 "" pub eq_refl ltac:(lia))).
    rewrite (run_next scr x n 0 fl _ _ _ 1 _ _ _ _ _ ltac:(cbn; lia) (run_hash160 scr x n 0 fl [pub; sig] [] 1 1 "" pub eq_refl ltac:(lia))).
    rewrite (run_next scr x n 0 fl _ _ _ 2 _ _ (h :: sha256ripemd160 pub :: [pub; sig]) [] 2 ltac:(cbn; lia)).
    2: { apply (run_push scr x n 0 fl [sha256ripemd160 pub; pub; sig] [] 2 2 "" 20 h); [cbn; by rewrite Hh|lia|lia|].
         pose proof (push_minimal h ltac:(lia)) as Hm. unfold key_push in Hm. by rewrite Hh in Hm |- *. }
    cbn [steps]. js_look. match goal with |- context [if ?b then _ else _] => change b with true end. cbv iota.
    unfold mbind at 1, js_bind at 1. by destruct (step _) as [[[]|] ?]. }
  pose proof (run_equalverify scr x n 0 fl [pub; sig] [] 3 2 "" (sha256ripemd160 pub) h eq_refl ltac:(lia)) as Hev.
  case_bool_decide as Heq.
  - eexists. split; [apply (evaluate_done _ _ _ _ _ _ _ (p2pkh_prints h net Hh) Hsize)|].
    + change (length (Script.chunks (p2pkh_script h net))) with (4 + 1)%nat. rewrite Hrun, Hev.
      rewrite (run_next scr x n 0 fl _ _ _ 4 _ _ _ _ _ ltac:(cbn; lia)
        (run_checksig scr x n 0 fl [] [] 4 3 "" der ty pub eq_refl ltac:(lia) Hder Hty Hpub Hlow p2pkh_not_pushing)).
      by apply steps_done.
    + cbn. lia.
    + done.
    + intros _. apply castToBool_bool.
  - eexists. split; [apply (evaluate_false _ _ _ _ _ _ _ (p2pkh_prints h net Hh) Hsize)|done].
    change (length (Script.chunks (p2pkh_script h net))) with (4 + 1)%nat. rewrite Hrun, Hev. reflexivity.
Qed.
Lemma verify_p2pkh : verify_script (spend_p2pkh (der ++ [ty]) pub) (p2pkh_script h net) x n fl
  = Ok (bool_decide (sha256ripemd160 pub = h) && verdict x n der ty pub (p2pkh_script h None)).
Proof.
  pose proof (sig_size der ty Hder) as Hsig. pose proof (proj1 (proj2 Hpub)) as Hlen. destruct evaluate_p2pkh as (i2 & Hev & Hacc).
  assert (Forall2 pushing [push_of (der ++ [ty]); push_of pub] [der ++ [ty]; pub]) as Hb.
  { repeat (apply Forall2_cons_2; [apply push_pushing; lia|]). apply Forall2_nil_2. }
  assert (evaluate (start (spend_p2pkh (der ++ [ty]) pub) [] x n fl)
          = (Ok true, at_ (spend_p2pkh (der ++ [ty]) pub) x n 0 fl [pub; der ++ [ty]] [] 2 0 "")) as Hev1.
  { eapply (evaluate_pushes _ _ _ x n fl Hb); [apply prints_push; [lia|]; apply prints_push; [lia|done]| |cbn; lia].
    rewrite !zlen_cons, !zlen_app, !zlen_cons, zlen_app. change (zlen [ty]) with 1. change (zlen (@nil Z)) with 0.
    rewrite zlen_app in Hsig. change (zlen [ty]) with 1 in Hsig. change (zlen (BufferWriter.concat BufferWriter.new)) with 0. lia. }
  etransitivity; [apply (verify_plain _ _ x n fl _ (pushing_only _ _ Hb) Hev1 _ i2 Hev (p2pkh_not_scripthash h net Hh))|].
  case_bool_decide; [by rewrite Hacc|done].
Qed.
End P2pkh.
End WithCrypto.
End SpendingLemmas.

(** Signature schemes whose signatures are DER encodings of positive 256-bit numbers and whose
    keys are encoded compressed, as the bundled elliptic library's are. *)
Class DerLaws `{Crypto} `{Ecdsa} := {
  sign_der h k : SpendingLemmas.is_der (ecdsa_sign h k);
  pub_compressed k : SpendingLemmas.compressed_key (toPublicKey k);
}.

(** ** Theorems *)
Section SpendingTheorems.
Import Interpreter InterpreterLemmas SigningLemmas SpendingLemmas.
Context `{CryptoLaws} `{Ecdsa} `{Hashes}.

(** C12: spending a pay-to-public-key-hash output: [verify] never throws and returns true exactly when
    the key hashes to the one of the output and the signature is one of this transaction under
    that key, whatever the flags but the low-S test. *)
Theorem p2pkh_spend h net x n fl der ty pub :
  zlen h = 20 -> is_der der -> defined_type ty -> compressed_key pub -> has fl SCRIPT_VERIFY_LOW_S = false -> der ++ [ty] <> h ->
  verify_script (spend_p2pkh (der ++ [ty]) pub) (p2pkh_script h net) x n fl
  = Ok (bool_decide (sha256ripemd160 pub = h)
        && match Sighash.verify x der ty pub n (p2pkh_script h None) with Ok b => b | Throw _ => false end).
Proof. intros. by apply verify_p2pkh. Qed.

Context `{!EcdsaLaws} `{!DerLaws}.

(** A signed input passes the interpreter, unless its signature is the hash of the key, byte for byte: then
    OP_CHECKSIG deletes the hash from the script it signs. *)
Lemma spent_verify key y j i fl : spent key SIGHASH_ALL y j i -> has fl SCRIPT_VERIFY_LOW_S = false ->
  pushed_signature i <> sha256ripemd160 (toPublicKey key) ->
  exists o scriptSig prev, Input.output i = Some o /\ Input.script i = Ok scriptSig /\ Output.script o = Ok prev
    /\ verify_script scriptSig prev y j fl = Ok true.
Proof.
  intros (h & o & net & Hlen & Hh & _ & Ho & Hprev & Hs) Hlow Hne. unfold pushed_signature in Hne. rewrite Hs in Hne.
  exists o, (signed_script key (ecdsa_sign h key) SIGHASH_ALL), (key_script key net). split; [done|].
  split; [unfold Input.script; by rewrite Hs|]. split; [done|].
  assert (signed_script key (ecdsa_sign h key) SIGHASH_ALL = spend_p2pkh (ecdsa_sign h key ++ [SIGHASH_ALL]) (toPublicKey key)) as ->.
  { unfold signed_script, spend_p2pkh, key_push. by rewrite zlen_app, pub_length. }
  unfold key_script at 1. rewrite verify_p2pkh; [|apply hash160_length|apply sign_der|done|apply pub_compressed|done|].
  - rewrite bool_decide_true by done. unfold verdict, Sighash.verify. fold (key_script key None). rewrite Hh.
    cbn [mbind result_bind andb]. by rewrite verify_sign.
  - exact Hne.
Qed.

(** The signatures of these schemes have 8 to 72 bytes. *)
Lemma sign_size h k : 8 <= zlen (ecdsa_sign h k) <= 72.
Proof. apply der_size, sign_der. Qed.

(** C11: what the client signs the network accepts: when every input spends an output paid to the key,
    each input of the signed transaction passes the interpreter against the output it spends, however
    long its signature is (it must not be the hash of the key itself).  [isFullySigned] is stricter: it holds exactly when every signature, its type
    included, has the 71 bytes the classifier of input scripts asks for, so a transaction the network
    accepts may count as not signed. *)
Theorem signed_inputs_verify key x fl :
  hashable x -> Forall (signable key) (Transaction.inputs x) -> has fl SCRIPT_VERIFY_LOW_S = false ->
  exists y, Signing.sign key None x = (Ok tt, y) /\ length (Transaction.inputs y) = length (Transaction.inputs x)
    /\ (forall j i, Transaction.inputs y !! j = Some i -> pushed_signature i <> sha256ripemd160 (toPublicKey key) -> exists o scriptSig prev,
         Input.output i = Some o /\ Input.script i = Ok scriptSig /\ Output.script o = Ok prev
         /\ verify_script scriptSig prev y j fl = Ok true)
    /\ Signing.isFullySigned y = Ok (forallb recognised (Transaction.inputs y)).
Proof.
  intros Hx Hsg Hlow. destruct (sign_p2pkh_spent key x Hx Hsg (fun h => sign_size h key)) as (y & Hy & Hall & _ & _ & Hsame).
  assert (length (Transaction.inputs y) = length (Transaction.inputs x)) as Hl
    by (apply (f_equal length) in Hsame; by rewrite !length_fmap in Hsame).
  exists y. split; [done|]. split; [done|]. split; [|by eapply isFullySigned_all, spent_all_signed].
  intros j i Hj Hne. apply (spent_verify key); [by apply Hall|done|done].
Qed.
End SpendingTheorems.

(** ** Witnesses *)

(** A concrete signature scheme whose signatures are well-formed DER, and digests that copy a
    checksum of their input.  They only serve to run the definitions. *)
Definition der_of (c : Z) : list Z := [0x30; 68; 2; 32] ++ repeat (c mod 127 + 1) 32 ++ [2; 32] ++ repeat (c mod 127 + 1) 32.
Definition der_ecdsa : Ecdsa := {|
  PrivateKey := Z;
  toPublicKey k := 2 :: repeat (k mod 256) 32;
  ecdsa_sign h k := der_of (checksum (k mod 256 :: h));
  ecdsa_verify h s p := bool_decide (s = der_of (checksum (byte_at p 1 :: h)));
|}.
Definition demo_hashes : Hashes := {| ripemd160 b := repeat (checksum b) 20; sha1 b := repeat (checksum b) 20; sha256 b := repeat (checksum b) 32 |}.

Lemma der_of_der c : SpendingLemmas.is_der (der_of c).
Proof.
  assert (Forall (fun b => 0 < BN.fromBuffer (repeat b 32) < 2 ^ 256
    /\ Signature.toDER (Signature.new (BN.fromBuffer (repeat b 32)) (BN.fromBuffer (repeat b 32))) = Ok ([0x30; 68; 2; 32] ++ repeat b 32 ++ [2; 32] ++ repeat b 32)) (seqZ 1 127)) as Hall
    by (apply (bool_decide_unpack _); by vm_compute).
  rewrite Forall_forall in Hall. destruct (Hall (c mod 127 + 1)) as (Hr & Hd); [apply elem_of_seqZ; zlia|].
  by exists (BN.fromBuffer (repeat (c mod 127 + 1) 32)), (BN.fromBuffer (repeat (c mod 127 + 1) 32)).
Qed.

Lemma der_ecdsa_laws : @EcdsaLaws demo_crypto der_ecdsa.
Proof.
  split; intros.
  - cbn -[checksum der_of]. by rewrite bool_decide_true.
  - apply SpendingLemmas.der_ok, der_of_der.
  - cbn -[repeat]. apply Forall_cons; split; [unfold byte_ok; lia|]. apply repeat_ok. unfold byte_ok. apply Z.mod_pos_bound. lia.
  - done.
  - done.
Qed.

Lemma der_ecdsa_der : @DerLaws demo_crypto der_ecdsa.
Proof.
  split; intros; [apply der_of_der|]. split; [|done]. eexists 2, _. split; [reflexivity|by left].
Qed.

Section SpendingWitnesses.
Import Interpreter SigningLemmas SpendingLemmas.
#[local] Existing Instance demo_crypto.
#[local] Existing Instance demo_laws.
#[local] Existing Instance der_ecdsa.
#[local] Existing Instance der_ecdsa_laws.
#[local] Existing Instance der_ecdsa_der.
#[local] Existing Instance demo_hashes.

(** A wrong key is refused. *)
Lemma p2pkh_spend_witness :
  verify_script (spend_p2pkh (der_of 3 ++ [1]) (2 :: repeat 5 32)) (p2pkh_script (demo_hash 1) None) (demo_tx [1] [3]) 0 SCRIPT_VERIFY_STRICTENC
  = Ok false.
Proof.
  rewrite (p2pkh_spend (demo_hash 1) None (demo_tx [1] [3]) 0 SCRIPT_VERIFY_STRICTENC (der_of 3) 1 (2 :: repeat 5 32)).
  - vm_compute. reflexivity.
  - reflexivity.
  - apply der_of_der.
  - split; [lia|]. change (1 <= 1 <= 3). lia.
  - split; [|done]. eexists 2, _. split; [reflexivity|by left].
  - reflexivity.
  - by vm_compute.
Defined.

Lemma signed_inputs_verify_witness : exists y i o scriptSig prev, Signing.sign (1 : @PrivateKey der_ecdsa) None (demo_tx [1; 2] [3]) = (Ok tt, y)
  /\ Transaction.inputs y !! 1%nat = Some i /\ Input.output i = Some o /\ Input.script i = Ok scriptSig /\ Output.script o = Ok prev
  /\ verify_script scriptSig prev y 1 SCRIPT_VERIFY_STRICTENC = Ok true.
Proof.
  destruct (signed_inputs_verify (1 : @PrivateKey der_ecdsa) (demo_tx [1; 2] [3]) SCRIPT_VERIFY_STRICTENC) as (y & Hy & Hl & Hall & _).
  - apply demo_hashable; [|done|done]. repeat (apply Forall_cons; split; [unfold byte_ok; lia|]). done.
  - repeat (apply Forall_cons; split; [split; [reflexivity|]; exists (demo_coin 1 9000), None; split; reflexivity|]). apply Forall_nil; exact I.
  - reflexivity.
  - assert (forallb recognised (Transaction.inputs y) = true) as Hlong.
    { assert (exists z, Signing.sign (1 : @PrivateKey der_ecdsa) None (demo_tx [1; 2] [3]) = (Ok tt, z)
        /\ forallb recognised (Transaction.inputs z) = true) as (z & Hz & Hlong) by (eexists; split; vm_compute; reflexivity).
      rewrite Hy in Hz. by injection Hz as ->. }
    destruct (Transaction.inputs y !! 1%nat) as [i|] eqn:Hi.
    + destruct (Hall 1%nat i Hi) as (o & ss & prev & H1 & H2 & H3 & H4).
      * intros He. rewrite forallb_forall in Hlong. specialize (Hlong i ltac:(apply list_elem_of_In; by eapply list_elem_of_lookup_2)).
        unfold recognised in Hlong. rewrite He in Hlong. discriminate Hlong.
      * exists y, i, o, ss, prev. split_and!; assumption.
    + apply lookup_ge_None in Hi. rewrite Hl in Hi. cbn in Hi. lia.
Defined.
End SpendingWitnesses.
