(* ===== verification/Multisig.v ===== *)
(** * Multisig outputs: what the interpreter accepts

    [OP_CHECKMULTISIG] and the pay-to-script-hash multisig scripts the channel locks its funds
    in: the scripts [Script.v] builds, run through the interpreter of [Interpreter.v]. *)
From S2P Require Import Prelude JsNumber Encoding Signature ScriptNum Script Transaction Interpreter InterpreterSpec Spending.
Local Open Scope Z_scope.
Local Open Scope js_scope.

(** ** Matching signatures with keys *)

(** Each signature with a later key than the one before, the first that fits *)
Fixpoint matchable {A B} (ok : A -> B -> bool) (sigs : list A) (keys : list B) : bool :=
  match sigs, keys with
  | [], _ => true
  | _ :: _, [] => false
  | s :: sigs', k :: keys => if ok s k then matchable ok sigs' keys else matchable ok sigs keys
  end.

Module MultisigLemmas.
Import Interpreter InterpreterLemmas SpendingLemmas ScriptLemmas.

Section Matching.
Context {A B : Type} (ok : A -> B -> bool).

(** The first key that fits is as good as any. *)
Lemma matchable_sublist keys : forall sigs,
  matchable ok sigs keys = true <-> exists ks, ks `sublist_of` keys /\ Forall2 (fun s k => ok s k = true) sigs ks.
Proof.
  induction keys as [|k keys IH]; intros [|s sigs]; cbn [matchable].
  - split; [|done]. intros _. exists []. by split; [|constructor].
  - split; [done|]. intros (ks & Hks & Hf). apply sublist_nil_r in Hks as ->. inversion Hf.
  - split; [|done]. intros _. exists []. by split; [apply sublist_nil_l|constructor].
  - destruct (ok s k) eqn:Hok; rewrite IH; split; intros (ks & Hks & Hf).
    + exists (k :: ks). split; [by apply sublist_skip|by constructor].
    + inversion Hf as [|? k' ? ks' Hk' Hf']; subst. exists ks'. split; [|done].
      apply sublist_cons_r in Hks as [Hks|(l & [= <- <-] & Hks)]; [|done]. etransitivity; [|exact Hks]. by apply sublist_cons.
    + exists ks. split; [by apply sublist_cons|done].
    + exists ks. split; [|done]. apply sublist_cons_r in Hks as [Hks|(l & -> & Hks)]; [done|]. inversion Hf; congruence.
Qed.

Lemma matchable_short sigs keys : (length keys < length sigs)%nat -> matchable ok sigs keys = false.
Proof.
  intros Hlen. apply not_true_iff_false. rewrite matchable_sublist. intros (ks & Hks%sublist_length & Hf%Forall2_length). lia.
Qed.
End Matching.

Lemma sublist_rev {A} (l k : list A) : l `sublist_of` k -> rev l `sublist_of` rev k.
Proof.
  induction 1 as [|x l k _ IH|x l k _ IH]; cbn [rev]; [done|by apply sublist_app|].
  by apply sublist_inserts_r.
Qed.

Lemma Forall2_rev {A B} (P : A -> B -> Prop) l k : Forall2 P l k -> Forall2 P (rev l) (rev k).
Proof. induction 1; cbn [rev]; [constructor|apply Forall2_app; [done|by repeat constructor]]. Qed.

(** Scripts list signatures and keys bottom first: the order does not matter. *)
Lemma matchable_rev {A B} (ok : A -> B -> bool) sigs keys : matchable ok (rev sigs) (rev keys) = true <->
  exists ks, ks `sublist_of` keys /\ Forall2 (fun s k => ok s k = true) sigs ks.
Proof.
  rewrite matchable_sublist. split; intros (ks & Hks & Hf); exists (rev ks); (split; [apply sublist_rev in Hks|]).
  - by rewrite rev_involutive in Hks.
  - apply Forall2_rev in Hf. by rewrite rev_involutive in Hf.
  - done.
  - by apply Forall2_rev.
Qed.

Section WithCrypto.
Context `{Crypto} `{Ecdsa} `{Hashes}.

(** A signature of a script: its encoding and its hash type *)
Definition raw (s : list Z * Z) : list Z := fst s ++ [snd s].
Definition good_sig (s : list Z * Z) : Prop := is_der (fst s) /\ defined_type (snd s).
Definition signs (x : Transaction.t) (n : nat) (sub : Script.t) (s : list Z * Z) (k : list Z) : bool :=
  verdict x n (fst s) (snd s) k sub.

Lemma signs_true x n sub s k : signs x n sub s k = true <-> Sighash.verify x (fst s) (snd s) k n sub = Ok true.
Proof. unfold signs, verdict. destruct (Sighash.verify _ _ _ _ _ _) as [[]|]; by split. Qed.

Lemma match_signatures_eq x n sub i : has (flags i) SCRIPT_VERIFY_LOW_S = false -> forall keys sigs,
  Forall good_sig sigs -> Forall compressed_key keys -> (length sigs <= length keys)%nat ->
  match_signatures x n sub (raw <$> sigs) keys i = (Ok (Some (matchable (signs x n sub) sigs keys)), i).
Proof.
  intros Hlow. induction keys as [|k keys IH]; intros [|s sigs] Hs Hk Hlen; [done|cbn in Hlen; lia|done|].
  pose proof Hs as [[Hd Hty] Hs']%Forall_cons. apply Forall_cons in Hk as [Hk Hks]. cbn in Hlen.
  cbn [fmap list_fmap match_signatures]. unfold raw at 1.
  rewrite (js_bind_ok _ _ _ _ _ (checkEncodings_der i _ _ k Hd Hty (proj2 (proj2 Hk)) Hlow)). cbn [negb]. unfold raw at 1.
  rewrite checkSig_der; [|done|destruct Hty; unfold byte_ok; lia|by apply compressed_fromBuffer].
  fold (signs x n sub s k). cbn [matchable]. change (raw s :: (raw <$> sigs)) with (raw <$> s :: sigs). rewrite !length_fmap. cbn [length].
  destruct (signs x n sub s k).
  - rewrite (proj2 (Nat.ltb_ge _ _)) by lia. apply IH; [done..|lia].
  - destruct (Nat.ltb_spec (length keys) (S (length sigs))); [by rewrite matchable_short by (cbn; lia)|]. apply IH; [done..|cbn; lia].
Qed.

(** *** Numbers and longer pushes *)

Lemma small_num k : 1 <= k <= 16 -> BN.toScriptNumBuffer k = [k] /\ forall minimal, BN.fromScriptNumBuffer [k] minimal = Ok k.
Proof.
  intros Hk. assert (Forall (fun k => BN.toScriptNumBuffer k = [k] /\ BN.fromScriptNumBuffer [k] true = Ok k
    /\ BN.fromScriptNumBuffer [k] false = Ok k) (seqZ 1 16)) as Hall by (apply (bool_decide_unpack _); by vm_compute).
  rewrite Forall_forall in Hall. destruct (Hall k) as (? & ? & ?); [apply elem_of_seqZ; lia|]. split; [done|]. by intros [].
Qed.

(** The chunk [addBuffer] makes *)
Definition data_push (b : list Z) : Script.chunk :=
  Script.mkChunk (if zlen b <? 76 then zlen b else if zlen b <? 256 then 76 else 77) (Some (b, zlen b)).

Lemma addBuffer_data b s : zlen b < 2 ^ 16 ->
  Script.addBuffer b false s = Ok (Script.insertAtPosition (data_push b) false s).
Proof.
  intros Hb. unfold Script.addBuffer, data_push. change Opcode.OP_PUSHDATA1 with 76. pose proof (zlen_nonneg b).
  rewrite (proj2 (Z.leb_le 0 _)) by lia. cbn [andb]. change (2 ^ 8) with 256.
  rewrite (proj2 (Z.ltb_lt (zlen b) (2 ^ 16))) by lia. by destruct (zlen b <? 76), (zlen b <? 256).
Qed.

Lemma data_push_small b : zlen b <= 75 -> data_push b = key_push b.
Proof. intros Hb. unfold data_push. by rewrite (proj2 (Z.ltb_lt _ 76)) by lia. Qed.

Lemma data_pushing b : 2 <= zlen b <= 520 -> pushing (data_push b) b.
Proof.
  intros Hb. right. exists (Script.opcodenum (data_push b)). split; [done|]. unfold Script.chunk_minimal, Script.buf, data_push.
  cbn [Script.push Script.opcodenum fmap option_fmap option_map fst].
  rewrite (proj2 (Z.eqb_neq (zlen b) 0)), (proj2 (Z.eqb_neq (zlen b) 1)) by lia. cbn [andb].
  destruct (Z.ltb_spec (zlen b) 76); [rewrite (proj2 (Z.leb_le _ 75)), Z.eqb_refl by lia; split_and!; (done || lia)|].
  rewrite (proj2 (Z.leb_gt _ 75)) by lia.
  destruct (Z.ltb_spec (zlen b) 256); [rewrite (proj2 (Z.leb_le _ 255)) by lia; split_and!; (done || lia)|].
  rewrite (proj2 (Z.leb_gt _ 255)), (proj2 (Z.leb_le _ 65535)) by lia. split_and!; (done || lia).
Qed.

Lemma data_prints b : 2 <= zlen b <= 520 ->
  exists w, Script.toBuffer (Script.mk [data_push b] None) = Ok w /\ zlen w <= zlen b + 3.
Proof.
  intros Hb. unfold data_push. rewrite toBuffer_push. destruct (Z.ltb_spec (zlen b) 76).
  - rewrite writeUInt8_ok by lia. rewrite (proj2 (Z.ltb_lt _ 76)), (proj2 (Z.ltb_lt _ 79)) by lia. eexists. split; [reflexivity|].
    rewrite !zlen_app. change (zlen (@nil Z)) with 0. change (zlen [zlen b]) with 1. lia.
  - destruct (Z.ltb_spec (zlen b) 256).
    + rewrite (writeUInt8_ok (zlen b)), (writeUInt8_ok 76) by lia. eexists. split; [reflexivity|]. change (76 <? 79) with true.
      cbv iota. rewrite !zlen_app, !zlen_cons. change (zlen (@nil Z)) with 0. lia.
    + rewrite (proj1 (writeUInt16LE_ok (zlen b) ltac:(lia))), (writeUInt8_ok 77) by lia. eexists. split; [reflexivity|].
      change (77 <? 79) with true. cbv iota. rewrite !zlen_app, !zlen_cons. change (zlen (@nil Z)) with 0. lia.
Qed.

Lemma take_zlen {A} n (l k : list A) : n = zlen l -> take (Z.to_nat n) (l ++ k) = l.
Proof. intros ->. unfold zlen. rewrite Nat2Z.id. apply take_app_length. Qed.
Lemma drop_zlen {A} n (l k : list A) : n = zlen l -> drop (Z.to_nat n) (l ++ k) = k.
Proof. intros ->. unfold zlen. rewrite Nat2Z.id. apply drop_app_length. Qed.

(** *** The redeem script *)

Section Run.
Variables (scr : Script.t) (x : Transaction.t) (n : nat) (fl : Z).
#[local] Abbreviation at_ := (at_ scr x n 0 fl).

Lemma run_small st alt k ops err m : Script.chunks scr !! k = Some (Script.mkChunk (80 + m) None) -> 1 <= m <= 16 ->
  step (at_ st alt k ops err) = (Ok true, at_ ([m] :: st) alt (S k) ops err).
Proof.
  intros Hc Hm. rewrite (run_op scr x n 0 fl _ _ _ _ _ _ Hc); [|lia|lia|].
  - assert (counted (Script.mkChunk (80 + m) None) = 0) as ->.
    { unfold counted. cbn [Script.opcodenum]. change Opcode.OP_16 with 96. by rewrite Z.gtb_ltb, (proj2 (Z.ltb_ge _ _)) by lia. }
    unfold cases. cbn [switch].
    assert (existsb (Z.eqb (80 + m)) [Opcode.OP_1NEGATE; Opcode.OP_1; Opcode.OP_2; Opcode.OP_3; Opcode.OP_4; Opcode.OP_5; Opcode.OP_6;
      Opcode.OP_7; Opcode.OP_8; Opcode.OP_9; Opcode.OP_10; Opcode.OP_11; Opcode.OP_12; Opcode.OP_13; Opcode.OP_14; Opcode.OP_15;
      Opcode.OP_16] = true) as ->.
    { apply existsb_exists. exists (80 + m). split; [|apply Z.eqb_refl]. apply list_elem_of_In.
      assert (80 + m ∈ seqZ 81 16) as Hin by (apply elem_of_seqZ; lia). by apply list_elem_of_further. }
    change (Opcode.OP_1 - 1) with 80. replace (80 + m - 80) with m by lia. rewrite (proj1 (small_num m Hm)), Z.add_0_r. reflexivity.
  - intros Hd. assert (Forall (fun d => 96 < d) disabled) as Hall by (by apply (bool_decide_unpack _)).
    rewrite Forall_forall in Hall. specialize (Hall _ Hd). cbn in Hall. lia.
Qed.

Lemma run_checkmultisig st alt k ops err keys sigs : Script.chunks scr !! k = Some (Script.mkChunk 174 None) ->
  1 <= zlen sigs <= zlen keys -> zlen keys <= 16 -> ops + 1 + zlen keys <= 201 ->
  Forall good_sig sigs -> Forall compressed_key keys -> has fl SCRIPT_VERIFY_LOW_S = false ->
  Forall (fun s => Forall (not_pushing (raw s)) (Script.chunks scr)) sigs ->
  step (at_ ([zlen keys] :: keys ++ [zlen sigs] :: (raw <$> sigs) ++ [] :: st) alt k ops err)
  = (Ok true, at_ (bool_buf (matchable (signs x n (Script.mk (Script.chunks scr) None)) sigs keys) :: st) alt (S k) (zlen keys + (ops + 1)) err).
Proof.
  intros Hc Hm Hn Hops Hs Hk Hlow Hsub. rewrite (run_op scr x n 0 fl _ _ _ _ _ 174 Hc); [|lia|lia|by apply (bool_decide_unpack _)].
  change (switch 174 (cases 174 true) (fail "SCRIPT_ERR_BAD_OPCODE")) with (op_checkmultisig false).
  change (counted (Script.mkChunk 174 None)) with 1. unfold op_checkmultisig. js_look. cbn [stack InterpreterLemmas.at_].
  rewrite (proj2 (small_num (zlen keys) ltac:(lia))). rewrite (js_bind_ok (js_lift (Ok _)) _ _ _ _ eq_refl).
  rewrite Z.gtb_ltb, !(proj2 (Z.ltb_ge _ _)) by lia. cbn [orb]. js_set. js_look.
  match goal with |- context [nOpCount ?i >? 201] => change (nOpCount i) with (zlen keys + (ops + 1)) end.
  rewrite Z.gtb_ltb, (proj2 (Z.ltb_ge _ _)) by lia. rewrite take_zlen, drop_zlen by done.
  rewrite (proj2 (small_num (zlen sigs) ltac:(lia))). rewrite (js_bind_ok (js_lift (Ok _)) _ _ _ _ eq_refl).
  rewrite Z.gtb_ltb, !(proj2 (Z.ltb_ge _ _)) by lia. cbn [orb]. rewrite take_zlen, drop_zlen by (unfold zlen; by rewrite length_fmap).
  unfold subscript. cbn [pbegincodehash script InterpreterLemmas.at_ drop].
  rewrite drop_signatures_none.
  2: { apply Forall_fmap. pose proof (conj Hs Hsub) as Hboth. rewrite <-Forall_and in Hboth. eapply Forall_impl; [exact Hboth|].
       intros s [[Hd _] Hsub']. split; [pose proof (sig_size _ (snd s) Hd); unfold compose, raw; lia|exact Hsub']. }
  rewrite (js_bind_ok (js_lift (Ok _)) _ _ _ _ eq_refl).
  match goal with |- context [mbind _ (match_signatures ?y ?m ?sub _ _) ?i] =>
    rewrite (js_bind_ok _ _ _ _ _ (match_signatures_eq y m sub i Hlow keys sigs Hs Hk ltac:(unfold zlen in *; lia))) end.
  rewrite (js_bind_ok (set_stack _) _ _ _ _ eq_refl). js_look. change (zlen (@nil Z) =? 0) with true. cbn [negb]. rewrite andb_false_r.
  rewrite (js_bind_ok (set_stack _) _ _ _ _ eq_refl). reflexivity.
Qed.
End Run.

(** *** Pay to script hash *)

Definition multisig_redeem (m : Z) (ks : list (list Z)) : Script.t :=
  Script.mk (Script.op (80 + m) :: (key_push <$> ks) ++ [Script.op (80 + zlen ks); Script.op 174]) None.
Definition multisig_bytes (m : Z) (ks : list (list Z)) : list Z := 80 + m :: keys_bytes ks ++ [80 + zlen ks; 174].

(** The script of an input that spends a multisig output *)
Definition spend_multisig (sigs : list (list Z * Z)) (redeem : list Z) : Script.t :=
  Script.mk (Script.mkChunk 0 None :: (key_push <$> (raw <$> sigs)) ++ [data_push redeem]) None.

Lemma keys_bytes_compressed ks : Forall compressed_key ks -> zlen (keys_bytes ks) = 34 * zlen ks.
Proof.
  induction 1 as [|k l (_ & Hk & _) _ IH]; [done|]. unfold keys_bytes in *. cbn [mbind list_bind app].
  rewrite !zlen_cons, zlen_app, IH. lia.
Qed.

Section P2sh.
Variables (m : Z) (ks : list (list Z)) (sigs : list (list Z * Z)) (x : Transaction.t) (n : nat) (fl : Z).
Hypothesis Hm : 1 <= m <= zlen ks.
Hypothesis Hn : zlen ks <= 15.
Hypothesis Hks : Forall compressed_key ks.
Hypothesis Hsigs : Forall good_sig sigs.
Hypothesis Hcount : zlen sigs = m.
Hypothesis Hlow : has fl SCRIPT_VERIFY_LOW_S = false.

Lemma keys_size : Forall (fun k => 1 <= zlen k <= 75) ks.
Proof. eapply Forall_impl; [exact Hks|]. intros k (_ & Hk & _). lia. Qed.

Lemma raw_not_key s k : good_sig s -> compressed_key k -> k <> raw s.
Proof.
  intros [Hd _] ((h & l & -> & Hh) & _) He. destruct (der_head _ Hd) as [d Hd']. unfold raw in He. rewrite Hd' in He.
  injection He as -> _. lia.
Qed.

Lemma raw_size s : good_sig s -> 9 <= zlen (raw s) <= 73.
Proof. intros [Hd _]. by apply sig_size. Qed.

Lemma redeem_not_pushing s : good_sig s -> Forall (not_pushing (raw s)) (Script.chunks (multisig_redeem m ks)).
Proof.
  intros Hs. pose proof (raw_size s Hs). apply Forall_cons_2; [apply not_pushing_op; lia|]. apply Forall_app. split.
  - apply Forall_fmap. eapply Forall_impl; [exact Hks|]. intros k Hk. apply not_pushing_push; [destruct Hk as (_ & ? & _); lia|].
    by apply raw_not_key.
  - repeat (apply Forall_cons_2; [apply not_pushing_op; unfold zlen in *; lia|]). apply Forall_nil_2.
Qed.

Lemma redeem_prints : Script.toBuffer (multisig_redeem m ks) = Ok (multisig_bytes m ks) /\ Script.fromBuffer (multisig_bytes m ks) = Ok (multisig_redeem m ks).
Proof. destruct (multisig_script ks m keys_size Hm ltac:(lia)) as (_ & _ & Hp & Hf). by split. Qed.

Lemma redeem_size : 2 <= zlen (multisig_bytes m ks) <= 520.
Proof.
  unfold multisig_bytes. rewrite zlen_cons, zlen_app. change (zlen [80 + zlen ks; 174]) with 2.
  rewrite keys_bytes_compressed by done. lia.
Qed.

Definition decision : bool := matchable (signs x n (multisig_redeem m ks)) (rev sigs) (rev ks).

Lemma evaluate_redeem : exists i', evaluate (start (multisig_redeem m ks) (rev ([] :: (raw <$> sigs))) x n fl) = (Ok true, i')
  /\ accepted i' = decision.
Proof.
  set (scr := multisig_redeem m ks). eexists. split.
  - apply (evaluate_done _ _ _ _ _ _ _ (proj1 redeem_prints)); [pose proof redeem_size; lia| | |].
    + assert (length (Script.chunks (multisig_redeem m ks)) = 1 + (length (key_push <$> ks) + 2))%nat as ->.
      { unfold multisig_redeem. cbn [Script.chunks length]. by rewrite length_app. }
      cbn [Nat.add]. fold scr. rewrite start_at.
      rewrite (run_next scr x n 0 fl _ _ _ 0 _ _ _ _ _ ltac:(cbn; lia) (run_small scr x n fl _ [] 0 0 "" m eq_refl ltac:(lia))).
      rewrite (run_pushes scr x n 0 fl [] 0 "" (key_push <$> ks) ks).
      2: { apply Forall2_fmap_l, Forall_Forall2_diag. eapply Forall_impl; [exact Hks|]. intros b (_ & Hb & _). apply push_pushing. lia. }
      2: { intros j c Hj. subst scr. cbn [multisig_redeem Script.chunks Nat.add]. rewrite lookup_cons, lookup_app_l by (by eapply lookup_lt_Some). exact Hj. }
      assert (forall j c, [Script.op (80 + zlen ks); Script.op 174] !! j = Some c -> Script.chunks scr !! (1 + length (key_push <$> ks) + j)%nat = Some c) as Htail.
      { intros j c Hj. subst scr. cbn [multisig_redeem Script.chunks Nat.add]. rewrite lookup_cons, lookup_app_r by lia.
        by replace (length (key_push <$> ks) + j - length (key_push <$> ks))%nat with j by lia. }
      set (k := (1 + length (key_push <$> ks))%nat) in *.
      pose proof (Htail 0%nat _ eq_refl) as Hk0. rewrite Nat.add_0_r in Hk0.
      pose proof (Htail 1%nat _ eq_refl) as Hk1. rewrite Nat.add_1_r in Hk1.
      rewrite (run_next scr x n 0 fl _ _ _ k _ _ _ _ _ (lookup_lt_Some _ _ _ Hk0) (run_small scr x n fl _ [] k 0 "" (zlen ks) Hk0 ltac:(lia))).
      assert ([zlen ks] :: rev ks ++ [m] :: rev ([] :: (raw <$> sigs))
        = [zlen (rev ks)] :: rev ks ++ [zlen (rev sigs)] :: (raw <$> rev sigs) ++ [] :: []) as ->.
      { assert (raw <$> rev sigs = rev (raw <$> sigs)) as -> by apply map_rev.
        unfold zlen in *. rewrite !length_rev, Hcount. reflexivity. }
      rewrite (run_next scr x n 0 fl _ _ _ (S k) _ _ _ _ _ (lookup_lt_Some _ _ _ Hk1) (run_checkmultisig scr x n fl [] [] (S k) 0 "" (rev ks) (rev sigs) Hk1
        ltac:(unfold zlen in *; rewrite !length_rev; lia) ltac:(unfold zlen in *; rewrite !length_rev; lia)
        ltac:(unfold zlen in *; rewrite !length_rev; lia) ltac:(by apply Forall_rev) ltac:(by apply Forall_rev) Hlow
        ltac:(apply Forall_rev; eapply Forall_impl; [exact Hsigs|apply redeem_not_pushing]))).
      apply steps_done. subst k scr. cbn. rewrite length_app. cbn. lia.
    + cbn. lia.
    + done.
  - apply castToBool_bool.
Qed.

Lemma evaluate_p2sh h net rb st : zlen h = 20 -> (length st <= 900)%nat -> exists i',
  evaluate (start (p2sh_script h net) (rb :: st) x n fl) = (Ok true, i') /\ accepted i' = bool_decide (sha256ripemd160 rb = h).
Proof.
  intros Hh Hst. set (scr := p2sh_script h net). eexists. split.
  - apply (evaluate_done _ _ _ _ _ _ _ (p2sh_bytes h net : Script.toBuffer scr = _)).
    + rewrite !zlen_cons, zlen_app, Hh. by vm_compute.
    + change (length (Script.chunks scr)) with 3%nat. rewrite start_at.
      rewrite (run_next scr x n 0 fl _ _ _ 0 _ _ _ _ _ ltac:(cbn; lia) (run_hash160 scr x n 0 fl st [] 0 0 "" rb eq_refl ltac:(lia))).
      rewrite (run_next scr x n 0 fl _ _ _ 1 _ _ (h :: sha256ripemd160 rb :: st) [] 1 ltac:(cbn; lia)).
      2: { apply (run_push scr x n 0 fl (sha256ripemd160 rb :: st) [] 1 1 "" 20 h); [cbn; by rewrite Hh|lia|lia|].
           pose proof (push_minimal h ltac:(lia)) as Hm'. unfold key_push in Hm'. by rewrite Hh in Hm' |- *. }
      rewrite (run_next scr x n 0 fl _ _ _ 2 _ _ _ _ _ ltac:(cbn; lia) (run_equal scr x n 0 fl st [] 2 1 "" _ h eq_refl ltac:(lia))).
      by apply steps_done.
    + cbn. lia.
    + done.
  - apply castToBool_bool.
Qed.

Lemma verify_multisig h net : zlen h = 20 -> has fl SCRIPT_VERIFY_P2SH = true ->
  verify_script (spend_multisig sigs (multisig_bytes m ks)) (p2sh_script h net) x n fl
  = Ok (bool_decide (sha256ripemd160 (multisig_bytes m ks) = h) && decision).
Proof.
  intros Hh Hp2sh. pose proof redeem_size as Hsize.
  set (rb := multisig_bytes m ks) in *. set (cs := Script.chunks (spend_multisig sigs rb)). set (bs := [] :: (raw <$> sigs) ++ [rb]).
  assert (Forall2 pushing cs bs) as Hpush.
  { apply Forall2_cons_2; [by left|]. apply Forall2_app; [|apply Forall2_cons_2; [by apply data_pushing|apply Forall2_nil_2]].
    apply Forall2_fmap_l, Forall_Forall2_diag, Forall_fmap. eapply Forall_impl; [exact Hsigs|]. intros s Hs. apply push_pushing.
    pose proof (raw_size s Hs). unfold compose in *. lia. }
  destruct (data_prints rb Hsize) as (w & Hw & Hwl).
  assert (Forall (fun k => 1 <= zlen k <= 75) (raw <$> sigs)) as Hraw.
  { apply Forall_fmap. eapply Forall_impl; [exact Hsigs|]. intros s Hs. pose proof (raw_size s Hs). unfold compose. lia. }
  assert (Script.toBuffer (Script.mk cs None) = Ok (0 :: keys_bytes (raw <$> sigs) ++ w)) as Hprints.
  { apply prints_op; [lia|]. by apply prints_keys. }
  pose proof (keys_bytes_length _ Hraw) as Hkl. assert (zlen (raw <$> sigs) = m) as Hrm by (unfold zlen in *; by rewrite length_fmap).
  assert (length bs = (Z.to_nat m + 2)%nat) as Hbs.
  { unfold bs. cbn [length]. rewrite length_app. unfold zlen in *. cbn [length]. lia. }
  assert (evaluate (start (spend_multisig sigs rb) [] x n fl)
          = (Ok true, at_ (spend_multisig sigs rb) x n 0 fl (rb :: rev ([] :: (raw <$> sigs))) [] (length cs) 0 "")) as Hev1.
  { assert (rb :: rev ([] :: (raw <$> sigs)) = rev bs) as -> by (unfold bs; cbn [rev]; by rewrite rev_app_distr).
    apply (evaluate_pushes cs bs _ x n fl Hpush Hprints); [rewrite zlen_cons, zlen_app; lia|lia]. }
  destruct (evaluate_p2sh h net rb (rev ([] :: (raw <$> sigs))) Hh) as (i2 & Hev2 & Hacc).
  { rewrite length_rev. cbn [length]. unfold zlen in *. lia. }
  case_bool_decide as Heq.
  - destruct evaluate_redeem as (i3 & Hev3 & Hacc3). rewrite <-Hacc3. change (accepted i3) with (true && accepted i3).
    apply (verify_p2sh _ _ x n fl _ (pushing_only cs bs Hpush) Hev1 rb (rev ([] :: (raw <$> sigs))) (multisig_redeem m ks) i2 true i3
      eq_refl Hev2 Hacc); [by apply p2sh_is_sh|done|apply redeem_prints|done].
  - apply (verify_rejected _ _ x n fl _ (pushing_only cs bs Hpush) Hev1 i2 Hev2 Hacc).
Qed.

(** The scripts are those bitcore builds. *)
Lemma spend_multisig_built : Script.buildP2SHMultisigIn ks m (raw <$> sigs) (Some (multisig_redeem m ks)) true
  = Ok (spend_multisig sigs (multisig_bytes m ks)).
Proof.
  unfold Script.buildP2SHMultisigIn. change (Script.add (Script.IOp Opcode.OP_0) Script.empty) with (Ok (Script.mk [Script.mkChunk 0 None] None)).
  cbn [mbind result_bind]. rewrite adds_keys.
  2: { apply Forall_fmap. eapply Forall_impl; [exact Hsigs|]. intros s Hs. pose proof (raw_size s Hs). unfold compose. lia. }
  cbn [mbind result_bind]. rewrite (proj1 redeem_prints). cbn [mbind result_bind]. unfold Script.add, Script.addByType.
  rewrite addBuffer_data by (pose proof redeem_size; lia). reflexivity.
Qed.
End P2sh.
End WithCrypto.
End MultisigLemmas.

(** ** Theorems *)
Section MultisigTheorems.
Import Interpreter InterpreterLemmas SpendingLemmas MultisigLemmas ScriptLemmas.
Context `{CryptoLaws} `{Ecdsa} `{Hashes}.

(** C13: the loop of [OP_CHECKMULTISIG] decides the order-preserving assignment of signatures to
    keys: it succeeds exactly when every signature verifies under a key of its own, the keys used
    coming in the order they are listed, and it leaves the interpreter as it was. *)
Theorem checkmultisig_matches x n sub i keys sigs :
  has (flags i) SCRIPT_VERIFY_LOW_S = false -> Forall good_sig sigs -> Forall compressed_key keys -> (length sigs <= length keys)%nat ->
  exists ok, match_signatures x n sub (raw <$> sigs) keys i = (Ok (Some ok), i)
    /\ (ok = true <-> exists ks, ks `sublist_of` keys
         /\ Forall2 (fun s k => Sighash.verify x (fst s) (snd s) k n sub = Ok true) sigs ks).
Proof.
  intros Hlow Hs Hk Hlen. eexists. split; [by apply match_signatures_eq|]. rewrite matchable_sublist.
  split; intros (ks & Hks & Hf); exists ks; (split; [done|]); (eapply Forall2_impl; [exact Hf|]); intros s k; apply signs_true.
Qed.

(** C10: spending a pay-to-script-hash multisig output, [m] signatures of [ks], with the scripts
    bitcore builds: [verify] never throws and returns true exactly when the redeem script hashes to
    the output's hash and the signatures verify, in order, under keys of the list. *)
Theorem multisig_spend ks m sigs h net x n fl :
  1 <= m <= zlen ks -> zlen ks <= 15 -> Forall compressed_key ks -> Forall good_sig sigs -> zlen sigs = m -> zlen h = 20 ->
  has fl SCRIPT_VERIFY_P2SH = true -> has fl SCRIPT_VERIFY_LOW_S = false ->
  exists redeem rb scriptSig ok, Script.buildMultisigOut ks m true = Ok redeem /\ Script.toBuffer redeem = Ok rb
    /\ Script.buildP2SHMultisigIn ks m (raw <$> sigs) (Some redeem) true = Ok scriptSig
    /\ verify_script scriptSig (p2sh_script h net) x n fl = Ok ok
    /\ (ok = true <-> sha256ripemd160 rb = h /\ exists ks', ks' `sublist_of` ks
         /\ Forall2 (fun s k => Sighash.verify x (fst s) (snd s) k n redeem = Ok true) sigs ks').
Proof.
  intros Hm Hn Hks Hs Hc Hh Hp Hlow. exists (multisig_redeem m ks), (multisig_bytes m ks), (spend_multisig sigs (multisig_bytes m ks)).
  eexists. split; [by apply multisig_script; [by apply keys_size| |lia]|]. split; [by apply redeem_prints|].
  split; [by apply spend_multisig_built|]. split; [by apply verify_multisig|].
  rewrite andb_true_iff, bool_decide_eq_true. apply and_iff_compat_l. unfold decision. rewrite matchable_rev.
  split; intros (ks' & Hks' & Hf); exists ks'; (split; [done|]); (eapply Forall2_impl; [exact Hf|]); intros s k; apply signs_true.
Qed.
End MultisigTheorems.

(** ** Witnesses *)
Section MultisigWitnesses.
Import Interpreter SpendingLemmas MultisigLemmas.
#[local] Existing Instance demo_crypto.
#[local] Existing Instance demo_laws.
#[local] Existing Instance der_ecdsa.
#[local] Existing Instance demo_hashes.

(** Two of three keys sign the first input of a transaction. *)
Definition demo_keys : list (list Z) := [2 :: repeat 5 32; 2 :: repeat 6 32; 2 :: repeat 7 32].
Definition demo_sighash : list Z :=
  match Sighash.sighash (demo_tx [1] [3]) 1 0 (multisig_redeem 2 demo_keys) with Ok h => h | Throw _ => [] end.
Definition demo_sig (k : Z) : list Z * Z := (der_of (checksum (k :: demo_sighash)), 1).

Lemma demo_keys_ok : Forall compressed_key demo_keys.
Proof. repeat (apply Forall_cons_2; [split; [eexists 2, _; split; [reflexivity|by left]|done]|]). apply Forall_nil_2. Qed.

Lemma demo_sig_ok k : good_sig (demo_sig k).
Proof. split; [apply der_of_der|]. split; [cbn; lia|]. cbn [snd demo_sig]. change (Z.land 1 15) with 1. lia. Qed.

Lemma demo_sublist : [2 :: repeat 5 32; 2 :: repeat 7 32] `sublist_of` demo_keys.
Proof. apply sublist_skip, sublist_cons, sublist_skip, sublist_nil_l. Qed.

Lemma checkmultisig_matches_witness :
  fst (match_signatures (demo_tx [1] [3]) 0 (multisig_redeem 2 demo_keys) (raw <$> [demo_sig 5; demo_sig 7]) demo_keys
    (start Script.empty [] (demo_tx [1] [3]) 0 0)) = Ok (Some true).
Proof.
  destruct (checkmultisig_matches (demo_tx [1] [3]) 0 (multisig_redeem 2 demo_keys) (start Script.empty [] (demo_tx [1] [3]) 0 0) demo_keys
    [demo_sig 5; demo_sig 7]) as (ok & -> & Hok).
  - reflexivity.
  - repeat (apply Forall_cons_2; [apply demo_sig_ok|]). apply Forall_nil_2.
  - apply demo_keys_ok.
  - cbn. lia.
  - cbn [fst]. do 2 f_equal. apply Hok. exists [2 :: repeat 5 32; 2 :: repeat 7 32]. split; [apply demo_sublist|].
    constructor; [vm_compute; reflexivity|]. constructor; [vm_compute; reflexivity|constructor].
Defined.

Lemma multisig_spend_witness : exists redeem scriptSig, Script.buildMultisigOut demo_keys 2 true = Ok redeem
  /\ Script.buildP2SHMultisigIn demo_keys 2 (raw <$> [demo_sig 5; demo_sig 7]) (Some redeem) true = Ok scriptSig
  /\ verify_script scriptSig (p2sh_script (sha256ripemd160 (multisig_bytes 2 demo_keys)) None) (demo_tx [1] [3]) 0 SCRIPT_VERIFY_P2SH = Ok true.
Proof.
  destruct (multisig_spend demo_keys 2 [demo_sig 5; demo_sig 7] (sha256ripemd160 (multisig_bytes 2 demo_keys)) None (demo_tx [1] [3]) 0
    SCRIPT_VERIFY_P2SH) as (redeem & rb & ss & ok & Hr & Hrb & Hss & Hv & Hok).
  - split; by vm_compute.
  - by vm_compute.
  - apply demo_keys_ok.
  - repeat (apply Forall_cons_2; [apply demo_sig_ok|]). apply Forall_nil_2.
  - reflexivity.
  - reflexivity.
  - reflexivity.
  - reflexivity.
  - exists redeem, ss. split; [exact Hr|]. split; [exact Hss|]. rewrite Hv. f_equal. apply Hok.
    vm_compute in Hr. injection Hr as <-. vm_compute in Hrb. injection Hrb as <-. split; [vm_compute; reflexivity|].
    exists [2 :: repeat 5 32; 2 :: repeat 7 32]. split; [apply demo_sublist|].
    constructor; [vm_compute; reflexivity|]. constructor; [vm_compute; reflexivity|constructor].
Defined.
End MultisigWitnesses.
