(* ===== verification/AddressSpend.v ===== *)
(** * Addresses and the interpreter

    From the text of an address to the coins: the text is read back, the output script built from the
    address is run by the interpreter of [Interpreter.v] against the input scripts bitcore builds, and
    the outcome says who can spend what was paid to the text. *)
From S2P Require Import Prelude JsNumber JsValue Encoding Signature ScriptNum Script Base58 Keys KeysSpec Transaction Interpreter InterpreterSpec Spending Multisig.
From Stdlib Require Import Ascii String.
Local Open Scope Z_scope.
Local Open Scope js_scope.

Module AddressSpendLemmas.
Import Networks AddressText TextLemmas Interpreter SigningLemmas SpendingLemmas MultisigLemmas ScriptLemmas.
Section WithCrypto.
Context `{CryptoLaws} `{Ecdsa} `{Hashes}.

(** The input script of a key, as bitcore builds it *)
Lemma spend_p2pkh_built der ty pub : is_der der -> defined_type ty -> compressed_key pub ->
  Script.buildPublicKeyHashIn pub der (Some ty) = Ok (spend_p2pkh (der ++ [ty]) pub).
Proof.
  intros Hder Hty (_ & Hlen & _). pose proof (sig_size der ty Hder) as Hs. destruct Hty as [Hty Hland]. unfold Script.buildPublicKeyHashIn.
  assert (match ty with 0 => 1 | _ => ty end = ty) as -> by (destruct ty; [by destruct Hland as [[] _]|done|lia]). rewrite Z.mod_small by lia.
  unfold Script.adds, Script.add, Script.addByType, Script.addBuffer. unfold Opcode.OP_PUSHDATA1.
  rewrite !(proj2 (Z.leb_le 0 _)), !(proj2 (Z.ltb_lt _ 76)) by lia. done.
Qed.

Lemma key_address pub net : let a := mkAddress (sha256ripemd160 pub) net PayToPublicKeyHash in
  fromPublicKey pub (Some (Obj net)) = Ok a /\ AddressText.fromString (AddressText.toString a) None None = Ok a
  /\ Script.fromAddress a = Ok (p2pkh_script (sha256ripemd160 pub) (Some net)).
Proof.
  destruct (pays_hash (sha256ripemd160 pub) net PayToPublicKeyHash (hash160_length _) (hash160_ok _)) as (Hn & Hf & _).
  split; [exact Hn|]. split; [exact Hf|]. apply (Script.p2pkh_chunks (mkAddress (sha256ripemd160 pub) net PayToPublicKeyHash)), hash160_length.
Qed.

Lemma script_address script b net : Script.toBuffer script = Ok b -> let a := mkAddress (sha256ripemd160 b) net PayToScriptHash in
  payingTo script (Some (Obj net)) = Ok a /\ AddressText.fromString (AddressText.toString a) None None = Ok a
  /\ Script.fromAddress a = Ok (p2sh_script (sha256ripemd160 b) (Some net)).
Proof.
  intros Hb. destruct (pays_hash (sha256ripemd160 b) net PayToScriptHash (hash160_length _) (hash160_ok _)) as (Hn & Hf & _).
  split; [unfold payingTo, fromScriptHash, transformHash; rewrite Hb; cbn [mbind result_bind]; rewrite hash160_length; exact Hn|].
  split; [exact Hf|]. by apply (Script.p2sh_chunks (mkAddress (sha256ripemd160 b) net PayToScriptHash)); [apply hash160_length|].
Qed.
End WithCrypto.
End AddressSpendLemmas.

Section AddressSpendTheorems.
Import Networks AddressText Interpreter SigningLemmas SpendingLemmas MultisigLemmas ScriptLemmas AddressSpendLemmas.
Context `{CryptoLaws} `{Ecdsa} `{Hashes}.

(** C37: who pays to the text of an address pays its key or its script.  The address of a public key is
    read back from its text, and the output script made from it lets through the input script bitcore
    builds for a signature and this key exactly when the signature is one of the transaction under the
    key, and never one for a key with another hash.  The address of a multisig script is read back too,
    and the output script made from it lets through the input script bitcore builds for as many
    signatures as it asks for exactly when they are signatures under keys of the script, in order.  The flags
    are those of the channel's checks: pay-to-script-hash, and no rule on low s, whose test is broken (see
    [low_s_limit_misread]); a signature that is the hash of the key itself is set aside. *)
Theorem text_pays net x n fl : has fl SCRIPT_VERIFY_P2SH = true -> has fl SCRIPT_VERIFY_LOW_S = false ->
  (forall pub der ty, compressed_key pub -> is_der der -> defined_type ty -> der ++ [ty] <> sha256ripemd160 pub ->
    exists a s, fromPublicKey pub (Some (Obj net)) = Ok a /\ AddressText.fromString (AddressText.toString a) None None = Ok a
    /\ Script.fromAddress a = Ok s
    /\ (exists ss, Script.buildPublicKeyHashIn pub der (Some ty) = Ok ss
        /\ verify_script ss s x n fl = Ok (match Sighash.verify x der ty pub n (Script.mk (Script.chunks s) None) with Ok b => b | Throw _ => false end))
    /\ (forall pub', compressed_key pub' -> sha256ripemd160 pub' <> sha256ripemd160 pub ->
        exists ss, Script.buildPublicKeyHashIn pub' der (Some ty) = Ok ss /\ verify_script ss s x n fl = Ok false))
  /\ (forall ks m sigs, 1 <= m <= zlen ks -> zlen ks <= 15 -> Forall compressed_key ks -> Forall good_sig sigs -> zlen sigs = m ->
    exists redeem a s ss ok, Script.buildMultisigOut ks m true = Ok redeem
    /\ payingTo redeem (Some (Obj net)) = Ok a /\ AddressText.fromString (AddressText.toString a) None None = Ok a
    /\ Script.fromAddress a = Ok s /\ Script.buildP2SHMultisigIn ks m (raw <$> sigs) (Some redeem) true = Ok ss
    /\ verify_script ss s x n fl = Ok ok
    /\ (ok = true <-> exists ks', ks' `sublist_of` ks /\ Forall2 (fun s k => Sighash.verify x (fst s) (snd s) k n redeem = Ok true) sigs ks')).
Proof.
  intros Hp Hlow. split.
  - intros pub der ty Hpub Hder Hty Hne. destruct (key_address pub net) as (Ha & Hf & Hs). eexists _, _. split; [exact Ha|]. split; [exact Hf|].
    split; [exact Hs|]. split.
    + eexists. split; [by apply spend_p2pkh_built|]. rewrite verify_p2pkh by (done || apply hash160_length). by rewrite bool_decide_true.
    + intros pub' Hpub' Hdiff. eexists. split; [by apply spend_p2pkh_built|]. rewrite verify_p2pkh by (done || apply hash160_length). by rewrite bool_decide_false.
  - intros ks m sigs Hm Hn Hks Hsigs Hc. destruct (redeem_prints m ks Hm Hn Hks) as [Hrb _].
    destruct (script_address (multisig_redeem m ks) _ net Hrb) as (Ha & Hf & Hs).
    exists (multisig_redeem m ks). eexists _, _, (spend_multisig sigs (multisig_bytes m ks)), _.
    split; [by apply multisig_script; [by apply keys_size| |lia]|]. split; [exact Ha|]. split; [exact Hf|]. split; [exact Hs|].
    split; [by apply spend_multisig_built|]. split; [by apply verify_multisig; [..|apply hash160_length|]|].
    rewrite bool_decide_true, andb_true_l by done. unfold decision. rewrite matchable_rev.
    split; intros (ks' & Hks' & Hf'); exists ks'; (split; [done|]); (eapply Forall2_impl; [exact Hf'|]); intros s k; apply signs_true.
Qed.
End AddressSpendTheorems.

(** ** Witnesses *)
Section AddressSpendWitnesses.
Import Networks AddressText Interpreter SigningLemmas SpendingLemmas MultisigLemmas.
#[local] Existing Instance demo_crypto.
#[local] Existing Instance demo_laws.
#[local] Existing Instance der_ecdsa.
#[local] Existing Instance demo_hashes.

(** A payment to a key's address, spent by this key and not by another *)
Definition key_spent : list Z := 2 :: repeat 5 32.
Definition key_sighash : list Z :=
  match Sighash.sighash (demo_tx [1] [3]) 1 0 (p2pkh_script (sha256ripemd160 key_spent) None) with Ok h => h | Throw _ => [] end.
Definition key_sig : list Z := der_of (checksum (5 :: key_sighash)).

Lemma text_pays_witness :
  (exists a s ss, fromPublicKey key_spent (Some (Obj testnet)) = Ok a /\ AddressText.fromString (AddressText.toString a) None None = Ok a
    /\ Script.fromAddress a = Ok s /\ Script.buildPublicKeyHashIn key_spent key_sig (Some 1) = Ok ss
    /\ verify_script ss s (demo_tx [1] [3]) 0 SCRIPT_VERIFY_P2SH = Ok true)
  /\ exists redeem a s ss, Script.buildMultisigOut demo_keys 2 true = Ok redeem /\ payingTo redeem (Some (Obj testnet)) = Ok a
    /\ AddressText.fromString (AddressText.toString a) None None = Ok a /\ Script.fromAddress a = Ok s
    /\ Script.buildP2SHMultisigIn demo_keys 2 (raw <$> [demo_sig 5; demo_sig 7]) (Some redeem) true = Ok ss
    /\ verify_script ss s (demo_tx [1] [3]) 0 SCRIPT_VERIFY_P2SH = Ok true.
Proof.
  destruct (text_pays testnet (demo_tx [1] [3]) 0 SCRIPT_VERIFY_P2SH eq_refl eq_refl) as [Hkey Hmulti]. split.
  - destruct (Hkey key_spent key_sig 1) as (a & s & Ha & Hf & Hs & (ss & Hss & Hv) & _).
    + split; [eexists 2, _; split; [reflexivity|by left]|done].
    + apply der_of_der.
    + split; [lia|]. change (1 <= 1 <= 3). lia.
    + by vm_compute.
    + exists a, s, ss. do 4 (split; [assumption|]). rewrite Hv. f_equal. vm_compute in Ha. injection Ha as <-. vm_compute in Hs. injection Hs as <-.
      vm_compute. reflexivity.
  - destruct (Hmulti demo_keys 2 [demo_sig 5; demo_sig 7]) as (redeem & a & s & ss & ok & Hr & Ha & Hf & Hs & Hss & Hv & Hok).
    + split; by vm_compute.
    + by vm_compute.
    + apply demo_keys_ok.
    + repeat (apply Forall_cons_2; [apply demo_sig_ok|]). apply Forall_nil_2.
    + reflexivity.
    + exists redeem, a, s, ss. do 5 (split; [assumption|]). rewrite Hv. f_equal. apply Hok. vm_compute in Hr. injection Hr as <-.
      exists [2 :: repeat 5 32; 2 :: repeat 7 32]. split; [apply demo_sublist|].
      constructor; [vm_compute; reflexivity|]. constructor; [vm_compute; reflexivity|constructor].
Defined.
End AddressSpendWitnesses.
