(* ===== verification/Channel.v ===== *)
(** * bitcore-channel: the transactions of a payment channel

    Models [src/Sources/WebClient/js/bitcore-channel.js]: [Commitment] (TX 1, the funds locked in
    a 2-of-2 script), [Refund] (TX 2, returning them after a day), [Payment] (TX 3, the client's
    change shrinking as it pays), the client's [Consumer] that drives the three, and the server's
    [Provider].

    Signatures are checked by the interpreter of [Interpreter.v]; the clock is an argument in
    milliseconds. *)
From S2P Require Import Prelude JsNumber JsValue Unit Encoding Script Base58 Keys Transaction TxObject Interpreter.
Local Open Scope Z_scope.
Local Open Scope js_scope.

(** The flags the channel verifies with *)
Definition channel_flags : Z :=
  Z.lor (Z.lor (Z.lor Interpreter.SCRIPT_VERIFY_P2SH Interpreter.SCRIPT_VERIFY_STRICTENC) Interpreter.SCRIPT_VERIFY_MINIMALDATA)
        Interpreter.SCRIPT_VERIFY_SIGPUSHONLY.

(** Run code on one field of a larger state. *)
Definition zoom {S T A} (get : S -> T) (put : T -> S -> S) (m : js T A) : js S A := fun s =>
  let '(r, t) := m (get s) in (r, put t s).

Definition HOURS_IN_DAY := 24.
Definition MINUTES_IN_HOUR := 60.
Definition SECONDS_IN_MINUTE := 60.
Definition ONE_DAY := SECONDS_IN_MINUTE * MINUTES_IN_HOUR * HOURS_IN_DAY.

(** [Math.round(new Date().getTime() / 1000) + ONE_DAY] *)
Definition in_one_day (now_ms : Z) : Z :=
  num_trunc (num_add (Math_round (num_div (num_of_Z now_ms) (num_of_Z 1000))) (num_of_Z ONE_DAY)).

(** ** Commitment *)
Module Commitment.

Record t := mk {
  tx : Transaction.t;
  network_ : network;
  publicKeys : list (list Z);
  outscript : Script.t;
  address : Address;
}.
#[global] Instance eta_commitment : Eta t := fun c => mk (tx c) (network_ c) (publicKeys c) (outscript c) (address c).

Section WithCrypto.
Context `{Crypto}.

(** [new Commitment({publicKeys, network})] *)
Definition new (publicKeys : list (list Z)) (net : network) : result t :=
  guard_or InvalidArgument (zlen publicKeys =? 2);;
  redeem ← Script.buildMultisigOut publicKeys 2 true;
  outscript ← Script.buildScriptHashOut redeem;
  address ← Script.toAddress None outscript;
  match address with
  | None => Throw InvalidArgument
  | Some address =>
      match Transaction.change address Transaction.new with
      | (Ok _, x) => Ok (mk x net publicKeys outscript address)
      | (Throw e, _) => Throw e
      end
  end.
End WithCrypto.

(** The [amount] getter. *)
Definition amount : js t number := zoom tx (fun x c => c <| tx := x |>) Transaction.getInputAmount.
Definition getFee : js t number := zoom tx (fun x c => c <| tx := x |>) Transaction.getFee.

(** [toObject()]: the transaction, the keys in hexadecimal and the name of the network *)
Definition toObject (c : t) : result (TxObject.object * list string * string) :=
  transaction ← TxObject.toObject (tx c);
  Ok (transaction, map Hex.hexSlice (publicKeys c), Networks.name (network_ c)).

Definition getAddress (c : t) : Address := address c.

End Commitment.

(** ** Payment *)
Module Payment.

Record t := mk {
  tx : Transaction.t;
  paymentAddress : Address;
  changeAddress : Address;
  multisigOut : UnspentOutput;
  publicKeys : list (list Z);
  amount : number;
  sequence : Z;
  paid : number;
  (** the property [sequence] that [_updateTransaction] sets on [inputs[0]] *)
  input_sequence : option Z;
}.
#[global] Instance eta_payment : Eta t := fun p =>
  mk (tx p) (paymentAddress p) (changeAddress p) (multisigOut p) (publicKeys p) (amount p) (sequence p) (paid p)
     (input_sequence p).

Section WithCrypto.
Context `{Crypto} `{Ecdsa}.

(** [new Payment({multisigOut, paymentAddress, changeAddress, publicKeys})] *)
Definition new (multisigOut : UnspentOutput) (paymentAddress changeAddress : Address) (publicKeys : list (list Z))
    : result t :=
  u ← newUnspentOutput multisigOut;
  match Signing.from_multisig u publicKeys 2 Transaction.new with
  | (Ok _, x) =>
      match Transaction.getInputAmount x with
      | (Ok amount, x) => Ok (mk x paymentAddress changeAddress u publicKeys amount 0 (num_of_Z 0) None)
      | (Throw e, _) => Throw e
      end
  | (Throw e, _) => Throw e
  end.

(** [_updateTransaction].  The assignment to [inputs[0].sequence] creates a property that
    nothing reads: the serialized field is [sequenceNumber]. *)
Definition updateTransaction : js t unit :=
  js_modify (fun p => p <| tx ::= (fun x => x <| Transaction.outputs := [] |>) |>);;
  p ← js_get;
  let refund := num_sub (amount p) (paid p) in
  (if negb (num_eq refund (num_of_Z 0)) then
     s ← js_lift (Script.fromAddress (changeAddress p));
     o ← js_lift (Output.new refund s);
     zoom tx (fun x p => p <| tx := x |>) (Transaction.addOutput_ o)
   else mret tt);;
  match Transaction.inputs (tx p) with
  | [] => js_throw TypeError
  | _ :: _ => js_modify (fun p => p <| input_sequence := Some (sequence p) |>)
  end.

Definition updateValue (delta : number) : js t unit :=
  js_modify (fun p => p <| paid ::= (fun n => num_add n delta) |> <| sequence ::= Z.succ |>);;
  updateTransaction.

Definition sign (key : PrivateKey) (sigtype : option Z) : js t unit :=
  zoom tx (fun x p => p <| tx := x |>) (Signing.sign key sigtype).

(** [toObject()] *)
Record object := mkObject {
  po_publicKeys : list string; po_multisigOut : TxObject.utxo_object; po_amount : number; po_sequence : Z;
  po_paymentAddress : string; po_changeAddress : string; po_transaction : TxObject.object;
}.

Definition toObject (p : t) : result object :=
  out ← TxObject.utxo_toObject (multisigOut p);
  transaction ← TxObject.toObject (tx p);
  Ok (mkObject (map Hex.hexSlice (publicKeys p)) out (amount p) (sequence p) (AddressText.toString (paymentAddress p))
        (AddressText.toString (changeAddress p)) transaction).

End WithCrypto.
End Payment.

(** ** Consumer *)
Module Consumer.
Section WithCrypto.
Context `{Crypto} `{Ecdsa} `{Hashes}.

Record t := mk {
  network_ : network;
  expires : Z;
  commitmentKey : PrivateKey;
  providerPublicKey : list Z;
  providerAddress : Address;
  fundingKey : PrivateKey;
  fundingAddress : Address;
  refundAddress : Address;
  commitmentTx : Commitment.t;
  refundTx : option Transaction.t;
  paymentTx : option Payment.t;
}.
#[local] Instance eta_consumer : Eta t := fun c =>
  mk (network_ c) (expires c) (commitmentKey c) (providerPublicKey c) (providerAddress c) (fundingKey c)
     (fundingAddress c) (refundAddress c) (commitmentTx c) (refundTx c) (paymentTx c).

(** The options of the constructor; the client sets all of them. *)
Record opts := mkOpts {
  opt_network : network;
  opt_expires : option Z;
  opt_commitmentKey : PrivateKey;
  opt_providerPublicKey : list Z;
  (** the network recorded in the provider's public key, if any *)
  opt_providerNetwork : option network;
  opt_providerAddress : option Address;
  opt_fundingKey : PrivateKey;
  (** the network recorded in the funding key *)
  opt_fundingNetwork : network;
  (** the refund address, or the key made when there is none *)
  opt_refundAddress : option Address;
  opt_refundKey : PrivateKey;
}.

(** [publicKey.toAddress(network)] *)
Definition key_address (pub : list Z) (net : network) : Address :=
  mkAddress (sha256ripemd160 pub) net PayToPublicKeyHash.

(** [new Consumer(opts)] *)
Definition new (now_ms : Z) (o : opts) : result t :=
  commitmentTx ← Commitment.new [toPublicKey (opt_commitmentKey o); opt_providerPublicKey o] (opt_network o);
  Ok (mk (opt_network o)
         (match opt_expires o with Some e => e | None => in_one_day now_ms end)
         (opt_commitmentKey o) (opt_providerPublicKey o)
         (match opt_providerAddress o with
          | Some a => a
          | None => key_address (opt_providerPublicKey o)
                      (match opt_providerNetwork o with Some n => n | None => defaultNetwork end)
          end)
         (opt_fundingKey o) (key_address (toPublicKey (opt_fundingKey o)) (opt_fundingNetwork o))
         (match opt_refundAddress o with Some a => a | None => key_address (toPublicKey (opt_refundKey o)) (opt_network o) end)
         commitmentTx None None).

(** Code that runs on the commitment transaction object. *)
Definition on_commitment {A} (m : js Transaction.t A) : js t A :=
  zoom (fun c => Commitment.tx (commitmentTx c))
       (fun x c => c <| commitmentTx ::= (fun k => Commitment.mk x (Commitment.network_ k) (Commitment.publicKeys k)
                                                      (Commitment.outscript k) (Commitment.address k)) |>) m.

(** The body of [processFunding], on the commitment transaction: the outputs are dropped
    without resetting the cached output amount, and one output to the 2-of-2 script added. *)
Definition fund (outscript : Script.t) (utxo : UnspentOutput) : js Transaction.t unit :=
  Transaction.from utxo;;
  js_modify (fun x => x <| Transaction.outputs := [] |>);;
  inputAmount ← Transaction.getInputAmount;
  fee ← Transaction.getFee;
  o ← js_lift (Output.new (num_sub inputAmount fee) outscript);
  Transaction.addOutput o.

Definition processFunding (utxo : UnspentOutput) : js t unit :=
  c ← js_get;
  on_commitment (fund (Commitment.outscript (commitmentTx c)) utxo).

(** [amount - getFee()] of the commitment, as the refund and its validation compute it. *)
Definition commitment_value : js t number :=
  amount ← on_commitment Transaction.getInputAmount;
  fee ← on_commitment Transaction.getFee;
  mret (num_sub amount fee).

(** The [multisigOut] object: the first output of the commitment, with the amount given. *)
Definition multisigOut (c : t) (amount : number) : result UnspentOutput :=
  id ← Signing.id_ (Commitment.tx (commitmentTx c));
  match Transaction.outputs (Commitment.tx (commitmentTx c)) with
  | [] => Throw TypeError
  | o :: _ => s ← Output.script o; Ok (mkUnspent id 0 s amount)
  end.

(** [new Refund().from(multisigOut, publicKeys, 2)], paid in full to the refund address,
    sequence number 0, locked for a day. *)
Definition build_refund (now_ms : Z) (u : UnspentOutput) (pubkeys : list (list Z)) (refundAddress : Address)
    : js Transaction.t unit :=
  Signing.from_multisig u pubkeys 2;;
  inputAmount ← Transaction.getInputAmount;
  Transaction.to_ refundAddress inputAmount;;
  x ← js_get;
  match Transaction.inputs x with
  | [] => js_throw TypeError
  | i :: rest =>
      js_modify (fun x => x <| Transaction.inputs := (i <| Input.sequenceNumber := 0 |>) :: rest |>
                            <| Transaction.nLockTime := in_one_day now_ms |>)
  end.

(** [setupRefund] *)
Definition setupRefund (now_ms : Z) : js t Transaction.t :=
  c ← js_get;
  on_commitment (Signing.sign (fundingKey c) None);;
  c ← js_get;
  ok ← js_lift (Signing.isFullySigned (Commitment.tx (commitmentTx c)));
  js_lift (guard_or InvalidState ok);;
  amount ← commitment_value;
  c ← js_get;
  u ← js_lift (multisigOut c amount);
  match build_refund now_ms u (Commitment.publicKeys (commitmentTx c)) (refundAddress c) Transaction.new with
  | (Ok _, x) => js_modify (fun c => c <| refundTx := Some x |>);; mret x
  | (Throw e, x) => js_modify (fun c => c <| refundTx := Some x |>);; js_throw e
  end.

(** [new Address(script, network)]: a script without an address throws. *)
Definition script_address (s : Script.t) (net : network) : result Address :=
  addr ← Script.toAddress (Some net) s;
  match addr with Some a => Ok a | None => Throw (BitcoreError "Script.CantDeriveAddress") end.

(** [validateRefund(refund, providerSignature)]: runs on the consumer and on [refund], which is
    signed in place. *)
Definition on_consumer {A} (m : js t A) : js (t * Transaction.t) A := zoom fst (fun c s => (c, snd s)) m.

Definition validateRefund : js (t * Transaction.t) unit :=
  c ← js_gets fst;
  zoom snd (fun x s => (fst s, x)) (Signing.sign (commitmentKey c) None);;
  refund ← js_gets snd;
  match Transaction.outputs refund with
  | [] => js_throw TypeError
  | out :: _ =>
      sc ← js_lift (Output.script out);
      addr ← js_lift (script_address sc (network_ c));
      js_lift (guard_or InvalidState (bool_decide (addr = refundAddress c)));;
      let amount := Output.satoshis out in
      value ← on_consumer commitment_value;
      js_lift (guard_or InvalidState (num_eq amount value));;
      js_lift (guard_or InvalidState (bool_decide (length (Transaction.outputs refund) = 1%nat)));;
      full ← js_lift (Signing.isFullySigned refund);
      js_lift (guard_or InvalidState full);;
      match Transaction.inputs refund with
      | [] => js_throw TypeError
      | inp :: _ =>
          scriptSig ← js_lift (Input.script inp);
          prev ← js_lift (match Input.output inp with Some o => Output.script o | None => Throw TypeError end);
          valid ← js_lift (Interpreter.verify_script scriptSig prev refund 0 channel_flags);
          js_lift (guard_or InvalidState valid);;
          on_consumer (js_modify (fun c => c <| refundTx := Some refund |>));;
          c ← js_gets fst;
          u ← js_lift (multisigOut c amount);
          p ← js_lift (Payment.new u (providerAddress c) (refundAddress c) (Commitment.publicKeys (commitmentTx c)));
          on_consumer (js_modify (fun c => c <| paymentTx := Some p |>))
      end
  end.

(** [incrementPaymentBy(satoshis, sigtype)]: what it returns is the object of the payment. *)
Definition incrementPaymentBy (satoshis : number) (sigtype : Z) : js t Payment.object :=
  c ← js_get;
  match paymentTx c with
  | None => js_throw TypeError
  | Some p =>
      let '(r, p) := (Payment.updateValue satoshis;; Payment.sign (commitmentKey c) (Some sigtype)) p in
      js_modify (fun c => c <| paymentTx := Some p |>);;
      js_lift r;;
      js_lift (Payment.toObject p)
  end.

Definition getPaymentTx (c : t) : option Payment.t := paymentTx c.

End WithCrypto.
End Consumer.

(** ** Provider *)
Module Provider.
Section WithCrypto.
Context `{Crypto} `{Ecdsa} `{Hashes}.

Record t := mk {
  network_ : network;
  paymentAddress : Address;
  currentAmount : number;
  key : PrivateKey;
  refund : option Transaction.t;
  paymentTx : option Transaction.t;
}.
#[local] Instance eta_provider : Eta t := fun p =>
  mk (network_ p) (paymentAddress p) (currentAmount p) (key p) (refund p) (paymentTx p).

Definition getPublicKey (p : t) : list Z := toPublicKey (key p).

(** [signRefund], on the received transaction *)
Definition signRefund (received : Transaction.t) : js t Transaction.t :=
  p ← js_get;
  let '(r, signed) := Signing.sign (key p) None received in
  js_lift r;;
  js_modify (fun p => p <| refund := Some signed |>);; mret signed.

(** The amount of the last output that pays the server. *)
Fixpoint paid_to (net : network) (a : Address) (os : list Output.t) (acc : option number) : result (option number) :=
  match os with
  | [] => Ok acc
  | o :: os =>
      s ← Output.script o;
      addr ← Script.toAddress (Some net) s;
      paid_to net a os (if bool_decide (addr = Some a) then Some (Output.satoshis o) else acc)
  end.

(** [validPayment], on the received transaction *)
Definition validPayment (received : Transaction.t) : js t Transaction.t :=
  p ← js_get;
  let '(r, payment) := Signing.sign (key p) None received in
  js_lift r;;
  newAmount ← js_lift (paid_to (network_ p) (paymentAddress p) (Transaction.outputs payment) None);
  match newAmount with
  | None => js_throw InvalidState
  | Some newAmount =>
      match Transaction.inputs payment with
      | [] => js_throw TypeError
      | inp :: _ =>
          scriptSig ← js_lift (Input.script inp);
          prev ← js_lift (match Input.output inp with Some o => Output.script o | None => Throw TypeError end);
          valid ← js_lift (Interpreter.verify_script scriptSig prev payment 0 channel_flags);
          js_lift (guard_or InvalidState valid);;
          js_lift (guard_or InvalidState (num_gt newAmount (currentAmount p)));;
          js_modify (fun p => p <| paymentTx := Some payment |> <| currentAmount := newAmount |>);;
          mret payment
      end
  end.

End WithCrypto.
End Provider.
