(* ===== verification/ChannelSpec.v ===== *)
(** * bitcore-channel: what the channel transactions guarantee

    The commitment locks all funds less the fee in the 2-of-2 script whatever the number of
    funding outputs; the refund pays it back; a payment moves value from the client's change.
    The definitions are those of [Channel]. *)
From S2P Require Import Prelude JsNumber Encoding Script Transaction Interpreter Spending Multisig Channel.
Local Open Scope Z_scope.
Local Open Scope js_scope.

(** ** Lemmas: funding the commitment *)
Module FundingLemmas.
Import Transaction WireFormat SigningLemmas AmountLemmas.
Section Funding.
Context `{CryptoLaws} `{Ecdsa}.

(** The change script the commitment was created with, its bytes, and the 2-of-2 script. *)
Context (cs : Script.t) (csb : list Z) (outscript : Script.t).
Hypothesis Hcsb : Script.toBuffer cs = Ok csb.
Hypothesis Hout : Script.toBuffer outscript = Ok csb.

(** What [ins] satoshis of funding leave in the channel. *)
Definition channel_value (ins : list Z) : Z := sum ins - fee_for (26 + 107 * zlen ins) (sum ins).

(** The commitment transaction after the funding outputs [ins] were processed. *)
Record committed (x : Transaction.t) (ins : list Z) : Prop := {
  com_change : _changeScript x = Some cs;
  com_fee : _fee x = None;
  com_kind : Forall is_p2pkh (inputs x);
  com_funded : Forall2 funded (inputs x) ins;
  com_in : cached (_inputAmount x) (sum ins);
  com_out : (ins = [] /\ outputs x = [] /\ _changeIndex x = None /\ cached (_outputAmount x) 0)
            \/ (outputs x = [output_of (channel_value ins) cs csb] /\ _changeIndex x = Some 0%nat
                /\ cached (_outputAmount x) (channel_value ins));
}.

(** An output the client can fund the channel with: more than the fee, and spendable by a key. *)
Record fundable (u : UnspentOutput) (z : Z) : Prop := {
  fun_id : zlen (txId u) = 32;
  fun_script : exists h net, zlen h = 20 /\ bytes_ok h /\ utxo_script u = p2pkh_script h net;
  fun_amount : utxo_satoshis u = num_of_Z z;
  fun_enough : 1000 < z;
}.

Definition funding_input (u : UnspentOutput) (h : list Z) (z : Z) : Input.t :=
  Input.mk (Some (output_of z (p2pkh_script h None) (118 :: 169 :: 20 :: h ++ [136; 172]))) (txId u) (utxo_outputIndex u)
    Input.DEFAULT_SEQNUMBER [] (Some Script.empty) Input.PublicKeyHash.

(** The input made from an output *)
Definition made (uz : UnspentOutput * Z) (i : Input.t) : Prop :=
  exists h net, utxo_script (fst uz) = p2pkh_script h net /\ i = funding_input (fst uz) h (snd uz).

Lemma made_cleared uzs is_ : Forall2 made uzs is_ -> cleared <$> is_ = is_.
Proof. induction 1 as [|uz i uzs is_ (h & net & _ & ->) _ IH]; [done|]. by rewrite fmap_cons, IH. Qed.

Lemma fee_for_inputs k a : 1 <= k < 2 ^ 30 -> 1000 * k < a -> 0 < fee_for (26 + 107 * k) a <= 1000 * k.
Proof.
  intros Hk Ha. unfold fee_for, cdiv. destruct (Z.ltb_spec (- (- (26 + 107 * k) / 1000)) a); zlia.
Qed.

Lemma sum_enough ins : Forall (fun z => 1000 < z) ins -> 1000 * zlen ins <= sum ins.
Proof.
  induction 1 as [|z ins Hz _ IH]; [done|]. rewrite zlen_cons. change (sum (z :: ins)) with (z + sum ins). lia.
Qed.

Lemma channel_value_pos ins : Forall (fun z => 1000 < z) ins -> ins <> [] -> zlen ins < 2 ^ 30 -> 0 < channel_value ins.
Proof.
  intros Hen Hne Hlen. destruct Hen as [|z ins Hz Hen]; [done|]. unfold channel_value.
  pose proof (sum_enough ins Hen). rewrite zlen_cons in *. change (sum (z :: ins)) with (z + sum ins).
  pose proof (zlen_nonneg ins). pose proof (fee_for_inputs (1 + zlen ins) (z + sum ins) ltac:(lia) ltac:(lia)). lia.
Qed.

Lemma committed_without_change x ins : committed x ins ->
  outputs (without_change x) = [] /\ cached (_outputAmount (without_change x)) 0
  /\ inputs (without_change x) = inputs x /\ _inputAmount (without_change x) = _inputAmount x.
Proof.
  intros Hx. destruct (com_out _ _ Hx) as [(_ & Ho & Hc & Hca)|(Ho & Hc & _)]; unfold without_change; rewrite Hc.
  - done.
  - unfold upd. cbn. rewrite Ho. repeat split; try done. by left.
Qed.

(** Dropping the change output touches the outputs only. *)
Lemma without_change_some x i : _changeIndex x = Some i ->
  outputs (without_change x) = delete i (outputs x) /\ _outputAmount (without_change x) = None
  /\ inputs (without_change x) = inputs x.
Proof. unfold without_change. by intros ->. Qed.

Lemma without_change_frame x :
  inputs (without_change x) = inputs x /\ _inputAmount (without_change x) = _inputAmount x
  /\ _changeScript (without_change x) = _changeScript x /\ _fee (without_change x) = _fee x
  /\ version (without_change x) = version x /\ nLockTime (without_change x) = nLockTime x.
Proof. unfold without_change. by destruct (_changeIndex x). Qed.

(** The change output added to a transaction without outputs. *)
Lemma change_result_frame x c cb a o change : 0 < change -> outputs (without_change x) = [] ->
  let y := change_result x c cb a o change in
  outputs y = [output_of change c cb] /\ _changeIndex y = Some 0%nat /\ _outputAmount y = None
  /\ inputs y = cleared <$> inputs x /\ _inputAmount y = Some (num_of_Z a)
  /\ _changeScript y = _changeScript x /\ _fee y = _fee x /\ version y = version x /\ nLockTime y = nLockTime x.
Proof.
  intros Hc Ho. destruct (without_change_frame x) as (Hi & Ha & Hs & Hf & Hv & Hl).
  unfold change_result. rewrite (proj2 (Z.ltb_lt 0 _) Hc). rewrite <-Hi, <-Hs, <-Hf, <-Hv, <-Hl.
  split; [|split; [|done]].
  - change (outputs (without_change x) ++ [output_of change c cb] = [output_of change c cb]). by rewrite Ho.
  - change (Some (length (outputs (without_change x))) = Some 0%nat). by rewrite Ho.
Qed.

Lemma no_change_frame x c cb a o change : change <= 0 ->
  let y := change_result x c cb a o change in
  outputs y = outputs (without_change x) /\ _changeIndex y = None /\ _outputAmount y = Some (num_of_Z o)
  /\ inputs y = cleared <$> inputs x /\ _inputAmount y = Some (num_of_Z a)
  /\ _changeScript y = _changeScript x /\ _fee y = _fee x /\ version y = version x /\ nLockTime y = nLockTime x.
Proof.
  intros Hc. destruct (without_change_frame x) as (Hi & Ha & Hs & Hf & Hv & Hl).
  unfold change_result. rewrite (proj2 (Z.ltb_ge 0 _) Hc). rewrite <-Hi, <-Hs, <-Hf, <-Hv, <-Hl. done.
Qed.

(** Any update of the change output leads to a committed state. *)
Lemma update_commits x ins : _changeScript x = Some cs -> _fee x = None -> Forall is_p2pkh (inputs x) ->
  Forall2 funded (inputs x) ins -> cached (_inputAmount x) (sum ins) ->
  outputs (without_change x) = [] -> cached (_outputAmount (without_change x)) 0 ->
  Forall (fun z => 1000 < z) ins -> ins <> [] -> sum ins < 2 ^ 51 -> zlen ins < 2 ^ 30 ->
  exists y, updateChangeOutput x = (Ok tt, y) /\ committed y ins /\ _outputAmount y = None
    /\ inputs y = cleared <$> inputs x /\ version y = version x /\ nLockTime y = nLockTime x.
Proof.
  intros Hcs Hfee Hk Hf Hci Hoe Hco Hen Hne Hsum Hlen.
  assert (zlen (inputs x) = zlen ins) as Hzl by (unfold zlen; by rewrite (Forall2_length _ _ _ Hf)).
  assert (1 <= zlen ins) as Hz1. { destruct ins; [done|]. rewrite zlen_cons. pose proof (zlen_nonneg ins). lia. }
  pose proof (sum_enough ins Hen) as Hse.
  assert (1000 * zlen ins < sum ins) as Hgt.
  { destruct ins as [|z ins]; [done|]. apply Forall_cons in Hen as [Hz Hen]. pose proof (sum_enough ins Hen).
    rewrite zlen_cons. change (sum (z :: ins)) with (z + sum ins). lia. }
  pose proof (fee_for_inputs (zlen ins) (sum ins) ltac:(lia) Hgt) as Hfb.
  destruct (without_change_frame x) as (Hwi & Hwa & _).
  assert (balanced (without_change x) (sum ins) 0) as Hb.
  { exists ins, []. rewrite Hwi, Hwa, Hoe. split_and!; try done. }
  eexists. split.
  { apply (updateChangeOutput_eq x cs csb (sum ins) 0 0); try done; rewrite ?Hoe; try done; lia. }
  rewrite Hzl, !Z.sub_0_r, Z.add_0_r. fold (channel_value ins).
  assert (0 < channel_value ins) as Hpos by (unfold channel_value; lia).
  destruct (change_result_frame x cs csb (sum ins) 0 _ Hpos Hoe) as (Ho & Hx & Hoa & Hi & Ha & Hs & Hf' & Hv & Hl).
  split; [|by repeat split].
  split.
  - by rewrite Hs.
  - by rewrite Hf'.
  - rewrite Hi. apply Forall_fmap. eapply Forall_impl; [exact Hk|]. done.
  - rewrite Hi. apply Forall2_fmap_l. eapply Forall2_impl; [exact Hf|]. intros i z (o & Hio & Hw). by exists o.
  - rewrite Ha. by right.
  - right. split_and!; [done|done|by left].
Qed.

(** The outputs the transaction spends. *)
Definition outpoints (x : Transaction.t) : list (list Z * Z) :=
  (fun i => (Input.prevTxId i, Input.outputIndex i)) <$> inputs x.
Definition outpoint (u : UnspentOutput) : list Z * Z := (txId u, utxo_outputIndex u).

Lemma spends_outpoint x u : outpoint u ∉ outpoints x ->
  existsb (spends (txId u) (utxo_outputIndex u)) (inputs x) = false.
Proof.
  unfold outpoints, outpoint. induction (inputs x) as [|i l IH]; [done|]. rewrite fmap_cons, not_elem_of_cons.
  intros [Hne Hl]. cbn [existsb]. rewrite (IH Hl), orb_false_r. unfold spends.
  case_bool_decide as Hid; [|done]. cbn [andb]. apply Z.eqb_neq. intros Hix. apply Hne. by rewrite Hid, Hix.
Qed.

Lemma from_utxo u z x : fundable u z -> outpoint u ∉ outpoints x ->
  exists h, zlen h = 20 /\ Transaction.from u x = uncheckedAddInput (funding_input u h z) x /\ made (u, z) (funding_input u h z).
Proof.
  intros Hu Hnew. destruct (fun_script _ _ Hu) as (h & net & Hh & Hok & Hs). exists h. split; [done|]. split; [|by exists h, net].
  unfold Transaction.from. rewrite (js_bind_ok js_get _ _ _ _ eq_refl), spends_outpoint by done.
  unfold fromNonP2SH.
  assert (newUnspentOutput u = Ok (mkUnspent (txId u) (utxo_outputIndex u) (p2pkh_script h None) (num_of_Z z))) as Hnu.
  { unfold newUnspentOutput. rewrite (fun_id _ _ Hu), Hs, (fun_amount _ _ Hu). cbn [guard_or mbind result_bind].
    assert (Script_copy (p2pkh_script h net) = Ok (p2pkh_script h None)) as ->; [|done].
    by apply p2pkh_copy. }
  rewrite (js_bind_ok _ _ x _ x (f_equal (fun r => (r, x)) Hnu)). cbn [utxo_satoshis utxo_script txId utxo_outputIndex].
  assert (Output.new (num_of_Z z) (p2pkh_script h None)
          = Ok (output_of z (p2pkh_script h None) (118 :: 169 :: 20 :: h ++ [136; 172]))) as Hno.
  { unfold Output.new, Output.setScript. by rewrite (p2pkh_bytes h None : Script.toBuffer (p2pkh_script h None) = _). }
  rewrite (js_bind_ok _ _ x _ x (f_equal (fun r => (r, x)) Hno)).
  assert (Script.isPublicKeyHashOut (p2pkh_script h None) = true) as ->.
  { unfold Script.isPublicKeyHashOut. cbn. by rewrite Hh. }
  rewrite (js_bind_ok _ _ x (funding_input u h z) x) by done. done.
Qed.

Lemma uncheckedAddInput_eq i x :
  uncheckedAddInput i x = updateChangeOutput (x <| inputs ::= (fun l => l ++ [i]) |> <| _inputAmount := None |>).
Proof. reflexivity. Qed.

Lemma addOutput_eq o x :
  Transaction.addOutput o x = updateChangeOutput (x <| outputs ::= (fun l => l ++ [o]) |> <| _outputAmount := None |>).
Proof. reflexivity. Qed.

(** [from(utxo)]: the new input is counted in, and the change output follows. *)
Lemma from_commits u z x ins : committed x ins -> fundable u z -> outpoint u ∉ outpoints x ->
  Forall (fun z => 1000 < z) ins -> sum (ins ++ [z]) < 2 ^ 51 -> zlen (ins ++ [z]) < 2 ^ 30 ->
  exists y, Transaction.from u x = (Ok tt, y) /\ committed y (ins ++ [z]) /\ _outputAmount y = None
    /\ outpoints y = outpoints x ++ [outpoint u] /\ version y = version x /\ nLockTime y = nLockTime x
    /\ (forall uzs, Forall2 made uzs (inputs x) -> Forall2 made (uzs ++ [(u, z)]) (inputs y)).
Proof.
  intros Hx Hu Hnew Hen Hsum Hlen. destruct (from_utxo u z x Hu Hnew) as (h & Hh & Hfrom & Hmade).
  pose proof (fun_enough _ _ Hu) as Hz. rewrite Hfrom, uncheckedAddInput_eq.
  set (x0 := x <| inputs ::= (fun l => l ++ [funding_input u h z]) |> <| _inputAmount := None |>).
  destruct (committed_without_change _ _ Hx) as (Hwo & Hwc & _).
  assert (outputs (without_change x0) = [] /\ cached (_outputAmount (without_change x0)) 0) as [Hwo0 Hwc0].
  { revert Hwo Hwc. unfold without_change. change (_changeIndex x0) with (_changeIndex x).
    by destruct (_changeIndex x). }
  destruct (update_commits x0 (ins ++ [z])) as (y & Hy & Hc & Hoa & Hin & Hv & Hl); try done.
  { apply (com_change _ _ Hx). } { apply (com_fee _ _ Hx). }
  { unfold x0, upd. cbn. apply Forall_app. split; [apply (com_kind _ _ Hx)|by apply Forall_singleton]. }
  { unfold x0, upd. cbn. apply Forall2_app; [apply (com_funded _ _ Hx)|]. constructor; [|done].
    eexists. split; [done|]. split; [done|lia]. }
  { by left. }
  { apply Forall_app; split; [done|by apply Forall_singleton]. }
  { by destruct ins. }
  exists y. split; [done|]. split; [done|]. split; [done|]. change (inputs x0) with (inputs x ++ [funding_input u h z]) in Hin.
  split; [|split; [by rewrite Hv|split; [by rewrite Hl|]]].
  - unfold outpoints. rewrite Hin, !fmap_app, <-!list_fmap_compose. done.
  - intros uzs Huzs. assert (Forall2 made (uzs ++ [(u, z)]) (inputs x ++ [funding_input u h z])) as Hm
      by (apply Forall2_app; [done|by apply Forall2_cons_2; [|apply Forall2_nil_2]]).
    by rewrite Hin, (made_cleared _ _ Hm).
Qed.

(** The transaction with its outputs dropped. *)
Definition dropped (x : Transaction.t) (total : Z) : Transaction.t :=
  x <| outputs := [] |> <| _inputAmount := Some (num_of_Z total) |>.

Lemma dropped_balanced x ins : committed x ins -> _outputAmount x = None -> sum ins < 2 ^ 51 ->
  balanced (dropped x (sum ins)) (sum ins) 0.
Proof.
  intros Hc Hoa Hs. exists ins, []. unfold dropped, upd. cbn. split_and!; try done; [apply (com_funded _ _ Hc)|by right|].
  rewrite Hoa. by left.
Qed.

Lemma dropped_fee x ins : committed x ins -> _outputAmount x = None -> sum ins < 2 ^ 51 -> zlen ins < 2 ^ 30 ->
  Transaction.getFee (dropped x (sum ins)) =
    (Ok (num_of_Z (fee_for (26 + 107 * zlen ins) (sum ins))), with_caches (sum ins) 0 (dropped x (sum ins))).
Proof.
  intros Hc Hoa Hs Hl. pose proof (zlen_nonneg ins).
  assert (zlen (inputs x) = zlen ins) as Hn by (unfold zlen; by rewrite (Forall2_length _ _ _ (com_funded _ _ Hc))).
  unfold Transaction.getFee. rewrite (js_bind_ok js_get _ _ _ _ eq_refl).
  change (_changeScript (dropped x (sum ins))) with (_changeScript x). change (_fee (dropped x (sum ins))) with (_fee x).
  rewrite (com_change _ _ Hc), (com_fee _ _ Hc).
  rewrite (estimateFee_eq (dropped x (sum ins)) (sum ins) 0 (26 + 107 * zlen ins)); [by rewrite Z.sub_0_r| | |lia].
  - by apply dropped_balanced.
  - rewrite (estimateSize_p2pkh (dropped x (sum ins)) 0); [|apply (com_kind _ _ Hc)|done].
    change (inputs (dropped x (sum ins))) with (inputs x). f_equal. rewrite Hn. lia.
Qed.

(** Processing one funding output. *)
Lemma fund_step u z x ins : committed x ins -> fundable u z -> outpoint u ∉ outpoints x ->
  Forall (fun z => 1000 < z) ins -> sum (ins ++ [z]) < 2 ^ 51 -> zlen (ins ++ [z]) < 2 ^ 30 ->
  exists y, Consumer.fund outscript u x = (Ok tt, y) /\ committed y (ins ++ [z])
    /\ outpoints y = outpoints x ++ [outpoint u] /\ version y = version x /\ nLockTime y = nLockTime x
    /\ (forall uzs, Forall2 made uzs (inputs x) -> Forall2 made (uzs ++ [(u, z)]) (inputs y)).
Proof.
  intros Hx Hu Hnew Hen Hsum Hlen. pose proof (fun_enough _ _ Hu) as Hz.
  destruct (from_commits u z x ins) as (x1 & Hx1 & Hc1 & Hoa1 & Hop1 & Hv1 & Hl1 & Hm1); try done.
  assert (Forall (fun z => 1000 < z) (ins ++ [z])) as Hen' by (apply Forall_app; split; [done|by apply Forall_singleton]).
  assert (ins ++ [z] <> []) as Hne by (by destruct ins). clear Hx Hen. revert Hc1 Hsum Hlen Hen' Hne.
  generalize (ins ++ [z]) as ins'. intros ins' Hc1 Hsum Hlen Hen' Hne.
  pose proof (zlen_nonneg ins') as Hn0. pose proof (dropped_balanced x1 ins' Hc1 Hoa1 Hsum) as Hb.
  pose proof (balanced_bounds _ _ _ Hb) as [Htb _].
  pose proof (fee_for_bounds (26 + 107 * zlen ins') (sum ins') ltac:(lia)) as Hfb.
  unfold Consumer.fund. rewrite (js_bind_ok _ _ x tt x1 Hx1).
  rewrite (js_bind_ok (js_modify _) _ x1 tt (x1 <| outputs := [] |>) eq_refl).
  rewrite (js_bind_ok _ _ _ (num_of_Z (sum ins')) (dropped x1 (sum ins'))).
  2:{ apply (getInputAmount_eq (x1 <| outputs := [] |>) ins'); [apply (com_funded _ _ Hc1)|lia|apply (com_in _ _ Hc1)]. }
  rewrite (js_bind_ok _ _ _ _ _ (dropped_fee x1 ins' Hc1 Hoa1 Hsum Hlen)).
  rewrite num_sub_safe by (unfold safe; lia). fold (channel_value ins').
  set (x3 := with_caches (sum ins') 0 (dropped x1 (sum ins'))).
  rewrite (js_bind_ok _ _ _ (output_of (channel_value ins') outscript csb) x3).
  2:{ unfold js_lift, Output.new, Output.setScript. by rewrite Hout. }
  rewrite addOutput_eq.
  assert (_changeIndex x1 = Some 0%nat) as Hidx1.
  { destruct (com_out _ _ Hc1) as [(Hnil & _)|(_ & ? & _)]; [done|done]. }
  set (x4 := x3 <| outputs ::= (fun l => l ++ [output_of (channel_value ins') outscript csb]) |> <| _outputAmount := None |>).
  destruct (update_commits x4 ins') as (y & Hy & Hcy & _ & Hiny & Hvy & Hly); try done.
  { apply (com_change _ _ Hc1). } { apply (com_fee _ _ Hc1). } { apply (com_kind _ _ Hc1). }
  { apply (com_funded _ _ Hc1). } { by right. }
  { by destruct (without_change_some x4 0 Hidx1) as (-> & _). }
  { destruct (without_change_some x4 0 Hidx1) as (_ & -> & _). by left. }
  exists y. split; [exact Hy|]. split; [done|].
  assert (outpoints y = outpoints x1) as Hop.
  { unfold outpoints. rewrite Hiny. change (inputs x4) with (inputs x1). rewrite <-list_fmap_compose. done. }
  assert (version x4 = version x1 /\ nLockTime x4 = nLockTime x1) as [Hv4 Hl4] by done.
  rewrite Hop, Hop1, Hvy, Hly, Hv4, Hl4, Hv1, Hl1. do 3 (split; [done|]). intros uzs Huzs.
  rewrite Hiny. change (inputs x4) with (inputs x1). specialize (Hm1 _ Huzs). by rewrite (made_cleared _ _ Hm1).
Qed.
End Funding.
End FundingLemmas.

(** ** Lemmas: a fresh commitment *)
Module CommitmentLemmas.
Import Transaction WireFormat SigningLemmas AmountLemmas FundingLemmas MultisigLemmas.
Section Fresh.
Context `{CryptoLaws} `{Ecdsa} `{!EcdsaLaws} `{Hashes}.

(** The 2-of-2 redeem script of two keys, and the script that pays to its hash. *)
Definition redeem_bytes (k1 k2 : list Z) : list Z := 82 :: 33 :: k1 ++ 33 :: k2 ++ [82; 174].
Definition p2sh_script_bytes (h : list Z) : list Z := 169 :: 20 :: h ++ [135].

Definition channel_hash (k1 k2 : list Z) : list Z := sha256ripemd160 (redeem_bytes k1 k2).

Lemma redeem_build k1 k2 : zlen k1 = 33 -> zlen k2 = 33 ->
  Script.buildMultisigOut [k1; k2] 2 true = Ok (multisig_redeem 2 [k1; k2])
  /\ Script.toBuffer (multisig_redeem 2 [k1; k2]) = Ok (redeem_bytes k1 k2).
Proof.
  intros H1' H2'. rewrite multisig_chunks.
  - split; [done|]. unfold multisig_redeem.
    change (zlen [k1; k2]) with 2. apply prints_op; [lia|]. cbn [fmap list_fmap app]. unfold key_push. rewrite H1', H2'.
    apply prints_push; [lia|]. apply prints_push; [lia|]. by repeat (apply prints_op; [lia|]).
  - repeat (apply Forall_cons; split; [lia|]). done.
  - change (zlen [k1; k2]) with 2. lia.
  - change (zlen [k1; k2]) with 2. lia.
Qed.

Lemma p2sh_build s h b : Script.toBuffer s = Ok b -> sha256ripemd160 b = h ->
  Script.buildScriptHashOut s = Ok (p2sh_script h (Script._network s)).
Proof.
  intros Hs Hh. unfold Script.buildScriptHashOut. rewrite Hs. cbn [mbind result_bind]. rewrite Hh.
  unfold Script.adds, Script.add, Script.addByType, Script.addOpcode, Script.insertAtPosition. js_run.
  rewrite hash_push by (rewrite <-Hh; apply hash160_length). done.
Qed.

Lemma p2sh_address h net : zlen h = 20 ->
  Script.toAddress None (p2sh_script h net)
    = Ok (Some (mkAddress h (match net with Some n => n | None => defaultNetwork end) PayToScriptHash)).
Proof.
  intros Hh. unfold Script.toAddress, Script.getAddressInfo, Script.getData, p2sh_script.
  by rewrite p2sh_is_sh by done.
Qed.

(** The commitment of two compressed keys: no inputs, no outputs, the change going to the
    2-of-2 script itself. *)
Lemma commitment_new k1 k2 net : zlen k1 = 33 -> zlen k2 = 33 ->
  let h := channel_hash k1 k2 in
  exists x, Commitment.new [k1; k2] net
      = Ok (Commitment.mk x net [k1; k2] (p2sh_script h None) (mkAddress h livenet PayToScriptHash))
    /\ committed (p2sh_script h (Some livenet)) (p2sh_script_bytes h) x []
    /\ outpoints x = [] /\ version x = 1 /\ nLockTime x = 0.
Proof.
  intros H1' H2' h. assert (zlen h = 20) as Hh by apply hash160_length.
  destruct (redeem_build k1 k2 H1' H2') as (Hs & Hsb). unfold Commitment.new.
  change (zlen [k1; k2] =? 2) with true. cbn [guard_or mbind result_bind]. rewrite Hs. cbn [mbind result_bind].
  rewrite (p2sh_build _ h (redeem_bytes k1 k2) Hsb eq_refl).
  change (Script._network (multisig_redeem 2 [k1; k2])) with (@None network). cbn [mbind result_bind].
  rewrite (p2sh_address h None Hh). cbn [mbind result_bind]. unfold Transaction.change, Script.fromAddress.
  set (x0 := Transaction.new <| _changeScript := Some (p2sh_script h (Some livenet)) |>).
  assert (updateChangeOutput x0 = (Ok tt, change_result x0 (p2sh_script h (Some livenet)) (p2sh_script_bytes h) 0 0
            (0 - 0 - fee_for (26 + 107 * 0 + 0) (0 - 0)))) as Hu.
  { apply (updateChangeOutput_eq x0 _ (p2sh_script_bytes h) 0 0 0); try done.
    exists [], []. split_and!; try done; by left. }
  rewrite (js_bind_ok _ _ _ (p2sh_script h (Some livenet)) Transaction.new).
  2:{ unfold js_lift. cbn [addr_type]. by rewrite p2sh_chunks. }
  rewrite (js_bind_ok (js_modify _) _ _ tt x0 eq_refl), Hu.
  destruct (no_change_frame x0 (p2sh_script h (Some livenet)) (p2sh_script_bytes h) 0 0
              (0 - 0 - fee_for (26 + 107 * 0 + 0) (0 - 0)) ltac:(done)) as (Ho & Hci & Hoa & Hi & Hia & Hcs & Hfe & Hv & Hl).
  set (y := change_result _ _ _ _ _ _) in *. clearbody y.
  exists y. split; [done|]. unfold outpoints. rewrite Hi, Hv, Hl. clear Hu.
  split_and!; [|reflexivity..]. split.
  - by rewrite Hcs.
  - by rewrite Hfe.
  - rewrite Hi. apply Forall_nil. exact I.
  - rewrite Hi. apply Forall2_nil. exact I.
  - rewrite Hia. by right.
  - left. rewrite Ho, Hci, Hoa. split_and!; [done..|by right].
Qed.

Lemma committed_nil_new cs csb x : committed cs csb x [] -> inputs x = [].
Proof. intros Hc. pose proof (com_funded _ _ _ _ Hc) as Hf. by inversion Hf. Qed.

(** Funding a commitment with a list of outputs. *)
Lemma fund_all cs csb outscript us zs : Script.toBuffer cs = Ok csb -> Script.toBuffer outscript = Ok csb ->
  Forall2 fundable us zs -> forall x ins, committed cs csb x ins -> Forall (fun z => 1000 < z) ins ->
  NoDup (outpoints x ++ (outpoint <$> us)) -> sum (ins ++ zs) < 2 ^ 51 -> zlen (ins ++ zs) < 2 ^ 30 ->
  exists y, js_each (Consumer.fund outscript) us x = (Ok tt, y) /\ committed cs csb y (ins ++ zs)
    /\ outpoints y = outpoints x ++ (outpoint <$> us) /\ version y = version x /\ nLockTime y = nLockTime x
    /\ (forall uzs, Forall2 made uzs (inputs x) -> Forall2 made (uzs ++ zip us zs) (inputs y)).
Proof.
  intros Hcs Hout. induction 1 as [|u z us zs Hu Hus IH]; intros x ins Hx Hen Hnd Hsum Hlen.
  { exists x. rewrite !app_nil_r. do 5 (split; [done|]). intros uzs. by rewrite app_nil_r. }
  assert (ins ++ z :: zs = (ins ++ [z]) ++ zs) as Hassoc by (by rewrite <-app_assoc). rewrite Hassoc in *.
  assert (0 <= sum zs /\ 0 <= zlen zs) as [Hs0 Hl0].
  { split; [|apply zlen_nonneg]. eapply (sum_nonneg fundable); [|exact Hus]. intros ?? Hf. pose proof (fun_enough _ _ Hf). lia. }
  rewrite fmap_cons in Hnd. rewrite sum_app in Hsum. rewrite zlen_app in Hlen.
  destruct (fund_step cs csb outscript Hcs Hout u z x ins) as (x1 & Hx1 & Hc1 & Hop1 & Hv1 & Hl1 & Hm1); try done; try lia.
  { apply NoDup_app in Hnd as (_ & Hd & _). intros Hin. apply (Hd _ Hin). apply list_elem_of_here. }
  destruct (IH x1 (ins ++ [z])) as (y & Hy & Hcy & Hop & Hv & Hl & Hm); try done.
  { apply Forall_app; split; [done|]. apply Forall_singleton. apply (fun_enough _ _ Hu). }
  { rewrite Hop1, <-app_assoc. done. }
  { by rewrite sum_app. } { by rewrite zlen_app. }
  exists y. cbn [js_each]. rewrite (js_bind_ok _ _ _ _ _ Hx1), Hy. split; [done|]. split; [done|].
  rewrite Hop, Hop1, Hv, Hl, Hv1, Hl1, <-app_assoc. do 3 (split; [done|]). intros uzs Huzs. specialize (Hm _ (Hm1 _ Huzs)).
  by rewrite <-app_assoc in Hm.
Qed.

(** [processFunding] is [fund] on the commitment transaction. *)
Definition with_tx (c : Consumer.t) (x : Transaction.t) : Consumer.t :=
  snd (Consumer.on_commitment (js_modify (fun _ => x)) c).

Lemma processFunding_each us c y :
  js_each (Consumer.fund (Commitment.outscript (Consumer.commitmentTx c))) us (Commitment.tx (Consumer.commitmentTx c)) = (Ok tt, y) ->
  js_each Consumer.processFunding us c = (Ok tt, with_tx c y).
Proof.
  revert c; induction us as [|u us IH]; intros c; cbn [js_each].
  { intros [= <-]. destruct c as [? ? ? ? ? ? ? ? k ? ?]. by destruct k. }
  intros Hf. unfold mbind, js_bind in Hf.
  destruct (Consumer.fund _ u _) as [[[]|e] x1] eqn:Hfu; [|done].
  rewrite (js_bind_ok _ _ c tt (with_tx c x1)).
  - by apply (IH (with_tx c x1)).
  - unfold Consumer.processFunding. rewrite (js_bind_ok js_get _ _ _ _ eq_refl).
    unfold Consumer.on_commitment, zoom. by rewrite Hfu.
Qed.

(** The keys of a channel *)
Definition client_key (o : Consumer.opts) : list Z := toPublicKey (Consumer.opt_commitmentKey o).
Definition opts_hash (o : Consumer.opts) : list Z := channel_hash (client_key o) (Consumer.opt_providerPublicKey o).

(** A new channel, funded *)
Lemma fund_channel now o us zs :
  zlen (Consumer.opt_providerPublicKey o) = 33 -> Forall2 fundable us zs -> NoDup (outpoint <$> us) ->
  sum zs < 2 ^ 51 -> zlen zs < 2 ^ 30 ->
  exists c0 y, Consumer.new now o = Ok c0 /\ js_each Consumer.processFunding us c0 = (Ok tt, with_tx c0 y)
    /\ Commitment.publicKeys (Consumer.commitmentTx c0) = [client_key o; Consumer.opt_providerPublicKey o]
    /\ committed (p2sh_script (opts_hash o) (Some livenet)) (p2sh_script_bytes (opts_hash o)) y zs
    /\ Forall2 made (zip us zs) (inputs y) /\ outpoints y = outpoint <$> us /\ version y = 1 /\ nLockTime y = 0.
Proof.
  intros Hpk Hus Hnd Hsum Hlen. set (h := opts_hash o).
  destruct (commitment_new _ _ (Consumer.opt_network o) (pub_length (Consumer.opt_commitmentKey o)) Hpk) as (x0 & Hnew & Hc0 & Hop0 & Hv & Hl).
  fold (client_key o) in Hnew, Hc0. fold (opts_hash o) in Hnew, Hc0. fold h in Hnew, Hc0.
  destruct (fund_all (p2sh_script h (Some livenet)) (p2sh_script_bytes h) (p2sh_script h None)
              us zs (p2sh_bytes _ _) (p2sh_bytes _ _) Hus x0 [] Hc0) as (y & Hy & Hcy & Hop & Hvy & Hly & Hm); try done.
  { by rewrite Hop0. }
  unfold Consumer.new. fold (client_key o). rewrite Hnew. cbn [mbind result_bind].
  eexists _, y. split; [done|]. split; [by apply processFunding_each|]. split; [done|]. split; [done|].
  split; [|by rewrite Hop, Hop0, Hvy, Hly].
  apply (Hm []). rewrite (committed_nil_new _ _ _ Hc0). apply Forall2_nil_2.
Qed.
End Fresh.
End CommitmentLemmas.

(** ** Lemmas: paying *)
Module PaymentLemmas.
Import Transaction WireFormat SigningLemmas AmountLemmas FundingLemmas CommitmentLemmas.
Section Paying.
Context `{CryptoLaws} `{Ecdsa}.

(** The script paying to an address, and its bytes. *)
Definition address_script (a : Address) : Script.t :=
  match addr_type a with
  | PayToScriptHash => p2sh_script (hashBuffer a) (Some (addr_network a))
  | PayToPublicKeyHash => p2pkh_script (hashBuffer a) (Some (addr_network a))
  end.
Definition address_bytes (a : Address) : list Z :=
  match addr_type a with
  | PayToScriptHash => p2sh_script_bytes (hashBuffer a)
  | PayToPublicKeyHash => 118 :: 169 :: 20 :: hashBuffer a ++ [136; 172]
  end.

Lemma fromAddress_eq a : zlen (hashBuffer a) = 20 -> Script.fromAddress a = Ok (address_script a).
Proof.
  intros Ha. unfold Script.fromAddress, address_script. destruct (addr_type a) eqn:Ht.
  - by apply p2pkh_chunks.
  - by apply p2sh_chunks.
Qed.

Lemma address_script_bytes a : Script.toBuffer (address_script a) = Ok (address_bytes a).
Proof. unfold address_script, address_bytes. destruct (addr_type a); [apply p2pkh_bytes|apply p2sh_bytes]. Qed.

Lemma address_script_toAddress a net : zlen (hashBuffer a) = 20 ->
  Script.toAddress (Some net) (address_script a) = Ok (Some (mkAddress (hashBuffer a) net (addr_type a))).
Proof.
  intros Ha. unfold Script.toAddress, Script.getAddressInfo, Script.getData, address_script.
  destruct (addr_type a).
  - unfold p2pkh_script. rewrite p2pkh_not_sh by done. cbn. by rewrite Ha.
  - unfold p2sh_script. by rewrite p2sh_is_sh by done.
Qed.

Lemma output_new z s b : Script.toBuffer s = Ok b -> Output.new (num_of_Z z) s = Ok (output_of z s b).
Proof. intros Hs. unfold Output.new, Output.setScript. by rewrite Hs. Qed.

(** A payment of [a] satoshis, [q] of them paid. *)
Record paying (p : Payment.t) (a q : Z) : Prop := {
  pay_amount : Payment.amount p = num_of_Z a;
  pay_paid : Payment.paid p = num_of_Z q;
  pay_inputs : inputs (Payment.tx p) <> [];
  pay_change : zlen (hashBuffer (Payment.changeAddress p)) = 20;
  pay_bound : 0 <= q <= a /\ a < 2 ^ 51;
}.

(** What the client keeps. *)
Definition change_outputs (a q : Z) (change : Address) : list Output.t :=
  if a =? q then [] else [output_of (a - q) (address_script change) (address_bytes change)].

Lemma updateValue_eq p a q d : paying p a q -> 0 <= q + d <= a -> exists y,
  Payment.updateValue (num_of_Z d) p = (Ok tt, y) /\ paying y a (q + d)
  /\ Payment.sequence y = Payment.sequence p + 1
  /\ Payment.input_sequence y = Some (Payment.sequence p + 1)
  /\ Payment.changeAddress y = Payment.changeAddress p
  /\ inputs (Payment.tx y) = inputs (Payment.tx p)
  /\ version (Payment.tx y) = version (Payment.tx p) /\ nLockTime (Payment.tx y) = nLockTime (Payment.tx p)
  /\ outputs (Payment.tx y) = change_outputs a (q + d) (Payment.changeAddress p)
  /\ Payment.multisigOut y = Payment.multisigOut p.
Proof.
  intros [Ha Hp Hi Hc Hb] Hd. unfold Payment.updateValue, Payment.updateTransaction.
  set (p1 := Payment.mk (Payment.tx p) (Payment.paymentAddress p) (Payment.changeAddress p) (Payment.multisigOut p)
     (Payment.publicKeys p) (num_of_Z a) (Payment.sequence p + 1) (num_of_Z (q + d)) (Payment.input_sequence p)).
  rewrite (js_bind_ok (js_modify _) _ p tt p1).
  2:{ unfold p1, js_modify, upd. cbn. rewrite Ha, Hp, num_add_safe by (unfold safe; lia). by rewrite <-Z.add_1_r. }
  set (p2 := p1 <| Payment.tx ::= (fun x => x <| outputs := [] |>) |>).
  rewrite (js_bind_ok (js_modify _) _ p1 tt p2 eq_refl). rewrite (js_bind_ok js_get _ _ _ _ eq_refl).
  change (Payment.amount p2) with (num_of_Z a). change (Payment.paid p2) with (num_of_Z (q + d)).
  rewrite num_sub_safe by (unfold safe; lia). cbv zeta. rewrite num_eq_safe by (unfold safe; lia).
  change (Payment.changeAddress p2) with (Payment.changeAddress p). rewrite (fromAddress_eq _ Hc).
  change (inputs (Payment.tx p2)) with (inputs (Payment.tx p)). unfold change_outputs.
  destruct (inputs (Payment.tx p)) as [|i is_] eqn:Hin; [done|].
  destruct (Z.eqb_spec (a - (q + d)) 0) as [Hz|Hz]; cbn [negb].
  - rewrite (proj2 (Z.eqb_eq a (q + d))) by lia.
    eexists. split; [reflexivity|]. split; [split; try done; cbn; [by rewrite Hin|lia]|]. by repeat split.
  - rewrite (proj2 (Z.eqb_neq a (q + d))) by lia.
    js_run. rewrite (output_new _ _ _ (address_script_bytes _)).
    eexists. split; [reflexivity|]. split; [split; try done; cbn; [by rewrite Hin|lia]|]. by repeat split.
Qed.

(** Signing leaves everything but the inputs as it is, and keeps their number. *)
Lemma applySignature_outputs s x r y : Signing.applySignature s x = (r, y) ->
  outputs y = outputs x /\ length (inputs y) = length (inputs x).
Proof.
  unfold Signing.applySignature. js_run. destruct (inputs x !! _) as [i|]; [|by intros [= <- <-]].
  destruct (Signing.input_addSignature _ _ _); intros [= <- <-]; [|done]. cbn. by rewrite length_insert.
Qed.

Lemma sign_outputs key ty x r y : Signing.sign key ty x = (r, y) ->
  outputs y = outputs x /\ length (inputs y) = length (inputs x).
Proof.
  unfold Signing.sign. rewrite (js_bind_ok js_get _ _ _ _ eq_refl). js_run.
  destruct (Transaction.hasAllUtxoInfo x); [|by intros [= <- <-]].
  destruct (Signing.getSignatures key ty x) as [sigs|]; [|by intros [= <- <-]]. revert x. induction sigs as [|s sigs IH]; intros x; cbn [js_each].
  { by intros [= <- <-]. }
  unfold mbind, js_bind. destruct (Signing.applySignature s x) as [[[]|e] x1] eqn:Hs; apply applySignature_outputs in Hs as [Ho Hl].
  - intros Hy. destruct (IH x1 Hy) as [-> ->]. done.
  - intros [= <- <-]. done.
Qed.

(** An output paying to an address, cached or parsed from the wire. *)
Definition pays (a : Address) (o : Output.t) : Prop := exists net, Output.script o = Ok (address_script (mkAddress (hashBuffer a) net (addr_type a)))
  \/ Output.script o = Ok (Script.mk (Script.chunks (address_script a)) None).

Lemma toAddress_network s net m : Script.toAddress (Some net) (Script.mk (Script.chunks s) m) = Script.toAddress (Some net) s.
Proof. by destruct s. Qed.

Lemma pays_toAddress a o s net : zlen (hashBuffer a) = 20 -> pays a o -> Output.script o = Ok s ->
  Script.toAddress (Some net) s = Ok (Some (mkAddress (hashBuffer a) net (addr_type a))).
Proof.
  intros Ha (n & [Hs|Hs]) Ho; rewrite Hs in Ho; injection Ho as <-.
  - by rewrite address_script_toAddress.
  - rewrite toAddress_network. by apply address_script_toAddress.
Qed.

(** No output pays [b] when all pay [a]. *)
Lemma paid_to_none net a b os : zlen (hashBuffer a) = 20 -> Forall (pays a) os ->
  mkAddress (hashBuffer a) net (addr_type a) <> b -> forall acc, Provider.paid_to net b os acc = Ok acc.
Proof.
  intros Ha Hos Hne. induction Hos as [|o os Ho _ IH]; intros acc; cbn [Provider.paid_to]; [done|].
  destruct Ho as (n & Ho). destruct (Output.script o) as [s|e] eqn:Hs.
  2:{ by destruct Ho. }
  cbn [mbind result_bind]. rewrite (pays_toAddress a o s net Ha) by (done || by exists n; rewrite Hs).
  cbn [mbind result_bind]. rewrite bool_decide_false by congruence. apply IH.
Qed.
End Paying.
End PaymentLemmas.

(** ** Lemmas: the refund *)
Module RefundLemmas.
Import Transaction WireFormat SigningLemmas AmountLemmas FundingLemmas CommitmentLemmas PaymentLemmas MultisigLemmas.
Section Refunding.
Context `{CryptoLaws} `{Ecdsa}.

Lemma p2sh_copy h net : zlen h = 20 -> bytes_ok h -> Script_copy (p2sh_script h net) = Ok (p2sh_script h None).
Proof.
  intros Hlen Hok. unfold Script_copy. unfold p2sh_script at 1. rewrite p2sh_bytes. cbn [mbind result_bind].
  destruct (ScriptLemmas.fromBuffer_toBuffer (Script.chunks (p2sh_script h None))) as (b & Hb & Hp).
  { repeat (apply Forall_cons; split); try apply Forall_nil; try done; unfold ScriptLemmas.wf_chunk; cbn [Script.push Script.opcodenum];
      first [right; lia|split; [done|left; lia]]. }
  unfold p2sh_script in Hb. cbn [Script.chunks] in Hb. rewrite p2sh_bytes in Hb. injection Hb as <-.
  apply Hp. rewrite !zlen_cons, zlen_app, Hlen. done.
Qed.

Lemma p2sh_equals h : Script.equals (p2sh_script h None) (p2sh_script h None) = true.
Proof. unfold Script.equals, p2sh_script. cbn. by rewrite !bool_decide_true. Qed.

(** The input that spends the channel: both keys in order, no signature yet. *)
Definition channel_input (id : list Z) (k1 k2 : list Z) (redeem : Script.t) (out : Output.t) : Input.t :=
  Input.mk (Some out) id 0 Input.DEFAULT_SEQNUMBER [] (Some Script.empty)
    (Input.MultiSigScriptHash (Input.mkMultisig [k1; k2] redeem 2 [None; None])).

Lemma from_channel id k1 k2 net a : zlen id = 32 -> zlen k1 = 33 -> zlen k2 = 33 ->
  let h := channel_hash k1 k2 in
  Signing.from_multisig (mkUnspent id 0 (p2sh_script h net) (num_of_Z a)) [k1; k2] 2 Transaction.new
    = (Ok tt, Transaction.new <| inputs := [channel_input id k1 k2 (multisig_redeem 2 [k1; k2]) (output_of a (p2sh_script h None) (p2sh_script_bytes h))] |>).
Proof.
  intros Hid H1' H2' h. assert (zlen h = 20) as Hh by apply hash160_length.
  destruct (redeem_build k1 k2 H1' H2') as (Hs & Hsb).
  unfold Signing.from_multisig. rewrite (js_bind_ok js_get _ _ _ _ eq_refl). change (inputs Transaction.new) with (@nil Input.t).
  cbn [existsb]. unfold Signing.fromMultisigUtxo. change (2 <=? zlen [k1; k2]) with true. rewrite (js_bind_ok _ _ _ tt Transaction.new eq_refl).
  unfold newUnspentOutput. cbn [txId utxo_outputIndex utxo_script utxo_satoshis]. rewrite Hid, p2sh_copy by (done || apply hash160_ok).
  js_run. change ((0 <? 32) && (32 <=? 32)) with true. cbv iota. cbn [txId utxo_outputIndex utxo_script utxo_satoshis]. rewrite (output_new a _ (p2sh_script_bytes h)) by apply p2sh_bytes.
  unfold Input.newMultisig. rewrite Hs. cbn [mbind result_bind].
  rewrite (p2sh_build _ h (redeem_bytes k1 k2) Hsb eq_refl).
  change (Script._network (multisig_redeem 2 [k1; k2])) with (@None network). cbn [mbind result_bind Output.script Output._script output_of].
  unfold Output.script, output_of. cbn [Output._script mbind result_bind]. rewrite p2sh_equals. done.
Qed.

(** The refund of a channel, as built *)
Definition refund_input (id k1 k2 : list Z) (a : Z) : Input.t :=
  (channel_input id k1 k2 (multisig_redeem 2 [k1; k2])
    (output_of a (p2sh_script (channel_hash k1 k2) None) (p2sh_script_bytes (channel_hash k1 k2)))) <| Input.sequenceNumber := 0 |>.
Definition refund_of (now : Z) (id k1 k2 : list Z) (a : Z) (back : Address) : Transaction.t :=
  Transaction.mk 1 [refund_input id k1 k2 a] [output_of a (address_script back) (address_bytes back)] (in_one_day now)
    (Some (num_of_Z a)) None None None None.

Lemma build_refund_eq now id k1 k2 net a back :
  zlen id = 32 -> zlen k1 = 33 -> zlen k2 = 33 -> 0 <= a < 2 ^ 51 -> zlen (hashBuffer back) = 20 ->
  let h := channel_hash k1 k2 in
  Consumer.build_refund now (mkUnspent id 0 (p2sh_script h net) (num_of_Z a)) [k1; k2] back Transaction.new
  = (Ok tt, refund_of now id k1 k2 a back).
Proof.
  intros Hid H1' H2' Ha Hback h. pose proof (from_channel id k1 k2 net a Hid H1' H2') as Hfrom. cbv zeta in Hfrom. fold h in Hfrom.
  set (i := channel_input _ _ _ _ _) in Hfrom. unfold Consumer.build_refund. rewrite (js_bind_ok _ _ _ _ _ Hfrom).
  set (x := Transaction.new <| inputs := [i] |>).
  rewrite (js_bind_ok _ _ x (num_of_Z a) (x <| _inputAmount := Some (num_of_Z a) |>)).
  2:{ pose proof (getInputAmount_eq x [a]) as Hg. change (sum [a]) with (a + 0) in Hg. rewrite Z.add_0_r in Hg.
      apply Hg; [|lia|by left]. constructor; [|done]. eexists. split; [done|]. split; [done|lia]. }
  set (x1 := x <| _inputAmount := _ |>).
  rewrite (js_bind_ok _ _ x1 tt (x1 <| outputs := [output_of a (address_script back) (address_bytes back)] |> <| _outputAmount := None |>)).
  2:{ unfold Transaction.to_. rewrite (fromAddress_eq _ Hback). js_run. by rewrite (output_new _ _ _ (address_script_bytes _)). }
  rewrite (js_bind_ok js_get _ _ _ _ eq_refl).
  reflexivity.
Qed.

(** What a channel's value falls short of in the second fee estimate *)
Definition fee_gap (n : Z) : Z := 1000 * (cdiv (120 + 107 * n) 1000 - cdiv (88 + 107 * n) 1000).

(** What the refund returns *)
Definition returned (ins : list Z) : Z := channel_value ins - fee_gap (zlen ins).

Lemma fee_gap_cases n : 0 <= n -> 0 <= fee_gap n <= 1000 /\ (n <= 26 -> fee_gap n = 0) /\ (n = 27 -> fee_gap n = 1000).
Proof. intros Hn. unfold fee_gap, cdiv. split_and!; zlia. Qed.

Lemma returned_pos ins : Forall (fun z => 1000 < z) ins -> ins <> [] -> zlen ins < 2 ^ 30 -> 0 < returned ins <= channel_value ins.
Proof.
  intros Hen Hne Hlen. pose proof (channel_value_pos ins Hen Hne Hlen). pose proof (zlen_nonneg ins) as Hn.
  destruct (fee_gap_cases (zlen ins) Hn) as (Hg & Hsmall & _). unfold returned. split; [|lia].
  destruct (Z.le_gt_cases (zlen ins) 26) as [Hle|Hgt]; [rewrite (Hsmall Hle); lia|].
  pose proof (sum_enough ins Hen) as Hs. unfold channel_value, fee_for.
  destruct (_ <? _); unfold cdiv; zlia.
Qed.

(** [amount - getFee()] of a funded commitment *)
Lemma commitment_value_eq c cs csb ins :
  let x := Commitment.tx (Consumer.commitmentTx c) in
  committed cs csb x ins -> ins <> [] -> Forall (fun z => 1000 < z) ins -> sum ins < 2 ^ 51 -> zlen ins < 2 ^ 30 ->
  Script.toBuffer cs = Ok csb -> zlen csb = 23 ->
  Consumer.commitment_value c = (Ok (num_of_Z (channel_value ins - fee_gap (zlen ins))),
    with_tx c (with_caches (sum ins) (channel_value ins) (x <| _inputAmount := Some (num_of_Z (sum ins)) |>)))
  /\ 0 <= fee_gap (zlen ins) <= 1000 /\ (zlen ins <= 26 -> fee_gap (zlen ins) = 0) /\ (zlen ins = 27 -> fee_gap (zlen ins) = 1000).
Proof.
  intros x Hx Hne Hen Hsum Hlen Hcs Hcsl. pose proof (channel_value_pos ins Hen Hne Hlen) as Hcv.
  pose proof (zlen_nonneg ins) as Hn0. set (k := zlen ins) in *.
  assert (1000 * k < sum ins /\ 1 <= k) as [Hgt Hk1].
  { unfold k. destruct Hen as [|z l Hz Hen]; [done|]. pose proof (sum_enough l Hen). pose proof (zlen_nonneg l).
    rewrite zlen_cons. change (sum (z :: l)) with (z + sum l). lia. }
  assert (fee_for (26 + 107 * k) (sum ins) = 1000 * cdiv (88 + 107 * k) 1000) as Hf1.
  { unfold fee_for. rewrite (proj2 (Z.ltb_lt _ _)) by (unfold cdiv; zlia). do 2 f_equal. lia. }
  assert (channel_value ins = sum ins - 1000 * cdiv (88 + 107 * k) 1000) as Hcveq by (unfold channel_value; fold k; lia).
  assert (fee_for (58 + 107 * k) (sum ins - channel_value ins) = 1000 * cdiv (120 + 107 * k) 1000) as Hf2.
  { unfold fee_for. rewrite (proj2 (Z.ltb_lt _ _)) by (rewrite Hcveq; unfold cdiv; zlia). do 2 f_equal. lia. }
  split; [|unfold fee_gap, cdiv; split_and!; zlia].
  destruct (com_out _ _ _ _ Hx) as [(? & _)|(Ho & _ & Hoc)]; [done|].
  assert (balanced x (sum ins) (channel_value ins)) as Hb.
  { exists ins, [channel_value ins]. rewrite Ho. split; [apply (com_funded _ _ _ _ Hx)|].
    split; [by repeat constructor; try lia|]. split; [done|].
    split; [change (sum [channel_value ins]) with (channel_value ins + 0); lia|].
    split; [done|]. split; [rewrite Hcveq; unfold cdiv; zlia|]. split; [apply (com_in _ _ _ _ Hx)|done]. }
  assert (zlen (inputs x) = k) as Hkk by (unfold k, zlen; by rewrite (Forall2_length _ _ _ (com_funded _ _ _ _ Hx))).
  set (x1 := x <| _inputAmount := Some (num_of_Z (sum ins)) |>).
  assert (balanced x1 (sum ins) (channel_value ins)) as Hb1.
  { destruct Hb as (l & os & Hi & Hos & Ha & Hov & Hba & Hbo & Hci & Hco). exists l, os. split_and!; try done. by right. }
  assert (Transaction.getFee x1 = (Ok (num_of_Z (1000 * cdiv (120 + 107 * k) 1000)), with_caches (sum ins) (channel_value ins) x1)) as Hfee.
  { unfold Transaction.getFee. rewrite (js_bind_ok js_get _ _ _ _ eq_refl).
    change (_changeScript x1) with (_changeScript x). change (_fee x1) with (_fee x).
    rewrite (com_change _ _ _ _ Hx), (com_fee _ _ _ _ Hx), <-Hf2.
    apply estimateFee_eq; [done| |lia].
    rewrite (estimateSize_p2pkh x1 32); [f_equal; change (inputs x1) with (inputs x); lia|apply (com_kind _ _ _ _ Hx)|].
    change (outputs x1) with (outputs x). rewrite Ho. unfold outputs_size. cbn [sum_sizes]. unfold Output.script. cbn [Output._script output_of].
    cbn [mbind result_bind]. rewrite Hcs. cbn [mbind result_bind]. by rewrite Hcsl. }
  unfold Consumer.commitment_value.
  rewrite (js_bind_ok _ _ c (num_of_Z (sum ins)) (with_tx c x1)).
  2:{ unfold Consumer.on_commitment, zoom. fold x.
      by rewrite (getInputAmount_eq x ins (com_funded _ _ _ _ Hx) ltac:(lia) (com_in _ _ _ _ Hx)). }
  rewrite (js_bind_ok _ _ (with_tx c x1) (num_of_Z (1000 * cdiv (120 + 107 * k) 1000)) (with_tx c (with_caches (sum ins) (channel_value ins) x1))).
  2:{ unfold Consumer.on_commitment, zoom. change (Commitment.tx (Consumer.commitmentTx (with_tx c x1))) with x1. by rewrite Hfee. }
  rewrite num_sub_safe by (unfold safe, cdiv; zlia). unfold mret, js_ret. do 3 f_equal. unfold fee_gap. lia.
Qed.
End Refunding.
End RefundLemmas.

(** ** Theorems *)
Section ChannelTheorems.
Import Transaction WireFormat SigningLemmas AmountLemmas FundingLemmas CommitmentLemmas PaymentLemmas RefundLemmas.
Context `{CryptoLaws} `{Ecdsa} `{!EcdsaLaws} `{Hashes}.

(** C7: a new channel that processes any list of funding outputs, each of more than a thousand
    satoshis and none twice, ends with a commitment transaction that spends exactly these
    outputs and whose only output locks their sum, less the estimated fee, in the 2-of-2 script
    of the client's and the server's keys. *)
Theorem commitment_funded now o us zs :
  zlen (Consumer.opt_providerPublicKey o) = 33 -> Forall2 fundable us zs -> us <> [] -> NoDup (outpoint <$> us) ->
  sum zs < 2 ^ 51 -> zlen zs < 2 ^ 30 ->
  let h := channel_hash (toPublicKey (Consumer.opt_commitmentKey o)) (Consumer.opt_providerPublicKey o) in
  exists c0 c, Consumer.new now o = Ok c0 /\ js_each Consumer.processFunding us c0 = (Ok tt, c)
    /\ let x := Commitment.tx (Consumer.commitmentTx c) in
       outputs x = [output_of (channel_value zs) (p2sh_script h (Some livenet)) (p2sh_script_bytes h)]
       /\ outpoints x = outpoint <$> us /\ version x = 1 /\ nLockTime x = 0 /\ 0 < channel_value zs.
Proof.
  intros Hpk Hus Hne Hnd Hsum Hlen h.
  destruct (fund_channel now o us zs Hpk Hus Hnd Hsum Hlen) as (c0 & y & Hnew & Hy & _ & Hcy & _ & Hop & Hv & Hl).
  exists c0, (with_tx c0 y). split; [done|]. split; [done|]. cbv zeta.
  change (Commitment.tx (Consumer.commitmentTx (with_tx c0 y))) with y.
  assert (zs <> []) as Hzs by (intros ->; apply Forall2_nil_inv_r in Hus; done).
  destruct (com_out _ _ _ _ Hcy) as [(? & _)|(Ho & _)]; [done|].
  rewrite Ho, Hop, Hv, Hl. split_and!; try done.
  apply channel_value_pos; [|done|done]. eapply Forall2_Forall_r; [exact Hus|].
  apply Forall_true. intros u z Hf. apply (fun_enough _ _ Hf).
Qed.

(** the value the refund is built for and checked against is what the commitment locks for up
    to 26 funding outputs; in general it is short of it by the difference between two fee
    estimates, the second of which counts the channel output twice (27 inputs: a thousand
    satoshis go to the miners). *)
Theorem refund_value c cs csb ins :
  let x := Commitment.tx (Consumer.commitmentTx c) in
  committed cs csb x ins -> ins <> [] -> Forall (fun z => 1000 < z) ins -> sum ins < 2 ^ 51 -> zlen ins < 2 ^ 30 ->
  Script.toBuffer cs = Ok csb -> zlen csb = 23 ->
  let short := 1000 * (cdiv (120 + 107 * zlen ins) 1000 - cdiv (88 + 107 * zlen ins) 1000) in
  fst (Consumer.commitment_value c) = Ok (num_of_Z (channel_value ins - short)) /\ 0 <= short <= 1000
  /\ (zlen ins <= 26 -> short = 0) /\ (zlen ins = 27 -> short = 1000).
Proof.
  intros x Hx Hne Hen Hsum Hlen Hcs Hcsl short.
  destruct (commitment_value_eq c cs csb ins Hx Hne Hen Hsum Hlen Hcs Hcsl) as (-> & Hb). by split.
Qed.

(** the refund built for a channel spends the 2-of-2 output and nothing else, returns its
    whole value to the refund address in a single output, has sequence number 0 and is locked
    for a day. *)
Theorem refund_built now id k1 k2 net a back :
  zlen id = 32 -> zlen k1 = 33 -> zlen k2 = 33 -> 0 <= a < 2 ^ 51 -> zlen (hashBuffer back) = 20 ->
  let h := channel_hash k1 k2 in
  exists x i, Consumer.build_refund now (mkUnspent id 0 (p2sh_script h net) (num_of_Z a)) [k1; k2] back Transaction.new = (Ok tt, x)
    /\ outputs x = [output_of a (address_script back) (address_bytes back)]
    /\ inputs x = [i] /\ Input.prevTxId i = id /\ Input.outputIndex i = 0 /\ Input.sequenceNumber i = 0
    /\ (exists m, Input.kind i = Input.MultiSigScriptHash m /\ Input.publicKeys m = [k1; k2] /\ Input.threshold m = 2
          /\ Script.toBuffer (Input.redeemScript m) = Ok (redeem_bytes k1 k2))
    /\ nLockTime x = in_one_day now.
Proof.
  intros Hid H1' H2' Ha Hback h. eexists _, _. split; [by apply build_refund_eq|]. split; [done|]. split; [done|].
  do 3 (split; [done|]). split; [|done]. eexists. do 3 (split; [done|]). by apply redeem_build.
Qed.

(** C6: along any run of payments that stays within the channel, what was paid is the sum of the
    increments, the one output returns the rest to the client (there is none when all is paid),
    the update count goes up by one each time, and the inputs, their sequence numbers included,
    stay as they were: the count is written to a property that is never serialized. *)
Theorem payments_conserve ds : forall p a q, paying p a q -> (forall n, 0 <= q + sum (take n ds) <= a) ->
  exists y, js_each (fun d => Payment.updateValue (num_of_Z d)) ds p = (Ok tt, y)
    /\ paying y a (q + sum ds)
    /\ Payment.sequence y = Payment.sequence p + zlen ds
    /\ inputs (Payment.tx y) = inputs (Payment.tx p)
    /\ (ds <> [] -> outputs (Payment.tx y) = change_outputs a (q + sum ds) (Payment.changeAddress p)).
Proof.
  induction ds as [|d ds IH]; intros p a q Hp Hb; cbn [js_each].
  { exists p. change (sum []) with 0. change (zlen (@nil Z)) with 0. rewrite !Z.add_0_r. done. }
  change (sum (d :: ds)) with (d + sum ds). rewrite zlen_cons, !Z.add_assoc.
  assert (0 <= q + d <= a) as Hd by (specialize (Hb 1%nat); change (sum (take 1 (d :: ds))) with (d + 0) in Hb; lia).
  destruct (updateValue_eq p a q d Hp Hd) as (p1 & Hp1 & Hpay1 & Hs1 & _ & Hc1 & Hi1 & _ & _ & Ho1 & _).
  rewrite (js_bind_ok _ _ _ _ _ Hp1).
  destruct (IH p1 a (q + d) Hpay1) as (y & Hy & Hpy & Hs & Hi & Ho).
  { intros n. specialize (Hb (S n)). cbn [take] in Hb. change (sum (d :: take n ds)) with (d + sum (take n ds)) in Hb. lia. }
  exists y. split; [done|]. split; [done|]. split; [lia|]. split; [congruence|]. intros _.
  destruct ds as [|d' ds]; [|by rewrite Ho, Hc1].
  injection Hy as <-. change (sum []) with 0. by rewrite Z.add_0_r, Ho1.
Qed.

(** the bundled server half never accepts a payment made by the bundled client half: signed or
    not, whatever the script interpreter says, the client's transaction has no output to the
    server's address ([to(this.paymentAddress, ...)] is commented out), so [validPayment]
    throws. *)
Theorem provider_never_accepts p a q d key ty (pr : Provider.t) :
  paying p a q -> 0 <= q + d <= a ->
  mkAddress (hashBuffer (Payment.changeAddress p)) (Provider.network_ pr) (addr_type (Payment.changeAddress p))
    <> Provider.paymentAddress pr ->
  let x := Payment.tx (snd ((Payment.updateValue (num_of_Z d);; Payment.sign key ty) p)) in
  exists e, Provider.validPayment x pr = (Throw e, pr).
Proof.
  intros Hp Hd Hne x. destruct (updateValue_eq p a q d Hp Hd) as (p1 & Hp1 & _ & _ & _ & _ & _ & _ & _ & Ho1 & _).
  assert (outputs x = change_outputs a (q + d) (Payment.changeAddress p)) as Hox.
  { unfold x. rewrite (js_bind_ok _ _ _ _ _ Hp1). unfold Payment.sign, zoom.
    destruct (Signing.sign key ty (Payment.tx p1)) as [r y] eqn:Hs. cbn. by destruct (sign_outputs _ _ _ _ _ Hs) as [-> _]. }
  clearbody x. unfold Provider.validPayment. rewrite (js_bind_ok js_get _ _ _ _ eq_refl).
  destruct (Signing.sign (Provider.key pr) None x) as [[[]|e] y] eqn:Hs; [|by exists e].
  apply sign_outputs in Hs as [Hoy _]. rewrite (js_bind_ok _ _ pr tt pr eq_refl).
  assert (Provider.paid_to (Provider.network_ pr) (Provider.paymentAddress pr) (outputs y) None = Ok None) as Hpt.
  { apply (paid_to_none _ (Payment.changeAddress p)); [apply Hp| |done]. rewrite Hoy, Hox. unfold change_outputs.
    destruct (a =? q + d); [done|]. apply Forall_singleton. exists (addr_network (Payment.changeAddress p)). left.
    by destruct (Payment.changeAddress p). }
  rewrite (js_bind_ok _ _ pr None pr) by (unfold js_lift; by rewrite Hpt). by exists InvalidState.
Qed.
End ChannelTheorems.

(** ** Witnesses *)

Section Witnesses.
Import Transaction WireFormat SigningLemmas AmountLemmas FundingLemmas CommitmentLemmas PaymentLemmas RefundLemmas.
#[local] Existing Instance demo_crypto.
#[local] Existing Instance demo_laws.
#[local] Existing Instance demo_ecdsa.
#[local] Existing Instance demo_ecdsa_laws.
#[local] Existing Instance demo_hashes.

Definition demo_address : Address := mkAddress (repeat 7 20) livenet PayToPublicKeyHash.
Definition demo_opts : Consumer.opts := @Consumer.mkOpts demo_ecdsa livenet None 1 (2 :: repeat 9 32) None None 3 livenet (Some demo_address) 4.
Definition demo_utxo (id amount : Z) : UnspentOutput :=
  mkUnspent (repeat id 32) 0 (p2pkh_script (repeat 5 20) None) (num_of_Z amount).

Lemma demo_fundable id amount : 1000 < amount -> fundable (demo_utxo id amount) amount.
Proof.
  intros Ha. split; [done| |done|done]. exists (repeat 5 20), None. split; [done|]. split; [|done].
  apply repeat_ok. unfold byte_ok. lia.
Qed.

Lemma commitment_funded_witness : exists c0 c, Consumer.new 0 demo_opts = Ok c0
  /\ js_each Consumer.processFunding [demo_utxo 1 20000; demo_utxo 2 30000] c0 = (Ok tt, c)
  /\ Output.satoshis <$> outputs (Commitment.tx (Consumer.commitmentTx c)) = [num_of_Z 49000].
Proof.
  destruct (commitment_funded 0 demo_opts [demo_utxo 1 20000; demo_utxo 2 30000] [20000; 30000]) as (c0 & c & Hn & Hc & Ho & _).
  - reflexivity.
  - constructor; [apply demo_fundable; lia|]. constructor; [apply demo_fundable; lia|]. constructor.
  - discriminate.
  - apply (bool_decide_unpack _). vm_compute. exact I.
  - reflexivity.
  - reflexivity.
  - exists c0, c. split; [exact Hn|]. split; [exact Hc|]. rewrite Ho. reflexivity.
Defined.

(** A commitment funded by [n] outputs of 2000 satoshis. *)
Definition demo_commitment (n : nat) : Transaction.t :=
  let cs := p2sh_script (repeat 4 20) (Some livenet) in
  Transaction.mk 1 (repeat (funding_input (demo_utxo 1 2000) (repeat 5 20) 2000) n)
    [output_of (channel_value (repeat 2000 n)) cs (p2sh_script_bytes (repeat 4 20))] 0 None None (Some cs) (Some 0%nat) None.
Definition demo_consumer (x : Transaction.t) : Consumer.t :=
  @Consumer.mk demo_ecdsa livenet 0 1 [] demo_address 3 demo_address demo_address
    (Commitment.mk x livenet [] Script.empty demo_address) None None.

Lemma demo_committed n : (0 < n)%nat ->
  committed (p2sh_script (repeat 4 20) (Some livenet)) (p2sh_script_bytes (repeat 4 20)) (demo_commitment n) (repeat 2000 n).
Proof.
  intros Hn. split; try done.
  - cbn [inputs demo_commitment]. clear Hn. by induction n; cbn [repeat]; constructor.
  - cbn [inputs demo_commitment]. clear Hn. induction n; cbn [repeat]; constructor; [|done]. eexists. by split.
  - by left.
  - right. split; [done|]. split; [done|by left].
Qed.

Lemma refund_value_witness :
  fst (Consumer.commitment_value (demo_consumer (demo_commitment 27))) = Ok (num_of_Z (channel_value (repeat 2000 27) - 1000)).
Proof.
  destruct (refund_value (demo_consumer (demo_commitment 27)) (p2sh_script (repeat 4 20) (Some livenet))
    (p2sh_script_bytes (repeat 4 20)) (repeat 2000 27)) as (Hv & _).
  - apply demo_committed. lia.
  - discriminate.
  - apply (bool_decide_unpack _). vm_compute. exact I.
  - reflexivity.
  - reflexivity.
  - apply p2sh_bytes.
  - reflexivity.
  - exact Hv.
Defined.

Lemma refund_built_witness : exists x i,
  Consumer.build_refund 0 (mkUnspent (repeat 1 32) 0
    (p2sh_script (channel_hash (2 :: repeat 8 32) (2 :: repeat 9 32)) None) (num_of_Z 49000))
    [2 :: repeat 8 32; 2 :: repeat 9 32] demo_address Transaction.new = (Ok tt, x)
  /\ inputs x = [i] /\ Input.sequenceNumber i = 0 /\ nLockTime x = 86400.
Proof.
  destruct (refund_built 0 (repeat 1 32) (2 :: repeat 8 32) (2 :: repeat 9 32) None 49000 demo_address)
    as (x & i & Hx & _ & Hi & _ & _ & Hs & _ & Hl); [reflexivity|reflexivity|reflexivity|lia|reflexivity|].
  exists x, i. split; [exact Hx|]. split; [exact Hi|]. split; [exact Hs|]. rewrite Hl. reflexivity.
Defined.

Definition demo_payment : Payment.t :=
  Payment.mk (demo_commitment 1) demo_address demo_address (demo_utxo 1 1000) [] (num_of_Z 1000) 0 (num_of_Z 0) None.

Lemma demo_paying : paying demo_payment 1000 0.
Proof. split; try done; lia. Qed.

Lemma payments_conserve_witness : exists y,
  js_each (fun d => Payment.updateValue (num_of_Z d)) [300; 700] demo_payment = (Ok tt, y)
  /\ Payment.sequence y = 2 /\ outputs (Payment.tx y) = [].
Proof.
  destruct (payments_conserve [300; 700] demo_payment 1000 0 demo_paying) as (y & Hy & _ & Hs & _ & Ho).
  - intros [|[|[|n]]]; cbn; lia.
  - exists y. split; [exact Hy|]. split; [exact Hs|]. rewrite Ho; [reflexivity|discriminate].
Defined.

Lemma provider_never_accepts_witness : exists e pr,
  Provider.validPayment (Payment.tx (snd ((Payment.updateValue (num_of_Z 300);; Payment.sign demo_key (Some 131)) demo_payment))) pr = (Throw e, pr).
Proof.
  set (pr := @Provider.mk demo_ecdsa livenet (mkAddress (repeat 6 20) livenet PayToPublicKeyHash) (num_of_Z 0) 4 None None).
  destruct (provider_never_accepts demo_payment 1000 0 300 demo_key (Some 131) pr demo_paying) as (e & He).
  - lia.
  - discriminate.
  - exists e, pr. exact He.
Defined.
End Witnesses.
