(* ===== verification/Settlement.v ===== *)
(** * Settling a channel: both parties sign, the network accepts

    The transactions that spend the channel's 2-of-2 output: signed by the client and by the
    server, in either order, they pass the interpreter. *)
From S2P Require Import Prelude JsNumber JsValue Unit Encoding Signature Script Base58 Keys Transaction TxObject Interpreter InterpreterSpec Spending Multisig Channel ChannelSpec.
Local Open Scope Z_scope.
Local Open Scope js_scope.

Module SettlementLemmas.
Import Transaction Codec Sighash WireFormat SighashLemmas SigningLemmas SpendingLemmas MultisigLemmas ScriptLemmas.

Lemma keys_bytes_ok ks : Forall (fun k => bytes_ok k /\ zlen k <= 75) ks -> bytes_ok (keys_bytes ks).
Proof.
  induction 1 as [|k ks (Hk & Hl) _ IH]; [apply Forall_nil_2|]. unfold keys_bytes in *. cbn [mbind list_bind app].
  pose proof (zlen_nonneg k). apply Forall_cons_2; [unfold byte_ok; lia|]. apply Forall_app. by split.
Qed.

Section TwoOfTwo.
Context `{CryptoLaws} `{Ecdsa} `{!EcdsaLaws} `{!DerLaws} `{Hashes}.
Variables (k1 k2 : list Z).
Hypothesis Hk1 : compressed_key k1.
Hypothesis Hk2 : compressed_key k2.
Hypothesis Hk1ok : bytes_ok k1.
Hypothesis Hk2ok : bytes_ok k2.
Hypothesis Hne : k1 <> k2.

Definition keys2 : list (list Z) := [k1; k2].
Definition redeem2 : Script.t := multisig_redeem 2 keys2.
Definition bytes2 : list Z := multisig_bytes 2 keys2.

Lemma keys2_ok : Forall compressed_key keys2.
Proof. do 2 (apply Forall_cons_2; [done|]). apply Forall_nil_2. Qed.

Lemma bytes2_ok : bytes_ok bytes2 /\ zlen bytes2 = 71.
Proof.
  split.
  - assert (bytes2 = [82; 33] ++ k1 ++ [33] ++ k2 ++ [82; 174]) as ->.
    { unfold bytes2, multisig_bytes, keys_bytes, keys2. cbn [mbind list_bind app].
      by rewrite (proj1 (proj2 Hk1)), (proj1 (proj2 Hk2)), app_nil_r, <-app_assoc. }
    assert (Forall byte_ok [82; 33; 33; 82; 174]) as Hc by (apply (bool_decide_unpack _); by vm_compute).
    rewrite !Forall_app. repeat (apply Forall_cons in Hc as [? Hc]). split_and!; try done; repeat (apply Forall_cons_2; [done|]); apply Forall_nil_2.
  - unfold bytes2, multisig_bytes. rewrite zlen_cons, zlen_app, (keys_bytes_compressed _ keys2_ok). reflexivity.
Qed.

Lemma redeem2_subscript : subscript_bytes redeem2 bytes2.
Proof.
  destruct (redeem_prints 2 keys2) as (Hp & Hf); [split; by vm_compute|by vm_compute|apply keys2_ok|].
  exists redeem2. split; [unfold Script_copy, redeem2; by rewrite Hp|]. split; [|split; [apply bytes2_ok|rewrite (proj2 bytes2_ok); lia]].
  assert (Script.removeCodeseparators redeem2 = redeem2) as ->; [|exact Hp].
  unfold Script.removeCodeseparators, redeem2, multisig_redeem, keys2, key_push, upd. cbn [Script.chunks Script._network fmap list_fmap app].
  rewrite (proj1 (proj2 Hk1)), (proj1 (proj2 Hk2)). reflexivity.
Qed.

(** *** The input that spends the channel, with some signatures *)

Definition slots : Type := option TransactionSignature * option TransactionSignature.
Definition present (sl : slots) : list (list Z * Z) :=
  omap (fun s => (fun s => (sig_signature s, sig_sigtype s)) <$> s) [fst sl; snd sl].
Definition msig (sl : slots) : Input.multisig := Input.mkMultisig keys2 redeem2 2 [fst sl; snd sl].

(** What [_updateScript] leaves in an input *)
Definition holding (sl : slots) (i : Input.t) : Prop :=
  Input.kind i = Input.MultiSigScriptHash (msig sl) /\ Input._script i = Some (spend_multisig (present sl) bytes2)
  /\ Script.toBuffer (spend_multisig (present sl) bytes2) = Ok (Input._scriptBuffer i).

(** The fields that [_updateScript] does not touch *)
Definition same_input (i j : Input.t) : Prop :=
  Input.output i = Input.output j /\ Input.prevTxId i = Input.prevTxId j /\ Input.outputIndex i = Input.outputIndex j
  /\ Input.sequenceNumber i = Input.sequenceNumber j.

Definition good_slot (s : option TransactionSignature) : Prop :=
  match s with Some s => good_sig (sig_signature s, sig_sigtype s) | None => True end.

Lemma present_good sl : good_slot (fst sl) -> good_slot (snd sl) -> Forall good_sig (present sl).
Proof. destruct sl as [[s|] [s'|]]; cbn; intros; repeat (apply Forall_cons_2; [done|]); apply Forall_nil_2. Qed.

Lemma present_size sl : zlen (present sl) <= 2.
Proof. by destruct sl as [[s|] [s'|]]. Qed.

Lemma spend_prints sl : Forall good_sig (present sl) -> exists w,
  Script.toBuffer (spend_multisig (present sl) bytes2) = Ok w /\ short_script w.
Proof.
  intros Hg. pose proof bytes2_ok as [Hbok Hbl].
  assert (Forall (fun k => 1 <= zlen k <= 75) ((raw <$> present sl) ++ [bytes2])) as Hraw.
  { apply Forall_app. split; [|apply Forall_singleton; lia]. apply Forall_fmap. eapply Forall_impl; [exact Hg|]. intros s Hs.
    pose proof (raw_size s Hs). unfold compose. lia. }
  assert (spend_multisig (present sl) bytes2 = Script.mk (Script.mkChunk 0 None :: (key_push <$> ((raw <$> present sl) ++ [bytes2]))) None) as ->.
  { unfold spend_multisig. rewrite fmap_app, data_push_small by lia. reflexivity. }
  set (cs := (raw <$> present sl) ++ [bytes2]) in *.
  pose proof (prints_keys cs [] [] Hraw eq_refl) as Hp. rewrite !app_nil_r in Hp.
  exists (0 :: keys_bytes cs). assert (Script.toBuffer (Script.mk (Script.mkChunk 0 None :: (key_push <$> cs)) None) = Ok (0 :: keys_bytes cs)) as Hpr
    by (by apply prints_op).
  split; [exact Hpr|]. pose proof (keys_bytes_length cs Hraw) as Hl. pose proof (present_size sl) as Hn.
  assert (zlen cs = zlen (present sl) + 1) as Hcs by (unfold cs; rewrite zlen_app, zlen_fmap; reflexivity).
  split; [|split; [rewrite zlen_cons; lia|]].
  - apply Forall_cons_2; [unfold byte_ok; lia|]. apply keys_bytes_ok. unfold cs. apply Forall_app. split; [|by apply Forall_singleton; split; [|lia]].
    apply Forall_fmap. eapply Forall_impl; [exact Hg|]. intros s Hs. pose proof (raw_size s Hs). destruct Hs as [Hd [Hty _]].
    unfold compose. split; [|lia]. unfold raw. apply Forall_app. split; [by apply der_ok|]. apply Forall_singleton. unfold byte_ok. lia.
  - destruct (fromBuffer_toBuffer (Script.mkChunk 0 None :: (key_push <$> cs))) as (b & Hb & Hf).
    { apply Forall_cons_2; [by left|]. apply Forall_fmap. eapply Forall_impl; [exact Hraw|]. intros k Hk. cbv beta in Hk.
      unfold compose, wf_chunk, key_push. cbn [Script.push Script.opcodenum]. split; [done|left; lia]. }
    rewrite Hpr in Hb. injection Hb as <-. eexists _, _. split; [apply Hf; rewrite zlen_cons; lia|exact Hpr].
Qed.

Lemma createSignatures_eq sl : good_slot (fst sl) -> good_slot (snd sl) -> Input.createSignatures (msig sl) = raw <$> present sl.
Proof.
  assert (forall s, good_slot (Some s) -> sig_sigtype s mod 256 = sig_sigtype s) as Hmod.
  { intros s (_ & Hty & _). cbn in Hty. by apply Z.mod_small. }
  destruct sl as [[s|] [s'|]]; cbn [fst snd]; intros Hs Hs'; unfold Input.createSignatures, present, raw; cbn; by rewrite ?Hmod by done.
Qed.

Lemma updateScript_eq sl i : good_slot (fst sl) -> good_slot (snd sl) ->
  exists i', Input.updateScript (msig sl) (i <| Input.kind := Input.MultiSigScriptHash (msig sl) |>) = Ok i'
    /\ holding sl i' /\ same_input i' i /\ short_script (Input._scriptBuffer i').
Proof.
  intros Hs Hs'. pose proof (present_good sl Hs Hs') as Hg. destruct (spend_prints sl Hg) as (w & Hw & Hsw).
  unfold Input.updateScript. rewrite createSignatures_eq by done. cbn [msig Input.publicKeys Input.threshold Input.redeemScript].
  unfold redeem2. rewrite spend_multisig_built; [|split; by vm_compute|by vm_compute|apply keys2_ok|done].
  cbn [mbind result_bind]. unfold Input.setScript. unfold bytes2 in Hw. rewrite Hw. cbn [mbind result_bind].
  eexists. split; [reflexivity|]. split; [|split; [by split_and!|exact Hsw]]. split; [done|]. split; [done|]. exact Hw.
Qed.

(** The key of a slot, and a slot filled *)
Definition key_at (second : bool) : list Z := if second then k2 else k1.
Definition slot (second : bool) (sl : slots) : option TransactionSignature := if second then snd sl else fst sl.
Definition put (second : bool) (s : TransactionSignature) (sl : slots) : slots :=
  if second then (fst sl, Some s) else (Some s, snd sl).

Lemma publicKeyIndex_eq sl b : Input.publicKeyIndex (msig sl) (key_at b) = Some (if b then 1 else 0)%nat.
Proof.
  unfold Input.publicKeyIndex, msig, keys2. cbn [Input.publicKeys Input.index_from]. destruct b; cbn [key_at].
  - by rewrite bool_decide_true.
  - by rewrite bool_decide_false, bool_decide_true by congruence.
Qed.

Lemma missing_one sl b : slot b sl = None -> (Input.countSignatures (msig sl) =? Input.threshold (msig sl)) = false.
Proof. destruct sl as [[s|] [s'|]], b; try done; intros _; reflexivity. Qed.


(** The type a signature gets *)
Definition type_of (sigtype : option Z) : Z := match sigtype with None | Some 0 => SIGHASH_ALL | Some n => n end.

(** A transaction with one input, the channel's *)
Record spends_channel (x : Transaction.t) (i : Input.t) (sl : slots) : Prop := {
  sp_inputs : inputs x = [i];
  sp_kind : Input.kind i = Input.MultiSigScriptHash (msig sl);
  sp_output : exists o net, Input.output i = Some o /\ Output.script o = Ok (p2sh_script (sha256ripemd160 bytes2) net);
  sp_hashable : hashable x;
  sp_good : good_slot (fst sl) /\ good_slot (snd sl);
}.

Definition with_input (i : Input.t) (x : Transaction.t) : Transaction.t := x <| inputs := [i] |>.

Lemma spends_hash x i sl ty : spends_channel x i sl -> 0 <= ty < 256 -> sighash x ty 0 redeem2
  = Ok (if is_single ty && (length (outputs x) <=? 0)%nat then SIGHASH_SINGLE_BUG
        else rev (sha256sha256 (tx_bytes (sig_tx x ty 0 bytes2) ++ le4 ty))).
Proof.
  intros [Hi _ _ Hx _] Hty. apply (sighash_eq x ty 0 redeem2 bytes2 i); [apply Hx|by apply hashable_size| |by rewrite Hi|apply redeem2_subscript|lia].
  destruct Hx as (_ & Hs & _). eapply Forall_impl; [exact Hs|]. by intros ? (_ & _ & ?).
Qed.

(** The signatures an input holds do not influence what is signed. *)
Lemma spends_same x i sl i' sl' ty : spends_channel x i sl -> spends_channel (with_input i' x) i' sl' -> same_input i' i -> 0 <= ty < 256 ->
  sighash (with_input i' x) ty 0 redeem2 = sighash x ty 0 redeem2.
Proof.
  intros Hx Hy (_ & Hid & Hix & Hsq) Hty. rewrite (spends_hash _ _ _ ty Hy Hty), (spends_hash _ _ _ ty Hx Hty).
  change (outputs (with_input i' x)) with (outputs x).
  assert (sig_tx (with_input i' x) ty 0 bytes2 = sig_tx x ty 0 bytes2) as ->; [|done].
  unfold sig_tx, with_input, upd. cbn [version inputs outputs nLockTime]. rewrite (sp_inputs _ _ _ Hx).
  unfold sig_inputs. cbn. unfold sig_input. by rewrite Hid, Hix, Hsq.
Qed.

Lemma with_input_hashable x i i' : hashable x -> inputs x = [i] -> same_input i' i -> short_script (Input._scriptBuffer i') ->
  hashable (with_input i' x).
Proof.
  intros ((Hv & Hl & Hi & Ho & Hni & Hno) & Hs & Hlen) Hin (_ & Hid & Hix & Hsq) Hsh. rewrite Hin in *.
  apply Forall_singleton in Hi as (Hi1 & Hi2 & Hi3 & Hi4 & _). unfold hashable, wf_tx, with_input, upd. cbn [version inputs outputs nLockTime].
  split; [|split; [by apply Forall_singleton|done]]. split_and!; try done. apply Forall_singleton. unfold wf_input.
  rewrite Hid, Hix, Hsq. destruct Hsh as (? & ? & _). split_and!; try done. lia.
Qed.

(** *** Signing *)

Definition new_sig (key : PrivateKey) (i : Input.t) (h : list Z) (ty : Z) : TransactionSignature :=
  mkSig (toPublicKey key) (Input.prevTxId i) (Input.outputIndex i) 0 (ecdsa_sign h key) ty.

Lemma new_sig_good key i h ty : defined_type ty -> good_slot (Some (new_sig key i h ty)).
Proof. intros Hty. split; [apply sign_der|exact Hty]. Qed.

Lemma filter_keys b : filter (fun k => k = key_at b) keys2 = [key_at b].
Proof.
  unfold keys2. destruct b; cbn [key_at].
  - rewrite filter_cons_False, filter_cons_True by done. done.
  - rewrite filter_cons_True, filter_cons_False by congruence. done.
Qed.

Lemma sign_step x i sl b b' key sigtype h : spends_channel x i sl -> slot b' sl = None -> toPublicKey key = key_at b ->
  defined_type (type_of sigtype) -> sighash x (type_of sigtype) 0 redeem2 = Ok h ->
  let sl' := put b (new_sig key i h (type_of sigtype)) sl in
  exists i', Signing.sign key sigtype x = (Ok tt, with_input i' x) /\ spends_channel (with_input i' x) i' sl'
    /\ holding sl' i' /\ same_input i' i.
Proof.
  intros Hx Hslot Hkey Hty Hh sl'. destruct (sp_output _ _ _ Hx) as (o & net & Ho & Hos). destruct (sp_good _ _ _ Hx) as [Hg1 Hg2].
  set (s := new_sig key i h (type_of sigtype)) in *. pose proof (new_sig_good key i h (type_of sigtype) Hty) as Hs. fold s in Hs.
  assert (good_slot (fst sl') /\ good_slot (snd sl')) as [Hg1' Hg2'] by (by unfold sl', put; destruct b).
  destruct (updateScript_eq sl' i Hg1' Hg2') as (i' & Hup & Hold & Hsame & Hsh). exists i'.
  assert (Signing.input_getSignatures x key 0 (type_of sigtype) i = Ok [s]) as Hget.
  { unfold Signing.input_getSignatures. rewrite (sp_kind _ _ _ Hx), Ho. cbn [guard_or mbind result_bind Input.publicKeys Input.redeemScript msig].
    rewrite Hkey, filter_keys. cbn [Sighash.map_result]. unfold Sighash.sign. rewrite Hh. cbn [mbind result_bind].
    unfold s, new_sig. by rewrite Hkey. }
  assert (Signing.input_addSignature x i s = Ok i') as Hadd.
  { unfold Signing.input_addSignature. rewrite (sp_kind _ _ _ Hx), (missing_one sl b' Hslot). cbn [negb guard_or mbind result_bind].
    change (sig_publicKey s) with (toPublicKey key). rewrite Hkey, publicKeyIndex_eq. unfold Signing.isValidSignature, Signing.input_subscript.
    rewrite (sp_kind _ _ _ Hx). cbn [mbind result_bind msig Input.redeemScript]. unfold Sighash.verify.
    change (sig_sigtype s) with (type_of sigtype). change (sig_inputIndex s) with 0%nat. rewrite Hh. cbn [mbind result_bind].
    change (sig_signature s) with (ecdsa_sign h key). change (sig_publicKey s) with (toPublicKey key). rewrite verify_sign. cbn [guard_or mbind result_bind].
    rewrite <-Hup. f_equal; [unfold sl', put, msig, upd; by destruct b|]. unfold sl', put, msig, upd. by destruct b. }
  split; [|split; [|by split]].
  - unfold Signing.sign. rewrite (js_bind_ok js_get _ _ _ _ eq_refl). unfold hasAllUtxoInfo. rewrite (sp_inputs _ _ _ Hx). cbn [forallb]. rewrite Ho.
    rewrite (js_bind_ok (js_lift _) _ _ tt _ eq_refl). unfold Signing.getSignatures. rewrite (sp_inputs _ _ _ Hx). fold (type_of sigtype).
    cbn [Signing.each_signatures]. rewrite Hget. cbn [mbind result_bind app]. rewrite (js_bind_ok (js_lift _) _ _ [s] _ eq_refl).
    cbn [js_each]. unfold mbind at 1, js_bind at 1. unfold Signing.applySignature. js_look. change (sig_inputIndex s) with 0%nat.
    rewrite (sp_inputs _ _ _ Hx). cbn [lookup list_lookup]. rewrite Hadd. rewrite (js_bind_ok (js_lift _) _ _ i' _ eq_refl).
    unfold js_modify, with_input, upd. rewrite (sp_inputs _ _ _ Hx). reflexivity.
  - split; [done|apply Hold| | |done].
    + exists o, net. by rewrite (proj1 Hsame).
    + apply (with_input_hashable x i i'); [apply (sp_hashable _ _ _ Hx)|apply (sp_inputs _ _ _ Hx)|done|done].
Qed.

(** *** Both signatures *)

(** The signature in a slot is one of [x] under the key of the slot. *)
Definition valid_in (x : Transaction.t) (b : bool) (s : TransactionSignature) : Prop :=
  Sighash.verify x (sig_signature s) (sig_sigtype s) (key_at b) 0 redeem2 = Ok true.

Lemma new_sig_valid x i key b h ty : toPublicKey key = key_at b -> sighash x ty 0 redeem2 = Ok h -> valid_in x b (new_sig key i h ty).
Proof.
  intros Hk Hh. unfold valid_in, Sighash.verify. cbn [sig_sigtype sig_signature new_sig]. rewrite Hh. cbn [mbind result_bind].
  by rewrite <-Hk, verify_sign.
Qed.

Lemma both_verify x i s1 s2 fl : spends_channel x i (Some s1, Some s2) -> holding (Some s1, Some s2) i ->
  valid_in x false s1 -> valid_in x true s2 -> Interpreter.has fl Interpreter.SCRIPT_VERIFY_P2SH = true -> Interpreter.has fl Interpreter.SCRIPT_VERIFY_LOW_S = false ->
  exists scriptSig o prev, Input.script i = Ok scriptSig /\ Input.output i = Some o /\ Output.script o = Ok prev
    /\ Interpreter.verify_script scriptSig prev x 0 fl = Ok true.
Proof.
  intros Hx (_ & Hscr & _) Hv1 Hv2 Hp Hlow. destruct (sp_output _ _ _ Hx) as (o & net & Ho & Hos).
  exists (spend_multisig (present (Some s1, Some s2)) bytes2), o, (p2sh_script (sha256ripemd160 bytes2) net).
  split; [unfold Input.script; by rewrite Hscr|]. split; [done|]. split; [done|].
  destruct (sp_good _ _ _ Hx) as [Hg1 Hg2].
  unfold bytes2. rewrite (verify_multisig 2 keys2); [|split; by vm_compute|by vm_compute|apply keys2_ok|by apply present_good|done|done|apply hash160_length|done].
  rewrite bool_decide_true by done. cbn [andb]. f_equal. unfold decision. apply matchable_rev. exists keys2. split; [done|].
  apply Forall2_cons_2; [apply signs_true; exact Hv1|]. apply Forall2_cons_2; [apply signs_true; exact Hv2|]. apply Forall2_nil_2.
Qed.

Lemma both_full x i s1 s2 : spends_channel x i (Some s1, Some s2) -> Signing.isFullySigned x = Ok true.
Proof.
  intros Hx. unfold Signing.isFullySigned. rewrite (sp_inputs _ _ _ Hx). cbn [existsb Sighash.map_result].
  unfold Input.isFullySigned. rewrite (sp_kind _ _ _ Hx). reflexivity.
Qed.

(** The server completes what the client signed. *)
Lemma complete x i s1 key sigtype : spends_channel x i (Some s1, None) -> valid_in x false s1 -> toPublicKey key = k2 ->
  defined_type (type_of sigtype) ->
  exists i2 s2, Signing.sign key sigtype x = (Ok tt, with_input i2 x)
    /\ spends_channel (with_input i2 x) i2 (Some s1, Some s2) /\ holding (Some s1, Some s2) i2 /\ same_input i2 i
    /\ valid_in (with_input i2 x) false s1 /\ valid_in (with_input i2 x) true s2.
Proof.
  intros Hx Hv1 Hkey Hty. pose proof (spends_hash x i _ (type_of sigtype) Hx ltac:(destruct Hty; lia)) as Hh.
  destruct (sign_step x i _ true true key sigtype _ Hx eq_refl Hkey Hty Hh) as (i2 & Hsign & Hx2 & Hold & Hsame).
  cbn [put fst] in *. destruct (sp_good _ _ _ Hx) as [(_ & Hg & _) _]. cbn in Hg.
  pose proof (spends_same x i _ i2 _ (sig_sigtype s1) Hx Hx2 Hsame ltac:(lia)) as He1.
  pose proof (spends_same x i _ i2 _ (type_of sigtype) Hx Hx2 Hsame ltac:(destruct Hty; lia)) as He2. rewrite Hh in He2.
  pose proof (new_sig_valid _ i key true _ _ Hkey He2) as Hv2.
  eexists i2, _. split; [exact Hsign|]. split; [exact Hx2|]. split; [exact Hold|]. split; [exact Hsame|].
  split; [|exact Hv2]. unfold valid_in, Sighash.verify in *. by rewrite He1.
Qed.

(** The two parties sign, whoever comes first. *)
Lemma two_sign x i b first second ty1 ty2 : spends_channel x i (None, None) ->
  toPublicKey first = key_at b -> toPublicKey second = key_at (negb b) -> defined_type (type_of ty1) -> defined_type (type_of ty2) ->
  exists i1 i2 s1 s2, Signing.sign first ty1 x = (Ok tt, with_input i1 x) /\ Signing.sign second ty2 (with_input i1 x) = (Ok tt, with_input i2 x)
    /\ spends_channel (with_input i2 x) i2 (Some s1, Some s2) /\ holding (Some s1, Some s2) i2 /\ same_input i2 i
    /\ valid_in (with_input i2 x) false s1 /\ valid_in (with_input i2 x) true s2.
Proof.
  intros Hx Hk1' Hk2' Hty1 Hty2. assert (slot b (None, None) = None) as Hs1 by (by destruct b).
  pose proof (spends_hash x i _ (type_of ty1) Hx ltac:(destruct Hty1; lia)) as Hh1.
  destruct (sign_step x i _ b b first ty1 _ Hx Hs1 Hk1' Hty1 Hh1) as (i1 & Hsign1 & Hx1 & _ & Hsame1).
  set (sl1 := put b _ (None, None)) in *. assert (slot (negb b) sl1 = None) as Hs2 by (by destruct b).
  pose proof (spends_hash _ _ _ (type_of ty2) Hx1 ltac:(destruct Hty2; lia)) as Hh2.
  destruct (sign_step _ i1 sl1 (negb b) (negb b) second ty2 _ Hx1 Hs2 Hk2' Hty2 Hh2) as (i2 & Hsign2 & Hx2 & Hold2 & Hsame2).
  change (with_input i2 (with_input i1 x)) with (with_input i2 x) in *.
  assert (same_input i2 i) as Hsame by (destruct Hsame1 as (? & ? & ? & ?), Hsame2 as (? & ? & ? & ?); split_and!; congruence).
  pose proof (spends_same x i _ i2 _ (type_of ty1) Hx Hx2 Hsame ltac:(destruct Hty1; lia)) as He1.
  pose proof (spends_same (with_input i1 x) i1 _ i2 _ (type_of ty2) Hx1 Hx2 Hsame2 ltac:(destruct Hty2; lia)) as He2.
  change (with_input i2 (with_input i1 x)) with (with_input i2 x) in *. rewrite Hh1 in He1. rewrite Hh2 in He2.
  pose proof (new_sig_valid _ i first b _ _ Hk1' He1) as Hv1. pose proof (new_sig_valid _ i1 second (negb b) _ _ Hk2' He2) as Hv2.
  exists i1, i2. destruct b; cbn [negb] in *; eexists _, _.
  - split; [exact Hsign1|]. split; [exact Hsign2|]. split; [exact Hx2|]. split; [exact Hold2|]. split; [exact Hsame|]. by split.
  - split; [exact Hsign1|]. split; [exact Hsign2|]. split; [exact Hx2|]. split; [exact Hold2|]. split; [exact Hsame|]. by split.
Qed.

(** *** The refund *)

Import FundingLemmas CommitmentLemmas PaymentLemmas RefundLemmas AmountLemmas.

Lemma bytes2_redeem : bytes2 = redeem_bytes k1 k2.
Proof.
  destruct (redeem_build k1 k2 (proj1 (proj2 Hk1)) (proj1 (proj2 Hk2))) as [_ Hb].
  destruct (redeem_prints 2 keys2) as (Hp & _); [split; by vm_compute|by vm_compute|apply keys2_ok|].
  apply (f_equal (fun r => match r with Ok b => b | Throw _ => [] end)) in Hp. unfold keys2 in Hp at 1. rewrite Hb in Hp. by symmetry.
Qed.

Lemma address_bytes_ok back : zlen (hashBuffer back) = 20 -> bytes_ok (hashBuffer back) ->
  zlen (address_bytes back) <= 25 /\ bytes_ok (address_bytes back).
Proof.
  intros Hb Hok. assert (Forall byte_ok [169; 20; 135; 118; 136; 172]) as Hc by (apply (bool_decide_unpack _); by vm_compute).
  repeat (apply Forall_cons in Hc as [? Hc]). unfold address_bytes, p2sh_script_bytes.
  destruct (addr_type back); rewrite !zlen_cons, zlen_app, Hb; (split; [by vm_compute|]); rewrite ?Forall_cons, ?Forall_app, ?Forall_cons, ?Forall_nil; by split_and!.
Qed.

Lemma refund_spends now id a back : zlen id = 32 -> bytes_ok id -> 0 <= a < 2 ^ 51 -> zlen (hashBuffer back) = 20 ->
  bytes_ok (hashBuffer back) -> u32 (in_one_day now) ->
  spends_channel (refund_of now id k1 k2 a back) (refund_input id k1 k2 a) (None, None).
Proof.
  intros Hid Hidok Ha Hb Hbok Hlock. split; [done|done| | |done].
  - eexists _, None. split; [reflexivity|]. unfold Output.script. cbn. rewrite bytes2_redeem. reflexivity.
  - destruct (address_bytes_ok back Hb Hbok) as [Hal Haok]. pose proof (zlen_nonneg (address_bytes back)).
    assert (0 <= a < 2 ^ 64) as Ha64 by lia. split; [|split].
    + unfold wf_tx, refund_of. cbn [version nLockTime inputs outputs]. split_and!; try done.
      * apply Forall_singleton. unfold wf_input. split_and!; try done.
      * apply Forall_singleton. unfold wf_output, output_of. cbn [Output._satoshisBN Output._scriptBuffer].
        rewrite BN_fromNumber_small by lia. split_and!; try done; lia.
    + apply Forall_singleton. split; [apply Forall_nil_2|]. split; [done|]. by exists Script.empty, [].
    + cbn [inputs outputs refund_of]. change (zlen [refund_input id k1 k2 a]) with 1. cbn [mbind list_bind]. rewrite app_nil_r.
      unfold output_bytes, output_of. cbn [Output._satoshisBN Output._scriptBuffer]. rewrite BN_fromNumber_small by lia.
      rewrite !zlen_app, zlen_varint_bytes, (proj1 (u64_codec_bytes a Ha64)).
      pose proof (varint_size_bound (zlen (address_bytes back))). lia.
Qed.
End TwoOfTwo.

(** *** Opening the channel *)

Section Opening.
Import FundingLemmas CommitmentLemmas PaymentLemmas RefundLemmas AmountLemmas.
Context `{CryptoLaws} `{Ecdsa} `{!EcdsaLaws} `{!DerLaws} `{Hashes}.

Lemma id_ok x : hashable x -> exists id, Signing.id_ x = Ok id /\ zlen id = 32 /\ bytes_ok id.
Proof.
  intros Hx. unfold Signing.id_, Signing.getHash. rewrite toBuffer_bytes by apply Hx. eexists. split; [reflexivity|].
  split; [unfold zlen; rewrite length_rev; apply hash256_length|]. apply Forall_rev, hash256_ok.
Qed.

(** Signing a commitment leaves it committed. *)
Lemma committed_signed cs csb x y zs : committed cs csb x zs -> same_but_scripts y x -> committed cs csb y zs.
Proof.
  intros Hx [Hf Hi]. assert (outputs y = outputs x) as Ho by exact (f_equal outputs Hf).
  assert (_changeScript y = _changeScript x) as Hcs by exact (f_equal _changeScript Hf).
  assert (_fee y = _fee x) as Hfee by exact (f_equal _fee Hf).
  assert (_inputAmount y = _inputAmount x) as Hia by exact (f_equal _inputAmount Hf).
  assert (_outputAmount y = _outputAmount x) as Hoa by exact (f_equal _outputAmount Hf).
  assert (_changeIndex y = _changeIndex x) as Hci by exact (f_equal _changeIndex Hf).
  destruct Hx as [H1' H2' H3' H4' H5' H6']. split.
  - by rewrite Hcs.
  - by rewrite Hfee.
  - assert (forall l, Forall is_p2pkh (unscript <$> l) <-> Forall is_p2pkh l) as Hq by (intros l; apply Forall_fmap).
    apply Hq. rewrite Hi. by apply Hq.
  - assert (forall l, Forall2 funded (unscript <$> l) zs <-> Forall2 funded l zs) as Hq by (intros l; apply Forall2_fmap_l).
    apply Hq. rewrite Hi. by apply Hq.
  - by rewrite Hia.
  - by rewrite Ho, Hci, Hoa.
Qed.

(** Filling the caches leaves it committed. *)
Lemma committed_cached cs csb x zs : zs <> [] -> committed cs csb x zs ->
  committed cs csb (with_caches (sum zs) (channel_value zs) (x <| _inputAmount := Some (num_of_Z (sum zs)) |>)) zs.
Proof.
  intros Hne [H1' H2' H3' H4' H5' H6']. split; try done; [by right|]. right. destruct H6' as [(? & _)|(Ho & Hc & _)]; [done|].
  split; [exact Ho|]. split; [exact Hc|]. by right.
Qed.

(** A funded channel, before anything is signed: [k2] is the provider's key, [zs] the funding. *)
Record funded_channel (c : Consumer.t) (k2 : list Z) (zs : list Z) : Prop := {
  fc_keys : Commitment.publicKeys (Consumer.commitmentTx c) = [toPublicKey (Consumer.commitmentKey c); k2];
  fc_tx : let h := channel_hash (toPublicKey (Consumer.commitmentKey c)) k2 in
    committed (p2sh_script h (Some livenet)) (p2sh_script_bytes h) (Commitment.tx (Consumer.commitmentTx c)) zs;
  fc_funding : zs <> [] /\ Forall (fun z => 1000 < z) zs /\ sum zs < 2 ^ 51 /\ zlen zs < 2 ^ 20;
  fc_hashable : hashable (Commitment.tx (Consumer.commitmentTx c));
  fc_signable : Forall (signable (Consumer.fundingKey c)) (inputs (Commitment.tx (Consumer.commitmentTx c)));
  fc_back : let a := Consumer.refundAddress c in zlen (hashBuffer a) = 20 /\ bytes_ok (hashBuffer a) /\ addr_network a = Consumer.network_ c;
}.

Definition with_refund (x : Transaction.t) (c : Consumer.t) : Consumer.t :=
  Consumer.mk (Consumer.network_ c) (Consumer.expires c) (Consumer.commitmentKey c) (Consumer.providerPublicKey c) (Consumer.providerAddress c)
    (Consumer.fundingKey c) (Consumer.fundingAddress c) (Consumer.refundAddress c) (Consumer.commitmentTx c) (Some x) (Consumer.paymentTx c).
Definition with_payment (p : Payment.t) (c : Consumer.t) : Consumer.t :=
  Consumer.mk (Consumer.network_ c) (Consumer.expires c) (Consumer.commitmentKey c) (Consumer.providerPublicKey c) (Consumer.providerAddress c)
    (Consumer.fundingKey c) (Consumer.fundingAddress c) (Consumer.refundAddress c) (Consumer.commitmentTx c) (Consumer.refundTx c) (Some p).

(** The value of a signed channel, and the output it is in *)
Lemma signed_value c k2 zs y : funded_channel c k2 zs ->
  (let h := channel_hash (toPublicKey (Consumer.commitmentKey c)) k2 in committed (p2sh_script h (Some livenet)) (p2sh_script_bytes h) y zs) ->
  Consumer.commitment_value (with_tx c y) = (Ok (num_of_Z (returned zs)),
    with_tx c (with_caches (sum zs) (channel_value zs) (y <| _inputAmount := Some (num_of_Z (sum zs)) |>)))
  /\ 0 < returned zs < 2 ^ 51.
Proof.
  intros Hc Hy. destruct (fc_funding _ _ _ Hc) as (Hne & Hen & Hsum & Hlen). set (h := channel_hash _ k2) in *.
  assert (zlen h = 20) as Hh by apply hash160_length.
  destruct (commitment_value_eq (with_tx c y) _ _ zs Hy Hne Hen Hsum ltac:(lia) (p2sh_bytes _ _) ltac:(unfold p2sh_script_bytes; by rewrite !zlen_cons, zlen_app, Hh)) as (Hv & _).
  split; [exact Hv|]. pose proof (returned_pos zs Hen Hne ltac:(lia)). pose proof (zlen_nonneg zs).
  unfold channel_value in *. destruct (fee_for_bounds (26 + 107 * zlen zs) (sum zs) ltac:(lia)) as [? ?]. lia.
Qed.

Lemma channel_out c k2 zs y v id : zs <> [] -> 
  (let h := channel_hash (toPublicKey (Consumer.commitmentKey c)) k2 in committed (p2sh_script h (Some livenet)) (p2sh_script_bytes h) y zs) ->
  Signing.id_ y = Ok id ->
  Consumer.multisigOut (with_tx c y) v = Ok (mkUnspent id 0 (p2sh_script (channel_hash (toPublicKey (Consumer.commitmentKey c)) k2) (Some livenet)) v).
Proof.
  intros Hne Hy Hid. unfold Consumer.multisigOut. change (Commitment.tx (Consumer.commitmentTx (with_tx c y))) with y.
  rewrite Hid. cbn [mbind result_bind]. destruct (com_out _ _ _ _ Hy) as [(? & _)|(-> & _)]; [done|]. reflexivity.
Qed.
(** [setupRefund] signs the commitment; when every signature is recognised it builds the refund of what
    the commitment locks, and otherwise it throws. *)
Lemma setup_exact now c k2 zs : funded_channel c k2 zs -> zlen k2 = 33 ->
  exists y y' id, Signing.sign (Consumer.fundingKey c) None (Commitment.tx (Consumer.commitmentTx c)) = (Ok tt, y)
    /\ inputs y' = inputs y /\ outputs y' = outputs y
    /\ zlen id = 32 /\ bytes_ok id /\ Signing.id_ y' = Ok id /\ hashable y'
    /\ (let h := channel_hash (toPublicKey (Consumer.commitmentKey c)) k2 in committed (p2sh_script h (Some livenet)) (p2sh_script_bytes h) y' zs)
    /\ (forall j i, inputs y !! j = Some i -> spent (Consumer.fundingKey c) SIGHASH_ALL y j i)
    /\ outpoints y = outpoints (Commitment.tx (Consumer.commitmentTx c))
    /\ let r := refund_of now id (toPublicKey (Consumer.commitmentKey c)) k2 (returned zs) (Consumer.refundAddress c) in
       Consumer.setupRefund now c = if forallb recognised (inputs y) then (Ok r, with_refund r (with_tx c y')) else (Throw InvalidState, with_tx c y).
Proof.
  intros Hc Hk2. destruct (fc_funding _ _ _ Hc) as (Hne & _).
  destruct (sign_p2pkh_spent _ _ (fc_hashable _ _ _ Hc) (fc_signable _ _ _ Hc) (fun h => sign_size h _)) as (y & Hy & Hall & Hhy & Hsame).
  pose proof (committed_signed _ _ _ _ _ (fc_tx _ _ _ Hc) Hsame) as Hcy.
  destruct (signed_value c k2 zs y Hc Hcy) as (Hv & Hpos).
  set (y' := with_caches _ _ _) in Hv. pose proof (committed_cached _ _ _ _ Hne Hcy) as Hcy'. fold y' in Hcy'.
  destruct (id_ok y Hhy) as (id & Hid & Hidl & Hidok). exists y, y', id. do 5 (split; [done|]). split; [exact Hid|]. split; [exact Hhy|].
  split; [exact Hcy'|]. split; [exact Hall|]. split.
  { destruct Hsame as [_ Hi]. unfold outpoints.
    apply (f_equal (fmap (fun i => (Input.prevTxId i, Input.outputIndex i)))) in Hi. by rewrite <-!list_fmap_compose in Hi. }
  intros r. unfold Consumer.setupRefund. rewrite (js_bind_ok js_get _ _ _ _ eq_refl).
  rewrite (js_bind_ok _ _ c tt (with_tx c y)) by (unfold Consumer.on_commitment, zoom; by rewrite Hy).
  rewrite (js_bind_ok js_get _ _ _ _ eq_refl). change (Commitment.tx (Consumer.commitmentTx (with_tx c y))) with y.
  rewrite (js_lift_ok _ _ _ _ (isFullySigned_all y (spent_all_signed _ _ _ Hall))). destruct (forallb recognised (inputs y)); [|done].
  rewrite js_guard_ok. rewrite (js_bind_ok _ _ _ _ _ Hv). rewrite (js_bind_ok js_get _ _ _ _ eq_refl).
  rewrite (js_lift_ok _ _ _ _ (channel_out c k2 zs y' _ id Hne Hcy' Hid)).
  change (Commitment.publicKeys (Consumer.commitmentTx (with_tx c y'))) with (Commitment.publicKeys (Consumer.commitmentTx c)).
  change (Consumer.refundAddress (with_tx c y')) with (Consumer.refundAddress c). rewrite (fc_keys _ _ _ Hc).
  rewrite build_refund_eq; [|done|apply pub_length|done|lia|apply (fc_back _ _ _ Hc)]. reflexivity.
Qed.

(** *** Paying *)

(** A payment the server has not signed: [q] of [a] satoshis paid, [client] signed or not yet. *)
Record open_payment (k1 k2 : list Z) (p : Payment.t) (a q : Z) (client : option TransactionSignature) : Prop := {
  op_paying : paying p a q;
  op_back : bytes_ok (hashBuffer (Payment.changeAddress p));
  op_out : is_ok (Script.toBuffer (utxo_script (Payment.multisigOut p))) = true;
  op_spends : exists i, spends_channel k1 k2 (Payment.tx p) i (client, None);
}.

Lemma change_outputs_fit a q back : 0 <= q <= a -> a < 2 ^ 51 -> zlen (hashBuffer back) = 20 -> bytes_ok (hashBuffer back) ->
  Forall wf_output (change_outputs a q back) /\ zlen (change_outputs a q back) <= 1 /\ zlen (change_outputs a q back ≫= output_bytes) <= 100.
Proof.
  intros Hq Ha Hb Hbok. unfold change_outputs. destruct (a =? q); [by split; [apply Forall_nil_2|]|].
  destruct (address_bytes_ok back Hb Hbok) as [Hal Haok]. pose proof (zlen_nonneg (address_bytes back)).
  assert (BN.fromNumber (num_of_Z (a - q)) = a - q) as Hbn by (apply BN_fromNumber_small; lia).
  assert (0 <= a - q < 2 ^ 64) as Ha64 by lia. split; [|split; [done|]].
  - apply Forall_singleton. unfold wf_output, output_of. cbn [Output._satoshisBN Output._scriptBuffer]. rewrite Hbn.
    split; [exact Ha64|]. split; [done|lia].
  - cbn [mbind list_bind]. rewrite app_nil_r. unfold output_bytes, output_of. cbn [Output._satoshisBN Output._scriptBuffer].
    rewrite Hbn, !zlen_app, zlen_varint_bytes, (proj1 (u64_codec_bytes _ Ha64)). pose proof (varint_size_bound (zlen (address_bytes back))). lia.
Qed.

(** New outputs leave the channel's input as it is. *)
Lemma spends_outputs k1 k2 x y i sl os : spends_channel k1 k2 x i sl -> inputs y = inputs x -> version y = version x -> nLockTime y = nLockTime x ->
  outputs y = os -> Forall wf_output os -> zlen os <= 1 -> zlen (os ≫= output_bytes) <= 100 -> spends_channel k1 k2 y i sl.
Proof.
  intros [Hi Hk Ho ((Hv & Hl & Hwi & _ & Hni & _) & Hs & _) Hg] Hin Hvy Hly Hos Hwo Hlo Hbo. split; [by rewrite Hin|done|done| |done].
  unfold hashable, wf_tx. rewrite Hin, Hvy, Hly, Hos, Hi in *. split; [split_and!; try done; lia|]. split; [done|].
  change (zlen [i]) with 1. lia.
Qed.

(** A payment has an object when its scripts can be printed. *)
Lemma payment_object p i o : inputs (Payment.tx p) = [i] -> is_ok (Input.script i) = true -> Input.output i = Some o ->
  is_ok (Output.script o) = true -> Forall (fun o => is_ok (Output.script o) = true) (outputs (Payment.tx p)) ->
  is_ok (Script.toBuffer (utxo_script (Payment.multisigOut p))) = true -> exists obj, Payment.toObject p = Ok obj.
Proof.
  intros Hi Hs Ho Hos Hout Hm.
  assert (forall o, is_ok (Output.script o) = true -> exists x, TxObject.output_toObject o = Ok x) as Hone.
  { intros x Hx. unfold TxObject.output_toObject. destruct (Output.script x); [by eexists|done]. }
  assert (exists l, Sighash.map_result TxObject.output_toObject (outputs (Payment.tx p)) = Ok l) as [l Hl].
  { clear -Hout Hone. induction Hout as [|x os Hx _ [l IH]]; [by eexists|]. cbn [Sighash.map_result].
    destruct (Hone x Hx) as [y ->]. cbn [mbind result_bind]. rewrite IH. by eexists. }
  destruct (Hone o Hos) as [oo Hoo]. unfold Payment.toObject, TxObject.utxo_toObject. destruct (Script.toBuffer _) as [b|]; [|done].
  cbn [mbind result_bind]. unfold TxObject.toObject. rewrite Hi, Hl. cbn [Sighash.map_result]. unfold TxObject.input_toObject.
  destruct (Input.script i) as [s|]; [|done]. rewrite Ho, Hoo. by eexists.
Qed.

Lemma change_outputs_scripts a q back : Forall (fun o => is_ok (Output.script o) = true) (change_outputs a q back).
Proof. unfold change_outputs. destruct (a =? q); [apply Forall_nil_2|]. by apply Forall_singleton. Qed.

(** One increment: the outputs follow, and the client's signature is renewed. *)
Lemma increment_step key k2 p a q d ty client : let k1 := toPublicKey key in k1 <> k2 -> compressed_key k2 -> bytes_ok k2 ->
  open_payment k1 k2 p a q client -> 0 <= q + d <= a -> defined_type (type_of (Some ty)) ->
  exists p' s, (Payment.updateValue (num_of_Z d);; Payment.sign key (Some ty)) p = (Ok tt, p')
    /\ open_payment k1 k2 p' a (q + d) (Some s) /\ valid_in k1 k2 (Payment.tx p') false s
    /\ outputs (Payment.tx p') = change_outputs a (q + d) (Payment.changeAddress p) /\ Payment.changeAddress p' = Payment.changeAddress p
    /\ outpoints (Payment.tx p') = outpoints (Payment.tx p) /\ Payment.sequence p' = Payment.sequence p + 1
    /\ exists obj, Payment.toObject p' = Ok obj.
Proof.
  intros k1 Hne Hk2 Hk2ok [Hp Hbok Hmo (i & Hx)] Hd Hty.
  destruct (updateValue_eq p a q d Hp Hd) as (p1 & Hup & Hp1 & Hseq & _ & Hca & Hin & Hv & Hl & Ho & Hmo1). rewrite <-Hmo1 in Hmo.
  destruct (change_outputs_fit a (q + d) (Payment.changeAddress p) Hd (proj2 (pay_bound _ _ _ Hp)) (pay_change _ _ _ Hp) Hbok) as (Hw & Hln & Hbl).
  pose proof (spends_outputs _ _ _ _ _ _ _ Hx Hin Hv Hl Ho Hw Hln Hbl) as Hx1.
  pose proof (pub_compressed key) as Hk1. fold k1 in Hk1.
  pose proof (spends_hash k1 k2 Hk1 Hk2 (pub_ok _) Hk2ok _ i _ (type_of (Some ty)) Hx1 ltac:(destruct Hty; lia)) as Hh.
  destruct (sign_step k1 k2 Hk1 Hk2 (pub_ok _) Hk2ok Hne _ i _ false true key (Some ty) _ Hx1 eq_refl eq_refl Hty Hh) as (i2 & Hsign & Hx2 & Hold & Hsame).
  cbn [put snd] in Hx2. pose proof (spends_same k1 k2 Hk1 Hk2 (pub_ok _) Hk2ok _ _ _ i2 _ (type_of (Some ty)) Hx1 Hx2 Hsame ltac:(destruct Hty; lia)) as He.
  rewrite Hh in He. pose proof (new_sig_valid k1 k2 _ i key false _ _ eq_refl He) as Hvalid.
  eexists (p1 <| Payment.tx := with_input i2 (Payment.tx p1) |>), _. split.
  { rewrite (js_bind_ok _ _ _ _ _ Hup). unfold Payment.sign, zoom. rewrite Hsign. reflexivity. }
  split; [|split; [exact Hvalid|split; [exact Ho|split; [exact Hca|split; [|split; [rewrite <-Hseq; reflexivity|]]]]]].
  - split; [|by rewrite <-Hca in Hbok|exact Hmo|by exists i2]. destruct Hp1 as [? ? ? ? ?]. by split.
  - unfold outpoints. rewrite <-Hin, (sp_inputs _ _ _ _ _ Hx1).
    destruct Hsame as (_ & Hid & Hix & _). cbn. by rewrite Hid, Hix.
  - destruct (sp_output _ _ _ _ _ Hx2) as (o & net & Hout & Hos). apply (payment_object _ i2 o); [done| |done| |exact (eq_ind_r _ (change_outputs_scripts _ _ _) Ho)|exact Hmo].
    + unfold Input.script. by rewrite (proj1 (proj2 Hold)).
    + by rewrite Hos.
Qed.

(** A payment made from the channel's output *)
Lemma payment_new id k1 k2 net a prov back : zlen id = 32 -> zlen k1 = 33 -> zlen k2 = 33 -> 0 <= a < 2 ^ 51 -> zlen (hashBuffer back) = 20 ->
  compressed_key k1 -> compressed_key k2 -> bytes_ok id -> bytes_ok (hashBuffer back) ->
  exists p, Payment.new (mkUnspent id 0 (p2sh_script (channel_hash k1 k2) net) (num_of_Z a)) prov back [k1; k2] = Ok p
    /\ open_payment k1 k2 p a 0 None /\ Payment.changeAddress p = back /\ Payment.paymentAddress p = prov
    /\ outpoints (Payment.tx p) = [(id, 0)] /\ outputs (Payment.tx p) = [].
Proof.
  intros Hid Hk1 Hk2 Ha Hb Hc1 Hc2 Hidok Hbok. unfold Payment.new.
  assert (newUnspentOutput (mkUnspent id 0 (p2sh_script (channel_hash k1 k2) net) (num_of_Z a))
    = Ok (mkUnspent id 0 (p2sh_script (channel_hash k1 k2) None) (num_of_Z a))) as ->.
  { unfold newUnspentOutput. cbn [txId utxo_script utxo_outputIndex utxo_satoshis]. rewrite Hid.
    rewrite p2sh_copy by (apply hash160_length || apply hash160_ok). reflexivity. }
  cbn [mbind result_bind]. rewrite (from_channel id k1 k2 None a Hid Hk1 Hk2). set (x := Transaction.new <| inputs := _ |>).
  rewrite (getInputAmount_eq x [a]).
  - change (sum [a]) with (a + 0). rewrite Z.add_0_r. eexists. split; [reflexivity|]. split; [|by repeat split].
    split; [split; [done|done|done|exact Hb|]; cbn; lia|exact Hbok| |].
    { cbn [Payment.multisigOut utxo_script]. unfold p2sh_script. by rewrite p2sh_bytes. }
    exists (channel_input id k1 k2 (multisig_redeem 2 [k1; k2]) (output_of a (p2sh_script (channel_hash k1 k2) None) (p2sh_script_bytes (channel_hash k1 k2)))).
    split; [done|done| | |done].
    + eexists _, None. split; [reflexivity|]. unfold Output.script. cbn. by rewrite (bytes2_redeem k1 k2 Hc1 Hc2).
    + split; [|split; [|done]].
      * unfold wf_tx. cbn. split_and!; try done. apply Forall_singleton. unfold wf_input. by split_and!.
      * apply Forall_singleton. split; [apply Forall_nil_2|]. split; [done|]. by exists Script.empty, [].
  - apply Forall2_cons_2; [|apply Forall2_nil_2]. eexists. split; [reflexivity|]. split; [reflexivity|lia].
  - change (sum [a]) with (a + 0). lia.
  - by left.
Qed.
Lemma increment_ok c p k2 a q d ty client : let k1 := toPublicKey (Consumer.commitmentKey c) in k1 <> k2 -> compressed_key k2 -> bytes_ok k2 ->
  Consumer.paymentTx c = Some p -> open_payment k1 k2 p a q client -> 0 <= q + d <= a -> defined_type (type_of (Some ty)) ->
  exists p' s obj, Consumer.incrementPaymentBy (num_of_Z d) ty c = (Ok obj, with_payment p' c)
    /\ open_payment k1 k2 p' a (q + d) (Some s) /\ valid_in k1 k2 (Payment.tx p') false s
    /\ outputs (Payment.tx p') = change_outputs a (q + d) (Payment.changeAddress p) /\ Payment.changeAddress p' = Payment.changeAddress p
    /\ outpoints (Payment.tx p') = outpoints (Payment.tx p) /\ Payment.sequence p' = Payment.sequence p + 1.
Proof.
  intros k1 Hne Hk2 Hk2ok Hc Hp Hd Hty.
  destruct (increment_step (Consumer.commitmentKey c) k2 p a q d ty client Hne Hk2 Hk2ok Hp Hd Hty) as (p' & s & Hrun & Hp' & Hv & Ho & Hca & Hop & Hsq & obj & Hobj).
  exists p', s, obj. split; [|by split_and!]. unfold Consumer.incrementPaymentBy. rewrite (js_bind_ok js_get _ _ _ _ eq_refl), Hc, Hrun.
  rewrite (js_bind_ok (js_modify _) _ _ tt _ eq_refl), (js_bind_ok (js_lift (Ok tt)) _ _ tt _ eq_refl), Hobj. reflexivity.
Qed.

(** Any run of increments *)
Lemma increments_ok ds k2 a ty : forall c p q client, let k1 := toPublicKey (Consumer.commitmentKey c) in k1 <> k2 -> compressed_key k2 -> bytes_ok k2 ->
  Consumer.paymentTx c = Some p -> open_payment k1 k2 p a q client -> (forall n, 0 <= q + sum (take n ds) <= a) -> ds <> [] ->
  defined_type (type_of (Some ty)) ->
  exists p' s, js_each (fun d => Consumer.incrementPaymentBy (num_of_Z d) ty) ds c = (Ok tt, with_payment p' c)
    /\ open_payment k1 k2 p' a (q + sum ds) (Some s) /\ valid_in k1 k2 (Payment.tx p') false s
    /\ outputs (Payment.tx p') = change_outputs a (q + sum ds) (Payment.changeAddress p) /\ Payment.changeAddress p' = Payment.changeAddress p
    /\ outpoints (Payment.tx p') = outpoints (Payment.tx p) /\ Payment.sequence p' = Payment.sequence p + zlen ds.
Proof.
  induction ds as [|d ds IH]; intros c p q client k1 Hne Hk2 Hk2ok Hc Hp Hb Hds Hty; [done|]. cbn [js_each].
  change (sum (d :: ds)) with (d + sum ds). rewrite zlen_cons, !Z.add_assoc.
  assert (0 <= q + d <= a) as Hd by (specialize (Hb 1%nat); change (sum (take 1 (d :: ds))) with (d + 0) in Hb; lia).
  destruct (increment_ok c p k2 a q d ty client Hne Hk2 Hk2ok Hc Hp Hd Hty) as (p1 & s1 & obj & Hrun & Hp1 & Hv1 & Ho1 & Hca1 & Hop1 & Hsq1).
  rewrite (js_bind_ok _ _ _ _ _ Hrun). destruct ds as [|d' ds].
  { exists p1, s1. change (sum []) with 0. change (zlen (@nil Z)) with 0. rewrite !Z.add_0_r. by split_and!. }
  destruct (IH (with_payment p1 c) p1 (q + d) (Some s1) Hne Hk2 Hk2ok eq_refl Hp1) as (p' & s & Hruns & Hp' & Hv & Ho & Hca & Hop & Hsq).
  { intros n. specialize (Hb (S n)). cbn [take] in Hb. change (sum (d :: take n (d' :: ds))) with (d + sum (take n (d' :: ds))) in Hb. lia. }
  { done. } { done. }
  exists p', s. split; [exact Hruns|]. split; [exact Hp'|]. split; [exact Hv|]. split; [by rewrite Ho, Hca1|]. split; [congruence|]. split; [congruence|lia].
Qed.

Lemma funded_with_refund r c k2 zs : funded_channel c k2 zs -> funded_channel (with_refund r c) k2 zs.
Proof. by intros [? ? ? ? ? ?]; split. Qed.

(** [validateRefund] on the refund the provider signed: the client's signature completes it. *)
Lemma validate_ok now c pk zs y id : let k1 := toPublicKey (Consumer.commitmentKey c) in let k2 := toPublicKey pk in
  funded_channel c k2 zs -> bytes_ok k1 -> bytes_ok k2 -> k1 <> k2 -> u32 (in_one_day now) ->
  (let h := channel_hash k1 k2 in committed (p2sh_script h (Some livenet)) (p2sh_script_bytes h) y zs) ->
  zlen id = 32 -> bytes_ok id -> Signing.id_ y = Ok id ->
  let r := refund_of now id k1 k2 (returned zs) (Consumer.refundAddress c) in
  exists i1 i2 c' p scriptSig o prev, Signing.sign pk None r = (Ok tt, with_input i1 r)
    /\ Consumer.validateRefund (with_refund r (with_tx c y), with_input i1 r) = (Ok tt, (c', with_input i2 r))
    /\ Consumer.refundTx c' = Some (with_input i2 r) /\ Consumer.paymentTx c' = Some p /\ same_input i2 (refund_input id k1 k2 (returned zs))
    /\ open_payment k1 k2 p (returned zs) 0 None /\ Payment.changeAddress p = Consumer.refundAddress c /\ outpoints (Payment.tx p) = [(id, 0)]
    /\ Input.script i2 = Ok scriptSig /\ Input.output i2 = Some o /\ Output.script o = Ok prev
    /\ Interpreter.verify_script scriptSig prev (with_input i2 r) 0 channel_flags = Ok true.
Proof.
  intros k1 k2 Hc Hk1ok Hk2ok Hne Hlock Hcy Hidl Hidok Hid r.
  destruct (fc_funding _ _ _ Hc) as (Hzs & _). destruct (fc_back _ _ _ Hc) as (Hb & Hbok & Hnet).
  set (c1 := with_refund r c). pose proof (funded_with_refund r c k2 zs Hc) as Hc1. fold c1 in Hc1.
  destruct (signed_value c1 k2 zs y Hc1 Hcy) as (Hv & Hpos). set (y' := with_caches _ _ _) in Hv.
  pose proof (committed_cached _ _ _ _ Hzs Hcy) as Hcy'. fold y' in Hcy'. set (a := returned zs) in *.
  pose proof (pub_compressed (Consumer.commitmentKey c)) as Hck1. pose proof (pub_compressed pk) as Hck2. fold k1 in Hck1. fold k2 in Hck2.
  pose proof (refund_spends k1 k2 Hck1 Hck2 now id a _ Hidl Hidok ltac:(lia) Hb Hbok Hlock) as Hr. fold r in Hr.
  destruct (two_sign k1 k2 Hck1 Hck2 Hk1ok Hk2ok Hne r _ true pk (Consumer.commitmentKey c) None None Hr eq_refl eq_refl
    ltac:(by split) ltac:(by split)) as (i1 & i2 & s1 & s2 & Hs1 & Hs2 & Hr2 & Hold & Hsame & Hv1 & Hv2).
  set (r2 := with_input i2 r) in *.
  destruct (both_verify k1 k2 Hck1 Hck2 r2 i2 s1 s2 channel_flags Hr2 Hold Hv1 Hv2 eq_refl eq_refl)
    as (scriptSig & o & prev & Hscr & Hout & Hprev & Hver).
  destruct (payment_new id k1 k2 (Some livenet) a (Consumer.providerAddress c) (Consumer.refundAddress c) Hidl (pub_length _) (pub_length _) ltac:(lia) Hb Hck1 Hck2 Hidok Hbok)
    as (p & Hp & Hpay & Hpc & _ & Hpo & _).
  exists i1, i2, (with_payment p (with_refund r2 (with_tx c1 y'))), p, scriptSig, o, prev.
  split; [exact Hs1|]. split; [|by split_and!].
  unfold Consumer.validateRefund. change (with_refund r (with_tx c y)) with (with_tx c1 y).
  rewrite js_gets_ok. cbn [fst snd].
  rewrite (js_bind_ok _ _ _ tt (with_tx c1 y, r2)).
  2:{ unfold zoom. cbn [fst snd]. change (Consumer.commitmentKey (with_tx c1 y)) with (Consumer.commitmentKey c). by rewrite Hs2. }
  rewrite js_gets_ok. cbn [fst snd].
  change (outputs r2) with [output_of a (address_script (Consumer.refundAddress c)) (address_bytes (Consumer.refundAddress c))]. cbv iota.
  rewrite (js_lift_ok (Output.script (output_of _ _ _)) _ _ (address_script (Consumer.refundAddress c)) eq_refl).
  change (Consumer.network_ (with_tx c1 y)) with (Consumer.network_ c). change (Consumer.refundAddress (with_tx c1 y)) with (Consumer.refundAddress c).
  rewrite (js_lift_ok _ _ _ (Consumer.refundAddress c)).
  2:{ unfold Consumer.script_address. rewrite address_script_toAddress by exact Hb. cbn [mbind result_bind].
      rewrite <-Hnet. by destruct (Consumer.refundAddress c). }
  rewrite (bool_decide_true (_ = Consumer.refundAddress c)) by done. rewrite js_guard_ok. cbv zeta.
  rewrite (js_bind_ok _ _ _ (num_of_Z a) (with_tx c1 y', r2)) by (unfold Consumer.on_consumer, zoom; cbn [fst snd]; by rewrite Hv).
  change (Output.satoshis (output_of a _ _)) with (num_of_Z a).
  rewrite num_eq_safe by (unfold safe; lia). rewrite Z.eqb_refl. rewrite js_guard_ok.
  change (length (outputs r2)) with 1%nat. rewrite (bool_decide_true (1%nat = 1%nat)) by done. rewrite js_guard_ok.
  rewrite (js_lift_ok _ _ _ _ (both_full k1 k2 r2 i2 s1 s2 Hr2)).
  rewrite js_guard_ok. change (inputs r2) with [i2]. cbv iota.
  rewrite (js_lift_ok _ _ _ _ Hscr).
  rewrite Hout. rewrite (js_lift_ok _ _ _ _ Hprev).
  rewrite (js_lift_ok _ _ _ _ Hver). rewrite js_guard_ok.
  rewrite (js_bind_ok _ _ (with_tx c1 y', r2) tt (with_tx (with_refund r2 c1) y', r2) eq_refl).
  rewrite js_gets_ok. cbn [fst snd].
  rewrite (js_lift_ok _ _ _ _ (channel_out (with_refund r2 c1) k2 zs y' _ id Hzs Hcy' Hid)).
  change (Commitment.publicKeys (Consumer.commitmentTx (with_tx (with_refund r2 c1) y'))) with (Commitment.publicKeys (Consumer.commitmentTx c)).
  rewrite (fc_keys _ _ _ Hc). rewrite (js_lift_ok _ _ _ _ Hp). reflexivity.
Qed.
(** The address the refund goes to *)
Definition back_of (o : Consumer.opts) : Address :=
  match Consumer.opt_refundAddress o with
  | Some a => a
  | None => Consumer.key_address (toPublicKey (Consumer.opt_refundKey o)) (Consumer.opt_network o)
  end.

(** An output of the funding address *)
Definition own_output (o : Consumer.opts) (u : UnspentOutput) : Prop :=
  bytes_ok (txId u) /\ u32 (utxo_outputIndex u)
  /\ exists net, utxo_script u = p2pkh_script (sha256ripemd160 (toPublicKey (Consumer.opt_fundingKey o))) net.

Lemma p2pkh_hash h h' net net' : p2pkh_script h net = p2pkh_script h' net' -> h = h'.
Proof. by intros [= ->]. Qed.

Lemma made_ready o us zs is_ : Forall2 fundable us zs -> Forall (own_output o) us -> Forall2 made (zip us zs) is_ ->
  Forall (fun i => wf_input i /\ short_script (Input._scriptBuffer i) /\ signable (Consumer.opt_fundingKey o) i) is_.
Proof.
  intros Hus. revert is_. induction Hus as [|u z us zs Hu Hus IH]; intros is_ Hown Hm; cbn [zip zip_with] in Hm; inversion Hm as [|? i ? is' Hi His]; subst; [apply Forall_nil_2|].
  apply Forall_cons in Hown as [(Hid & Hix & net & Hs) Hown]. apply Forall_cons_2; [|by apply IH].
  destruct Hi as (h & net' & Hs' & ->). cbn [fst snd] in *. rewrite Hs in Hs'. apply p2pkh_hash in Hs' as <-.
  split; [|split].
  - unfold wf_input. cbn. split_and!; try done. apply (fun_id _ _ Hu).
  - split; [apply Forall_nil_2|]. split; [done|]. by exists Script.empty, [].
  - split; [done|]. eexists _, None. split; reflexivity.
Qed.

Lemma funded_hashable x zs cs csb : committed cs csb x zs -> zs <> [] -> version x = 1 -> nLockTime x = 0 -> zlen zs < 2 ^ 20 ->
  Forall (fun i => wf_input i /\ short_script (Input._scriptBuffer i)) (inputs x) -> 0 <= channel_value zs < 2 ^ 51 ->
  bytes_ok csb -> zlen csb = 23 -> hashable x.
Proof.
  intros Hx Hne Hv Hl Hlen Hi Ha Hcok Hcl. destruct (com_out _ _ _ _ Hx) as [(? & _)|(Ho & _)]; [done|].
  assert (zlen (inputs x) = zlen zs) as Hn by (unfold zlen; by rewrite (Forall2_length _ _ _ (com_funded _ _ _ _ Hx))).
  apply Forall_and in Hi as [Hi1 Hi2]. assert (0 <= channel_value zs < 2 ^ 64) as Ha64 by lia.
  assert (BN.fromNumber (num_of_Z (channel_value zs)) = channel_value zs) as Hbn by (apply BN_fromNumber_small; lia).
  unfold hashable, wf_tx. rewrite Hv, Hl, Ho. split; [|split; [done|]].
  - split_and!; try done; [|lia]. apply Forall_singleton. unfold wf_output, output_of. cbn [Output._satoshisBN Output._scriptBuffer]. rewrite Hbn, Hcl. split; [exact Ha64|by split].
  - cbn [mbind list_bind]. rewrite app_nil_r. unfold output_bytes, output_of. cbn [Output._satoshisBN Output._scriptBuffer].
    rewrite Hbn, !zlen_app, zlen_varint_bytes, (proj1 (u64_codec_bytes _ Ha64)), Hcl. change (varint_size 23) with 1. lia.
Qed.

(** What a funded channel of these options starts from *)
Lemma funded_ready now o us zs : zlen (Consumer.opt_providerPublicKey o) = 33 -> Forall2 fundable us zs -> us <> [] -> NoDup (outpoint <$> us) ->
  Forall (own_output o) us -> sum zs < 2 ^ 51 -> zlen zs < 2 ^ 20 ->
  zlen (hashBuffer (back_of o)) = 20 -> bytes_ok (hashBuffer (back_of o)) -> addr_network (back_of o) = Consumer.opt_network o ->
  exists c0 c1, Consumer.new now o = Ok c0 /\ js_each Consumer.processFunding us c0 = (Ok tt, c1)
    /\ funded_channel c1 (Consumer.opt_providerPublicKey o) zs /\ Consumer.commitmentKey c1 = Consumer.opt_commitmentKey o
    /\ Consumer.fundingKey c1 = Consumer.opt_fundingKey o /\ Consumer.refundAddress c1 = back_of o
    /\ outpoints (Commitment.tx (Consumer.commitmentTx c1)) = outpoint <$> us.
Proof.
  intros Hpk Hus Hne Hnd Hown Hsum Hlen Hb Hbok Hnet.
  destruct (fund_channel now o us zs Hpk Hus Hnd Hsum ltac:(lia)) as (c0 & y & Hnew & Hy & Hkeys & Hcy & Hm & Hop & Hv & Hl).
  assert (Consumer.commitmentKey c0 = Consumer.opt_commitmentKey o /\ Consumer.fundingKey c0 = Consumer.opt_fundingKey o
    /\ Consumer.refundAddress c0 = back_of o /\ Consumer.network_ c0 = Consumer.opt_network o) as (Hck & Hfk & Hra & Hn).
  { unfold Consumer.new in Hnew. destruct (Commitment.new _ _); [|done]. by injection Hnew as <-. }
  assert (zs <> []) as Hzs by (intros ->; apply Forall2_nil_inv_r in Hus; done).
  assert (Forall (fun z => 1000 < z) zs) as Hen.
  { eapply Forall2_Forall_r; [exact Hus|]. apply Forall_true. intros u z Hf. apply (fun_enough _ _ Hf). }
  pose proof (channel_value_pos zs Hen Hzs ltac:(lia)) as Hpos. pose proof (zlen_nonneg zs).
  assert (channel_value zs < 2 ^ 51) as Hmax by (unfold channel_value; destruct (fee_for_bounds (26 + 107 * zlen zs) (sum zs) ltac:(lia)); lia).
  pose proof (made_ready o us zs _ Hus Hown Hm) as Hready.
  assert (zlen (opts_hash o) = 20) as Hh by apply hash160_length.
  exists c0, (with_tx c0 y). split; [done|]. split; [done|]. split; [|by split_and!].
  split; change (Commitment.tx (Consumer.commitmentTx (with_tx c0 y))) with y.
  - change (Commitment.publicKeys (Consumer.commitmentTx (with_tx c0 y))) with (Commitment.publicKeys (Consumer.commitmentTx c0)).
    change (Consumer.commitmentKey (with_tx c0 y)) with (Consumer.commitmentKey c0). by rewrite Hkeys, Hck.
  - change (Consumer.commitmentKey (with_tx c0 y)) with (Consumer.commitmentKey c0). rewrite Hck. exact Hcy.
  - done.
  - assert (bytes_ok (p2sh_script_bytes (opts_hash o)) /\ zlen (p2sh_script_bytes (opts_hash o)) = 23) as [Hok Hl23].
    { split; [|unfold p2sh_script_bytes; by rewrite !zlen_cons, zlen_app, Hh]. unfold p2sh_script_bytes.
      do 2 (apply Forall_cons_2; [unfold byte_ok; lia|]). apply Forall_app. split; [apply hash160_ok|]. apply Forall_singleton. unfold byte_ok; lia. }
    apply (funded_hashable y zs _ _ Hcy); try done; [|lia]. eapply Forall_impl; [exact Hready|]. by intros i (? & ? & _).
  - change (Consumer.fundingKey (with_tx c0 y)) with (Consumer.fundingKey c0). rewrite Hfk. eapply Forall_impl; [exact Hready|]. by intros i (_ & _ & ?).
  - change (Consumer.refundAddress (with_tx c0 y)) with (Consumer.refundAddress c0). change (Consumer.network_ (with_tx c0 y)) with (Consumer.network_ c0).
    rewrite Hra, Hn. by split_and!.
Qed.
End Opening.
End SettlementLemmas.

(** ** Theorems *)
Section SettlementTheorems.
Import Transaction Codec WireFormat SighashLemmas SigningLemmas SpendingLemmas SettlementLemmas FundingLemmas CommitmentLemmas PaymentLemmas RefundLemmas AmountLemmas.
Context `{CryptoLaws} `{Ecdsa} `{!EcdsaLaws} `{!DerLaws} `{Hashes}.

(** C8: [setupRefund] on a funded channel.  It signs the commitment.  When a signature is shorter than the
    70 bytes the classifier of input scripts asks for, it throws and builds nothing.  Otherwise the refund
    has one input, which spends the output [0] of the commitment it has just signed, by its identifier,
    under the 2-of-2 script of the two keys; it has one output, to the refund address; it has sequence
    number 0 and is locked for a day.  What it returns is what the commitment locks, [channel_value],
    less the difference between two fee estimates: nothing up to 26 funding outputs, a thousand satoshis
    for 27, never more. *)
Theorem refund_setup now c k2 zs : funded_channel c k2 zs -> zlen k2 = 33 ->
  let k1 := toPublicKey (Consumer.commitmentKey c) in let h := channel_hash k1 k2 in
  exists y, Signing.sign (Consumer.fundingKey c) None (Commitment.tx (Consumer.commitmentTx c)) = (Ok tt, y)
    /\ outputs y = [output_of (channel_value zs) (p2sh_script h (Some livenet)) (p2sh_script_bytes h)]
    /\ if forallb recognised (inputs y) then
         exists r c' id i, Consumer.setupRefund now c = (Ok r, c') /\ Consumer.refundTx c' = Some r
           /\ inputs (Commitment.tx (Consumer.commitmentTx c')) = inputs y /\ outputs (Commitment.tx (Consumer.commitmentTx c')) = outputs y
           /\ Signing.id_ (Commitment.tx (Consumer.commitmentTx c')) = Ok id
           /\ inputs r = [i] /\ Input.prevTxId i = id /\ Input.outputIndex i = 0 /\ Input.sequenceNumber i = 0
           /\ (exists m, Input.kind i = Input.MultiSigScriptHash m /\ Input.publicKeys m = [k1; k2] /\ Input.threshold m = 2
                 /\ Script.toBuffer (Input.redeemScript m) = Ok (redeem_bytes k1 k2))
           /\ outputs r = [output_of (returned zs) (address_script (Consumer.refundAddress c)) (address_bytes (Consumer.refundAddress c))]
           /\ nLockTime r = in_one_day now
           /\ channel_value zs - 1000 <= returned zs <= channel_value zs
           /\ (zlen zs <= 26 -> returned zs = channel_value zs) /\ (zlen zs = 27 -> returned zs = channel_value zs - 1000)
       else exists c', Consumer.setupRefund now c = (Throw InvalidState, c') /\ Consumer.refundTx c' = Consumer.refundTx c.
Proof.
  intros Hc Hk2 k1 h. destruct (setup_exact now c k2 zs Hc Hk2) as (y & y' & id & Hy & Hin & Hout & _ & _ & Hid & _ & Hcy & _ & _ & Hset).
  destruct (fc_funding _ _ _ Hc) as (Hne & _). exists y. split; [exact Hy|]. split.
  { rewrite <-Hout. destruct (com_out _ _ _ _ Hcy) as [(? & _)|(Ho & _)]; [done|exact Ho]. }
  destruct (forallb recognised (inputs y)).
  - destruct (fee_gap_cases (zlen zs) (zlen_nonneg zs)) as (Hg & Hsmall & Hbig).
    eexists _, _, id, _. split; [exact Hset|]. split; [done|]. split; [exact Hin|]. split; [exact Hout|]. split; [exact Hid|]. split; [done|].
    do 3 (split; [done|]). split; [eexists; do 3 (split; [done|]); apply redeem_build; [apply pub_length|exact Hk2]|].
    do 2 (split; [done|]). unfold returned. split_and!; [lia|lia|intros Hl; rewrite (Hsmall Hl); lia|intros Hl; rewrite (Hbig Hl); lia].
  - eexists. split; [exact Hset|done].
Qed.

(** C3: a channel opens.  The client is given keys of 33 bytes, a refund address of 20 bytes on its
    network and at least one funding output of its funding address, each of more than a thousand satoshis,
    none twice, fewer than a million in all.  It builds, funds and signs the commitment, which spends
    these outputs and every input of which passes the interpreter (its signature not being the hash of the
    key itself).  When every signature has the 70 bytes
    the classifier of input scripts asks for, [setupRefund] builds the refund, the server signs it and
    [validateRefund] accepts it: the client then holds a refund of what [returned] says, locked for a day,
    that the interpreter accepts with both signatures, and the payment it starts with spends the same
    output, with nothing paid yet.  When a signature is shorter, which happens to one in a few hundred,
    [setupRefund] throws and the channel does not open. *)
Theorem channel_opens now now' o us zs (pr : Provider.t) :
  Provider.getPublicKey pr = Consumer.opt_providerPublicKey o -> client_key o <> Consumer.opt_providerPublicKey o ->
  Forall2 fundable us zs -> us <> [] -> NoDup (outpoint <$> us) -> Forall (own_output o) us -> sum zs < 2 ^ 51 -> zlen zs < 2 ^ 20 ->
  zlen (hashBuffer (back_of o)) = 20 -> bytes_ok (hashBuffer (back_of o)) -> addr_network (back_of o) = Consumer.opt_network o ->
  u32 (in_one_day now') ->
  exists c0 c1 y, Consumer.new now o = Ok c0 /\ js_each Consumer.processFunding us c0 = (Ok tt, c1)
    /\ Signing.sign (Consumer.opt_fundingKey o) None (Commitment.tx (Consumer.commitmentTx c1)) = (Ok tt, y)
    /\ outpoints y = outpoint <$> us
    /\ (forall j i, inputs y !! j = Some i -> pushed_signature i <> sha256ripemd160 (toPublicKey (Consumer.opt_fundingKey o)) ->
         exists out scriptSig prev, Input.output i = Some out /\ Input.script i = Ok scriptSig
           /\ Output.script out = Ok prev /\ Interpreter.verify_script scriptSig prev y j channel_flags = Ok true)
    /\ if forallb recognised (inputs y) then
         exists c2 c3 r r' r'' pr' p, Consumer.setupRefund now' c1 = (Ok r, c2) /\ Provider.signRefund r pr = (Ok r', pr')
           /\ Consumer.validateRefund (c2, r') = (Ok tt, (c3, r''))
           /\ inputs (Commitment.tx (Consumer.commitmentTx c2)) = inputs y
           /\ Consumer.refundTx c3 = Some r'' /\ nLockTime r'' = in_one_day now'
           /\ outputs r'' = [output_of (returned zs) (address_script (back_of o)) (address_bytes (back_of o))]
           /\ (exists i scriptSig out prev id, inputs r'' = [i] /\ Signing.id_ (Commitment.tx (Consumer.commitmentTx c2)) = Ok id
                /\ Input.prevTxId i = id /\ Input.script i = Ok scriptSig
                /\ Input.output i = Some out /\ Output.script out = Ok prev /\ Interpreter.verify_script scriptSig prev r'' 0 channel_flags = Ok true
                /\ outpoints (Payment.tx p) = [(id, 0)])
           /\ Consumer.paymentTx c3 = Some p /\ open_payment (client_key o) (Consumer.opt_providerPublicKey o) p (returned zs) 0 None
           /\ Payment.changeAddress p = back_of o
       else exists c2, Consumer.setupRefund now' c1 = (Throw InvalidState, c2) /\ Consumer.refundTx c2 = Consumer.refundTx c1.
Proof.
  intros Hpr Hne Hus Hus0 Hnd Hown Hsum Hlen Hb Hbok Hnet Hlock.
  assert (zlen (Consumer.opt_providerPublicKey o) = 33) as Hpk by (rewrite <-Hpr; apply pub_length).
  destruct (funded_ready now o us zs Hpk Hus Hus0 Hnd Hown Hsum Hlen Hb Hbok Hnet) as (c0 & c1 & Hnew & Hfund & Hc & Hck & Hfk & Hra & Hop).
  rewrite <-Hfk.
  destruct (setup_exact now' c1 _ zs Hc Hpk) as (y & y' & id & Hy & Hin & _ & Hidl & Hidok & Hid & _ & Hcy & Hall & Hopy & Hsetup).
  exists c0, c1, y. split; [exact Hnew|]. split; [exact Hfund|]. split; [exact Hy|]. split; [by rewrite Hopy|]. split.
  { intros j i Hj Hd. apply (spent_verify (Consumer.fundingKey c1)); [by apply Hall|done|exact Hd]. }
  destruct (forallb recognised (inputs y)); [|by eexists].
  unfold client_key in Hne. rewrite <-Hpr, <-Hck in Hne. rewrite <-Hpr in Hc, Hcy, Hsetup. unfold Provider.getPublicKey in Hc, Hcy, Hsetup, Hne.
  destruct (validate_ok now' c1 (Provider.key pr) zs y' id Hc (pub_ok _) (pub_ok _) Hne Hlock Hcy Hidl Hidok Hid)
    as (i1 & i2 & c3 & p & scriptSig & out & prev & Hs & Hval & Href & Hpay & (_ & Hid2 & _) & Hpg & Hpc & Hpo & Hscr & Hout & Hprev & Hver).
  rewrite Hra in *. set (r := refund_of _ _ _ _ _ _) in *.
  eexists _, c3, r, (with_input i1 r), (with_input i2 r), _, p. split; [exact Hsetup|]. split.
  { unfold Provider.signRefund. rewrite (js_bind_ok js_get _ _ _ _ eq_refl), Hs. reflexivity. }
  split; [exact Hval|]. split; [exact Hin|]. split; [exact Href|]. split; [done|]. split; [done|]. split; [|split; [exact Hpay|split; [|exact Hpc]]].
  { exists i2, scriptSig, out, prev, id. by split_and!. }
  unfold client_key. rewrite <-Hpr, <-Hck. exact Hpg.
Qed.

(** C5: any transaction whose one input spends the channel is completed by the two signatures, whoever
    signs first and with any of the signature types: it is then fully signed, and the
    interpreter accepts it against the channel's output; nothing but the input's script changed. *)
Theorem two_party_spend client server x i (server_first : bool) ty1 ty2 fl :
  toPublicKey client <> toPublicKey server -> spends_channel (toPublicKey client) (toPublicKey server) x i (None, None) ->
  defined_type (type_of ty1) -> defined_type (type_of ty2) ->
  Interpreter.has fl Interpreter.SCRIPT_VERIFY_P2SH = true -> Interpreter.has fl Interpreter.SCRIPT_VERIFY_LOW_S = false ->
  let first := if server_first then server else client in let second := if server_first then client else server in
  exists y i' scriptSig o prev, (Signing.sign first ty1;; Signing.sign second ty2) x = (Ok tt, y)
    /\ Signing.isFullySigned y = Ok true /\ y = with_input i' x /\ same_input i' i
    /\ Input.script i' = Ok scriptSig /\ Input.output i' = Some o /\ Output.script o = Ok prev
    /\ Interpreter.verify_script scriptSig prev y 0 fl = Ok true.
Proof.
  intros Hne Hx Ht1 Ht2 Hp Hlow first second. pose proof (pub_compressed client) as Hk1. pose proof (pub_compressed server) as Hk2.
  destruct (two_sign _ _ Hk1 Hk2 (pub_ok _) (pub_ok _) Hne x i server_first first second ty1 ty2 Hx ltac:(by destruct server_first) ltac:(by destruct server_first) Ht1 Ht2)
    as (i1 & i2 & s1 & s2 & Hs1 & Hs2 & Hr2 & Hold & Hsame & Hv1 & Hv2).
  destruct (both_verify _ _ Hk1 Hk2 _ i2 s1 s2 fl Hr2 Hold Hv1 Hv2 Hp Hlow) as (scriptSig & o & prev & Hscr & Hout & Hprev & Hver).
  exists (with_input i2 x), i2, scriptSig, o, prev. split; [by rewrite (js_bind_ok _ _ _ _ _ Hs1)|].
  split; [exact (both_full _ _ _ i2 s1 s2 Hr2)|]. by split_and!.
Qed.

(** C4: every payment can be settled.  Along any run of increments that stays within the channel, each
    [incrementPaymentBy] succeeds and renews the client's signature over what it keeps; after the
    last one the server need only sign: the transaction then pays the client the channel's value less
    the sum of the increments, is fully signed, and the interpreter accepts it.  The rest is left to no output. *)
Theorem payments_settle ds c p server a ty ty2 :
  toPublicKey (Consumer.commitmentKey c) <> toPublicKey server -> Consumer.paymentTx c = Some p ->
  open_payment (toPublicKey (Consumer.commitmentKey c)) (toPublicKey server) p a 0 None ->
  ds <> [] -> (forall n, 0 <= sum (take n ds) <= a) -> defined_type (type_of (Some ty)) -> defined_type (type_of ty2) ->
  exists p' y i scriptSig o prev, js_each (fun d => Consumer.incrementPaymentBy (num_of_Z d) ty) ds c = (Ok tt, with_payment p' c)
    /\ Payment.sequence p' = Payment.sequence p + zlen ds
    /\ Signing.sign server ty2 (Payment.tx p') = (Ok tt, y) /\ Signing.isFullySigned y = Ok true
    /\ outputs y = change_outputs a (sum ds) (Payment.changeAddress p) /\ outpoints y = outpoints (Payment.tx p)
    /\ inputs y = [i] /\ Input.script i = Ok scriptSig /\ Input.output i = Some o /\ Output.script o = Ok prev
    /\ Interpreter.verify_script scriptSig prev y 0 channel_flags = Ok true.
Proof.
  intros Hne Hc Hp Hds Hb Hty Hty2. pose proof (pub_compressed (Consumer.commitmentKey c)) as Hk1. pose proof (pub_compressed server) as Hk2.
  destruct (increments_ok ds (toPublicKey server) a ty c p 0 None Hne Hk2 (pub_ok _) Hc Hp ltac:(done) Hds Hty)
    as (p' & s & Hrun & [Hpay _ _ (i & Hx)] & Hv & Ho & _ & Hop & Hsq).
  destruct (complete _ _ Hk1 Hk2 (pub_ok _) (pub_ok _) Hne _ i s server ty2 Hx Hv eq_refl Hty2) as (i2 & s2 & Hsign & Hx2 & Hold & Hsame & Hv1 & Hv2).
  destruct (both_verify _ _ Hk1 Hk2 _ i2 s s2 channel_flags Hx2 Hold Hv1 Hv2 eq_refl eq_refl) as (scriptSig & o & prev & Hscr & Hout & Hprev & Hver).
  exists p', (with_input i2 (Payment.tx p')), i2, scriptSig, o, prev. split; [exact Hrun|]. split; [exact Hsq|]. split; [exact Hsign|].
  split; [exact (both_full _ _ _ i2 s s2 Hx2)|]. split; [exact Ho|]. split; [|by split_and!].
  rewrite <-Hop. unfold outpoints. rewrite (sp_inputs _ _ _ _ _ Hx). destruct Hsame as (_ & Hid & Hix & _). cbn. by rewrite Hid, Hix.
Qed.
End SettlementTheorems.

(** ** Witnesses *)
Section SettlementWitnesses.
Import Transaction SigningLemmas SpendingLemmas SettlementLemmas FundingLemmas CommitmentLemmas PaymentLemmas RefundLemmas AmountLemmas.
#[local] Existing Instance demo_crypto.
#[local] Existing Instance demo_laws.
#[local] Existing Instance der_ecdsa.
#[local] Existing Instance der_ecdsa_laws.
#[local] Existing Instance der_ecdsa_der.
#[local] Existing Instance demo_hashes.

Definition open_opts : Consumer.opts :=
  @Consumer.mkOpts der_ecdsa livenet None 1 (2 :: repeat 9 32) None None 3 livenet (Some demo_address) 4.
Definition open_server : Provider.t := @Provider.mk der_ecdsa livenet demo_address (num_of_Z 0) 9 None None.
Definition own_utxo (id amount : Z) : UnspentOutput :=
  mkUnspent (repeat id 32) 0 (p2pkh_script (sha256ripemd160 (2 :: repeat 3 32)) None) (num_of_Z amount).

Lemma own_fundable id amount : 1000 < amount -> fundable (own_utxo id amount) amount.
Proof.
  intros Ha. split; [done| |done|done]. eexists _, None. split; [|split; [|done]]; [done|apply hash160_ok].
Qed.

Lemma own_is_own id amount : byte_ok id -> own_output open_opts (own_utxo id amount).
Proof. intros Hid. split; [by apply repeat_ok|]. split; [done|]. by exists None. Qed.

Definition open_utxos : list UnspentOutput := [own_utxo 1 20000; own_utxo 2 30000].

Lemma open_fundable : Forall2 fundable open_utxos [20000; 30000].
Proof. constructor; [apply own_fundable; lia|]. constructor; [apply own_fundable; lia|]. constructor. Qed.

Lemma open_own : Forall (own_output open_opts) open_utxos.
Proof. constructor; [apply own_is_own; unfold byte_ok; lia|]. constructor; [apply own_is_own; unfold byte_ok; lia|]. constructor. Qed.

Lemma open_distinct : NoDup (outpoint <$> open_utxos).
Proof. apply (bool_decide_unpack _). vm_compute. exact I. Qed.

Lemma back_ok : bytes_ok (hashBuffer (back_of open_opts)).
Proof. apply (bool_decide_unpack _). vm_compute. exact I. Qed.

(** The commitment of these options, signed, has signatures that are recognised. *)
Lemma open_recognised c0 c1 y : Consumer.new 0 open_opts = Ok c0 -> js_each Consumer.processFunding open_utxos c0 = (Ok tt, c1) ->
  Signing.sign (3 : @PrivateKey der_ecdsa) None (Commitment.tx (Consumer.commitmentTx c1)) = (Ok tt, y) -> forallb recognised (inputs y) = true.
Proof.
  intros H0 H1 H2.
  assert (match Consumer.new 0 open_opts with
    | Ok c0 => match js_each Consumer.processFunding open_utxos c0 with
      | (Ok _, c1) => match Signing.sign (3 : @PrivateKey der_ecdsa) None (Commitment.tx (Consumer.commitmentTx c1)) with
        | (Ok _, y) => forallb recognised (inputs y) | _ => false end
      | _ => false end
    | _ => false end = true) as H by (vm_compute; reflexivity).
  rewrite H0, H1, H2 in H. exact H.
Qed.

Lemma channel_opens_witness : exists c r r' pr' c' r'',
  Consumer.setupRefund 0 c = (Ok r, c') /\ Provider.signRefund r open_server = (Ok r', pr')
  /\ fst (Consumer.validateRefund (c', r')) = Ok tt /\ Output.satoshis <$> outputs r'' = [num_of_Z 49000] /\ nLockTime r'' = 86400.
Proof.
  destruct (channel_opens 0 0 open_opts open_utxos [20000; 30000] open_server) as (c0 & c1 & y & Hn & Hf & Hs & _ & _ & Hif).
  - reflexivity.
  - discriminate.
  - exact open_fundable.
  - discriminate.
  - exact open_distinct.
  - exact open_own.
  - reflexivity.
  - reflexivity.
  - reflexivity.
  - exact back_ok.
  - reflexivity.
  - split; vm_compute; [discriminate|reflexivity].
  - rewrite (open_recognised c0 c1 y Hn Hf Hs) in Hif. destruct Hif as (c2 & c3 & r & r' & r'' & pr' & p & Hset & Hsig & Hval & _ & _ & Hl & Ho & _).
    exists c1, r, r', pr', c2, r''. split; [exact Hset|]. split; [exact Hsig|]. split; [rewrite Hval; reflexivity|].
    rewrite Ho, Hl. split; reflexivity.
Defined.

Lemma refund_setup_witness : exists c r c', Consumer.setupRefund 0 c = (Ok r, c')
  /\ Output.satoshis <$> outputs r = [num_of_Z 49000] /\ nLockTime r = 86400.
Proof.
  destruct (funded_ready 0 open_opts open_utxos [20000; 30000] eq_refl open_fundable) as (c0 & c1 & Hn & Hf & Hc & Hck & Hfk & Hra & _).
  - discriminate.
  - exact open_distinct.
  - exact open_own.
  - reflexivity.
  - reflexivity.
  - reflexivity.
  - exact back_ok.
  - reflexivity.
  - destruct (refund_setup 0 c1 _ [20000; 30000] Hc eq_refl) as (y & Hs & _ & Hif). rewrite Hfk in Hs.
    rewrite (open_recognised c0 c1 y Hn Hf Hs) in Hif. destruct Hif as (r & c' & id & i & Hset & _ & _ & _ & _ & _ & _ & _ & _ & _ & Ho & Hl & _).
    exists c1, r, c'. split; [exact Hset|]. rewrite Ho, Hl. split; reflexivity.
Defined.

Lemma two_party_spend_witness : exists y i' scriptSig o prev,
  (Signing.sign (9 : @PrivateKey der_ecdsa) (Some 130);; Signing.sign (8 : @PrivateKey der_ecdsa) None)
    (refund_of 0 (repeat 1 32) (2 :: repeat 8 32) (2 :: repeat 9 32) 49000 demo_address) = (Ok tt, y)
  /\ inputs y = [i'] /\ Input.script i' = Ok scriptSig /\ Input.output i' = Some o /\ Output.script o = Ok prev
  /\ Interpreter.verify_script scriptSig prev y 0 channel_flags = Ok true.
Proof.
  destruct (two_party_spend (8 : @PrivateKey der_ecdsa) (9 : @PrivateKey der_ecdsa)
    (refund_of 0 (repeat 1 32) (2 :: repeat 8 32) (2 :: repeat 9 32) 49000 demo_address)
    (refund_input (repeat 1 32) (2 :: repeat 8 32) (2 :: repeat 9 32) 49000) true (Some 130) None channel_flags)
    as (y & i' & ss & o & prev & Hy & _ & Hi & _ & H1 & H2 & H3 & H4).
  - discriminate.
  - apply refund_spends; [apply (pub_compressed (8 : @PrivateKey der_ecdsa))|apply (pub_compressed (9 : @PrivateKey der_ecdsa))|reflexivity| |lia|reflexivity| |].
    + apply (bool_decide_unpack _). vm_compute. exact I.
    + apply (bool_decide_unpack _). vm_compute. exact I.
    + split; vm_compute; [discriminate|reflexivity].
  - repeat split; vm_compute; (discriminate || reflexivity).
  - repeat split; vm_compute; (discriminate || reflexivity).
  - reflexivity.
  - reflexivity.
  - exists y, i', ss, o, prev. split; [exact Hy|]. split; [rewrite Hi; reflexivity|]. split; [exact H1|]. split; [exact H2|]. split; [exact H3|exact H4].
Defined.

Lemma payments_settle_witness : exists c p' y, fst (js_each (fun d => Consumer.incrementPaymentBy (num_of_Z d) 130) [300; -100; 500] c) = Ok tt
  /\ Signing.sign (9 : @PrivateKey der_ecdsa) (Some 130) (Payment.tx p') = (Ok tt, y) /\ Signing.isFullySigned y = Ok true
  /\ Output.satoshis <$> outputs y = [num_of_Z 48300].
Proof.
  destruct (payment_new (repeat 1 32) (toPublicKey (8 : @PrivateKey der_ecdsa)) (toPublicKey (9 : @PrivateKey der_ecdsa)) None 49000 demo_address demo_address)
    as (p & _ & Hp & Hback & _).
  - reflexivity.
  - reflexivity.
  - reflexivity.
  - lia.
  - reflexivity.
  - apply pub_compressed.
  - apply pub_compressed.
  - apply repeat_ok. unfold byte_ok. lia.
  - apply repeat_ok. unfold byte_ok. lia.
  - set (c := @Consumer.mk der_ecdsa livenet 0 8 [] demo_address 3 demo_address demo_address
      (Commitment.mk Transaction.new livenet [] Script.empty demo_address) None (Some p)).
    destruct (payments_settle [300; -100; 500] c p (9 : @PrivateKey der_ecdsa) 49000 130 (Some 130))
      as (p' & y & i & ss & o & prev & Hrun & _ & Hsign & Hfull & Ho & _).
    + discriminate.
    + reflexivity.
    + exact Hp.
    + discriminate.
    + intros [|[|[|[|n]]]]; cbn; lia.
    + repeat split; vm_compute; (discriminate || reflexivity).
    + repeat split; vm_compute; (discriminate || reflexivity).
    + exists c, p', y. split; [rewrite Hrun; reflexivity|]. split; [exact Hsign|]. split; [exact Hfull|]. rewrite Ho, Hback. reflexivity.
Defined.
End SettlementWitnesses.
