(* ===== verification/WebClient.v ===== *)
(** * bitmesh.js: the browser client

    Models [src/Sources/WebClient/js/bitmesh.js]: the channel and UI state machines, the messages
    exchanged with the router over the websocket, the payment timer and the display.

    All global variables are the fields of one record; a function of the source is a computation
    on it that may throw.  What leaves the page is a trace of effects.  The recursion of
    [set_channel_state] (a state's entry action sets the next state) is unfolded with fuel, see
    [set_channel_state_terminates].  Writes to the console are not modelled. *)
From S2P Require Import Prelude JsNumber Encoding Signature Script Transaction Interpreter Channel.
Local Open Scope Z_scope.
Local Open Scope js_scope.

(** The random keys the page makes, in order. *)
Class KeySource `{Ecdsa} := { random_key : nat -> PrivateKey }.

(** ** Data *)

Inductive CHANNEL_STATES :=
  | BEGIN | SENT_VERSION | RECEIVED_VERSION | RECEIVED_PRICE | SENT_FUNDING_ADDRESS | RECEIVED_FUNDING
  | INITIATED | SENT_REFUND | RECEIVED_REFUND | SENT_CONTRACT | RECEIVED_CHANNEL_OPEN | RECEIVED_ERROR
  | SENT_ERROR | RECEIVED_CLOSE | SENT_CLOSE | WEBSOCKET_CLOSED.
#[export] Instance CHANNEL_STATES_eq_dec : EqDecision CHANNEL_STATES.
Proof. solve_decision. Defined.

Inductive UI_STATES := UI_BEGIN | CONNECTED | USER_DISCONNECTED | FUNDS_DEPLETED | MULTIPLE_BITMESH_TABS_OPEN.
#[export] Instance UI_STATES_eq_dec : EqDecision UI_STATES.
Proof. solve_decision. Defined.

Inductive OUTPUT_STATES := UNPROCESSED | ATTACHED | DEPLETED.
#[export] Instance OUTPUT_STATES_eq_dec : EqDecision OUTPUT_STATES.
Proof. solve_decision. Defined.

(** [ChannelError.ErrorCode], the codes the client sends *)
Inductive ErrorCode := SYNTAX_ERROR | NO_ACCEPTABLE_VERSION | BAD_TRANSACTION | OTHER.

(** The messages the client sends; amounts are handed to protobuf as numbers. *)
Inductive client_message :=
  | CLIENT_VERSION (major minor : Z) (previous_channel_contract_hash : option (list Z))
  | FUNDING_ADDRESS (a : Address)
  | PROVIDE_REFUND (multisig_key tx : list Z)
  | PROVIDE_CONTRACT (tx : list Z) (client_change_value : number) (signature : list Z)
  | UPDATE_PAYMENT (client_change_value : number) (signature : list Z)
  | CLOSE
  | ERROR (code : ErrorCode).

(** The messages the client receives, decoded; a message may lack the field its type announces,
    and 64-bit integers arrive as [Long] objects. *)
Inductive server_message :=
  | SERVER_VERSION (v : option (Z * Z))
  | PRICE (p : option (Z * list Z))
  | FUNDING (transaction : option (list Z))
  | INITIATE (i : option (Z * Z * Z))
  | RETURN_REFUND (signature : option (list Z))
  | CHANNEL_OPEN
  | PAYMENT_ACK
  | SERVER_CLOSE
  | SERVER_ERROR (has_error : bool)
  | OTHER_MESSAGE
  | MALFORMED.

(** What is written into the page: text, numbers (as JavaScript prints them), numbers with four
    decimals, addresses and the URI of an address. *)
Inductive piece :=
  | Str (s : string)
  | Num (n : number)
  | Fixed4 (n : number)
  | Addr (a : Address)
  | Uri (a : Address).

Inductive effect :=
  | OpenSocket
  | Send (m : client_message)
  | Dropped (m : client_message)
  | SetInterval (id : nat)
  | ClearInterval (id : nat)
  | SetTimeout (ms : number)
  | Alert (text : list piece)
  | PostRefund (tx : list Z)
  | GetTicker
  | QrCode (a : Address)
  | Popover (a : Address).

Inductive ready_state := CONNECTING | OPEN | CLOSED.
#[export] Instance ready_state_eq_dec : EqDecision ready_state.
Proof. solve_decision. Defined.

(** ** The client *)
Module Client.
Section WithLibraries.
Context `{Crypto} `{Ecdsa} `{Hashes} `{!KeySource}.

Record t := mk {
  channel_state : option CHANNEL_STATES;
  ui_state : option UI_STATES;
  min_escrow : number;
  min_initial_payment : number;
  time_purchased : number;
  total_time_purchased : number;
  escrow_amount : number;
  price_per_second : number;
  client_key : option PrivateKey;
  server_key : option (list Z);
  refund_address : option Address;
  refund_tx : option Transaction.t;
  refund_amount : number;
  funding_keys : list (option PrivateKey);
  funding_key : option PrivateKey;
  funding_network : network;
  funding_address : option Address;
  consumer : option Consumer.t;
  coin_width : number;
  payment_update_timer : option nat;
  waiting_to_initiate : bool;
  open_channel : bool;
  attempt_reopen_channel : bool;
  expiration_date : option Z;
  previous_contract_hash : option (list Z);
  num_funding_outputs : nat;
  funding_outputs_used : nat;
  funding_outputs : list (UnspentOutput * option OUTPUT_STATES);
  funding_tx_hashes : list (list Z);
  last_increment : number;
  last_payment_update_time : number;
  received_ack : bool;
  fullyUsedUp : bool;
  total_paid : number;
  time_spent : number;
  total_time_spent : number;
  num_unacked_payment_updates : Z;
  websocket_open : bool;
  multiple_tabs_open : bool;
  num_connection_retries : Z;
  USD_price : option number;
  (** the browser: the clock, the keys made so far, the sockets (the last one is [websocket]),
      running intervals, pending timeouts, the page and what was done *)
  now_ms : Z;
  keys_made : nat;
  sockets : list ready_state;
  intervals : list nat;
  next_timer : nat;
  timeouts : nat;
  html : gmap string (list piece);
  shown : gmap string bool;
  trace : list effect;
}.
#[global] Instance eta_client : Eta t := fun s =>
  mk (channel_state s) (ui_state s) (min_escrow s) (min_initial_payment s) (time_purchased s) (total_time_purchased s)
     (escrow_amount s) (price_per_second s) (client_key s) (server_key s) (refund_address s) (refund_tx s)
     (refund_amount s) (funding_keys s) (funding_key s) (funding_network s) (funding_address s) (consumer s)
     (coin_width s) (payment_update_timer s) (waiting_to_initiate s) (open_channel s) (attempt_reopen_channel s)
     (expiration_date s) (previous_contract_hash s) (num_funding_outputs s) (funding_outputs_used s)
     (funding_outputs s) (funding_tx_hashes s) (last_increment s) (last_payment_update_time s) (received_ack s)
     (fullyUsedUp s) (total_paid s) (time_spent s) (total_time_spent s) (num_unacked_payment_updates s)
     (websocket_open s) (multiple_tabs_open s) (num_connection_retries s) (USD_price s)
     (now_ms s) (keys_made s) (sockets s) (intervals s) (next_timer s) (timeouts s) (html s) (shown s) (trace s).

Abbreviation M := (js t).

(** The page as loaded.  A variable that is used as a number before it is set is [undefined],
    which is NaN in arithmetic and false in comparisons. *)
Definition initial (now : Z) : t :=
  mk None None (num_of_Z 1000) (num_of_Z 1000) (num_of_Z 0) (num_of_Z 0) (num_of_Z 0) (num_of_Z 1) None None None None
     num_nan [] None livenet None None num_nan None false true false None None 0 0 [] [] num_nan num_nan false false
     (num_of_Z 0) (num_of_Z 0) (num_of_Z 0) 0 false false 0 None
     now 0 [] [] 1 0 ∅ ∅ [].

Definition fee := num_of_Z 1000.
Definition max_unacked_payment_updates := 5.
Definition network_name : network := testnet.
Definition POLICY_VIOLATION := 1008.

(** *** The browser *)

Definition emit (e : effect) : M unit := js_modify (fun s => s <| trace ::= (fun l => l ++ [e]) |>).

(** [jQuery(sel).html(text)], [.show()] and [.hide()] *)
Definition set_html (sel : string) (text : list piece) : M unit := js_modify (fun s => s <| html ::= <[sel := text]> |>).
Definition show (sel : string) : M unit := js_modify (fun s => s <| shown ::= <[sel := true]> |>).
Definition hide (sel : string) : M unit := js_modify (fun s => s <| shown ::= <[sel := false]> |>).

(** Using a variable that is [undefined]. *)
Definition need {A} (o : option A) : M A := match o with Some a => mret a | None => js_throw TypeError end.

(** Code on the [consumer] object. *)
Definition with_consumer {A} (m : js Consumer.t A) : M A :=
  s ← js_get;
  c ← need (consumer s);
  let '(r, c) := m c in
  js_modify (fun s => s <| consumer := Some c |>);; js_lift r.

(** [websocket.send], when the socket is open *)
Definition send_message (message : client_message) : M unit :=
  s ← js_get;
  ws ← need (last (sockets s));
  if bool_decide (ws = OPEN) then emit (Send message) else emit (Dropped message).

(** [start_websockets] *)
Definition start_websockets : M unit :=
  js_modify (fun s => s <| sockets ::= (fun l => l ++ [CONNECTING]) |>);; emit OpenSocket.

(** *** Utility functions *)

Definition reset_counters : M unit :=
  js_modify (fun s => s <| num_connection_retries := 0 |> <| time_spent := num_of_Z 0 |> <| time_purchased := num_of_Z 0 |>).

Definition convert_satoshis_to_usd (price satoshis : number) : number :=
  num_div (num_mul price satoshis) (num_of_Z 100000000).

Definition new_key : M PrivateKey :=
  s ← js_get;
  js_modify (fun s => s <| keys_made ::= S |>);;
  mret (random_key (keys_made s)).

(** [set_funding_key(key)]: the key that is replaced is pushed. *)
Definition set_funding_key (key : PrivateKey) (net : network) : M unit :=
  js_modify (fun s => s <| funding_keys ::= (fun l => l ++ [funding_key s]) |>);;
  js_modify (fun s => s <| funding_key := Some key |> <| funding_network := net |>);;
  js_modify (fun s => s <| funding_address := Some (Consumer.key_address (toPublicKey key) net) |>).

Definition init_keys : M unit :=
  key ← new_key;
  set_funding_key key network_name;;
  key ← new_key;
  js_modify (fun s => s <| client_key := Some key |>).

Definition create_uri : M unit :=
  s ← js_get;
  a ← need (funding_address s);
  set_html "#uri_string" [Addr a];;
  set_html "#qr_wrapper" [Str "<a id=qr_link href="; Uri a; Str "></a>"];;
  emit (QrCode a);;
  emit (Popover a).

(** [restore_wif_key]: a jQuery object has no property [value], so [fromWIF] gets [undefined] and
    the constructor makes a random key for the default network. *)
Definition restore_wif_key : M unit :=
  key ← new_key;
  set_funding_key key defaultNetwork;;
  create_uri.

(** [reverse_array] *)
Definition reverse_array (array : list Z) : list Z := rev array.

Definition get_bitcoin_price : M unit := emit GetTicker.

Definition not_depleted (o : UnspentOutput * option OUTPUT_STATES) : bool := negb (bool_decide (snd o = Some DEPLETED)).

Definition unspent_total (outs : list (UnspentOutput * option OUTPUT_STATES)) : number :=
  fold_left (fun total o => if not_depleted o then num_add total (utxo_satoshis (fst o)) else total) outs (num_of_Z 0).

Definition update_escrow_amount : M unit :=
  js_modify (fun s => s <| escrow_amount := num_sub (unspent_total (funding_outputs s)) fee |>);;
  js_modify (fun s => s <| coin_width := num_div (escrow_amount s) (num_of_Z 100) |>);;
  s ← js_get;
  if num_lt (coin_width s) (price_per_second s)
  then js_modify (fun s => s <| coin_width := price_per_second s |>) else mret tt.

(** *** The display *)

Definition get_time_left (s : t) : number := num_sub (num_div (escrow_amount s) (price_per_second s)) (time_spent s).

(** A number printed with a leading zero below ten. *)
Definition two_digits (n : number) : list piece := if num_lt n (num_of_Z 10) then [Str "0"; Num n] else [Num n].

Definition display_time (time_left : number) : list piece * list piece * list piece :=
  if num_gt time_left (num_of_Z 0) then
    (two_digits (Math_floor (num_div time_left (num_of_Z 3600))),
     two_digits (Math_floor (num_div (num_rem time_left (num_of_Z 3600)) (num_of_Z 60))),
     two_digits (Math_floor (num_rem time_left (num_of_Z 60))))
  else ([Str "00"], [Str "00"], [Str "00"]).

Definition usd (price : option number) (satoshis : number) : list piece :=
  match price with Some p => [Str "$"; Fixed4 (convert_satoshis_to_usd p satoshis)] | None => [] end.

Definition update_display : M unit :=
  s ← js_get;
  let time_left := get_time_left s in
  let '(hours, minutes, seconds) := display_time time_left in
  let time := if num_gt time_left (num_of_Z 0) then hours ++ [Str ":"] ++ minutes ++ [Str ":"] ++ seconds
              else [Str "00:00:00"] in
  let money := [Num (num_div (total_paid s) (num_of_Z 100)); Str " uBTC<br>"] ++ usd (USD_price s) (total_paid s) in
  let satoshis_per_hour := num_mul (price_per_second s) (num_of_Z 3600) in
  let price_display :=
    (if num_ge satoshis_per_hour (num_of_Z 100)
     then [Num (num_div satoshis_per_hour (num_of_Z 100)); Str " uBTC<br />"]
     else [Num (price_per_second s); Str " satoshis<br />"]) ++ usd (USD_price s) satoshis_per_hour in
  set_html "#price_display" price_display;;
  set_html "#money_spent" money;;
  set_html "#hours" (hours ++ [Str "<br />Hrs"]);;
  set_html "#minutes" (minutes ++ [Str "<br />Mins"]);;
  set_html "#seconds" (seconds ++ [Str "<br />Secs"]);;
  set_html "#title_display" time.

(** *** Timers *)

Definition cancel_payments : M unit :=
  s ← js_get;
  match payment_update_timer s with
  | Some id =>
      js_modify (fun s => s <| intervals ::= filter (fun i => i <> id) |>);;
      emit (ClearInterval id);;
      js_modify (fun s => s <| payment_update_timer := None |>)
  | None => mret tt
  end.

(** [new Date().getTime() / 1000.0] *)
Definition now_seconds (s : t) : number := num_div (num_of_Z (now_ms s)) (num_of_Z 1000).

(** *** The state machines *)

(** [channel_transition_is_valid(new_state)] *)
Definition channel_transition_is_valid (channel_state : option CHANNEL_STATES) (new_state : CHANNEL_STATES) : bool :=
  match channel_state, new_state with
  | None, BEGIN
  | Some BEGIN, SENT_VERSION
  | Some WEBSOCKET_CLOSED, SENT_VERSION
  | Some SENT_VERSION, SENT_VERSION
  | Some SENT_VERSION, RECEIVED_VERSION
  | Some RECEIVED_VERSION, RECEIVED_PRICE
  | Some RECEIVED_VERSION, RECEIVED_CHANNEL_OPEN
  | Some RECEIVED_PRICE, SENT_FUNDING_ADDRESS
  | Some RECEIVED_PRICE, INITIATED
  | Some RECEIVED_FUNDING, INITIATED
  | Some INITIATED, SENT_REFUND
  | Some SENT_REFUND, RECEIVED_REFUND
  | Some RECEIVED_REFUND, SENT_CONTRACT
  | Some SENT_CONTRACT, RECEIVED_CHANNEL_OPEN
  | Some RECEIVED_CLOSE, SENT_VERSION
  | Some SENT_CLOSE, SENT_VERSION
  | Some SENT_ERROR, SENT_VERSION
  | _, RECEIVED_CLOSE
  | _, RECEIVED_ERROR
  | _, SENT_ERROR
  | _, SENT_CLOSE
  | _, WEBSOCKET_CLOSED
  | _, RECEIVED_FUNDING => true
  | _, _ => false
  end.

(** [ui_transition_is_valid(new_state)]; an invalid transition is only logged. *)
Definition ui_transition_is_valid (ui_state : option UI_STATES) (new_state : UI_STATES) : bool :=
  match ui_state, new_state with
  | None, UI_BEGIN
  | Some UI_BEGIN, CONNECTED
  | _, MULTIPLE_BITMESH_TABS_OPEN
  | Some FUNDS_DEPLETED, CONNECTED
  | Some FUNDS_DEPLETED, FUNDS_DEPLETED
  | Some CONNECTED, CONNECTED
  | Some CONNECTED, USER_DISCONNECTED
  | Some USER_DISCONNECTED, CONNECTED
  | Some CONNECTED, FUNDS_DEPLETED => true
  | _, _ => false
  end.

Definition buttons (disconnect reconnect starting online disconnected mult gif qr : M unit) : M unit :=
  disconnect;; reconnect;; starting;; online;; disconnected;; mult;; gif;; qr.

(** [set_ui_state(new_state)] *)
Definition set_ui_state (new_state : UI_STATES) : M unit :=
  js_modify (fun s => s <| ui_state := Some new_state |>);;
  match new_state with
  | UI_BEGIN =>
      update_display;;
      set_html "#repayment_prompt" [Str ""];;
      buttons (hide "#disconnect_button") (hide "#reconnect_button") (show "#starting_status") (hide "#online_status")
        (hide "#disconnected_status") (hide "#mult_tabs_status") (hide "#multiple_tabs_gif") (show "#qr_div")
  | CONNECTED =>
      set_html "#repayment_prompt" [Str ""];;
      buttons (show "#disconnect_button") (hide "#reconnect_button") (hide "#starting_status") (show "#online_status")
        (hide "#disconnected_status") (hide "#mult_tabs_status") (hide "#multiple_tabs_gif") (show "#qr_div")
  | USER_DISCONNECTED =>
      set_html "#repayment_prompt" [Str ""];;
      buttons (hide "#disconnect_button") (show "#reconnect_button") (hide "#starting_status") (hide "#online_status")
        (show "#disconnected_status") (hide "#mult_tabs_status") (hide "#multiple_tabs_gif") (show "#qr_div")
  | FUNDS_DEPLETED =>
      set_html "#repayment_prompt" [Str "You have run out of funds. If you would like to continue internetting, please pay more money"];;
      buttons (hide "#disconnect_button") (hide "#reconnect_button") (hide "#starting_status") (hide "#online_status")
        (show "#disconnected_status") (hide "#mult_tabs_status") (hide "#multiple_tabs_gif") (show "#qr_div")
  | MULTIPLE_BITMESH_TABS_OPEN =>
      set_html "#repayment_prompt" [Str ""];;
      buttons (hide "#disconnect_button") (hide "#reconnect_button") (hide "#starting_status") (hide "#online_status")
        (hide "#disconnected_status") (show "#mult_tabs_status") (show "#multiple_tabs_gif") (hide "#qr_div")
  end.

(** *** Signing payments *)

(** [get_payment_update_signature(sigtype)]: the client's signature of the payment transaction,
    the hash type appended. *)
Definition get_payment_update_signature (sigtype : Z) : M (list Z) :=
  s ← js_get;
  c ← need (consumer s);
  p ← need (Consumer.paymentTx c);
  key ← need (client_key s);
  sigs ← js_lift (Signing.getSignatures key (Some sigtype) (Payment.tx p));
  signature ← need (head sigs);
  mret (sig_signature signature ++ [sigtype mod 256]).

(** *** The entry actions of the channel states

    They call [set_channel_state] again. *)
Section EntryActions.
Variable set_channel_state : CHANNEL_STATES -> M unit.

Definition send_version : M unit :=
  s ← js_get;
  send_message (CLIENT_VERSION 1 1 (if attempt_reopen_channel s then previous_contract_hash s else None));;
  set_channel_state SENT_VERSION.

Definition start_payment_channel : M unit := cancel_payments;; send_version.

Definition send_funding_address : M unit :=
  s ← js_get;
  a ← need (funding_address s);
  send_message (FUNDING_ADDRESS a);;
  create_uri;;
  set_channel_state SENT_FUNDING_ADDRESS.

(** The outputs that have not been in a channel yet, each with its place in [funding_outputs] *)
Definition process_output (i : nat) : M unit :=
  s ← js_get;
  o ← need (funding_outputs s !! i);
  with_consumer (Consumer.processFunding (fst o));;
  js_modify (fun s => s <| funding_outputs ::= alter (fun o => (fst o, Some ATTACHED)) i |>).

Definition create_payment_channel : M unit :=
  s ← js_get;
  server ← need (server_key s);
  fundingKey ← need (funding_key s);
  commitmentKey ← need (client_key s);
  refundKey ← match refund_address s with None => new_key | Some _ => mret commitmentKey end;
  s ← js_get;
  c ← js_lift (Consumer.new (now_ms s)
        (Consumer.mkOpts network_name (expiration_date s) commitmentKey server (Some network_name)
           (Some (Consumer.key_address server network_name)) fundingKey (funding_network s) (refund_address s) refundKey));
  js_modify (fun s => s <| consumer := Some c |>);;
  s ← js_get;
  js_each process_output (seq (funding_outputs_used s) (num_funding_outputs s - funding_outputs_used s));;
  js_modify (fun s => s <| funding_outputs_used := num_funding_outputs s |>).

Definition too_small (s : t) : list piece :=
  [Str "The minimum amount to pay is "; Num (min_escrow s); Str " satoshis and you paid "; Num (escrow_amount s);
   Str " satoshis"].

Definition initiate : M unit :=
  update_escrow_amount;;
  s ← js_get;
  if num_lt (escrow_amount s) (min_escrow s) then
    js_modify (fun s => s <| waiting_to_initiate := true |>);;
    set_html "#repayment_prompt" (too_small s);;
    emit (Alert (too_small s))
  else
    js_modify (fun s => s <| waiting_to_initiate := false |>);;
    js_modify (fun s => s <| attempt_reopen_channel := true |>);;
    create_payment_channel;;
    set_channel_state INITIATED.

Definition send_refund : M unit :=
  s ← js_get;
  tx ← with_consumer (Consumer.setupRefund (now_ms s));
  js_modify (fun s => s <| refund_tx := Some tx |>);;
  key ← need (client_key s);
  b ← js_lift (Transaction.toBuffer tx);
  send_message (PROVIDE_REFUND (toPublicKey key) b);;
  set_channel_state SENT_REFUND.

Definition send_contract : M unit :=
  s ← js_get;
  c ← need (consumer s);
  hash ← js_lift (Signing.getHash (Commitment.tx (Consumer.commitmentTx c)));
  js_modify (fun s => s <| previous_contract_hash := Some hash |>);;
  js_modify (fun s => s <| previous_contract_hash := Some (reverse_array hash) |>);;
  let sigtype := Z.lor SIGHASH_ANYONECANPAY SIGHASH_SINGLE in
  with_consumer (Consumer.incrementPaymentBy (min_initial_payment s) sigtype);;
  js_modify (fun s => s <| last_increment := min_initial_payment s |>);;
  signature ← get_payment_update_signature sigtype;
  s ← js_get;
  c ← need (consumer s);
  p ← need (Consumer.paymentTx c);
  o ← need (head (Transaction.outputs (Payment.tx p)));
  js_modify (fun s => s <| refund_amount := Output.satoshis o |>);;
  b ← js_lift (Transaction.toBuffer (Commitment.tx (Consumer.commitmentTx c)));
  send_message (PROVIDE_CONTRACT b (Output.satoshis o) signature);;
  set_channel_state SENT_CONTRACT.

(** The switch at the end of [set_channel_state] *)
Definition entry_action (state : CHANNEL_STATES) : M unit :=
  match state with
  | BEGIN => get_bitcoin_price;; init_keys;; reset_counters;; start_websockets
  | RECEIVED_PRICE =>
      s ← js_get;
      if (funding_outputs_used s <? num_funding_outputs s)%nat then initiate else send_funding_address
  | RECEIVED_FUNDING =>
      s ← js_get;
      if waiting_to_initiate s then initiate else js_modify (fun s => s <| waiting_to_initiate := true |>)
  | INITIATED => send_refund
  | RECEIVED_REFUND => send_contract
  | RECEIVED_ERROR | RECEIVED_CLOSE | SENT_CLOSE => start_payment_channel
  | SENT_VERSION | RECEIVED_VERSION | SENT_FUNDING_ADDRESS | SENT_REFUND | SENT_CONTRACT | RECEIVED_CHANNEL_OPEN
  | SENT_ERROR | WEBSOCKET_CLOSED => mret tt
  end.

Definition set_channel_state_body (new_state : CHANNEL_STATES) : M unit :=
  s ← js_get;
  if negb (channel_transition_is_valid (channel_state s) new_state) then js_throw EmptyObject
  else
    js_modify (fun s => s <| channel_state := Some new_state |>);;
    entry_action new_state.
End EntryActions.

(** [set_channel_state(new_state)], to a depth of [fuel] nested calls; beyond, the call stack
    would overflow. *)
Fixpoint set_channel_state_fuel (fuel : nat) (new_state : CHANNEL_STATES) : M unit :=
  match fuel with
  | O => js_throw RangeError
  | S fuel => set_channel_state_body (set_channel_state_fuel fuel) new_state
  end.

Definition set_channel_state : CHANNEL_STATES -> M unit := set_channel_state_fuel 3.

(** *** Message handlers *)

Definition exit_with_error_code (error_code : ErrorCode) : M unit :=
  send_message (ERROR error_code);;
  js_modify (fun s => s <| attempt_reopen_channel := true |>);;
  hide "#disconnect_button";;
  hide "#reconnect_button";;
  set_channel_state SENT_ERROR.

Definition receive_version (version : option (Z * Z)) : M unit :=
  v ← need version;
  if negb (fst v =? 1) || (snd v <? 1) then exit_with_error_code NO_ACCEPTABLE_VERSION
  else set_channel_state RECEIVED_VERSION.

Definition receive_price (price_msg : option (Z * list Z)) : M unit :=
  reset_counters;;
  p ← need price_msg;
  js_modify (fun s => s <| price_per_second := num_of_Z (fst p) |>);;
  s ← js_get;
  if num_lt (price_per_second s) (num_of_Z 0) then exit_with_error_code OTHER
  else
    js_lift (guard_or (BitcoreError "PublicKey") (PublicKey_isValid (snd p)));;
    js_modify (fun s => s <| server_key := Some (snd p) |>);;
    set_channel_state RECEIVED_PRICE.

(** The first input whose script passes a test *)
Fixpoint find_input (f : Script.t -> result bool) (inputs : list Input.t) : result (option Input.t) :=
  match inputs with
  | [] => Ok None
  | i :: inputs => sc ← Input.script i; b ← f sc; if b : bool then Ok (Some i) else find_input f inputs
  end.

(** A new funding output is pushed, marked, and its transaction remembered. *)
Definition record_output (id : list Z) (u : UnspentOutput) : M unit :=
  js_modify (fun s => s <| funding_outputs ::= (fun l => l ++ [(u, None)]) |>);;
  s ← js_get;
  need (funding_outputs s !! num_funding_outputs s);;
  js_modify (fun s => s <| funding_outputs ::= alter (fun o => (fst o, Some UNPROCESSED)) (num_funding_outputs s) |>);;
  js_modify (fun s => s <| funding_tx_hashes ::= (fun l => l ++ [id]) |>);;
  js_modify (fun s => s <| num_funding_outputs ::= S |>).

(** One output of a funding transaction: [amount] is the sum so far. *)
Definition receive_output (id : list Z) (j : nat) (o : Output.t) (amount : number) : M number :=
  sc ← js_lift (Output.script o);
  addr ← js_lift (Script.toAddress (Some network_name) sc);
  s ← js_get;
  own ← need (funding_address s);
  if bool_decide (addr = Some own) then
    u ← js_lift (newUnspentOutput (mkUnspent id (Z.of_nat j) sc (Output.satoshis o)));
    record_output id u;;
    mret (num_add amount (Output.satoshis o))
  else mret amount.

Fixpoint receive_outputs (id : list Z) (j : nat) (os : list Output.t) (amount : number) : M number :=
  match os with
  | [] => mret amount
  | o :: os => amount ← receive_output id j o amount; receive_outputs id (S j) os amount
  end.

Definition receive_funding (funding : option (list Z)) : M unit :=
  transaction ← need funding;
  funding_tx ← js_lift (Transaction.fromBuffer transaction);
  id ← js_lift (Signing.id_ funding_tx);
  s ← js_get;
  if bool_decide (id ∈ funding_tx_hashes s) then mret tt
  else
    refund_input ← js_lift (find_input (fun sc => Ok (Script.isPublicKeyHashIn sc)) (Transaction.inputs funding_tx));
    refund_input ← match refund_input with
                   | Some i => mret (Some i)
                   | None => js_lift (find_input Script.isScriptHashIn (Transaction.inputs funding_tx))
                   end;
    match refund_input with
    | None => exit_with_error_code BAD_TRANSACTION
    | Some i =>
        sc ← js_lift (Input.script i);
        addr ← js_lift (Script.toAddress (Some network_name) sc);
        js_modify (fun s => s <| refund_address := addr |>);;
        funding_amount ← receive_outputs id 0 (Transaction.outputs funding_tx) (num_of_Z 0);
        if num_le funding_amount (num_of_Z 0) then exit_with_error_code BAD_TRANSACTION
        else
          update_escrow_amount;;
          set_channel_state RECEIVED_FUNDING
    end.

Definition receive_initiate (initiate_msg : option (Z * Z * Z)) : M unit :=
  m ← need initiate_msg;
  let '(min_accepted_channel_size, expire_time_secs, min_payment) := m in
  js_modify (fun s => s <| min_escrow := num_of_Z min_accepted_channel_size |>);;
  js_modify (fun s => s <| expiration_date := Some expire_time_secs |>);;
  js_modify (fun s => s <| min_initial_payment := num_of_Z min_payment |>);;
  s ← js_get;
  if waiting_to_initiate s then initiate set_channel_state else mret tt.

(** [post_refund_tx(transaction)] *)
Definition post_refund_tx (transaction : Transaction.t) : M unit :=
  b ← js_lift (Transaction.toBuffer transaction);
  emit (PostRefund b).

(** The guarded part of [receive_refund]: the server's signature is applied to [refund_tx], which
    is then signed and checked. *)
Definition apply_refund_signature (signature : TransactionSignature) : M unit :=
  s ← js_get;
  tx ← need (refund_tx s);
  let '(r, tx) := Signing.applySignature signature tx in
  js_modify (fun s => s <| refund_tx := Some tx |>);;
  js_lift r;;
  s ← js_get;
  c ← need (consumer s);
  tx ← need (refund_tx s);
  let '(r, (c, tx)) := Consumer.validateRefund (c, tx) in
  js_modify (fun s => s <| consumer := Some c |> <| refund_tx := Some tx |>);;
  js_lift r.

Definition receive_refund (refund_sig : option (list Z)) : M unit :=
  refund_sig ← need refund_sig;
  let sigtype := Z.lor SIGHASH_NONE SIGHASH_ANYONECANPAY in
  s ← js_get;
  c ← need (consumer s);
  id ← js_lift (Signing.id_ (Commitment.tx (Consumer.commitmentTx c)));
  pub ← js_lift (match server_key s with Some k => Ok k | None => Throw InvalidArgument end);
  sg ← js_lift (Signature.fromDER (removelast refund_sig) true);
  der ← js_lift (Signature.toDER sg);
  ok ← js_catch (apply_refund_signature (mkSig pub id 0 0 der sigtype);; mret true)
         (fun _ => exit_with_error_code BAD_TRANSACTION;; mret false);
  if ok : bool then
    s ← js_get;
    tx ← need (refund_tx s);
    post_refund_tx tx;;
    set_channel_state RECEIVED_REFUND
  else mret tt.

(** [payment_update_timer = setInterval(update_payment, 100)], when there is no timer *)
Definition start_timer : M unit :=
  s ← js_get;
  match payment_update_timer s with
  | None =>
      js_modify (fun s => s <| last_payment_update_time := now_seconds s |>);;
      emit (SetInterval (next_timer s));;
      js_modify (fun s => s <| intervals ::= (fun l => l ++ [next_timer s]) |>
                            <| payment_update_timer := Some (next_timer s) |> <| next_timer ::= S |>)
  | Some _ => mret tt
  end.

Definition receive_channel_open : M unit :=
  js_modify (fun s => s <| fullyUsedUp := false |>);;
  start_timer;;
  set_channel_state RECEIVED_CHANNEL_OPEN;;
  set_ui_state CONNECTED.

(** What [increment_payment] pays and how it signs. *)
Definition next_increment (s : t) (p : Payment.t) : number * bool :=
  let left := num_sub (Payment.amount p) (Payment.paid p) in
  let remainder := num_sub left (coin_width s) in
  if num_lt remainder (min_initial_payment s) then (left, true) else (coin_width s, fullyUsedUp s).

Definition increment_payment : M unit :=
  s ← js_get;
  c ← need (consumer s);
  p ← need (Consumer.paymentTx c);
  let '(increment, used_up) := next_increment s p in
  js_modify (fun s => s <| fullyUsedUp := used_up |>);;
  let sigtype := Z.lor SIGHASH_ANYONECANPAY (if used_up then SIGHASH_NONE else SIGHASH_SINGLE) in
  if num_lt increment (num_of_Z 0) then exit_with_error_code SYNTAX_ERROR
  else
    js_modify (fun s => s <| last_increment := increment |>);;
    with_consumer (Consumer.incrementPaymentBy increment sigtype);;
    signature ← get_payment_update_signature sigtype;
    s ← js_get;
    c ← need (consumer s);
    p ← need (Consumer.paymentTx c);
    js_modify (fun s => s <| refund_amount := match Transaction.outputs (Payment.tx p) with
                                               | o :: _ => Output.satoshis o
                                               | [] => num_of_Z 0
                                               end |>);;
    s ← js_get;
    send_message (UPDATE_PAYMENT (refund_amount s) signature);;
    js_modify (fun s => s <| received_ack := false |>).

Definition receive_payment_ack : M unit :=
  s ← js_get;
  let purchase_amount := num_div (last_increment s) (price_per_second s) in
  js_modify (fun s => s <| time_purchased ::= (fun n => num_add n purchase_amount) |>);;
  js_modify (fun s => s <| total_time_purchased ::= (fun n => num_add n purchase_amount) |>);;
  js_modify (fun s => s <| total_paid ::= (fun n => num_add n (last_increment s)) |>);;
  js_modify (fun s => s <| received_ack := true |>).

Definition deplete (o : UnspentOutput * option OUTPUT_STATES) : UnspentOutput * option OUTPUT_STATES :=
  if bool_decide (snd o = Some ATTACHED) then (fst o, Some DEPLETED) else o.

Definition out_of_funds : string :=
  "You have run out of funds. If you would like to continue internetting, please pay more money".

Definition receive_close : M unit :=
  s ← js_get;
  (if fullyUsedUp s then
     js_modify (fun s => s <| funding_outputs ::= fmap deplete |>);;
     (if (num_funding_outputs s <=? funding_outputs_used s)%nat then
        set_ui_state FUNDS_DEPLETED;; emit (Alert [Str out_of_funds])
      else mret tt);;
     js_modify (fun s => s <| attempt_reopen_channel := false |> <| open_channel := true |>)
   else
     set_html "#repayment_prompt" [Str "Channel closed unexpectedly. Will attempt to reopen."];;
     js_modify (fun s => s <| attempt_reopen_channel := true |> <| open_channel := true |>));;
  set_channel_state RECEIVED_CLOSE.

Definition close_channel : M unit :=
  send_message CLOSE;;
  js_modify (fun s => s <| attempt_reopen_channel := false |>);;
  set_channel_state SENT_CLOSE.

Definition receive_error : M unit :=
  js_modify (fun s => s <| attempt_reopen_channel := true |>);;
  set_channel_state RECEIVED_ERROR.

(** *** User actions and the timer *)

Definition user_disconnect : M unit :=
  s ← js_get;
  c ← need (consumer s);
  p ← need (Consumer.paymentTx c);
  if num_le (num_sub (Payment.amount p) (Payment.paid p)) (min_initial_payment s) then
    set_html "#repayment_prompt" [Str "Channel already depleted. Please wait one moment."]
  else
    send_message (ERROR OTHER);;
    cancel_payments;;
    js_modify (fun s => s <| open_channel := false |>);;
    set_channel_state SENT_ERROR;;
    set_ui_state USER_DISCONNECTED.

Definition user_reconnect : M unit :=
  js_modify (fun s => s <| attempt_reopen_channel := true |> <| fullyUsedUp := false |>);;
  js_modify (fun s => s <| open_channel := true |>);;
  send_version set_channel_state;;
  set_ui_state CONNECTED.

Definition internet_is_reachable : bool := true.

Definition update_payment : M unit :=
  s ← js_get;
  let now := now_seconds s in
  let delta := num_sub now (last_payment_update_time s) in
  js_modify (fun s => s <| last_payment_update_time := now |>);;
  js_modify (fun s => s <| time_spent ::= (fun n => num_add n delta) |>);;
  js_modify (fun s => s <| total_time_spent ::= (fun n => num_add n delta) |>);;
  update_display;;
  s ← js_get;
  if num_lt (num_sub (time_purchased s) (time_spent s)) (num_of_Z 5) && internet_is_reachable then
    if received_ack s then
      js_modify (fun s => s <| num_unacked_payment_updates := 0 |>);;
      (if negb (fullyUsedUp s) then increment_payment else mret tt)
    else if num_unacked_payment_updates s >? max_unacked_payment_updates then
      cancel_payments;; exit_with_error_code OTHER
    else mret tt
  else mret tt.

(** *** The websocket's event handlers *)

Definition dispatch (msg : server_message) : M unit :=
  match msg with
  | SERVER_VERSION v => receive_version v
  | PRICE p => receive_price p
  | FUNDING f => receive_funding f
  | INITIATE i => receive_initiate i
  | RETURN_REFUND r => receive_refund r
  | CHANNEL_OPEN => receive_channel_open
  | PAYMENT_ACK => receive_payment_ack
  | SERVER_CLOSE => receive_close
  | SERVER_ERROR true => receive_error
  | SERVER_ERROR false => js_throw TypeError
  | OTHER_MESSAGE => mret tt
  | MALFORMED => js_throw (ErrorMessage "decode")
  end.

(** [onmessage]: errors are caught and logged. *)
Definition onmessage (msg : server_message) : M unit := js_catch (dispatch msg) (fun _ => mret tt).

Definition onopen : M unit :=
  js_modify (fun s => s <| websocket_open := true |> <| waiting_to_initiate := true |>);;
  s ← js_get;
  if open_channel s then start_payment_channel set_channel_state else mret tt.

(** The delay before a reconnection *)
Definition backoff (retries : Z) : number := num_mul (num_of_Z 1000) (Math_pow2 retries).

Definition onclose (code : Z) : M unit :=
  if code =? POLICY_VIOLATION then
    js_modify (fun s => s <| multiple_tabs_open := true |>);;
    set_ui_state MULTIPLE_BITMESH_TABS_OPEN
  else
    js_modify (fun s => s <| websocket_open := false |>);;
    s ← js_get;
    emit (SetTimeout (backoff (num_connection_retries s)));;
    js_modify (fun s => s <| timeouts ::= S |>);;
    js_modify (fun s => s <| num_connection_retries ::= Z.succ |>);;
    cancel_payments;;
    set_channel_state WEBSOCKET_CLOSED.

(** The handler of [jQuery(document).ready] *)
Definition ready : M unit := set_ui_state UI_BEGIN;; set_channel_state BEGIN.

(** *** Events *)

Inductive event :=
  | Ready
  | SocketOpen (n : nat)
  | SocketMessage (n : nat) (m : server_message)
  | SocketClose (n : nat) (code : Z)
  | Timeout
  | Interval (id : nat)
  | Ticker (price : number)
  | Disconnect
  | Reconnect
  | Unload.

Definition set_socket (n : nat) (r : ready_state) : M unit := js_modify (fun s => s <| sockets ::= <[n := r]> |>).

(** What the browser runs for an event. *)
Definition handler (e : event) : M unit :=
  match e with
  | Ready => ready
  | SocketOpen n => set_socket n OPEN;; onopen
  | SocketMessage n m => onmessage m
  | SocketClose n code => set_socket n CLOSED;; onclose code
  | Timeout => js_modify (fun s => s <| timeouts ::= pred |>);; start_websockets
  | Interval id => update_payment
  | Ticker price => js_modify (fun s => s <| USD_price := Some price |>);; update_display
  | Disconnect => user_disconnect
  | Reconnect => user_reconnect
  | Unload => close_channel
  end.

(** When an event can happen. *)
Definition enabled (e : event) (s : t) : bool :=
  match e with
  | Ready => bool_decide (channel_state s = None)
  | SocketOpen n => bool_decide (sockets s !! n = Some CONNECTING)
  | SocketMessage n m => bool_decide (sockets s !! n = Some OPEN)
  | SocketClose n code => bool_decide (sockets s !! n = Some CONNECTING \/ sockets s !! n = Some OPEN)
  | Timeout => (0 <? timeouts s)%nat
  | Interval id => bool_decide (id ∈ intervals s)
  | Ticker _ | Disconnect | Reconnect | Unload => true
  end.

(** An event at time [now]; an error that escapes the handler ends it. *)
Definition run (now : Z) (e : event) (s : t) : t := snd (handler e (s <| now_ms := now |>)).

Inductive step : t -> t -> Prop :=
  | step_event now e s : enabled e s = true -> step s (run now e s).

Definition reachable (s : t) : Prop := exists now, rtc step (initial now) s.

End WithLibraries.
End Client.
