(* ===== verification/WebClientSpec.v ===== *)
(** * bitmesh.js: what holds in every state of the client *)
From S2P Require Import Prelude JsNumber Encoding Signature Script Transaction Interpreter Channel ChannelSpec WebClient.
Local Open Scope Z_scope.
Local Open Scope js_scope.

Module ClientLemmas.
Import Client.
Section WithLibraries.
Context `{Crypto} `{Ecdsa} `{Hashes} `{!KeySource}.

(** *** The observation: the channel state, the timer and the bookkeeping *)

Record view := mkView {
  v_state : option CHANNEL_STATES;
  v_unacked : Z;
  v_timer : option nat;
  v_intervals : list nat;
  v_outputs : list UnspentOutput;
  v_hashes : list (list Z);
  v_num : nat;
  v_used : nat;
}.
Definition observe (s : Client.t) : view :=
  mkView (channel_state s) (num_unacked_payment_updates s) (payment_update_timer s) (intervals s)
    (fst <$> funding_outputs s) (funding_tx_hashes s) (num_funding_outputs s) (funding_outputs_used s).

(** An edge of the channel state machine *)
Definition edge (a b : option CHANNEL_STATES) : Prop := exists n, b = Some n /\ channel_transition_is_valid a n = true.

(** At most one payment timer runs, and it is the one the client knows; the unacknowledged
    updates are never counted; every funding output is counted, no more are used than were
    received, their transactions are remembered, and none is recorded twice. *)
Definition consistent (v : view) : Prop :=
  v_intervals v = option_list (v_timer v) /\ v_unacked v = 0 /\ length (v_outputs v) = v_num v
  /\ (v_used v <= v_num v)%nat /\ txId <$> v_outputs v = v_hashes v
  /\ NoDup (FundingLemmas.outpoint <$> v_outputs v).

Definition evolves (v w : view) : Prop := rtc edge (v_state v) (v_state w) /\ (consistent v -> consistent w).

#[local] Instance evolves_preorder : PreOrder evolves.
Proof.
  split.
  - intros v. split; [done|done].
  - intros u v w [Hs Hc] [Hs' Hc']. split; [by etrans|auto].
Qed.

Abbreviation fine := (keeps observe evolves).

Create HintDb fine.
Ltac fine_auto := repeat first [solve [auto with fine] | keeps_step].

Lemma fine_emit e : fine (emit e).
Proof. unfold emit. fine_auto. Qed.
Lemma fine_set_html sel x : fine (set_html sel x).
Proof. unfold set_html. fine_auto. Qed.
Lemma fine_show sel : fine (show sel).
Proof. unfold show. fine_auto. Qed.
Lemma fine_hide sel : fine (hide sel).
Proof. unfold hide. fine_auto. Qed.
Lemma fine_need {A} (o : option A) : fine (need o).
Proof. unfold need. fine_auto. Qed.
#[local] Hint Resolve fine_emit fine_set_html fine_show fine_hide fine_need : fine.

Lemma fine_with_consumer {A} (m : js Consumer.t A) : fine (with_consumer m).
Proof. unfold with_consumer. fine_auto. Qed.
Lemma fine_send_message m : fine (send_message m).
Proof. unfold send_message. fine_auto. Qed.
Lemma fine_start_websockets : fine start_websockets.
Proof. unfold start_websockets. fine_auto. Qed.
Lemma fine_reset_counters : fine reset_counters.
Proof. unfold reset_counters. fine_auto. Qed.
Lemma fine_new_key : fine new_key.
Proof. unfold new_key. fine_auto. Qed.
Lemma fine_set_funding_key k n : fine (set_funding_key k n).
Proof. unfold set_funding_key. fine_auto. Qed.
#[local] Hint Resolve fine_with_consumer fine_send_message fine_start_websockets fine_reset_counters fine_new_key
  fine_set_funding_key : fine.

Lemma fine_init_keys : fine init_keys.
Proof. unfold init_keys. fine_auto. Qed.
Lemma fine_create_uri : fine create_uri.
Proof. unfold create_uri. fine_auto. Qed.
Lemma fine_update_escrow_amount : fine update_escrow_amount.
Proof. unfold update_escrow_amount. fine_auto. Qed.
Lemma fine_update_display : fine update_display.
Proof. unfold update_display. fine_auto. Qed.
#[local] Hint Resolve fine_init_keys fine_create_uri fine_update_escrow_amount fine_update_display : fine.

Lemma fine_buttons a b c d e f g h : fine a -> fine b -> fine c -> fine d -> fine e -> fine f -> fine g -> fine h ->
  fine (buttons a b c d e f g h).
Proof. intros. unfold buttons. fine_auto. Qed.
#[local] Hint Resolve fine_buttons : fine.
Lemma fine_set_ui_state u : fine (set_ui_state u).
Proof. unfold set_ui_state. fine_auto. Qed.
#[local] Hint Resolve fine_set_ui_state : fine.

(** Stopping the timer leaves no interval running. *)
Lemma fine_cancel_payments : fine cancel_payments.
Proof.
  intros s. unfold cancel_payments. js_run. destruct (payment_update_timer s) as [id|] eqn:Ht; cbn; [|reflexivity].
  split; [done|]. intros (Hi & Hu & Ho & Hn & Hh & Hd). cbn in *. split_and!; try done. rewrite Hi, Ht. cbn. by rewrite decide_False by auto.
Qed.
#[local] Hint Resolve fine_cancel_payments : fine.

Lemma fst_alter m i (l : list (UnspentOutput * option OUTPUT_STATES)) : fst <$> alter (fun o => (fst o, m)) i l = fst <$> l.
Proof. revert i. induction l as [|o l IH]; intros [|i]; cbn; [done..|]. f_equal. apply IH. Qed.

Lemma fst_deplete (l : list (UnspentOutput * option OUTPUT_STATES)) : fst <$> (deplete <$> l) = fst <$> l.
Proof. rewrite <-list_fmap_compose. apply list_fmap_ext. intros i o _. cbn. unfold deplete. by case_bool_decide. Qed.

Section Entry.
Variable set_channel_state : CHANNEL_STATES -> js Client.t unit.
Hypothesis Hset : forall n, fine (set_channel_state n).
#[local] Hint Resolve Hset : fine.

Lemma fine_send_version : fine (send_version set_channel_state).
Proof. unfold send_version. fine_auto. Qed.
#[local] Hint Resolve fine_send_version : fine.
Lemma fine_start_payment_channel : fine (start_payment_channel set_channel_state).
Proof. unfold start_payment_channel. fine_auto. Qed.
Lemma fine_send_funding_address : fine (send_funding_address set_channel_state).
Proof. unfold send_funding_address. fine_auto. Qed.

(** Marking an output changes its mark only. *)
Lemma fine_process_output i : fine (process_output i).
Proof.
  unfold process_output. fine_auto. apply keeps_modify. intros s. split; [done|]. intros (Hi & Hu & Ho & Hn & Hh & Hd). cbn in *.
  by split_and!; cbn; rewrite ?fst_alter.
Qed.
#[local] Hint Resolve fine_process_output : fine.

Lemma fine_create_payment_channel : fine create_payment_channel.
Proof.
  unfold create_payment_channel. fine_auto. apply keeps_modify. intros s. split; [done|]. intros (Hi & Hu & Ho & Hn & Hh & Hd). cbn in *.
  by split_and!.
Qed.
#[local] Hint Resolve fine_create_payment_channel : fine.

Lemma fine_initiate : fine (initiate set_channel_state).
Proof. unfold initiate. fine_auto. Qed.
Lemma fine_send_refund : fine (send_refund set_channel_state).
Proof. unfold send_refund. fine_auto. Qed.
Lemma fine_get_payment_update_signature ty : fine (get_payment_update_signature ty).
Proof. unfold get_payment_update_signature. fine_auto. Qed.
#[local] Hint Resolve fine_get_payment_update_signature : fine.
Lemma fine_send_contract : fine (send_contract set_channel_state).
Proof. unfold send_contract. cbv zeta. fine_auto. Qed.
#[local] Hint Resolve fine_start_payment_channel fine_send_funding_address fine_initiate fine_send_refund fine_send_contract : fine.

Lemma fine_entry_action n : fine (entry_action set_channel_state n).
Proof. unfold entry_action, get_bitcoin_price. fine_auto. Qed.

Lemma fine_set_channel_state_body n : fine (set_channel_state_body set_channel_state n).
Proof.
  intros s. unfold set_channel_state_body. rewrite (js_bind_ok js_get _ _ _ _ eq_refl).
  destruct (channel_transition_is_valid (channel_state s) n) eqn:Hv; cbn [negb]; [|reflexivity].
  rewrite (js_bind_ok (js_modify _) _ s tt _ eq_refl). etransitivity; [|apply fine_entry_action].
  split; [|done]. apply rtc_once. exists n. done.
Qed.
End Entry.

Lemma fine_set_channel_state n : fine (set_channel_state n).
Proof.
  unfold set_channel_state. generalize 3%nat as fuel. intros fuel. revert n. induction fuel as [|fuel IH]; intros n.
  - cbn [set_channel_state_fuel]. fine_auto.
  - by apply fine_set_channel_state_body.
Qed.
#[local] Hint Resolve fine_set_channel_state fine_get_payment_update_signature fine_initiate fine_send_version fine_start_payment_channel : fine.

(** *** Handlers *)

Lemma fine_exit_with_error_code c : fine (exit_with_error_code c).
Proof. unfold exit_with_error_code. fine_auto. Qed.
#[local] Hint Resolve fine_exit_with_error_code : fine.

Lemma fine_receive_version v : fine (receive_version v).
Proof. unfold receive_version. fine_auto. Qed.
Lemma fine_receive_price p : fine (receive_price p).
Proof. unfold receive_price. fine_auto. Qed.
Lemma fine_receive_initiate m : fine (receive_initiate m).
Proof. unfold receive_initiate. fine_auto. Qed.

(** While the outputs of transaction [id] are gone through: those recorded so far come before
    the [j]-th. *)
Definition below (id : list Z) (j : nat) (v : view) : Prop :=
  forall o, o ∈ v_outputs v -> txId o = id -> utxo_outputIndex o < Z.of_nat j.

Lemma record_output_ok id u s : consistent (observe s) -> exists s', record_output id u s = (Ok tt, s')
  /\ observe s' = mkView (channel_state s) (num_unacked_payment_updates s) (payment_update_timer s) (intervals s)
       ((fst <$> funding_outputs s) ++ [u]) (funding_tx_hashes s ++ [id]) (S (num_funding_outputs s)) (funding_outputs_used s).
Proof.
  intros (Hi & Hu & Ho & Hn & Hh & Hd). cbn in Ho. rewrite length_fmap in Ho. unfold record_output.
  rewrite (js_bind_ok (js_modify _) _ s tt _ eq_refl), (js_bind_ok js_get _ _ _ _ eq_refl).
  set (s1 := s <| funding_outputs ::= _ |>). change (funding_outputs s1) with (funding_outputs s ++ [(u, None)]).
  change (num_funding_outputs s1) with (num_funding_outputs s). rewrite <-Ho, list_lookup_middle by done. cbn [need].
  rewrite (js_bind_ok (mret _) _ _ _ _ eq_refl). eexists. split; [reflexivity|].
  transitivity (mkView (channel_state s) (num_unacked_payment_updates s) (payment_update_timer s) (intervals s)
    (fst <$> alter (fun o => (fst o, Some UNPROCESSED)) (length (funding_outputs s)) (funding_outputs s ++ [(u, None)]))
    (funding_tx_hashes s ++ [id]) (S (length (funding_outputs s))) (funding_outputs_used s)); [by rewrite Ho|].
  by rewrite fst_alter, fmap_app.
Qed.

Lemma receive_output_ok id j o a s : consistent (observe s) -> below id j (observe s) ->
  let s' := snd (receive_output id j o a s) in
  consistent (observe s') /\ below id (S j) (observe s') /\ channel_state s' = channel_state s.
Proof.
  intros Hc Hb. assert (below id (S j) (observe s)) as Hb' by (intros u Hu Hid; specialize (Hb u Hu Hid); lia).
  unfold receive_output, need. js_try; [|done]. js_try; [|done]. js_look.
  destruct (funding_address s) as [own|]; [|done]. rewrite (js_bind_ok (mret own) _ s own s eq_refl).
  case_bool_decide as Ha; [|done]. js_try; [|done]. rename a2 into u. rename Heqr1 into Hu.
  assert (txId u = id /\ utxo_outputIndex u = Z.of_nat j) as [Hid Hj].
  { unfold newUnspentOutput in Hu. destruct (guard_or _ _); [|done]. cbn in Hu. destruct (Script_copy _); [|done]. by injection Hu as <-. }
  destruct (record_output_ok id u s Hc) as (s1 & Hs1 & Hv). rewrite (js_bind_ok _ _ _ _ _ Hs1). cbn [mret js_ret snd].
  destruct Hc as (Hi & Hun & Ho & Hn & Hh & Hd). rewrite Hv. cbn in *. split; [|split; [|by apply (f_equal v_state) in Hv]].
  - split_and!; cbn; try done; [rewrite length_app, Ho; cbn; lia|lia|by rewrite fmap_app, Hh, <-Hid|].
    rewrite fmap_app. apply NoDup_app. split; [done|]. split; [|apply NoDup_singleton].
    intros p (u' & -> & Hu')%list_elem_of_fmap Hp%list_elem_of_singleton.
    unfold FundingLemmas.outpoint in Hp. injection Hp as Hp1 Hp2. specialize (Hb u' Hu'). cbn in Hb. rewrite Hp1, Hp2, Hid in Hb.
    specialize (Hb eq_refl). lia.
  - intros v [Hv'|Hv'%list_elem_of_singleton]%elem_of_app Hvid; [by apply Hb'|]. subst v. lia.
Qed.

Lemma receive_outputs_ok id os : forall j a s, consistent (observe s) -> below id j (observe s) ->
  consistent (observe (snd (receive_outputs id j os a s))).
Proof.
  induction os as [|o os IH]; intros j a s Hc Hb; cbn [receive_outputs]; [done|].
  destruct (receive_output_ok id j o a s Hc Hb) as (Hc' & Hb' & _). unfold mbind, js_bind.
  destruct (receive_output id j o a s) as [[b|e] s1]; cbn in *; [by apply IH|done].
Qed.

(** The state of the channel is not touched meanwhile. *)
Lemma receive_outputs_state id os : forall j a, keeps channel_state eq (receive_outputs id j os a).
Proof.
  assert (forall id u, keeps channel_state eq (record_output id u)) as Hr.
  { intros id' u. unfold record_output, need. repeat keeps_step. }
  induction os as [|o os IH]; intros j a; cbn [receive_outputs]; [repeat keeps_step|].
  apply keeps_bind; [typeclasses eauto| |done]. unfold receive_output, need. repeat first [apply Hr|keeps_step].
Qed.

(** A funding transaction that was not seen before *)
Lemma receive_outputs_fine id os a s : id ∉ funding_tx_hashes s ->
  evolves (observe s) (observe (snd (receive_outputs id 0 os a s))).
Proof.
  intros Hnew. split.
  - cbn. rewrite (receive_outputs_state id os 0 a s). done.
  - intros Hc. apply receive_outputs_ok; [done|]. intros u Hu Hid. destruct Hc as (_ & _ & _ & _ & Hh & _).
    exfalso. apply Hnew. cbn in Hh. rewrite <-Hh, <-Hid. by apply list_elem_of_fmap_2.
Qed.

(** What follows a change of the state the view does not see *)
Lemma fine_receive_funding f : fine (receive_funding f).
Proof.
  intros s. unfold receive_funding. destruct f as [b|]; [|reflexivity]. cbn [need]. rewrite (js_bind_ok (mret b) _ s b s eq_refl).
  js_try; [|reflexivity]. rename a into tx. js_try; [|reflexivity]. rename a into id.
  js_look. case_bool_decide as Hnew; [reflexivity|]. js_try; [|reflexivity]. rename a into i0.
  match goal with |- context [mbind ?f (match i0 with _ => _ end) s] => set (tail := f) end.
  assert (forall i1, evolves (observe s) (observe (snd (tail i1 s)))) as Htail; [|destruct i0 as [i|]; [apply (Htail (Some i))|]].
  2:{ js_try; [apply Htail|reflexivity]. }
  clear i0 Heqr1. intros [i|]; unfold tail; [|apply fine_exit_with_error_code].
  js_try; [|reflexivity]. js_try; [|reflexivity].
  rewrite (js_bind_ok (js_modify _) _ s tt _ eq_refl). set (s1 := s <| refund_address := _ |>).
  assert (observe s = observe s1) as -> by reflexivity.
  pose proof (receive_outputs_fine id (Transaction.outputs tx) (num_of_Z 0) s1 Hnew) as Hr. unfold mbind at 1, js_bind at 1.
  destruct (receive_outputs id 0 (Transaction.outputs tx) (num_of_Z 0) s1) as [[amount|e] s2]; cbn [snd] in *; [|done].
  etransitivity; [exact Hr|]. destruct (num_le amount (num_of_Z 0)).
  - apply fine_exit_with_error_code.
  - revert s2 Hr. intros s2 _. generalize s2. change (fine (update_escrow_amount;; set_channel_state RECEIVED_FUNDING)). fine_auto.
Qed.

Lemma fine_apply_refund_signature sg : fine (apply_refund_signature sg).
Proof. unfold apply_refund_signature. fine_auto. Qed.
Lemma fine_post_refund_tx tx : fine (post_refund_tx tx).
Proof. unfold post_refund_tx. fine_auto. Qed.
#[local] Hint Resolve fine_apply_refund_signature fine_post_refund_tx : fine.
Lemma fine_receive_refund sg : fine (receive_refund sg).
Proof. unfold receive_refund. cbv zeta. fine_auto. Qed.

(** The timer starts only when none runs. *)
Lemma fine_start_timer : fine start_timer.
Proof.
  intros s. unfold start_timer. rewrite (js_bind_ok js_get _ _ _ _ eq_refl).
  destruct (payment_update_timer s) as [id|] eqn:Ht; [reflexivity|].
  match goal with |- evolves _ (observe ?s') => assert (observe s' = mkView (channel_state s) (num_unacked_payment_updates s)
    (Some (next_timer s)) (intervals s ++ [next_timer s]) (fst <$> funding_outputs s) (funding_tx_hashes s)
    (num_funding_outputs s) (funding_outputs_used s)) as -> by reflexivity end.
  split; [done|]. intros (Hi & Hu & Ho & Hn & Hh & Hd). cbn in *. split_and!; try done. cbn. by rewrite Hi, Ht.
Qed.
#[local] Hint Resolve fine_start_timer : fine.
Lemma fine_receive_channel_open : fine receive_channel_open.
Proof. unfold receive_channel_open. fine_auto. Qed.
Lemma fine_increment_payment : fine increment_payment.
Proof. unfold increment_payment. cbv zeta. fine_auto. Qed.
Lemma fine_receive_payment_ack : fine receive_payment_ack.
Proof. unfold receive_payment_ack. cbv zeta. fine_auto. Qed.
#[local] Hint Resolve fine_increment_payment : fine.

(** Depleting the outputs changes their marks only. *)
Lemma fine_receive_close : fine receive_close.
Proof.
  unfold receive_close. fine_auto. apply keeps_modify. intros s. split; [done|]. intros (Hi & Hu & Ho & Hn & Hh & Hd). cbn in *.
  by split_and!; cbn; rewrite ?fst_deplete.
Qed.
Lemma fine_close_channel : fine close_channel.
Proof. unfold close_channel. fine_auto. Qed.
Lemma fine_receive_error : fine receive_error.
Proof. unfold receive_error. fine_auto. Qed.
Lemma fine_user_disconnect : fine user_disconnect.
Proof. unfold user_disconnect. fine_auto. Qed.
Lemma fine_user_reconnect : fine user_reconnect.
Proof. unfold user_reconnect. fine_auto. Qed.

(** The counter of unacknowledged updates is only ever set to zero. *)
Lemma fine_update_payment : fine update_payment.
Proof.
  unfold update_payment. cbv zeta. fine_auto. apply keeps_modify. intros s. split; [done|]. intros (Hi & Hu & Ho & Hn & Hh & Hd). done.
Qed.
#[local] Hint Resolve fine_receive_version fine_receive_price fine_receive_initiate fine_receive_funding fine_receive_refund
  fine_receive_channel_open fine_receive_payment_ack fine_receive_close fine_close_channel fine_receive_error
  fine_user_disconnect fine_user_reconnect fine_update_payment : fine.

Lemma fine_dispatch m : fine (dispatch m).
Proof. unfold dispatch. fine_auto. Qed.
#[local] Hint Resolve fine_dispatch : fine.
Lemma fine_onmessage m : fine (onmessage m).
Proof. unfold onmessage. fine_auto. Qed.
Lemma fine_onopen : fine onopen.
Proof. unfold onopen. fine_auto. Qed.
Lemma fine_onclose code : fine (onclose code).
Proof. unfold onclose. fine_auto. Qed.
#[local] Hint Resolve fine_onmessage fine_onopen fine_onclose : fine.

Lemma fine_handler e : fine (handler e).
Proof. unfold handler, ready, set_socket. fine_auto. Qed.

Lemma run_evolves now e s : evolves (observe s) (observe (run now e s)).
Proof.
  assert (observe s = observe (s <| now_ms := now |>)) as -> by reflexivity. apply fine_handler.
Qed.

Lemma reachable_consistent s : reachable s -> consistent (observe s).
Proof.
  intros (now & Hs). assert (consistent (observe (initial now))) as Hi by (split_and!; done || cbn; lia || constructor). revert Hs Hi. generalize (initial now). intros s0.
  induction 1 as [s1|s1 s2 s3 Hstep _ IH]; intros Hi; [done|]. apply IH. destruct Hstep as [now' e s1 _].
  by apply (run_evolves now' e s1).
Qed.
End WithLibraries.
End ClientLemmas.

(** ** Nested state changes *)
Module Nesting.
Import Client.
Section WithLibraries.
Context `{Crypto} `{Ecdsa} `{Hashes} `{!KeySource}.

(** How many calls of [set_channel_state] are nested below a state's entry action. *)
Definition depth (n : CHANNEL_STATES) : nat :=
  match n with
  | RECEIVED_PRICE | RECEIVED_FUNDING => 2
  | INITIATED | RECEIVED_REFUND | RECEIVED_ERROR | RECEIVED_CLOSE | SENT_CLOSE => 1
  | _ => 0
  end.

Definition agree_below (f g : CHANNEL_STATES -> js Client.t unit) (d : nat) : Prop :=
  forall n, (depth n < d)%nat -> forall s, f n s = g n s.

Ltac ext_auto := repeat first
  [ reflexivity | apply js_bind_ext; [intros ?|intros ? ?]
  | match goal with |- context [match ?x with _ => _ end] => destruct x end ].

Lemma entry_action_ext f g d n : agree_below f g d -> (depth n <= d)%nat ->
  forall s, entry_action f n s = entry_action g n s.
Proof.
  intros Hfg Hn s.
  assert (forall k, (depth k < d)%nat -> forall s, f k s = g k s) as Hk by (intros k; apply Hfg). clear Hfg.
  destruct n; cbn [depth] in Hn; try reflexivity; cbn [entry_action];
    unfold start_payment_channel, send_version, send_refund, send_contract, initiate, send_funding_address; cbv zeta;
    ext_auto; apply Hk; cbn [depth]; lia.
Qed.

Lemma body_ext f g d n : agree_below f g d -> (depth n <= d)%nat ->
  forall s, set_channel_state_body f n s = set_channel_state_body g n s.
Proof.
  intros Hfg Hn s. unfold set_channel_state_body. apply js_bind_ext; [done|]. intros a s1.
  destruct (negb _); [done|]. apply js_bind_ext; [done|]. intros ? s2. by apply (entry_action_ext f g d).
Qed.

Lemma fuel_agrees d : forall k n s, (depth n < d)%nat ->
  set_channel_state_fuel (d + k) n s = set_channel_state_fuel d n s.
Proof.
  induction d as [|d IH]; intros k n s Hn; [lia|]. cbn [Nat.add set_channel_state_fuel].
  apply (body_ext _ _ d); [|lia]. intros m Hm s'. by apply IH.
Qed.

Lemma depth_bound n : (depth n < 3)%nat.
Proof. destruct n; cbn; lia. Qed.
End WithLibraries.
End Nesting.

(** ** Theorems *)
Section ClientTheorems.
Import Client ClientLemmas Nesting.
Context `{Crypto} `{Ecdsa} `{Hashes} `{!KeySource}.

(** C2: in every reachable state the running intervals are exactly the payment timer the client
    knows, every funding output received is counted, remembered and recorded once (no two
    recorded outputs are the same outpoint), and no more outputs are used than were received. *)
Theorem reachable_bookkeeping s : reachable s ->
  intervals s = option_list (payment_update_timer s)
  /\ length (funding_outputs s) = num_funding_outputs s
  /\ (funding_outputs_used s <= num_funding_outputs s)%nat
  /\ txId ∘ fst <$> funding_outputs s = funding_tx_hashes s
  /\ NoDup (FundingLemmas.outpoint ∘ fst <$> funding_outputs s).
Proof.
  intros (Hi & _ & Ho & Hn & Hh & Hd)%reachable_consistent. cbn in *. rewrite length_fmap in Ho.
  rewrite !list_fmap_compose. done.
Qed.

(** the recursion of [set_channel_state] through the entry actions is never deeper than three
    calls: more fuel changes nothing. *)
Theorem set_channel_state_terminates k n s : set_channel_state_fuel (3 + k) n s = set_channel_state n s.
Proof. apply fuel_agrees, depth_bound. Qed.

(** What is left of the page when the timer is stopped and a message sent. *)
Definition core (s : Client.t) :=
  (channel_state s, ui_state s, sockets s, funding_outputs s, attempt_reopen_channel s, previous_contract_hash s, fullyUsedUp s,
   open_channel s, consumer s, received_ack s, total_paid s).

Lemma cancel_payments_ok s : exists s', cancel_payments s = (Ok tt, s') /\ payment_update_timer s' = None
  /\ core s' = core s /\ intervals s' = filter (fun i => Some i <> payment_update_timer s) (intervals s).
Proof.
  unfold cancel_payments. js_look. destruct (payment_update_timer s) as [id|] eqn:Ht.
  - js_set. unfold emit. js_set. eexists. split; [reflexivity|]. split; [reflexivity|]. split; [reflexivity|].
    apply list_filter_iff. intros i. naive_solver.
  - exists s. split; [done|]. split; [done|]. split; [done|]. induction (intervals s) as [|i l IH]; [done|].
    cbn. rewrite decide_True by done. by f_equal.
Qed.

Definition delivered (ws : ready_state) (m : client_message) : effect := if bool_decide (ws = OPEN) then Send m else Dropped m.

Lemma send_message_ok m s ws : last (sockets s) = Some ws -> exists s', send_message m s = (Ok tt, s')
  /\ trace s' = trace s ++ [delivered ws m] /\ core s' = core s /\ payment_update_timer s' = payment_update_timer s
  /\ intervals s' = intervals s.
Proof.
  intros Hs. unfold send_message, need, delivered. js_look. rewrite Hs. rewrite (js_bind_ok (mret ws) _ s ws s eq_refl).
  unfold emit. case_bool_decide; eexists; split; by repeat split.
Qed.

(** Entering a state that restarts the channel: the timer is stopped and the version sent again,
    which takes the machine to [SENT_VERSION] if it has an edge there. *)
Lemma restart n s ws : n = RECEIVED_ERROR \/ n = RECEIVED_CLOSE \/ n = SENT_CLOSE -> last (sockets s) = Some ws ->
  exists s', set_channel_state n s = (if bool_decide (n = RECEIVED_ERROR) then Throw EmptyObject else Ok tt, s')
  /\ channel_state s' = Some (if bool_decide (n = RECEIVED_ERROR) then RECEIVED_ERROR else SENT_VERSION)
  /\ payment_update_timer s' = None /\ funding_outputs s' = funding_outputs s /\ attempt_reopen_channel s' = attempt_reopen_channel s
  /\ last (trace s') = Some (delivered ws (CLIENT_VERSION 1 1 (if attempt_reopen_channel s then previous_contract_hash s else None)))
  /\ ui_state s' = ui_state s /\ sockets s' = sockets s /\ fullyUsedUp s' = fullyUsedUp s /\ open_channel s' = open_channel s.
Proof.
  intros Hn Hws.
  assert (set_channel_state n s = set_channel_state_body (set_channel_state_fuel 2) n s) as -> by done.
  unfold set_channel_state_body. js_look.
  assert (channel_transition_is_valid (channel_state s) n = true) as ->.
  { destruct Hn as [->|[->| ->]]; destruct (channel_state s) as [[]|]; reflexivity. }
  cbn [negb]. js_set. set (s1 := s <| channel_state := Some n |>).
  assert (forall s2, entry_action (set_channel_state_fuel 2) n s2 = start_payment_channel (set_channel_state_fuel 2) s2) as ->
    by (by destruct Hn as [->|[->| ->]]).
  unfold start_payment_channel. destruct (cancel_payments_ok s1) as (s2 & Hs2 & Ht2 & Hc2 & _).
  rewrite (js_bind_ok cancel_payments _ _ _ _ Hs2). unfold send_version. js_look.
  assert (core s2 = core s1 /\ core s1 = (Some n, ui_state s, sockets s, funding_outputs s, attempt_reopen_channel s,
     previous_contract_hash s, fullyUsedUp s, open_channel s, consumer s, received_ack s, total_paid s)) as [_ Hc1] by done.
  rewrite Hc1 in Hc2. injection Hc2 as H1a H1b H1c H1d H1e H1f H1g H1h _ _ _.
  rewrite H1e, H1f.
  destruct (send_message_ok (CLIENT_VERSION 1 1 (if attempt_reopen_channel s then previous_contract_hash s else None)) s2 ws)
    as (s3 & Hs3 & Htr & Hc3 & Ht3 & _); [by rewrite H1c|].
  rewrite (js_bind_ok (send_message _) _ _ _ _ Hs3).
  injection Hc3 as H2a H2b H2c H2d H2e H2f H2g H2h _ _ _. cbn [set_channel_state_fuel]. unfold set_channel_state_body. js_look.
  rewrite H2a, H1a. destruct Hn as [->|Hn].
  - exists s3. rewrite !bool_decide_true by done. split; [done|]. rewrite H2a, H1a, Htr, last_snoc, Ht3, Ht2. by split_and!; congruence.
  - assert (channel_transition_is_valid (Some n) SENT_VERSION = true) as -> by (by destruct Hn as [->| ->]).
    rewrite bool_decide_false by (by destruct Hn as [->| ->]). cbn [negb entry_action]. js_set.
    eexists. split; [reflexivity|]. split; [reflexivity|].
    match goal with |- payment_update_timer ?s4 = _ /\ _ =>
      change (payment_update_timer s4) with (payment_update_timer s3); change (funding_outputs s4) with (funding_outputs s3);
      change (attempt_reopen_channel s4) with (attempt_reopen_channel s3); change (trace s4) with (trace s3);
      change (ui_state s4) with (ui_state s3); change (sockets s4) with (sockets s3); change (fullyUsedUp s4) with (fullyUsedUp s3);
      change (open_channel s4) with (open_channel s3) end.
    rewrite Htr, last_snoc, Ht3, Ht2. by split_and!; congruence.
Qed.

(** What the page shows and the rest of the machine see of [update_display]. *)
Lemma update_display_ok s : exists s', update_display s = (Ok tt, s')
  /\ (channel_state s', ui_state s', trace s', intervals s', payment_update_timer s', received_ack s', num_unacked_payment_updates s')
     = (channel_state s, ui_state s, trace s, intervals s, payment_update_timer s, received_ack s, num_unacked_payment_updates s).
Proof.
  unfold update_display, set_html. js_look. cbv zeta. destruct (display_time (get_time_left s)) as [[h m] sec].
  do 5 js_set. eexists. split; reflexivity.
Qed.

(** a payment that is never acknowledged is never noticed: the counter that should trigger the
    error is never increased, so every tick of the timer leaves the channel, the timer and the
    messages as they are. *)
Theorem missing_ack_unnoticed now id s : reachable s -> received_ack s = false ->
  let s' := run now (Interval id) s in
  channel_state s' = channel_state s /\ trace s' = trace s /\ intervals s' = intervals s /\ received_ack s' = false.
Proof.
  intros (_ & Hu & _)%reachable_consistent Hack s'. cbn in Hu. unfold s', run, handler, update_payment. js_look. cbv zeta.
  do 3 js_set.
  match goal with |- context [mbind _ update_display ?s1] =>
    destruct (update_display_ok s1) as (s2 & Hs2 & [= Hcs _ Htr Hin Htm Hra Hun]) end.
  rewrite (js_bind_ok update_display _ _ _ _ Hs2). js_look.
  change (received_ack s2 = received_ack s) in Hra. rewrite Hra, Hack.
  change (num_unacked_payment_updates s2 = num_unacked_payment_updates s) in Hun. rewrite Hun, Hu.
  change (0 >? max_unacked_payment_updates) with false. cbv iota.
  destruct (_ && _); cbn [mret js_ret snd]; rewrite Hcs, Htr, Hin, Hra; done.
Qed.

(** The visibility map left by a run of [show] and [hide]. *)
Ltac look_at_page :=
  match goal with |- context [shown ?s'] =>
    let x := eval lazy beta iota delta [shown upd] in (shown s') in change (shown s') with x end.

(** [set_ui_state] shows exactly one of the four panels, the disconnect button only while
    connected and the reconnect button only after a disconnect, and hides the QR code only when
    several tabs are open. *)
Theorem ui_state_panels u s : exists s', set_ui_state u s = (Ok tt, s') /\ ui_state s' = Some u
  /\ shown s' !! "#starting_status" = Some (bool_decide (u = UI_BEGIN))
  /\ shown s' !! "#online_status" = Some (bool_decide (u = CONNECTED))
  /\ shown s' !! "#disconnected_status" = Some (bool_decide (u = USER_DISCONNECTED \/ u = FUNDS_DEPLETED))
  /\ shown s' !! "#mult_tabs_status" = Some (bool_decide (u = MULTIPLE_BITMESH_TABS_OPEN))
  /\ shown s' !! "#disconnect_button" = Some (bool_decide (u = CONNECTED))
  /\ shown s' !! "#reconnect_button" = Some (bool_decide (u = USER_DISCONNECTED))
  /\ shown s' !! "#qr_div" = Some (bool_decide (u <> MULTIPLE_BITMESH_TABS_OPEN)).
Proof.
  unfold set_ui_state. js_set. destruct u; unfold buttons, show, hide.
  1: { match goal with |- context [mbind _ update_display ?s1] =>
         destruct (update_display_ok s1) as (s2 & Hs2 & [= _ Hui _ _ _ _ _]) end.
       rewrite (js_bind_ok update_display _ _ _ _ Hs2). clear Hs2. unfold set_html. do 8 js_set.
       eexists. split; [reflexivity|]. split; [exact Hui|]. look_at_page. by simpl_map. }
  all: unfold set_html; do 8 js_set; eexists; (split; [reflexivity|]); (split; [reflexivity|]); look_at_page; by simpl_map.
Qed.

(** C34: an error message from the server leaves the client in [RECEIVED_ERROR]: the version is
    sent again, but the machine has no edge from [RECEIVED_ERROR] to [SENT_VERSION], so the
    handler throws after sending; pressing reconnect fails in the same way. *)
Theorem error_recovery_fails s ws : last (sockets s) = Some ws ->
  exists s', receive_error s = (Throw EmptyObject, s') /\ channel_state s' = Some RECEIVED_ERROR
  /\ payment_update_timer s' = None
  /\ last (trace s') = Some (delivered ws (CLIENT_VERSION 1 1 (previous_contract_hash s)))
  /\ exists s'', user_reconnect s' = (Throw EmptyObject, s'') /\ channel_state s'' = Some RECEIVED_ERROR.
Proof.
  intros Hws. unfold receive_error. js_set. set (s0 := s <| attempt_reopen_channel := true |>).
  destruct (restart RECEIVED_ERROR s0 ws) as (s1 & Hs1 & Hcs & Ht & _ & _ & Htr & _ & Hso & _); [by left|done|].
  exists s1. split; [exact Hs1|]. split; [exact Hcs|]. split; [exact Ht|]. split; [exact Htr|].
  unfold user_reconnect. do 2 js_set. unfold send_version. set (s2 := upd _ _). unfold mbind at 1, js_bind at 1. js_look.
  destruct (send_message_ok (CLIENT_VERSION 1 1 (if attempt_reopen_channel s2 then previous_contract_hash s2 else None)) s2 ws)
    as (s3 & Hs3 & _ & Hc3 & _); [change (last (sockets s1) = Some ws); rewrite Hso; exact Hws|].
  rewrite (js_bind_ok (send_message _) _ _ _ _ Hs3). injection Hc3 as H2a _ _ _ _ _ _ _ _ _ _.
  change (channel_state s2) with (channel_state s1) in H2a. rewrite Hcs in H2a.
  assert (set_channel_state SENT_VERSION s3 = (Throw EmptyObject, s3)) as ->.
  { change (set_channel_state SENT_VERSION s3) with (set_channel_state_body (set_channel_state_fuel 2) SENT_VERSION s3).
    unfold set_channel_state_body. js_look. by rewrite H2a. }
  by exists s3.
Qed.

Lemma deplete_spec o : deplete o = (fst o, if bool_decide (snd o = Some ATTACHED) then Some DEPLETED else snd o).
Proof. unfold deplete. destruct o as [u m]. by case_bool_decide. Qed.

(** when the server closes a used-up channel, exactly the outputs in the channel become
    depleted, the display says so if no funds are waiting, the old channel will not be reopened,
    and the version exchange starts again. *)
Theorem close_depletes s ws : last (sockets s) = Some ws -> fullyUsedUp s = true ->
  exists s', receive_close s = (Ok tt, s')
  /\ funding_outputs s' = (fun o => (fst o, if bool_decide (snd o = Some ATTACHED) then Some DEPLETED else snd o)) <$> funding_outputs s
  /\ channel_state s' = Some SENT_VERSION /\ payment_update_timer s' = None
  /\ attempt_reopen_channel s' = false /\ open_channel s' = true
  /\ last (trace s') = Some (delivered ws (CLIENT_VERSION 1 1 None))
  /\ ((num_funding_outputs s <= funding_outputs_used s)%nat -> ui_state s' = Some FUNDS_DEPLETED)
  /\ ((funding_outputs_used s < num_funding_outputs s)%nat -> ui_state s' = ui_state s).
Proof.
  intros Hws Hfull. unfold receive_close. js_look. rewrite Hfull. unfold mbind at 1, js_bind at 1. js_set.
  set (s1 := s <| funding_outputs ::= fmap deplete |>).
  assert (exists s2, (if (num_funding_outputs s <=? funding_outputs_used s)%nat
             then set_ui_state FUNDS_DEPLETED;; emit (Alert [Str out_of_funds]) else mret tt) s1 = (Ok tt, s2)
    /\ funding_outputs s2 = deplete <$> funding_outputs s /\ sockets s2 = sockets s /\ channel_state s2 = channel_state s
    /\ previous_contract_hash s2 = previous_contract_hash s
    /\ ui_state s2 = if (num_funding_outputs s <=? funding_outputs_used s)%nat then Some FUNDS_DEPLETED else ui_state s)
    as (s2 & Hs2 & Hf2 & Hso2 & Hcs2 & Hp2 & Hui2).
  { destruct (_ <=? _)%nat; [|by exists s1]. unfold set_ui_state, buttons, show, hide, set_html, emit.
    eexists. split; [reflexivity|]. by repeat split. }
  rewrite (js_bind_ok _ _ _ _ _ Hs2). cbn [js_modify].
  set (s3 := s2 <| attempt_reopen_channel := false |> <| open_channel := true |>).
  destruct (restart RECEIVED_CLOSE s3 ws) as (s4 & Hs4 & Hcs & Ht & Hf & Ha & Htr & Hui & _ & _ & Ho);
    [by right; left|change (sockets s3) with (sockets s2); by rewrite Hso2|].
  exists s4. rewrite bool_decide_false in Hs4 by done. split; [exact Hs4|]. rewrite Hf, Hui, Ha, Ho.
  change (funding_outputs s3) with (funding_outputs s2). change (ui_state s3) with (ui_state s2). rewrite Hf2, Hui2.
  split; [apply list_fmap_ext; intros; apply deplete_spec|]. split; [exact Hcs|]. split; [exact Ht|]. split; [done|]. split; [done|]. split; [exact Htr|].
  split; [intros Hle; by rewrite (proj2 (Nat.leb_le _ _) Hle)|intros Hlt; by rewrite (proj2 (Nat.leb_gt _ _) Hlt)].
Qed.
End ClientTheorems.

(** ** Theorems: funding and reconnection *)
Section FundingTheorems.
Import Client ClientLemmas.
Context `{Crypto} `{Ecdsa} `{Hashes} `{!KeySource}.

(** The satoshis of the outputs that are not depleted *)
Fixpoint live (outs : list (UnspentOutput * option OUTPUT_STATES)) (zs : list Z) : Z :=
  match outs, zs with
  | o :: outs, z :: zs => (if not_depleted o then z else 0) + live outs zs
  | _, _ => 0
  end.

Lemma unspent_total_exact outs zs : Forall2 (fun o z => utxo_satoshis (fst o) = num_of_Z z /\ 0 <= z) outs zs ->
  forall acc, 0 <= acc -> acc + AmountLemmas.sum zs < 2 ^ 52 ->
  fold_left (fun total o => if not_depleted o then num_add total (utxo_satoshis (fst o)) else total) outs (num_of_Z acc)
    = num_of_Z (acc + live outs zs) /\ 0 <= live outs zs <= AmountLemmas.sum zs.
Proof.
  induction 1 as [|o z outs zs [Ho Hz] Hos IH]; intros acc Ha Hs; cbn [fold_left live].
  - split; [by rewrite Z.add_0_r|done].
  - change (AmountLemmas.sum (z :: zs)) with (z + AmountLemmas.sum zs) in *.
    assert (0 <= AmountLemmas.sum zs) as Hnn.
    { eapply AmountLemmas.sum_nonneg; [|exact Hos]. by intros ? ? []. }
    destruct (not_depleted o).
    + rewrite Ho, num_add_safe by (unfold safe; lia). destruct (IH (acc + z)) as [-> Hl]; [lia|lia|]. rewrite Z.add_assoc. split; [done|lia].
    + destruct (IH acc) as [-> Hl]; [lia|lia|]. split; [done|lia].
Qed.

(** [update_escrow_amount] puts into escrow exactly the satoshis of the outputs that are not
    depleted, less the fee, and keeps the payment increment at or above the price of a second. *)
Theorem escrow_exact s zs :
  Forall2 (fun o z => utxo_satoshis (fst o) = num_of_Z z /\ 0 <= z) (funding_outputs s) zs -> AmountLemmas.sum zs < 2 ^ 52 ->
  exists s', update_escrow_amount s = (Ok tt, s')
    /\ escrow_amount s' = num_of_Z (live (funding_outputs s) zs - 1000)
    /\ coin_width s' = (let w := num_div (escrow_amount s') (num_of_Z 100) in
                        if num_lt w (price_per_second s) then price_per_second s else w).
Proof.
  intros Hz Hs. destruct (unspent_total_exact _ _ Hz 0) as [Ht Hl]; [lia|lia|].
  unfold update_escrow_amount. do 2 js_set. js_look. set (s2 := upd _ _).
  assert (escrow_amount s2 = num_of_Z (live (funding_outputs s) zs - 1000)) as He.
  { change (escrow_amount s2) with (num_sub (unspent_total (funding_outputs s)) fee). unfold unspent_total. rewrite Ht.
    unfold fee. by rewrite num_sub_safe by (unfold safe; lia). }
  assert (coin_width s2 = num_div (escrow_amount s2) (num_of_Z 100)) as Hw by reflexivity.
  change (price_per_second s2) with (price_per_second s). rewrite Hw.
  destruct (num_lt _ (price_per_second s)) eqn:Hlt; eexists; (split; [reflexivity|]).
  - split; [exact He|]. change (price_per_second s = if num_lt (num_div (escrow_amount s2) (num_of_Z 100)) (price_per_second s)
      then price_per_second s else num_div (escrow_amount s2) (num_of_Z 100)). by rewrite Hlt.
  - split; [exact He|]. cbv zeta. by rewrite Hw, Hlt.
Qed.

(** a funding transaction that was recorded before is ignored, whatever the state. *)
Theorem funding_replay_ignored b tx id s :
  Transaction.fromBuffer b = Ok tx -> Signing.id_ tx = Ok id -> id ∈ funding_tx_hashes s ->
  receive_funding (Some b) s = (Ok tt, s).
Proof.
  intros Hb Hid Hin. unfold receive_funding, need. rewrite (js_bind_ok (mret b) _ s b s eq_refl), Hb.
  rewrite (js_bind_ok (js_lift (Ok tx)) _ s tx s eq_refl), Hid. rewrite (js_bind_ok (js_lift (Ok id)) _ s id s eq_refl).
  js_look. by rewrite bool_decide_true.
Qed.

Lemma backoff_exact k : 0 <= k < 1000 -> backoff k = num_of_Z (1000 * 2 ^ k).
Proof.
  intros Hk. assert (backoff <$> seqZ 0 1000 = (fun k => num_of_Z (1000 * 2 ^ k)) <$> seqZ 0 1000) as Hall by (vm_compute; reflexivity).
  apply (f_equal (lookup (Z.to_nat k))) in Hall. rewrite !list_lookup_fmap, (lookup_seqZ_lt 0 1000) in Hall by lia.
  cbn in Hall. injection Hall as Hall. by rewrite Z2Nat.id in Hall by lia.
Qed.

Lemma enter_closed s : set_channel_state WEBSOCKET_CLOSED s = (Ok tt, s <| channel_state := Some WEBSOCKET_CLOSED |>).
Proof.
  change (set_channel_state WEBSOCKET_CLOSED s) with (set_channel_state_body (set_channel_state_fuel 2) WEBSOCKET_CLOSED s).
  unfold set_channel_state_body. js_look.
  assert (channel_transition_is_valid (channel_state s) WEBSOCKET_CLOSED = true) as ->; [|reflexivity].
  by destruct (channel_state s) as [[]|].
Qed.

Lemma close_socket_tail s : exists s', (cancel_payments;; set_channel_state WEBSOCKET_CLOSED) s = (Ok tt, s')
  /\ channel_state s' = Some WEBSOCKET_CLOSED /\ payment_update_timer s' = None /\ timeouts s' = timeouts s
  /\ num_connection_retries s' = num_connection_retries s
  /\ trace s' = trace s ++ (match payment_update_timer s with Some id => [ClearInterval id] | None => [] end).
Proof.
  unfold cancel_payments, mbind at 1, js_bind at 1. js_look. destruct (payment_update_timer s) as [id|] eqn:Hid.
  - unfold emit. do 2 js_set. cbn [js_modify]. rewrite enter_closed. eexists. split; [reflexivity|]. by repeat split.
  - cbn [mret js_ret]. rewrite enter_closed. eexists. split; [reflexivity|]. split_and!; try done. by rewrite app_nil_r.
Qed.

(** when the socket closes for another reason than a second tab, the payment timer stops and a
    reconnection is scheduled after 1000 * 2^k milliseconds, [k] being the number of attempts
    since a price was last received; a policy violation schedules none. *)
Theorem reconnect_backoff code s : 0 <= num_connection_retries s < 1000 ->
  exists s', onclose code s = (Ok tt, s') /\
    if code =? POLICY_VIOLATION then ui_state s' = Some MULTIPLE_BITMESH_TABS_OPEN /\ timeouts s' = timeouts s /\ trace s' = trace s
    else channel_state s' = Some WEBSOCKET_CLOSED /\ payment_update_timer s' = None /\ timeouts s' = S (timeouts s)
      /\ num_connection_retries s' = num_connection_retries s + 1
      /\ trace s' = trace s ++ SetTimeout (num_of_Z (1000 * 2 ^ num_connection_retries s))
                    :: (match payment_update_timer s with Some id => [ClearInterval id] | None => [] end).
Proof.
  intros Hk. unfold onclose. destruct (code =? POLICY_VIOLATION).
  - js_set. unfold set_ui_state, buttons, show, hide, set_html. eexists. split; [reflexivity|]. by repeat split.
  - js_set. js_look. unfold emit at 1. do 3 js_set. set (s2 := upd _ _).
    destruct (close_socket_tail s2) as (s' & Hs' & Hc & Ht & Hto & Hn & Htr). exists s'. split; [exact Hs'|].
    split; [exact Hc|]. split; [exact Ht|]. rewrite Hto, Hn, Htr, <-(backoff_exact _ Hk).
    change (timeouts s2) with (S (timeouts s)). change (num_connection_retries s2) with (Z.succ (num_connection_retries s)).
    change (trace s2) with (trace s ++ [SetTimeout (backoff (num_connection_retries s))]).
    change (payment_update_timer s2) with (payment_update_timer s). by rewrite <-app_assoc, <-Z.add_1_r.
Qed.
End FundingTheorems.
