(* ===== verification/WebClientNext.v ===== *)
(** * bitmesh.js: where each event leads

    A specification of the channel state machine of the browser client, event by event, written without
    the table of edges: for an event and the state of the page before it, the channel states the client
    can be in afterwards.  Where the code leaves no choice the list has one state; where the outcome
    depends on the transactions and signatures involved it has one for every place the handler can stop.
    The theorem is that the handlers of [WebClient.v], with the nested changes of state of the entry
    actions and the errors thrown on the way, lead there and nowhere else. *)
From S2P Require Import Prelude JsNumber Encoding Signature Script Transaction Interpreter Channel WebClient.
Local Open Scope Z_scope.
Local Open Scope js_scope.

(** ** The specification *)
Module ClientNext.
Import Client.
Section WithLibraries.
Context `{Crypto} `{Ecdsa} `{Hashes} `{!KeySource}.

(** There is a websocket to send on. *)
Definition connected (s : Client.t) : bool := match sockets s with [] => false | _ => true end.

(** Sending the version, after a restart, a loss of the connection, a close or an error of the client's own *)
Definition version_sent (a : option CHANNEL_STATES) : option CHANNEL_STATES :=
  match a with
  | Some BEGIN | Some SENT_VERSION | Some WEBSOCKET_CLOSED | Some RECEIVED_CLOSE | Some SENT_CLOSE | Some SENT_ERROR => Some SENT_VERSION
  | _ => a
  end.

(** Setting up the channel goes on to the refund, or stops on the way. *)
Definition setting_up (a : option CHANNEL_STATES) : list (option CHANNEL_STATES) := [a; Some INITIATED; Some SENT_REFUND].

Definition after_message (m : server_message) (s : Client.t) : list (option CHANNEL_STATES) :=
  let a := channel_state s in
  let error := if connected s then Some SENT_ERROR else a in
  match m with
  | SERVER_VERSION (Some (major, minor)) =>
      if (major =? 1) && (1 <=? minor) then match a with Some SENT_VERSION => [Some RECEIVED_VERSION] | _ => [a] end else [error]
  | PRICE (Some (price, key)) =>
      if num_lt (num_of_Z price) (num_of_Z 0) then [error]
      else if negb (PublicKey_isValid key) then [a]
      else match a with
           | Some RECEIVED_VERSION =>
               if (funding_outputs_used s <? num_funding_outputs s)%nat then setting_up (Some RECEIVED_PRICE)
               else [if connected s && bool_decide (is_Some (funding_address s)) then Some SENT_FUNDING_ADDRESS else Some RECEIVED_PRICE]
           | _ => [a]
           end
  | FUNDING (Some _) => a :: error :: if waiting_to_initiate s then setting_up (Some RECEIVED_FUNDING) else [Some RECEIVED_FUNDING]
  | INITIATE (Some _) =>
      if waiting_to_initiate s then match a with Some RECEIVED_PRICE | Some RECEIVED_FUNDING => setting_up a | _ => [a] end else [a]
  | RETURN_REFUND (Some _) =>
      a :: error :: match a with Some SENT_REFUND => [Some RECEIVED_REFUND; Some SENT_CONTRACT] | _ => [] end
  | CHANNEL_OPEN => match a with Some SENT_CONTRACT | Some RECEIVED_VERSION => [Some RECEIVED_CHANNEL_OPEN] | _ => [a] end
  | SERVER_CLOSE => [if connected s then Some SENT_VERSION else Some RECEIVED_CLOSE]
  | SERVER_ERROR true => [Some RECEIVED_ERROR]
  | _ => [a]
  end.

Definition next (e : event) (s : Client.t) : list (option CHANNEL_STATES) :=
  let a := channel_state s in
  match e with
  | Ready => [match a with None => Some BEGIN | _ => a end]
  | SocketOpen _ => [if open_channel s && connected s then version_sent a else a]
  | SocketMessage _ m => after_message m s
  | SocketClose _ code => [if code =? POLICY_VIOLATION then a else Some WEBSOCKET_CLOSED]
  | Interval _ | Disconnect => [a; Some SENT_ERROR]
  | Reconnect => [if connected s then version_sent a else a]
  | Unload => [if connected s then Some SENT_VERSION else a]
  | Timeout | Ticker _ => [a]
  end.

End WithLibraries.
End ClientNext.

(** ** What the parts of the handlers do to the state *)
Module NextLemmas.
Import Client ClientNext.
Section WithLibraries.
Context `{Crypto} `{Ecdsa} `{Hashes} `{!KeySource}.

(** What most of the code leaves alone *)
Definition seen (s : Client.t) := (channel_state s, connected s, waiting_to_initiate s, funding_address s).
Abbreviation quiet := (keeps seen eq).

Create HintDb quiet.
Ltac quiet_auto := repeat first [solve [auto with quiet] | keeps_step].

Lemma quiet_emit e : quiet (emit e).
Proof. unfold emit. quiet_auto. Qed.
Lemma quiet_set_html sel x : quiet (set_html sel x).
Proof. unfold set_html. quiet_auto. Qed.
Lemma quiet_show sel : quiet (show sel).
Proof. unfold show. quiet_auto. Qed.
Lemma quiet_hide sel : quiet (hide sel).
Proof. unfold hide. quiet_auto. Qed.
Lemma quiet_need {A} (o : option A) : quiet (need o).
Proof. unfold need. quiet_auto. Qed.
#[local] Hint Resolve quiet_emit quiet_set_html quiet_show quiet_hide quiet_need : quiet.

Lemma quiet_with_consumer {A} (m : js Consumer.t A) : quiet (with_consumer m).
Proof. unfold with_consumer. quiet_auto. Qed.
Lemma quiet_send_message m : quiet (send_message m).
Proof. unfold send_message. quiet_auto. Qed.
Lemma quiet_reset_counters : quiet reset_counters.
Proof. unfold reset_counters. quiet_auto. Qed.
Lemma quiet_new_key : quiet new_key.
Proof. unfold new_key. quiet_auto. Qed.
Lemma quiet_create_uri : quiet create_uri.
Proof. unfold create_uri. quiet_auto. Qed.
Lemma quiet_update_escrow_amount : quiet update_escrow_amount.
Proof. unfold update_escrow_amount. quiet_auto. Qed.
Lemma quiet_update_display : quiet update_display.
Proof. unfold update_display. quiet_auto. Qed.
#[local] Hint Resolve quiet_with_consumer quiet_send_message quiet_reset_counters quiet_new_key quiet_create_uri
  quiet_update_escrow_amount quiet_update_display : quiet.

Lemma quiet_set_ui_state u : quiet (set_ui_state u).
Proof. unfold set_ui_state, buttons. quiet_auto. Qed.
Lemma quiet_cancel_payments : quiet cancel_payments.
Proof. unfold cancel_payments. quiet_auto. Qed.
Lemma quiet_process_output i : quiet (process_output i).
Proof. unfold process_output. quiet_auto. Qed.
Lemma quiet_get_payment_update_signature ty : quiet (get_payment_update_signature ty).
Proof. unfold get_payment_update_signature. quiet_auto. Qed.
#[local] Hint Resolve quiet_set_ui_state quiet_cancel_payments quiet_process_output quiet_get_payment_update_signature : quiet.

Lemma quiet_create_payment_channel : quiet create_payment_channel.
Proof. unfold create_payment_channel. quiet_auto. Qed.
Lemma quiet_receive_outputs id os : forall j a, quiet (receive_outputs id j os a).
Proof. induction os as [|o os IH]; intros j a; cbn [receive_outputs]; unfold receive_output, record_output; quiet_auto; apply IH. Qed.
Lemma quiet_apply_refund_signature sg : quiet (apply_refund_signature sg).
Proof. unfold apply_refund_signature. quiet_auto. Qed.
Lemma quiet_post_refund_tx tx : quiet (post_refund_tx tx).
Proof. unfold post_refund_tx. quiet_auto. Qed.
Lemma quiet_start_timer : quiet start_timer.
Proof. unfold start_timer. quiet_auto. Qed.
Lemma quiet_receive_payment_ack : quiet receive_payment_ack.
Proof. unfold receive_payment_ack. cbv zeta. quiet_auto. Qed.
#[local] Hint Resolve quiet_create_payment_channel quiet_receive_outputs quiet_apply_refund_signature quiet_post_refund_tx
  quiet_start_timer quiet_receive_payment_ack : quiet.

(** *** Where a computation ends *)

Definition ends {A} (Q : option CHANNEL_STATES -> Prop) (m : js Client.t A) (s : Client.t) : Prop := Q (channel_state (snd (m s))).

Lemma ends_quiet {A} Q (m : js Client.t A) s : quiet m -> Q (channel_state s) -> ends Q m s.
Proof. intros Hm Hs. unfold ends. specialize (Hm s). unfold seen in Hm. by injection Hm as <- _ _ _. Qed.

(** A quiet step may throw, and the handler stops where it is; otherwise it goes on. *)
Lemma ends_seq {A B} Q (m : js Client.t A) (f : A -> js Client.t B) s : quiet m -> Q (channel_state s) ->
  (forall a s', seen s' = seen s -> ends Q (f a) s') -> ends Q (m ≫= f) s.
Proof.
  intros Hm Hs Hf. specialize (Hm s). unfold ends, mbind, js_bind. destruct (m s) as [[a|e] s']; cbn [snd] in *; [by apply Hf|].
  unfold seen in Hm. by injection Hm as <- _ _ _.
Qed.

(** A quiet step that does not throw *)
Definition sure {A} (m : js Client.t A) : Prop := forall s, exists a, fst (m s) = Ok a.
Lemma ends_sure {A B} Q (m : js Client.t A) (f : A -> js Client.t B) s : quiet m -> sure m ->
  (forall a s', seen s' = seen s -> ends Q (f a) s') -> ends Q (m ≫= f) s.
Proof.
  intros Hm Hs Hf. specialize (Hm s). specialize (Hs s) as [a Ha]. unfold ends, mbind, js_bind.
  destruct (m s) as [r s']; cbn [fst snd] in *. subst r. by apply Hf.
Qed.

Lemma ends_look {A} Q (f : Client.t -> js Client.t A) s : ends Q (f s) s -> ends Q (js_get ≫= f) s.
Proof. done. Qed.
Lemma ends_set {A} Q g (f : unit -> js Client.t A) s : ends Q (f tt) (g s) -> ends Q (js_modify g ≫= f) s.
Proof. done. Qed.

Lemma ends_ret {A B} Q (a : A) (f : A -> js Client.t B) s : ends Q (f a) s -> ends Q (mret a ≫= f) s.
Proof. done. Qed.

(** The same from every state of which this is seen *)
Definition view : Type := option CHANNEL_STATES * bool * bool * option Address.
Definition at_state (v : view) : option CHANNEL_STATES := v.1.1.1.
Definition leads {A} (v : view) (Q : option CHANNEL_STATES -> Prop) (m : js Client.t A) : Prop := forall s, seen s = v -> ends Q m s.

Lemma leads_quiet {A} v Q (m : js Client.t A) : quiet m -> Q (at_state v) -> leads v Q m.
Proof. intros Hm Hv s <-. by apply ends_quiet. Qed.
Lemma leads_bind {A B} v Q (m : js Client.t A) (f : A -> js Client.t B) : quiet m -> Q (at_state v) -> (forall a, leads v Q (f a)) -> leads v Q (m ≫= f).
Proof. intros Hm Hv Hf s <-. apply ends_seq; [done|done|]. intros a s' Hs'. by apply Hf. Qed.
Lemma leads_look {A} v Q (f : Client.t -> js Client.t A) : (forall s, seen s = v -> leads v Q (f s)) -> leads v Q (js_get ≫= f).
Proof. intros Hf s Hs. apply ends_look. by apply (Hf s). Qed.
Lemma leads_set {A} v v' Q g (f : unit -> js Client.t A) : (forall s, seen s = v -> seen (g s) = v') -> leads v' Q (f tt) -> leads v Q (js_modify g ≫= f).
Proof. intros Hg Hf s Hs. apply ends_set. apply Hf. by apply Hg. Qed.
Lemma leads_if {A} v Q (b : bool) (m m' : js Client.t A) : leads v Q m -> leads v Q m' -> leads v Q (if b then m else m').
Proof. by destruct b. Qed.

(** Follow quiet code to the next thing that is not; every place it can stop at must be allowed. *)
Ltac walk := repeat match goal with
  | |- leads _ _ (mbind _ js_get) => apply leads_look; intros ? ?
  | |- leads _ _ (mbind _ _) => apply leads_bind; [solve [quiet_auto]|solve [assumption|repeat constructor]|intros ?]
  | |- leads _ _ (if _ then _ else _) => apply leads_if
  | |- leads _ _ (match ?x with _ => _ end) => destruct x
  | |- leads _ _ _ => apply leads_quiet; [solve [quiet_auto]|solve [assumption|repeat constructor]]
  end.

Lemma connected_last s : connected s = true -> exists ws, last (sockets s) = Some ws.
Proof. unfold connected. destruct (sockets s) as [|ws l] eqn:E; [done|]. intros _. destruct (last (ws :: l)) as [x|] eqn:Hl; [by exists x|]. by apply last_None in Hl. Qed.

(** Sending fails only without a socket. *)
Lemma ends_send {A} Q msg (f : unit -> js Client.t A) s :
  (if connected s then forall s', seen s' = seen s -> ends Q (f tt) s' else Q (channel_state s)) -> ends Q (send_message msg ≫= f) s.
Proof.
  intros Hf. pose proof (quiet_send_message msg s) as Hq. unfold ends, mbind, js_bind. destruct (connected s) eqn:Hc.
  - destruct (connected_last s Hc) as (ws & Hl). unfold send_message in *. unfold need, emit in *.
    cbn [mbind js_bind js_get] in *. unfold mbind, js_bind, js_get in *. rewrite Hl in *. cbn [mret js_ret] in *. unfold mret, js_ret in *.
    destruct (bool_decide (ws = OPEN)); cbn [js_modify snd fst] in *; apply Hf; by rewrite Hq.
  - unfold connected in Hc. destruct (sockets s) as [|] eqn:E; [|done]. unfold send_message, mbind, js_bind, js_get, need. by rewrite E.
Qed.

(** *** Changes of state *)

Lemma set_invalid k n s : channel_transition_is_valid (channel_state s) n = false -> set_channel_state_fuel (S k) n s = (Throw EmptyObject, s).
Proof. intros Hv. cbn [set_channel_state_fuel]. unfold set_channel_state_body. js_look. by rewrite Hv. Qed.

Lemma set_valid k n s : channel_transition_is_valid (channel_state s) n = true ->
  set_channel_state_fuel (S k) n s = entry_action (set_channel_state_fuel k) n (s <| channel_state := Some n |>).
Proof. intros Hv. cbn [set_channel_state_fuel]. unfold set_channel_state_body. js_look. rewrite Hv. cbn [negb]. by js_set. Qed.

(** States whose entry action does not change the state again *)
Definition settles (n : CHANNEL_STATES) : bool :=
  match n with
  | SENT_VERSION | RECEIVED_VERSION | SENT_FUNDING_ADDRESS | SENT_REFUND | SENT_CONTRACT | RECEIVED_CHANNEL_OPEN | SENT_ERROR | WEBSOCKET_CLOSED => true
  | _ => false
  end.

Lemma ends_settled Q k n s : settles n = true -> Q (if channel_transition_is_valid (channel_state s) n then Some n else channel_state s) ->
  ends Q (set_channel_state_fuel (S k) n) s.
Proof.
  intros Hn HQ. unfold ends. destruct (channel_transition_is_valid (channel_state s) n) eqn:Hv; [|by rewrite set_invalid].
  rewrite set_valid by done. by destruct n.
Qed.

Lemma ends_send_version Q k s : Q (if connected s then version_sent (channel_state s) else channel_state s) ->
  ends Q (send_version (set_channel_state_fuel (S k))) s.
Proof.
  intros HQ. unfold send_version. apply ends_look. apply ends_send. destruct (connected s); [|done]. intros s' Hs'.
  assert (channel_state s' = channel_state s) as Ha by (unfold seen in Hs'; congruence).
  apply ends_settled; [done|]. rewrite Ha. by destruct (channel_state s) as [[]|].
Qed.

Lemma sure_cancel : sure cancel_payments.
Proof. intros s. unfold cancel_payments. js_run. destruct (payment_update_timer s); by eexists. Qed.

(** The states that restart the channel *)
Lemma ends_restart Q k n s : n = RECEIVED_ERROR \/ n = RECEIVED_CLOSE \/ n = SENT_CLOSE ->
  Q (if connected s && negb (bool_decide (n = RECEIVED_ERROR)) then Some SENT_VERSION else Some n) -> ends Q (set_channel_state_fuel (S (S k)) n) s.
Proof.
  intros Hn HQ. unfold ends. rewrite set_valid by (destruct (channel_state s) as [[]|], Hn as [->|[->| ->]]; done).
  set (s1 := s <| channel_state := Some n |>). assert (connected s1 = connected s) as Hc by done. rewrite <-Hc in HQ. clear Hc.
  assert (channel_state s1 = Some n) as Hs1 by done. clearbody s1. clear s.
  assert (entry_action (set_channel_state_fuel (S k)) n = start_payment_channel (set_channel_state_fuel (S k))) as -> by (by destruct Hn as [->|[->| ->]]).
  change (ends Q (start_payment_channel (set_channel_state_fuel (S k))) s1). unfold start_payment_channel.
  apply ends_sure; [apply quiet_cancel_payments|apply sure_cancel|]. intros _ s2 Hs2. unfold seen in Hs2. injection Hs2 as Ha Hc _ _.
  apply ends_send_version. rewrite Ha, Hc, Hs1. by destruct (connected s1), Hn as [->|[->| ->]].
Qed.

(** *** Setting up the channel *)
Definition one_of (l : list (option CHANNEL_STATES)) (b : option CHANNEL_STATES) : Prop := b ∈ l.

Lemma leads_settled v Q k n : settles n = true -> Q (if channel_transition_is_valid (at_state v) n then Some n else at_state v) ->
  leads v Q (set_channel_state_fuel (S k) n).
Proof. intros Hn HQ s <-. by apply ends_settled. Qed.

Lemma leads_mono {A} v Q (Q' : option CHANNEL_STATES -> Prop) (m : js Client.t A) : leads v Q m -> (forall b, Q b -> Q' b) -> leads v Q' m.
Proof. intros Hm Hq s Hs. by apply Hq, Hm. Qed.

Definition enter (v : view) (n : CHANNEL_STATES) : view := (Some n, v.1.1.2, v.1.2, v.2).
Lemma leads_enter v Q k n : channel_transition_is_valid (at_state v) n = true -> leads (enter v n) Q (entry_action (set_channel_state_fuel k) n) ->
  leads v Q (set_channel_state_fuel (S k) n).
Proof. intros Hv Hm s <-. unfold ends. rewrite set_valid by done. by apply Hm. Qed.
Lemma leads_refused v Q k n : channel_transition_is_valid (at_state v) n = false -> Q (at_state v) -> leads v Q (set_channel_state_fuel (S k) n).
Proof. intros Hv HQ s <-. unfold ends. by rewrite set_invalid. Qed.

Lemma leads_send_refund v k : at_state v = Some INITIATED ->
  leads v (one_of [Some INITIATED; Some SENT_REFUND]) (send_refund (set_channel_state_fuel (S k))).
Proof.
  intros Hv. assert (one_of [Some INITIATED; Some SENT_REFUND] (at_state v)) as H0' by (rewrite Hv; left).
  unfold send_refund. walk. apply leads_settled; [done|]. rewrite Hv. right. left.
Qed.

Lemma seen_waiting s b v : seen s = v -> seen (s <| waiting_to_initiate := b |>) = (v.1.1, b, v.2).
Proof. by intros <-. Qed.

Lemma leads_initiate v k : leads v
  (one_of (match at_state v with Some RECEIVED_PRICE | Some RECEIVED_FUNDING => setting_up (at_state v) | _ => [at_state v] end))
  (initiate (set_channel_state_fuel (S (S k)))).
Proof.
  destruct v as [[[a c] w] fa]. cbn [at_state fst]. set (l := match a with Some RECEIVED_PRICE | Some RECEIVED_FUNDING => _ | _ => _ end).
  assert (one_of l a) as Ha by (destruct a as [[]|]; left).
  unfold initiate. apply leads_bind; [quiet_auto|exact Ha|]. intros _. apply leads_look. intros s0 _. apply leads_if.
  - apply (leads_set _ (a, c, true, fa)); [intros s Hs; by apply (seen_waiting s true) in Hs|]. walk.
  - apply (leads_set _ (a, c, false, fa)); [intros s Hs; by apply (seen_waiting s false) in Hs|]. walk.
    destruct (channel_transition_is_valid a INITIATED) eqn:Hv; [|by apply leads_refused].
    assert (l = setting_up a) as -> by (by destruct a as [[]|]).
    apply leads_enter; [done|]. eapply leads_mono; [by apply leads_send_refund|]. intros b Hb. by right.
Qed.

(** *** The messages *)

Lemma ends_exit Q c s : Q (if connected s then Some SENT_ERROR else channel_state s) -> ends Q (exit_with_error_code c) s.
Proof.
  intros HQ. unfold exit_with_error_code. apply ends_send. destruct (connected s); [|done]. intros s1 _.
  apply ends_set. assert (forall sel, sure (hide sel)) as Hsure by (intros sel s2; by eexists).
  apply ends_sure; [quiet_auto|apply Hsure|]. intros _ s2 _. apply ends_sure; [quiet_auto|apply Hsure|]. intros _ s3 _.
  apply ends_settled; [done|]. by destruct (channel_state s3) as [[]|].
Qed.

Lemma leads_exit (v : view) Q c : Q (if v.1.1.2 then Some SENT_ERROR else at_state v) -> leads v Q (exit_with_error_code c).
Proof. intros HQ s <-. by apply ends_exit. Qed.

Lemma next_receive_version v s : ends (one_of (after_message (SERVER_VERSION v) s)) (receive_version v) s.
Proof.
  unfold receive_version. destruct v as [[major minor]|]; [|by left].
  cbn [need]. apply ends_ret. cbn [fst snd]. unfold after_message.
  rewrite Z.leb_antisym. destruct (major =? 1); cbn [negb orb andb]; [|by apply ends_exit; left].
  destruct (minor <? 1); cbn [negb]; [by apply ends_exit; left|].
  apply ends_settled; [done|]. destruct (channel_state s) as [[]|]; left.
Qed.

Lemma ends_send_funding_address Q k s : channel_state s = Some RECEIVED_PRICE ->
  Q (if connected s && bool_decide (is_Some (funding_address s)) then Some SENT_FUNDING_ADDRESS else Some RECEIVED_PRICE) ->
  ends Q (send_funding_address (set_channel_state_fuel (S k))) s.
Proof.
  intros Hs HQ. unfold send_funding_address. apply ends_look. destruct (funding_address s) as [a|] eqn:Ha; cbn [need].
  2:{ rewrite bool_decide_false, andb_false_r, <-Hs in HQ by (by intros []). exact HQ. }
  apply ends_ret, ends_send. rewrite bool_decide_true, andb_true_r in HQ by done. destruct (connected s); [|by rewrite Hs].
  intros s1 Hs1. assert (channel_state s1 = Some RECEIVED_PRICE /\ funding_address s1 = Some a) as [Ec Ef] by (unfold seen in Hs1; split; congruence).
  pose proof (quiet_create_uri s1) as Hq. assert (exists s2, create_uri s1 = (Ok tt, s2)) as [s2 E].
  { unfold create_uri. js_look. rewrite Ef. by eexists. }
  unfold ends. rewrite (js_bind_ok _ _ _ _ _ E). rewrite E in Hq. cbn [snd] in Hq. apply ends_settled; [done|].
  unfold seen in Hq. injection Hq as <- _ _ _. by rewrite Ec.
Qed.

Lemma next_receive_price p s : ends (one_of (after_message (PRICE p) s)) (receive_price p) s.
Proof.
  unfold receive_price, reset_counters. apply ends_set. destruct p as [[price key]|]; [|by left].
  cbn [need]. apply ends_ret. cbn [fst snd].
  apply ends_set, ends_look. set (s1 := _ <| price_per_second := _ |>). change (price_per_second s1) with (num_of_Z price).
  assert (after_message (PRICE (Some (price, key))) s = after_message (PRICE (Some (price, key))) s1) as -> by done. unfold after_message.
  clearbody s1. clear s. destruct (num_lt _ _); [by apply ends_exit; left|].
  destruct (PublicKey_isValid key); cbn [negb guard_or]; [|by left].
  unfold ends. rewrite (js_bind_ok (js_lift (Ok tt)) _ s1 tt s1 eq_refl). js_set. set (s2 := s1 <| server_key := _ |>).
  change (channel_state s1) with (channel_state s2). change (connected s1) with (connected s2). change (funding_address s1) with (funding_address s2).
  change (funding_outputs_used s1) with (funding_outputs_used s2). change (num_funding_outputs s1) with (num_funding_outputs s2). clearbody s2. clear s1.
  destruct (channel_transition_is_valid (channel_state s2) RECEIVED_PRICE) eqn:Hv.
  - unfold set_channel_state. rewrite set_valid by done. assert (channel_state s2 = Some RECEIVED_VERSION) as -> by (by destruct (channel_state s2) as [[]|]).
    set (s3 := s2 <| channel_state := _ |>). change (connected s2) with (connected s3). change (funding_address s2) with (funding_address s3).
    change (funding_outputs_used s2) with (funding_outputs_used s3). change (num_funding_outputs s2) with (num_funding_outputs s3).
    assert (channel_state s3 = Some RECEIVED_PRICE) as Hs3 by done. clearbody s3. cbn [entry_action]. apply ends_look.
    destruct (_ <? _)%nat; [|by apply ends_send_funding_address; [|left]].
    pose proof (leads_initiate (seen s3) 0 s3 eq_refl) as Hi. cbn [at_state seen fst] in Hi. by rewrite Hs3 in Hi.
  - unfold set_channel_state. rewrite set_invalid by done. cbn [snd]. destruct (channel_state s2) as [[]|]; try discriminate Hv; left.
Qed.

(** What is seen of the state decides what a message may lead to. *)
Lemma leads_ends {A} (Q : Client.t -> list (option CHANNEL_STATES)) (m : js Client.t A) s : leads (seen s) (one_of (Q s)) m -> ends (one_of (Q s)) m s.
Proof. intros Hm. by apply Hm. Qed.

Lemma next_receive_funding f s : ends (one_of (after_message (FUNDING f) s)) (receive_funding f) s.
Proof.
  destruct f as [b|]; [|by left]. apply leads_ends. cbn [after_message].
  destruct (seen s) as [[[a c] w] fa] eqn:Es. unfold seen in Es. injection Es as -> -> -> _. set (Q := one_of _).
  assert (Q a) as Ha by left. assert (Q (if c then Some SENT_ERROR else a)) as He by (right; left).
  unfold receive_funding. cbn [need]. walk; try (by apply leads_exit).
  apply leads_enter; [by destruct a as [[]|]|]. cbn [entry_action enter fst snd]. apply leads_look. intros s1 Hs1.
  assert (waiting_to_initiate s1 = w) as -> by (unfold seen in Hs1; by injection Hs1).
  subst Q. destruct w.
  - eapply leads_mono; [apply leads_initiate|]. intros x Hx. do 2 right. exact Hx.
  - intros s2 Hs2. do 2 right. unfold seen in Hs2. injection Hs2 as Hs2 _ _ _. cbn. rewrite Hs2. left.
Qed.

Lemma next_receive_initiate i s : ends (one_of (after_message (INITIATE i) s)) (receive_initiate i) s.
Proof.
  destruct i as [[[size expire] pay]|]; [|by left]. unfold receive_initiate. cbn [need]. apply ends_ret. do 3 apply ends_set. apply ends_look.
  set (s1 := _ <| min_initial_payment := _ |>). assert (after_message (INITIATE (Some (size, expire, pay))) s = after_message (INITIATE (Some (size, expire, pay))) s1) as -> by done.
  clearbody s1. cbn [after_message]. destruct (waiting_to_initiate s1); [|by left]. by apply (leads_initiate (seen s1)).
Qed.

Lemma leads_send_contract v k : at_state v = Some RECEIVED_REFUND ->
  leads v (one_of [Some RECEIVED_REFUND; Some SENT_CONTRACT]) (send_contract (set_channel_state_fuel (S k))).
Proof.
  intros Hv. assert (one_of [Some RECEIVED_REFUND; Some SENT_CONTRACT] (at_state v)) as H0' by (rewrite Hv; left).
  unfold send_contract. cbv zeta. walk. apply leads_settled; [done|]. rewrite Hv. right. left.
Qed.

(** A guarded step: when it throws, its handler runs and nothing follows. *)
Lemma leads_try v Q (m h yes : js Client.t unit) : quiet m -> leads v Q yes -> leads v Q h ->
  leads v Q (ok ← js_catch (m;; mret true) (fun _ => h;; mret false); if ok : bool then yes else mret tt).
Proof.
  intros Hm Hyes Hh s Hs. specialize (Hm s). unfold ends, js_catch, mbind, js_bind. destruct (m s) as [[[]|e] s1]; cbn [snd mret js_ret] in *.
  - apply Hyes. congruence.
  - pose proof (Hh s1 ltac:(congruence)) as He. unfold ends in He. by destruct (h s1) as [[[]|e'] s2].
Qed.

Lemma next_receive_refund r s : ends (one_of (after_message (RETURN_REFUND r) s)) (receive_refund r) s.
Proof.
  destruct r as [sg|]; [|by left]. apply leads_ends. cbn [after_message].
  destruct (seen s) as [[[a c] w] fa] eqn:Es. unfold seen in Es. injection Es as -> -> _ _. set (Q := one_of _).
  assert (Q a) as Ha by left. assert (Q (if c then Some SENT_ERROR else a)) as He by (right; left).
  unfold receive_refund. cbn [need]. cbv zeta. apply leads_bind; [quiet_auto|done|intros sg']. apply leads_look. intros s1 _.
  do 5 (apply leads_bind; [quiet_auto|done|intros ?]). apply leads_try; [quiet_auto| |by apply leads_exit].
  walk. destruct (channel_transition_is_valid a RECEIVED_REFUND) eqn:Hv; [|by apply leads_refused].
  assert (a = Some SENT_REFUND) as -> by (by destruct a as [[]|]). apply leads_enter; [done|]. cbn [entry_action].
  eapply leads_mono; [by apply leads_send_contract|]. intros b Hb. do 2 right. exact Hb.
Qed.

Lemma next_receive_channel_open s : ends (one_of (after_message CHANNEL_OPEN s)) receive_channel_open s.
Proof.
  unfold receive_channel_open. apply ends_set. set (s1 := s <| fullyUsedUp := false |>). change (after_message CHANNEL_OPEN s) with (after_message CHANNEL_OPEN s1).
  clearbody s1. apply ends_sure; [quiet_auto| |].
  { intros s2. unfold start_timer. js_look. destruct (payment_update_timer s2); by eexists. }
  intros _ s2 Hs2. unfold seen in Hs2. injection Hs2 as Hs2 _ _ _. cbn [after_message]. rewrite <-Hs2. unfold set_channel_state.
  destruct (channel_transition_is_valid (channel_state s2) RECEIVED_CHANNEL_OPEN) eqn:Hv.
  - unfold ends, mbind, js_bind. rewrite set_valid by done. cbn [entry_action]. apply (ends_quiet _ (set_ui_state CONNECTED)); [quiet_auto|].
    destruct (channel_state s2) as [[]|]; try discriminate Hv; left.
  - unfold ends. rewrite (js_bind_throw _ _ _ _ _ (set_invalid 2 _ s2 Hv)). cbn [snd]. destruct (channel_state s2) as [[]|]; try discriminate Hv; left.
Qed.

Lemma sure_bind {A B} (m : js Client.t A) (f : A -> js Client.t B) : sure m -> (forall a, sure (f a)) -> sure (m ≫= f).
Proof.
  intros Hm Hf s. unfold mbind, js_bind. destruct (Hm s) as [a Ha]. destruct (m s) as [r s']. cbn [fst] in Ha. subst r. apply Hf.
Qed.
Lemma sure_ui u : sure (set_ui_state u).
Proof.
  assert (forall g, sure (js_modify g)) as Hset by (intros g s; by eexists). assert (sure js_get) as Hget by (intros s; by eexists).
  assert (sure update_display) as Hd.
  { unfold update_display, set_html. apply sure_bind; [done|]. intros s. cbv zeta. destruct (display_time _) as [[h m] sec]. repeat (apply sure_bind; [done|intros ?]). done. }
  unfold set_ui_state, buttons, show, hide, set_html. apply sure_bind; [done|]. intros _. destruct u; repeat (apply sure_bind; [done|intros ?]); done.
Qed.

Lemma next_receive_close s : ends (one_of (after_message SERVER_CLOSE s)) receive_close s.
Proof.
  assert (forall g, sure (js_modify g)) as Hset by (intros g s'; by eexists).
  unfold receive_close. apply ends_look. apply ends_sure.
  { destruct (fullyUsedUp s); [|quiet_auto]. apply keeps_bind; [typeclasses eauto|quiet_auto|intros _]. destruct (_ <=? _)%nat; quiet_auto. }
  { destruct (fullyUsedUp s); [|apply sure_bind; [intros s'; by eexists|done]]. apply sure_bind; [done|intros _]. apply sure_bind; [|done].
    destruct (_ <=? _)%nat; [apply sure_bind; [apply sure_ui|intros _ s'; by eexists]|intros s'; by eexists]. }
  intros _ s1 Hs1. apply ends_restart; [by right; left|]. unfold seen in Hs1. injection Hs1 as _ Hc _ _. rewrite Hc. cbn [after_message].
  destruct (connected s); left.
Qed.

Lemma next_message m s : ends (one_of (after_message m s)) (onmessage m) s.
Proof.
  assert (ends (one_of (after_message m s)) (dispatch m) s) as Hd.
  { destruct m as [v|p|f|i|r| | | |[]| |]; cbn [dispatch].
    - apply next_receive_version.
    - apply next_receive_price.
    - apply next_receive_funding.
    - apply next_receive_initiate.
    - apply next_receive_refund.
    - apply next_receive_channel_open.
    - apply ends_quiet; [quiet_auto|left].
    - apply next_receive_close.
    - unfold receive_error. apply ends_set. apply ends_restart; [by left|]. rewrite bool_decide_true, andb_false_r by done. left.
    - left.
    - left.
    - left. }
  unfold onmessage, ends, js_catch in *. by destruct (dispatch m s) as [[[]|e] s'].
Qed.

(** *** The other events *)
Lemma leads_increment_payment v : leads v (one_of [at_state v; Some SENT_ERROR]) increment_payment.
Proof.
  assert (one_of [at_state v; Some SENT_ERROR] (at_state v)) as Hv by left.
  unfold increment_payment. walk. all: apply leads_exit; destruct (v.1.1.2); [right; left|left].
Qed.

Lemma leads_update_payment v : leads v (one_of [at_state v; Some SENT_ERROR]) update_payment.
Proof.
  assert (one_of [at_state v; Some SENT_ERROR] (at_state v)) as Hv by left.
  unfold update_payment. cbv zeta. walk; try apply leads_increment_payment. all: apply leads_exit; destruct (v.1.1.2); [right; left|left].
Qed.

(** What is quiet does not matter at the end. *)
Lemma ends_then {A B} Q (m : js Client.t A) (f : A -> js Client.t B) s : ends Q m s -> (forall a, quiet (f a)) -> ends Q (m ≫= f) s.
Proof.
  intros Hm Hf. unfold ends, mbind, js_bind in *. destruct (m s) as [[a|e] s']; cbn [snd] in *; [|done]. by apply (ends_quiet Q (f a) s').
Qed.

Lemma next_disconnect s : ends (one_of [channel_state s; Some SENT_ERROR]) user_disconnect s.
Proof.
  apply (leads_ends (fun s => [channel_state s; Some SENT_ERROR])). set (v := seen s). change (channel_state s) with (at_state v). clearbody v. clear s.
  assert (one_of [at_state v; Some SENT_ERROR] (at_state v)) as Hv by left.
  unfold user_disconnect. walk. intros s' Hs'. apply ends_then; [|quiet_auto]. revert s' Hs'.
  change (leads v (one_of [at_state v; Some SENT_ERROR]) (set_channel_state_fuel 3 SENT_ERROR)). apply leads_settled; [done|].
  destruct (at_state v) as [[]|]; right; left.
Qed.

Lemma next_ready s : ends (one_of (next Ready s)) ready s.
Proof.
  unfold ready. apply ends_sure; [quiet_auto|apply sure_ui|]. intros _ s1 Hs1. unfold seen in Hs1. injection Hs1 as Hs1 _ _ _. cbn [next]. rewrite <-Hs1.
  unfold ends, set_channel_state. destruct (channel_transition_is_valid (channel_state s1) BEGIN) eqn:Hv.
  - rewrite set_valid by done. assert (channel_state s1 = None) as -> by (by destruct (channel_state s1) as [[]|]).
    match goal with |- one_of _ (channel_state (snd (?m ?s))) => assert (keeps channel_state eq m) as Hk end.
    { cbn [entry_action]. unfold get_bitcoin_price, init_keys, new_key, set_funding_key, reset_counters, start_websockets, emit. repeat keeps_step. }
    rewrite <-Hk. left.
  - rewrite set_invalid by done. cbn [snd]. destruct (channel_state s1) as [[]|]; try discriminate Hv; left.
Qed.

Lemma next_close code s : ends (one_of [if code =? POLICY_VIOLATION then channel_state s else Some WEBSOCKET_CLOSED]) (onclose code) s.
Proof.
  unfold onclose. destruct (code =? POLICY_VIOLATION).
  - apply ends_quiet; [quiet_auto|left].
  - apply ends_set, ends_look. apply ends_sure; [quiet_auto|intros s'; by eexists|]. intros _ s1 _. do 2 apply ends_set.
    apply ends_sure; [quiet_auto|apply sure_cancel|]. intros _ s2 _. apply ends_settled; [done|]. destruct (channel_state s2) as [[]|]; left.
Qed.

Lemma next_send_version s : ends (one_of [if connected s then version_sent (channel_state s) else channel_state s]) (send_version set_channel_state) s.
Proof. apply ends_send_version. left. Qed.

Lemma connected_insert n r s : connected (s <| sockets ::= <[n := r]> |>) = connected s.
Proof. unfold connected. cbn. by destruct (sockets s), n. Qed.

Lemma next_handler e s : ends (one_of (next e s)) (handler e) s.
Proof.
  destruct e as [|n|n m|n code| |id|price| | |]; cbn [handler].
  - apply next_ready.
  - unfold set_socket. apply ends_set. unfold onopen. apply ends_set, ends_look.
    match goal with |- ends _ _ ?s' => set (s1 := s') end. cbn [next]. change (open_channel s) with (open_channel s1).
    rewrite <-(connected_insert n OPEN s). change (connected (s <| sockets ::= _ |>)) with (connected s1). change (channel_state s) with (channel_state s1).
    clearbody s1. destruct (open_channel s1); [|by left]. cbn [andb]. unfold start_payment_channel.
    apply ends_sure; [quiet_auto|apply sure_cancel|]. intros _ s2 Hs2. unfold seen in Hs2. injection Hs2 as <- <- _ _. apply next_send_version.
  - apply next_message.
  - unfold set_socket. apply ends_set. apply next_close.
  - apply ends_set. assert (keeps channel_state eq start_websockets) as Hk by (unfold start_websockets, emit; repeat keeps_step).
    unfold ends. rewrite <-Hk. left.
  - apply (leads_update_payment (seen s)). done.
  - apply ends_set. apply ends_quiet; [quiet_auto|left].
  - apply next_disconnect.
  - unfold user_reconnect. do 2 apply ends_set. apply ends_then; [apply next_send_version|intros; quiet_auto].
  - unfold close_channel. apply ends_send. cbn [next]. destruct (connected s) eqn:Hc; [|left]. intros s1 Hs1. apply ends_set.
    apply ends_restart; [by right; right|]. unfold seen in Hs1. injection Hs1 as _ Hc1 _ _. change (connected (s1 <| attempt_reopen_channel := false |>)) with (connected s1).
    rewrite Hc1, Hc. left.
Qed.

End WithLibraries.
End NextLemmas.

(** ** The theorem *)
Section NextTheorems.
Import Client ClientNext NextLemmas.
Context `{Crypto} `{Ecdsa} `{Hashes} `{!KeySource}.

(** C1: whatever event occurs, at whatever time, in whatever state, and however its handler ends (by
    returning or by an error on the way), the channel state afterwards is one that [next] lists for the
    event.  Funding aside, a message the state does not expect leaves the state alone; a version, a price, an opened or
    closed channel, an error and a lost connection lead to one state; and funding, the terms of the
    channel and the refund lead no further than to the refund or the contract sent. *)
Theorem client_next now e s : channel_state (run now e s) ∈ next e s.
Proof.
  assert (next e s = next e (s <| now_ms := now |>)) as -> by (by destruct e as [| |? []| | | | | | |]).
  exact (next_handler e (s <| now_ms := now |>)).
Qed.
End NextTheorems.
