(* ===== verification/ClientOpens.v ===== *)
(** * bitmesh.js: setting up a channel

    The client of [WebClient.v] on the channel of [Settlement.v]: what happens, for any funding, when the
    server announces the terms of a channel to a client that waits for them. *)
From S2P Require Import Prelude JsNumber JsValue Encoding Signature Script Transaction Interpreter Spending Channel ChannelSpec Settlement WebClient WebClientSpec WebClientNext.
Local Open Scope Z_scope.
Local Open Scope js_scope.

Module ClientOpensLemmas.
Import Transaction Codec WireFormat SighashLemmas SpendingLemmas SigningLemmas FundingLemmas CommitmentLemmas RefundLemmas PaymentLemmas AmountLemmas SettlementLemmas Client ClientLemmas NextLemmas.
Section WithLibraries.
Context `{CryptoLaws} `{Ecdsa} `{!EcdsaLaws} `{!DerLaws} `{Hashes} `{!KeySource}.

(** The outputs from [i] on, marked as attached one by one *)
Definition attach (o : UnspentOutput * option OUTPUT_STATES) : UnspentOutput * option OUTPUT_STATES := (fst o, Some ATTACHED).
Fixpoint attach_from (i n : nat) (l : list (UnspentOutput * option OUTPUT_STATES)) : list (UnspentOutput * option OUTPUT_STATES) :=
  match n with O => l | S n => attach_from (S i) n (alter attach i l) end.

Lemma attach_from_all n : forall i l, length l = (i + n)%nat -> attach_from i n l = take i l ++ (attach <$> drop i l).
Proof.
  induction n as [|n IH]; intros i l Hl; cbn [attach_from].
  - rewrite drop_ge, take_ge by lia. by rewrite app_nil_r.
  - destruct (lookup_lt_is_Some_2 l i) as [o Ho]; [lia|]. rewrite IH by (rewrite length_alter; lia).
    assert (alter attach i l = take i l ++ attach o :: drop (S i) l) as ->.
    { rewrite <-(take_drop_middle l i o Ho) at 1. rewrite alter_app_r_alt by (rewrite length_take; lia).
      rewrite length_take, Nat.min_l, Nat.sub_diag by lia. done. }
    assert (length (take i l) = i) as Ht by (rewrite length_take; lia).
    rewrite take_app_ge, drop_app_ge by lia. rewrite Ht. replace (S i - i)%nat with 1%nat by lia. cbn [take drop firstn skipn].
    rewrite (drop_S l o i Ho). rewrite <-app_assoc. done.
Qed.

(** The outputs not in a channel yet are put into the new one. *)
Lemma process_outputs us : forall i s c c', consumer s = Some c -> drop i (fst <$> funding_outputs s) = us -> js_each Consumer.processFunding us c = (Ok tt, c') ->
  js_each process_output (seq i (length us)) s = (Ok tt, s <| consumer := Some c' |> <| funding_outputs ::= attach_from i (length us) |>).
Proof.
  induction us as [|u us IH]; intros i s c c' Hc Hd Hf; cbn [length seq js_each] in *.
  - injection Hf as <-. destruct s. cbn in Hc. by subst.
  - unfold mbind, js_bind in Hf. destruct (Consumer.processFunding u c) as [[[]|e] c1] eqn:Hu; [|done].
    assert (exists o, funding_outputs s !! i = Some o /\ fst o = u) as (o & Ho & <-).
    { apply (f_equal (fun l => l !! O)) in Hd. rewrite lookup_drop, Nat.add_0_r, list_lookup_fmap in Hd. cbn in Hd.
      destruct (funding_outputs s !! i) as [o|]; [|done]. exists o. by injection Hd. }
    rewrite (js_bind_ok (process_output i) _ s tt (s <| consumer := Some c1 |> <| funding_outputs ::= alter attach i |>)).
    + rewrite (IH (S i) _ c1 c'); [done|done| |exact Hf].
      change (drop (S i) (fst <$> alter attach i (funding_outputs s)) = us). unfold attach. rewrite (fst_alter (Some ATTACHED)).
      rewrite (drop_S _ (fst o)) in Hd by (by rewrite list_lookup_fmap, Ho). by injection Hd.
    + unfold process_output. js_look. rewrite Ho. cbn [need]. rewrite (js_bind_ok (mret o) _ s o s eq_refl).
      unfold with_consumer. unfold mbind at 1, js_bind at 1. js_look. rewrite Hc. cbn [need]. rewrite (js_bind_ok (mret c) _ s c s eq_refl).
      rewrite Hu. by js_set.
Qed.

(** The options of the channel the client makes *)
Definition channel_opts (expire : option Z) (net : network) (server : list Z) (fk ck : PrivateKey) (back : Address) : Consumer.opts :=
  Consumer.mkOpts network_name expire ck server (Some network_name) (Some (Consumer.key_address server network_name)) fk net (Some back) ck.

Lemma create_payment_channel_ok s server fk ck back c0 c1 :
  server_key s = Some server -> funding_key s = Some fk -> client_key s = Some ck -> refund_address s = Some back ->
  num_funding_outputs s = length (funding_outputs s) -> (funding_outputs_used s <= num_funding_outputs s)%nat ->
  Consumer.new (now_ms s) (channel_opts (expiration_date s) (funding_network s) server fk ck back) = Ok c0 ->
  js_each Consumer.processFunding (fst <$> drop (funding_outputs_used s) (funding_outputs s)) c0 = (Ok tt, c1) ->
  create_payment_channel s = (Ok tt, s <| consumer := Some c1 |>
    <| funding_outputs ::= (fun l => take (funding_outputs_used s) l ++ (attach <$> drop (funding_outputs_used s) l)) |>
    <| funding_outputs_used := num_funding_outputs s |>).
Proof.
  intros Hs Hfk Hck Hb Hnum Hle Hnew Hfund. unfold create_payment_channel. js_look. rewrite Hs, Hfk, Hck, Hb. cbn [need].
  do 4 rewrite (js_bind_ok (mret _) _ s _ s eq_refl). js_look.
  rewrite Hb. change (Consumer.mkOpts network_name _ _ _ _ _ _ _ _ _) with (channel_opts (expiration_date s) (funding_network s) server fk ck back). rewrite Hnew.
  rewrite (js_bind_ok (js_lift (Ok c0)) _ s c0 s eq_refl). js_set. js_look. set (s1 := s <| consumer := Some c0 |>).
  change (funding_outputs_used s1) with (funding_outputs_used s). change (num_funding_outputs s1) with (num_funding_outputs s).
  set (us := fst <$> drop (funding_outputs_used s) (funding_outputs s)) in *.
  assert (num_funding_outputs s - funding_outputs_used s = length us)%nat as -> by (unfold us; rewrite length_fmap, length_drop; lia).
  rewrite (js_bind_ok _ _ _ _ _ (process_outputs us _ s1 c0 c1 eq_refl (eq_sym (fmap_drop _ _ _)) Hfund)).
  cbn [js_modify]. f_equal. unfold s1.
  assert (attach_from (funding_outputs_used s) (length us) (funding_outputs s)
    = take (funding_outputs_used s) (funding_outputs s) ++ (attach <$> drop (funding_outputs_used s) (funding_outputs s))) as Ha.
  { apply attach_from_all. unfold us. rewrite length_fmap, length_drop. lia. }
  unfold upd. cbn. rewrite Ha. done.
Qed.
Lemma update_escrow_ok s : exists w, update_escrow_amount s
  = (Ok tt, s <| escrow_amount := num_sub (unspent_total (funding_outputs s)) fee |> <| coin_width := w |>).
Proof.
  unfold update_escrow_amount. do 2 js_set. js_look. destruct (num_lt _ _); (eexists; reflexivity).
Qed.

(** What the client does with a funded channel: the refund is sent, or it throws. *)
Lemma send_refund_ok k s c ck r c' b : consumer s = Some c -> client_key s = Some ck -> last (sockets s) = Some OPEN ->
  channel_state s = Some INITIATED -> Consumer.setupRefund (now_ms s) c = (Ok r, c') -> Transaction.toBuffer r = Ok b ->
  send_refund (set_channel_state_fuel (S k)) s = (Ok tt, s <| consumer := Some c' |> <| refund_tx := Some r |>
    <| trace ::= (fun l => l ++ [Send (PROVIDE_REFUND (toPublicKey ck) b)]) |> <| channel_state := Some SENT_REFUND |>).
Proof.
  intros Hc Hck Hws Hst Hset Hb. unfold send_refund. js_look.
  rewrite (js_bind_ok (with_consumer (Consumer.setupRefund (now_ms s))) _ s r (s <| consumer := Some c' |>)).
  2:{ unfold with_consumer. js_look. rewrite Hc. cbn [need]. rewrite (js_bind_ok (mret c) _ s c s eq_refl), Hset. by js_set. }
  js_set. rewrite Hck. cbn [need]. set (s1 := s <| consumer := Some c' |> <| refund_tx := Some r |>).
  match goal with |- context [mbind _ (mret ck) ?s2] => change s2 with s1 end. rewrite (js_bind_ok (mret ck) _ s1 ck s1 eq_refl), (js_lift_ok _ _ _ _ Hb).
  rewrite (js_bind_ok (send_message _) _ s1 tt (s1 <| trace ::= (fun l => l ++ [Send (PROVIDE_REFUND (toPublicKey ck) b)]) |>)).
  2:{ unfold send_message. js_look. change (sockets s1) with (sockets s). rewrite Hws. by rewrite (js_bind_ok (need (Some OPEN)) _ s1 OPEN s1 eq_refl). }
  rewrite set_valid; [done|]. change (channel_transition_is_valid (channel_state s) SENT_REFUND = true). by rewrite Hst.
Qed.

Lemma send_refund_throws f s c e c' : consumer s = Some c -> Consumer.setupRefund (now_ms s) c = (Throw e, c') ->
  send_refund f s = (Throw e, s <| consumer := Some c' |>).
Proof.
  intros Hc Hset. unfold send_refund. js_look. apply js_bind_throw. unfold with_consumer. js_look. rewrite Hc. cbn [need].
  rewrite (js_bind_ok (mret c) _ s c s eq_refl), Hset. by js_set.
Qed.

(** The outputs that have not been in a channel yet *)
Definition fresh_outputs (s : Client.t) : list UnspentOutput := fst <$> drop (funding_outputs_used s) (funding_outputs s).
Definition session_opts (s : Client.t) (server : list Z) (fk ck : PrivateKey) (back : Address) : Consumer.opts :=
  channel_opts (expiration_date s) (funding_network s) server fk ck back.

(** A client that has the server's key and unused outputs of its funding address, worth [zs] *)
Record funded (s : Client.t) (server : list Z) (fk ck : PrivateKey) (back : Address) (zs : list Z) : Prop := {
  fd_socket : last (sockets s) = Some OPEN;
  fd_server : server_key s = Some server /\ compressed_key server;
  fd_keys : funding_key s = Some fk /\ client_key s = Some ck;
  fd_back : refund_address s = Some back /\ zlen (hashBuffer back) = 20 /\ bytes_ok (hashBuffer back) /\ addr_network back = network_name;
  fd_count : num_funding_outputs s = length (funding_outputs s) /\ (funding_outputs_used s < num_funding_outputs s)%nat;
  fd_fundable : Forall2 fundable (fresh_outputs s) zs;
  fd_own : Forall (own_output (session_opts s server fk ck back)) (fresh_outputs s);
  fd_distinct : NoDup (outpoint <$> fresh_outputs s);
  fd_size : sum zs < 2 ^ 51 /\ zlen zs < 2 ^ 20;
}.

(** The page once the outputs are in the channel [c] *)
Definition committed_page (c : Consumer.t) (w : number) (s : Client.t) : Client.t :=
  s <| escrow_amount := num_sub (unspent_total (funding_outputs s)) fee |> <| coin_width := w |>
    <| waiting_to_initiate := false |> <| attempt_reopen_channel := true |> <| consumer := Some c |>
    <| funding_outputs ::= (fun l => take (funding_outputs_used s) l ++ (attach <$> drop (funding_outputs_used s) l)) |>
    <| funding_outputs_used := num_funding_outputs s |>.

(** What a channel is made from *)
Definition channel_part (s : Client.t) := (funding_outputs s, num_funding_outputs s, funding_outputs_used s, server_key s, funding_key s,
  client_key s, refund_address s, expiration_date s, funding_network s, now_ms s).

Lemma fd_attached s : attach <$> drop (funding_outputs_used s) (funding_outputs s) = (fun u => (u, Some ATTACHED)) <$> fresh_outputs s.
Proof. unfold fresh_outputs. by rewrite <-list_fmap_compose. Qed.

Lemma create_funded s0 s server fk ck back zs : funded s server fk ck back zs -> channel_part s0 = channel_part s ->
  exists c0 c1, Consumer.new (now_ms s) (session_opts s server fk ck back) = Ok c0
    /\ js_each Consumer.processFunding (fresh_outputs s) c0 = (Ok tt, c1)
    /\ funded_channel c1 server zs /\ Consumer.commitmentKey c1 = ck /\ Consumer.fundingKey c1 = fk /\ Consumer.refundAddress c1 = back
    /\ outpoints (Commitment.tx (Consumer.commitmentTx c1)) = outpoint <$> fresh_outputs s
    /\ create_payment_channel s0 = (Ok tt, s0 <| consumer := Some c1 |>
      <| funding_outputs ::= (fun l => take (funding_outputs_used s) l ++ (attach <$> drop (funding_outputs_used s) l)) |>
      <| funding_outputs_used := num_funding_outputs s |>).
Proof.
  intros Hf Hpart. injection Hpart as E1 E6 E7 E2 E3 E4 E5 E8 E9 E10. destruct (fd_server _ _ _ _ _ _ Hf) as [Hs Hsk]. destruct (fd_keys _ _ _ _ _ _ Hf) as [Hfk Hck].
  destruct (fd_back _ _ _ _ _ _ Hf) as (Hb & Hbl & Hbok & Hbn). destruct (fd_count _ _ _ _ _ _ Hf) as [Hn Hu].
  destruct (fd_size _ _ _ _ _ _ Hf) as [Hsum Hlen].
  assert (fresh_outputs s <> []) as Hne.
  { intros Hnil. apply (f_equal length) in Hnil. unfold fresh_outputs in Hnil. rewrite length_fmap, length_drop in Hnil. cbn in Hnil. lia. }
  destruct (funded_ready (now_ms s) (session_opts s server fk ck back) (fresh_outputs s) zs) as (c0 & c1 & Hnew & Hfun & Hc & Hcc & Hcf & Hcb & Ho);
    [exact (proj1 (proj2 Hsk))|exact (fd_fundable _ _ _ _ _ _ Hf)|exact Hne|exact (fd_distinct _ _ _ _ _ _ Hf)|exact (fd_own _ _ _ _ _ _ Hf)
    |exact Hsum|exact Hlen|exact Hbl|exact Hbok|exact Hbn|].
  exists c0, c1. do 2 (split; [done|]). split_and!; try done.
  rewrite (create_payment_channel_ok s0 server fk ck back c0 c1); [by rewrite E6, E7| | | | | | | |]; rewrite ?E1, ?E6, ?E7, ?E8, ?E9, ?E10; try done; try congruence; try lia.
Qed.
End WithLibraries.
End ClientOpensLemmas.

(** ** Theorems *)
Section ClientOpensTheorems.
Import Transaction Codec WireFormat SighashLemmas SpendingLemmas SigningLemmas FundingLemmas CommitmentLemmas RefundLemmas PaymentLemmas AmountLemmas SettlementLemmas Client ClientLemmas NextLemmas ClientOpensLemmas.
Context `{CryptoLaws} `{Ecdsa} `{!EcdsaLaws} `{!DerLaws} `{Hashes} `{!KeySource}.

(** C9: setting up a channel.  Let the client hold the server's key and outputs of its funding address that
    have not been in a channel, be connected and be told to initiate after the price or the funding.  When
    the outputs it has not spent, less the fee, are worth less than the smallest channel the server accepts,
    it asks for more and keeps waiting: no channel, no output used, no message.  Otherwise every such output is
    attached to a new channel and none is left; when every signature of the commitment is recognised as one,
    the client sends the server exactly one message, its key and the refund that [setupRefund] builds, and
    waits in [SENT_REFUND] with that refund kept; and when a signature is too short to be recognised the
    error leaves it in [INITIATED], its outputs attached and nothing sent. *)
Theorem client_initiates k s server fk ck back zs :
  channel_state s = Some RECEIVED_PRICE \/ channel_state s = Some RECEIVED_FUNDING -> funded s server fk ck back zs ->
  u32 (in_one_day (now_ms s)) ->
  exists s', if num_lt (num_sub (unspent_total (funding_outputs s)) fee) (min_escrow s) then
    initiate (set_channel_state_fuel (S (S k))) s = (Ok tt, s') /\ channel_state s' = channel_state s /\ waiting_to_initiate s' = true
      /\ consumer s' = consumer s /\ funding_outputs s' = funding_outputs s /\ funding_outputs_used s' = funding_outputs_used s
      /\ exists text, trace s' = trace s ++ [Alert text]
  else exists c0 c1 y, Consumer.new (now_ms s) (session_opts s server fk ck back) = Ok c0
    /\ js_each Consumer.processFunding (fresh_outputs s) c0 = (Ok tt, c1)
    /\ Signing.sign fk None (Commitment.tx (Consumer.commitmentTx c1)) = (Ok tt, y) /\ outpoints y = outpoint <$> fresh_outputs s
    /\ funding_outputs s' = take (funding_outputs_used s) (funding_outputs s) ++ ((fun u => (u, Some ATTACHED)) <$> fresh_outputs s)
    /\ funding_outputs_used s' = num_funding_outputs s /\ waiting_to_initiate s' = false
    /\ if forallb recognised (inputs y) then
         exists r c b, initiate (set_channel_state_fuel (S (S k))) s = (Ok tt, s') /\ channel_state s' = Some SENT_REFUND
           /\ Consumer.setupRefund (now_ms s) c1 = (Ok r, c) /\ Transaction.toBuffer r = Ok b
           /\ outputs r = [output_of (returned zs) (address_script back) (address_bytes back)] /\ nLockTime r = in_one_day (now_ms s)
           /\ consumer s' = Some c /\ refund_tx s' = Some r /\ trace s' = trace s ++ [Send (PROVIDE_REFUND (toPublicKey ck) b)]
       else initiate (set_channel_state_fuel (S (S k))) s = (Throw InvalidState, s') /\ channel_state s' = Some INITIATED
         /\ refund_tx s' = refund_tx s /\ trace s' = trace s.
Proof.
  intros Hst Hf Hday. destruct (update_escrow_ok s) as (w & Hup). unfold initiate. rewrite (js_bind_ok _ _ _ _ _ Hup). js_look.
  set (s1 := s <| escrow_amount := _ |> <| coin_width := w |>).
  change (escrow_amount s1) with (num_sub (unspent_total (funding_outputs s)) fee). change (min_escrow s1) with (min_escrow s).
  destruct (num_lt _ (min_escrow s)) eqn:Hlt; rewrite ?Hlt.
  - js_set. unfold set_html. js_set. unfold emit, js_modify. eexists. do 6 (split; [reflexivity|]). eexists. reflexivity.
  - do 2 js_set. set (s2 := upd _ _).
    destruct (create_funded s2 s server fk ck back zs Hf eq_refl) as (c0 & c1 & Hnew & Hfun & Hc & Hcc & Hcf & Hcb & Ho & Hcreate).
    rewrite (js_bind_ok _ _ _ _ _ Hcreate). set (s3 := s2 <| consumer := _ |> <| funding_outputs ::= _ |> <| funding_outputs_used := _ |>).
    rewrite set_valid by (change (channel_state s3) with (channel_state s); by destruct Hst as [-> | ->]).
    cbn [entry_action]. set (s4 := s3 <| channel_state := Some INITIATED |>). destruct (fd_server _ _ _ _ _ _ Hf) as [_ Hsk].
    destruct (setup_exact (now_ms s) c1 server zs Hc (proj1 (proj2 Hsk))) as (y & y' & id & Hy & _ & _ & Hidl & Hidok & _ & _ & Hcy & _ & Hop & Hset).
    destruct (signed_value c1 server zs y' Hc Hcy) as (_ & Hpos). cbv zeta in Hset. rewrite Hcf in Hy. rewrite Hcb, Hcc in Hset. set (r := refund_of _ _ _ _ _ _) in Hset. pose proof (fd_attached s) as Hatt.
    destruct (forallb recognised (inputs y)) eqn:Hrec.
    + destruct (fd_back _ _ _ _ _ _ Hf) as (_ & Hbl & Hbok & _).
      assert (wf_tx r) as Hwf.
      { apply (refund_spends (toPublicKey ck) server (pub_compressed ck) Hsk); done || lia. }
      pose proof (send_refund_ok k s4 c1 ck r _ _ eq_refl (proj2 (fd_keys _ _ _ _ _ _ Hf)) (fd_socket _ _ _ _ _ _ Hf) eq_refl Hset (toBuffer_bytes r Hwf)) as Hsend.
      rewrite Hsend. match goal with |- context [(Ok tt, ?s5) = _] => exists s5 end. exists c0, c1, y. do 3 (split; [done|]). split; [by rewrite Hop, Ho|]. split; [exact (f_equal (app _) Hatt)|]. do 2 (split; [done|]). rewrite Hrec.
      eexists r, _, _. split; [reflexivity|]. split; [reflexivity|]. split; [exact Hset|]. split; [exact (toBuffer_bytes r Hwf)|]. by split_and!.
    + rewrite (send_refund_throws _ s4 c1 _ _ eq_refl Hset).
      exists (s4 <| consumer := Some (with_tx c1 y) |>), c0, c1, y. do 3 (split; [done|]). split; [by rewrite Hop, Ho|]. split; [exact (f_equal (app _) Hatt)|]. do 2 (split; [done|]). rewrite Hrec. by split_and!.
Qed.
End ClientOpensTheorems.
