(* ===== verification/Session.v ===== *)
(** * A complete session of the browser client

    The client of [WebClient] run on concrete cryptography, from the page being loaded to the
    first payments: the definitions evaluate, the machine reaches an open channel, and the
    theorems of [WebClientSpec] apply to the states on the way. *)
From S2P Require Import Prelude JsNumber Encoding Signature Script Transaction Interpreter Spending Channel ChannelSpec Settlement WebClient WebClientSpec ClientOpens.
Local Open Scope Z_scope.
Local Open Scope js_scope.

(** ** A session

    With the signature scheme [der_ecdsa], and these keys of the page *)
#[local] Existing Instance der_ecdsa.
#[local] Instance session_keys : KeySource := {| random_key n := Z.of_nat n + 10 |}.
#[local] Existing Instance demo_crypto.
#[local] Existing Instance demo_hashes.
#[local] Existing Instance demo_laws.
#[local] Existing Instance der_ecdsa_laws.
#[local] Existing Instance der_ecdsa_der.

Section Session.
Import Transaction SigningLemmas SpendingLemmas FundingLemmas CommitmentLemmas SettlementLemmas Client ClientOpensLemmas.

Definition server : Z := 77.
Definition server_pub : list Z := 2 :: repeat 77 32.

(** The user pays 50000 satoshis to the funding address, from a pay-to-public-key-hash input. *)
Definition funding_tx (a : Address) : Transaction.t :=
  let script_in := Script.mk [Script.mkChunk 71 (Some (repeat 9 71, 71)); Script.mkChunk 33 (Some (2 :: repeat 5 32, 33))] None in
  let b := match Script.toBuffer script_in with Ok b => b | Throw _ => [] end in
  Transaction.mk 1 [Input.mk None (repeat 3 32) 0 0xffffffff b None Input.Base]
    [AmountLemmas.output_of 50000 (PaymentLemmas.address_script a) (PaymentLemmas.address_bytes a)] 0 None None None None None.
Definition funding_bytes (s : Client.t) : list Z :=
  match funding_address s with
  | Some a => match Transaction.toBuffer (funding_tx a) with Ok b => b | Throw _ => [] end
  | None => []
  end.

(** The server signs the refund it was sent, and appends the hash type. *)
Definition refund_signature (s : Client.t) : list Z :=
  match consumer s ≫= Consumer.refundTx with
  | Some x =>
      match Transaction.inputs x with
      | i :: _ =>
          match Signing.input_subscript i with
          | Ok sub => match Sighash.sign x (server : @PrivateKey der_ecdsa) 130 0 sub with Ok d => d ++ [130] | Throw _ => [] end
          | Throw _ => []
          end
      | [] => []
      end
  | None => []
  end.

(** A list of events, each possible when it comes *)
Fixpoint possible (l : list (Z * event)) (s : Client.t) : bool :=
  match l with [] => true | (now, e) :: l => enabled e s && possible l (run now e s) end.
Fixpoint run_all (l : list (Z * event)) (s : Client.t) : Client.t :=
  match l with [] => s | (now, e) :: l => run_all l (run now e s) end.

Lemma run_all_steps l s : possible l s = true -> rtc step s (run_all l s).
Proof.
  revert s. induction l as [|[now e] l IH]; intros s Hl; cbn [run_all possible] in *; [done|].
  apply andb_true_iff in Hl as [He Hl]. eapply rtc_l; [exact (step_event now e s He)|by apply IH].
Qed.

(** Up to the price; up to the funding; up to the open channel; a payment later. *)
Definition events1 : list (Z * event) :=
  [(0, Ready); (100, SocketOpen 0); (200, SocketMessage 0 (SERVER_VERSION (Some (1, 1))));
   (300, SocketMessage 0 (PRICE (Some (10, server_pub))))].
Definition session1 : Client.t := run_all events1 (initial 0).
Definition events2 : list (Z * event) :=
  events1 ++ [(400, SocketMessage 0 (INITIATE (Some (10000, 86400, 1000))));
              (500, SocketMessage 0 (FUNDING (Some (funding_bytes session1))))].
Definition session2 : Client.t := run_all events2 (initial 0).
Definition events3 : list (Z * event) :=
  events2 ++ [(600, SocketMessage 0 (RETURN_REFUND (Some (refund_signature session2)))); (700, SocketMessage 0 CHANNEL_OPEN)].
Definition session3 : Client.t := run_all events3 (initial 0).
Definition session4 : Client.t := run_all (events3 ++ [(800, SocketMessage 0 PAYMENT_ACK); (200800, Interval 1)]) (initial 0).

(** The protocol messages sent, with the change each payment leaves to the client. *)
Definition sent (e : effect) : option (string * number) :=
  match e with
  | Send (CLIENT_VERSION _ _ _) => Some ("version", num_nan)
  | Send (FUNDING_ADDRESS _) => Some ("funding address", num_nan)
  | Send (PROVIDE_REFUND _ _) => Some ("refund", num_nan)
  | Send (PROVIDE_CONTRACT _ n _) => Some ("contract", n)
  | Send (UPDATE_PAYMENT n _) => Some ("payment", n)
  | Send CLOSE => Some ("close", num_nan)
  | Send (ERROR _) => Some ("error", num_nan)
  | _ => None
  end.

(** A complete session: from a fresh page, with a server that follows the protocol and a user
    who pays 50000 satoshis, the client sends its version, its funding address, the refund, the
    contract with the first payment of 1000 satoshis and, once time is running out, a payment of
    a hundredth of the escrow; the channel is open and the display says connected. *)
Theorem session_opens :
  channel_state session4 = Some RECEIVED_CHANNEL_OPEN /\ ui_state session4 = Some CONNECTED
  /\ payment_update_timer session4 = Some 1%nat
  /\ omap sent (trace session4)
     = [("version", num_nan); ("funding address", num_nan); ("refund", num_nan);
        ("contract", num_of_Z 48000); ("payment", num_of_Z 47510)]%string.
Proof. vm_compute. repeat split. Qed.

(** *** Witnesses *)

Lemma session3_reachable : reachable session3.
Proof. exists 0. apply run_all_steps. vm_compute. reflexivity. Qed.

(** The server first asks for more than the user pays, and then for less. *)
Definition session_short : Client.t :=
  run_all (events1 ++ [(400, SocketMessage 0 (INITIATE (Some (60000, 86400, 1000))));
                       (500, SocketMessage 0 (FUNDING (Some (funding_bytes session1))))]) (initial 0).
Definition session_waiting : Client.t := session_short <| min_escrow := num_of_Z 10000 |>.

Lemma session_waiting_funded back : refund_address session_waiting = Some back ->
  funded session_waiting server_pub (10 : @PrivateKey der_ecdsa) (11 : @PrivateKey der_ecdsa) back [50000].
Proof.
  intros Hb. assert (exists u, fresh_outputs session_waiting = [u] /\ fundable u 50000 /\ own_output (session_opts session_waiting server_pub (10 : @PrivateKey der_ecdsa) (11 : @PrivateKey der_ecdsa) back) u) as (u & Hu & Hf & Ho).
  { eexists. split; [vm_compute; reflexivity|].
    split; [split; [reflexivity| |by vm_compute|lia]|].
    - exists (repeat 9 20), None. split; [reflexivity|]. split; [apply repeat_ok; unfold byte_ok; lia|reflexivity].
    - split; [apply (repeat_ok 99 32); unfold byte_ok; lia|]. split; [split; vm_compute; [discriminate|reflexivity]|]. exists None. vm_compute. reflexivity. }
  split.
  - vm_compute. reflexivity.
  - split; [vm_compute; reflexivity|exact (pub_compressed (77 : @PrivateKey der_ecdsa))].
  - split; vm_compute; reflexivity.
  - split; [exact Hb|]. vm_compute in Hb. injection Hb as <-. split; [reflexivity|]. split; [|reflexivity]. apply (bool_decide_unpack _). vm_compute. exact I.
  - split; vm_compute; [reflexivity|lia].
  - rewrite Hu. constructor; [exact Hf|constructor].
  - rewrite Hu. constructor; [exact Ho|constructor].
  - rewrite Hu. cbn. apply NoDup_singleton.
  - split; vm_compute; reflexivity.
Qed.

(** The commitment of this session has a signature that is recognised. *)
Lemma session_recognised back c0 c1 y : refund_address session_waiting = Some back ->
  Consumer.new (now_ms session_waiting) (session_opts session_waiting server_pub (10 : @PrivateKey der_ecdsa) (11 : @PrivateKey der_ecdsa) back) = Ok c0 ->
  js_each Consumer.processFunding (fresh_outputs session_waiting) c0 = (Ok tt, c1) ->
  Signing.sign (10 : @PrivateKey der_ecdsa) None (Commitment.tx (Consumer.commitmentTx c1)) = (Ok tt, y) -> forallb recognised (inputs y) = true.
Proof.
  intros Hb H0 H1 H2.
  assert (match refund_address session_waiting with
    | Some back => match Consumer.new (now_ms session_waiting) (session_opts session_waiting server_pub (10 : @PrivateKey der_ecdsa) (11 : @PrivateKey der_ecdsa) back) with
      | Ok c0 => match js_each Consumer.processFunding (fresh_outputs session_waiting) c0 with
        | (Ok _, c1) => match Signing.sign (10 : @PrivateKey der_ecdsa) None (Commitment.tx (Consumer.commitmentTx c1)) with
          | (Ok _, y) => forallb recognised (inputs y) | _ => false end
        | _ => false end
      | _ => false end
    | None => false end = true) as H by (vm_compute; reflexivity).
  rewrite Hb, H0, H1, H2 in H. exact H.
Qed.

Lemma client_initiates_witness : exists s' b, initiate set_channel_state session_waiting = (Ok tt, s')
  /\ channel_state s' = Some SENT_REFUND /\ trace s' = trace session_waiting ++ [Send (PROVIDE_REFUND (toPublicKey (11 : @PrivateKey der_ecdsa)) b)].
Proof.
  assert (exists back, refund_address session_waiting = Some back) as [back Hback] by (vm_compute; eexists; reflexivity).
  destruct (client_initiates 1 session_waiting server_pub (10 : @PrivateKey der_ecdsa) (11 : @PrivateKey der_ecdsa) back [50000])
    as (s' & Hs').
  - right. vm_compute. reflexivity.
  - exact (session_waiting_funded back Hback).
  - split; vm_compute; [discriminate|reflexivity].
  - assert (num_lt (num_sub (unspent_total (funding_outputs session_waiting)) fee) (min_escrow session_waiting) = false) as Hlt by (vm_compute; reflexivity).
    rewrite Hlt in Hs'. destruct Hs' as (c0 & c1 & y & H0 & H1 & H2 & _ & _ & _ & _ & Hs').
    rewrite (session_recognised back c0 c1 y Hback H0 H1 H2) in Hs'. destruct Hs' as (r & c & b & Hrun & Hst & _ & _ & _ & _ & _ & _ & Htr).
    exists s', b. split; [exact Hrun|]. split; [exact Hst|exact Htr].
Defined.

Lemma reachable_bookkeeping_witness : length (funding_outputs session3) = num_funding_outputs session3 /\ num_funding_outputs session3 = 1%nat.
Proof.
  split; [exact (proj1 (proj2 (reachable_bookkeeping session3 session3_reachable)))|vm_compute; reflexivity].
Defined.

Lemma missing_ack_unnoticed_witness :
  received_ack session3 = false /\ trace (run 900000 (Interval 1) session3) = trace session3.
Proof.
  assert (received_ack session3 = false) as Hack by (vm_compute; reflexivity). split; [exact Hack|].
  exact (proj1 (proj2 (missing_ack_unnoticed 900000 1 session3 session3_reachable Hack))).
Defined.

Lemma error_recovery_fails_witness : exists s', receive_error session3 = (Throw EmptyObject, s') /\ channel_state s' = Some RECEIVED_ERROR.
Proof.
  destruct (error_recovery_fails session3 OPEN) as (s' & Hs' & Hc & _); [vm_compute; reflexivity|].
  exists s'. split; [exact Hs'|exact Hc].
Defined.

Definition used_up : Client.t := session3 <| fullyUsedUp := true |>.

Lemma close_depletes_witness : exists s', receive_close used_up = (Ok tt, s') /\ snd <$> funding_outputs s' = [Some DEPLETED].
Proof.
  destruct (close_depletes used_up OPEN) as (s' & Hs' & Hf & _); [vm_compute; reflexivity|reflexivity|].
  exists s'. split; [exact Hs'|]. rewrite Hf. vm_compute. reflexivity.
Defined.

Lemma escrow_exact_witness : exists s', update_escrow_amount session3 = (Ok tt, s') /\ escrow_amount s' = num_of_Z 49000.
Proof.
  destruct (escrow_exact session3 [50000]) as (s' & Hs' & He & _).
  - assert (exists o, funding_outputs session3 = [o] /\ utxo_satoshis (fst o) = num_of_Z 50000) as (o & -> & Ho)
      by (vm_compute; eexists; split; reflexivity).
    constructor; [split; [exact Ho|lia]|constructor].
  - reflexivity.
  - exists s'. split; [exact Hs'|]. rewrite He. vm_compute. reflexivity.
Defined.

Lemma funding_replay_ignored_witness : receive_funding (Some (funding_bytes session1)) session3 = (Ok tt, session3).
Proof.
  destruct (Transaction.fromBuffer (funding_bytes session1)) as [tx|e] eqn:Hb; [|exfalso; vm_compute in Hb; discriminate Hb].
  destruct (Signing.id_ tx) as [id|e] eqn:Hid.
  - apply (funding_replay_ignored _ tx id session3 Hb Hid).
    vm_compute in Hb. injection Hb as <-. vm_compute in Hid. injection Hid as <-.
    apply (bool_decide_unpack _). vm_compute. exact I.
  - exfalso. vm_compute in Hb. injection Hb as <-. vm_compute in Hid. discriminate Hid.
Defined.

Lemma reconnect_backoff_witness : exists s', onclose 1006 session3 = (Ok tt, s') /\ channel_state s' = Some WEBSOCKET_CLOSED.
Proof.
  destruct (reconnect_backoff 1006 session3) as (s' & Hs' & Hc); [vm_compute; split; [discriminate|reflexivity]|].
  exists s'. split; [exact Hs'|exact (proj1 Hc)].
Defined.
End Session.
