(* ===== verification/Mobile.v ===== *)
(** * bitmesh_mobile.js: the mobile page

    Models [src/Sources/WebClient/js/bitmesh_mobile.js], a page on which the user pays the router with
    any wallet: it shows the address to pay to and the time that was bought.  It speaks the first
    messages of the same protocol; the router tells it about payments with acknowledgements that
    carry two 64-bit integers.

    As in [WebClient.v] all globals are the fields of one record, what leaves the page is a trace,
    and an event runs one handler; console output is left out. *)
From S2P Require Import Prelude JsNumber JsValue Encoding Script Base58 Transaction Channel WebClient.
From Stdlib Require Import Ascii String.
Local Open Scope Z_scope.
Local Open Scope js_scope.

Module Mobile.

Inductive CHANNEL_STATES :=
  | BEGIN | SENT_VERSION | RECEIVED_VERSION | RECEIVED_PRICE | RECEIVED_FUNDING | RECEIVED_ERROR | SENT_ERROR
  | RECEIVED_CLOSE | SENT_CLOSE | WEBSOCKET_CLOSED.
#[export] Instance CHANNEL_STATES_eq_dec : EqDecision CHANNEL_STATES.
Proof. solve_decision. Defined.

Inductive UI_STATES := UI_BEGIN | CONNECTED | FUNDS_DEPLETED | MULTIPLE_BITMESH_TABS_OPEN.
#[export] Instance UI_STATES_eq_dec : EqDecision UI_STATES.
Proof. solve_decision. Defined.

(** The messages the page receives, decoded; an acknowledgement has the amounts purchased and
    spent, both optional. *)
Inductive server_message :=
  | SERVER_VERSION (v : option (Z * Z))
  | PRICE (p : option (Z * list Z))
  | PAYMENT_ACK (a : option (option Z * option Z))
  | SERVER_CLOSE
  | SERVER_ERROR (has_error : bool)
  | OTHER_MESSAGE
  | MALFORMED.

Section WithLibraries.
Context `{Crypto} `{Ecdsa}.

Record t := mk {
  channel_state : option CHANNEL_STATES;
  ui_state : option UI_STATES;
  time_purchased : jsval;
  price_per_second : number;
  server_key : option (list Z);
  server_address : option Address;
  total_paid : jsval;
  time_spent : number;
  total_time_spent : number;
  payment_update_timer : option nat;
  last_payment_update_time : number;
  received_ack : bool;
  attempt_reopen_channel : bool;
  websocket_open : bool;
  multiple_tabs_open : bool;
  num_connection_retries : Z;
  USD_price : option number;
  (** the browser, as in [WebClient.v] *)
  now_ms : Z;
  sockets : list ready_state;
  intervals : list nat;
  next_timer : nat;
  timeouts : nat;
  html : gmap string (list piece);
  shown : gmap string bool;
  trace : list effect;
}.
#[global] Instance eta_mobile : Eta t := fun s =>
  mk (channel_state s) (ui_state s) (time_purchased s) (price_per_second s) (server_key s) (server_address s) (total_paid s)
     (time_spent s) (total_time_spent s) (payment_update_timer s) (last_payment_update_time s) (received_ack s)
     (attempt_reopen_channel s) (websocket_open s) (multiple_tabs_open s) (num_connection_retries s) (USD_price s)
     (now_ms s) (sockets s) (intervals s) (next_timer s) (timeouts s) (html s) (shown s) (trace s).

Abbreviation M := (js t).

(** The page as loaded; a number that is not set yet is NaN in arithmetic. *)
Definition initial (now : Z) : t :=
  mk None None (JInt 0) (num_of_Z 1) None None (JInt 0) (num_of_Z 0) (num_of_Z 0) None num_nan false false
     false false 0 None now [] [] 1 0 ∅ ∅ [].

Definition network_name : network := testnet.
Definition POLICY_VIOLATION := 1008.

(** *** The browser *)

Definition emit (e : effect) : M unit := js_modify (fun s => s <| trace ::= (fun l => l ++ [e]) |>).
Definition set_html (sel : string) (text : list piece) : M unit := js_modify (fun s => s <| html ::= <[sel := text]> |>).
Definition show (sel : string) : M unit := js_modify (fun s => s <| shown ::= <[sel := true]> |>).
Definition hide (sel : string) : M unit := js_modify (fun s => s <| shown ::= <[sel := false]> |>).
Definition need {A} (o : option A) : M A := match o with Some a => mret a | None => js_throw TypeError end.

(** [send_message]: nothing is sent unless the socket is open *)
Definition send_message (message : client_message) : M unit :=
  s ← js_get;
  ws ← need (last (sockets s));
  if bool_decide (ws = OPEN) then emit (Send message) else emit (Dropped message).

Definition start_websockets : M unit :=
  js_modify (fun s => s <| sockets ::= (fun l => l ++ [CONNECTING]) |>);; emit OpenSocket.

(** *** Utility functions *)

Definition create_uri (address : Address) : M unit :=
  set_html "#uri_string" [Addr address];;
  set_html "#qr_wrapper" [Str "<a id=qr_link href="; Uri address; Str "></a>"];;
  emit (QrCode address);;
  emit (Popover address).

Definition get_bitcoin_price : M unit := emit GetTicker.

(** [byte.toString(16)], with a leading zero below sixteen *)
Definition hex_byte (b : Z) : string :=
  if b <? 16 then String "0" (String (Hex.digit b) EmptyString)
  else String (Hex.digit (b / 16)) (String (Hex.digit (b mod 16)) EmptyString).

(** [get_string_from_buffer], the buffer being the bytes between its offset and its limit *)
Fixpoint get_string_from_buffer (buffer : list Z) : string :=
  match buffer with
  | [] => EmptyString
  | b :: buffer => (hex_byte b ++ get_string_from_buffer buffer)%string
  end.

Definition convert_satoshis_to_usd (USD_price satoshis : number) : number :=
  num_div (num_mul USD_price satoshis) (num_of_Z 100000000).

(** *** The display *)

Definition get_time_left (s : t) : number :=
  num_sub (num_div (to_number (total_paid s)) (price_per_second s)) (time_spent s).

Definition usd (price : option number) (satoshis : number) : list piece :=
  match price with Some p => [Str "$"; Fixed4 (convert_satoshis_to_usd p satoshis)] | None => [] end.

Definition update_display : M unit :=
  s ← js_get;
  let time_left := get_time_left s in
  let two_digits n := if num_lt n (num_of_Z 10) then [Str "0"; Num n] else [Num n] in
  let hours := if num_gt time_left (num_of_Z 0)
               then two_digits (Math_floor (num_div time_left (num_of_Z 3600))) else [Str "00"] in
  let minutes := if num_gt time_left (num_of_Z 0)
                 then two_digits (Math_floor (num_div (num_rem time_left (num_of_Z 3600)) (num_of_Z 60))) else [Str "00"] in
  let seconds := if num_gt time_left (num_of_Z 0)
                 then two_digits (Math_floor (num_rem time_left (num_of_Z 60))) else [Str "00"] in
  let time := if num_gt time_left (num_of_Z 0) then hours ++ [Str ":"] ++ minutes ++ [Str ":"] ++ seconds
              else [Str "00:00:00"] in
  let paid := to_number (total_paid s) in
  let money := [Num (num_div paid (num_of_Z 100)); Str " uBTC<br>"] ++ usd (USD_price s) paid in
  let satoshis_per_hour := num_mul (price_per_second s) (num_of_Z 3600) in
  let price_display :=
    (if num_ge satoshis_per_hour (num_of_Z 100)
     then [Num (num_div satoshis_per_hour (num_of_Z 100)); Str " uBTC<br />"]
     else [Num (price_per_second s); Str " satoshis<br />"]) ++ usd (USD_price s) satoshis_per_hour in
  set_html "#price_display" price_display;;
  set_html "#money_spent" money;;
  set_html "#hours" (hours ++ [Str "<br />Hrs"]);;
  set_html "#minutes" (minutes ++ [Str "<br />Mins"]);;
  set_html "#seconds" (seconds ++ [Str "<br />Secs"]);;
  set_html "#title_display" time.

(** *** Timers *)

(** [new Date().getTime() / 1000.0] *)
Definition now_seconds (s : t) : number := num_div (num_of_Z (now_ms s)) (num_of_Z 1000).

Definition update_payment : M unit :=
  s ← js_get;
  let now := now_seconds s in
  let delta := num_sub now (last_payment_update_time s) in
  js_modify (fun s => s <| last_payment_update_time := now |>);;
  js_modify (fun s => s <| time_spent ::= (fun n => num_add n delta) |>);;
  js_modify (fun s => s <| total_time_spent ::= (fun n => num_add n delta) |>);;
  update_display.

Definition cancel_payments : M unit :=
  s ← js_get;
  match payment_update_timer s with
  | Some id =>
      js_modify (fun s => s <| intervals ::= filter (fun i => i <> id) |>);;
      emit (ClearInterval id);;
      js_modify (fun s => s <| payment_update_timer := None |>)
  | None => mret tt
  end.

(** *** The state machines *)

(** [channel_transition_is_valid(new_state)] *)
Definition channel_transition_is_valid (channel_state : option CHANNEL_STATES) (new_state : CHANNEL_STATES) : bool :=
  match channel_state, new_state with
  | None, BEGIN
  | Some BEGIN, SENT_VERSION
  | Some WEBSOCKET_CLOSED, SENT_VERSION
  | Some SENT_VERSION, SENT_VERSION
  | Some SENT_VERSION, RECEIVED_VERSION
  | Some RECEIVED_VERSION, RECEIVED_PRICE
  | Some RECEIVED_CLOSE, SENT_VERSION
  | Some SENT_CLOSE, SENT_VERSION
  | Some SENT_ERROR, SENT_VERSION
  | _, RECEIVED_CLOSE
  | _, RECEIVED_ERROR
  | _, SENT_ERROR
  | _, SENT_CLOSE
  | _, WEBSOCKET_CLOSED
  | _, RECEIVED_FUNDING => true
  | _, _ => false
  end.

(** [set_channel_state(new_state)]: only the first state has an entry action. *)
Definition set_channel_state (new_state : CHANNEL_STATES) : M unit :=
  s ← js_get;
  if negb (channel_transition_is_valid (channel_state s) new_state) then js_throw EmptyObject
  else
    js_modify (fun s => s <| channel_state := Some new_state |>);;
    match new_state with
    | BEGIN => get_bitcoin_price;; start_websockets
    | _ => mret tt
    end.

(** [ui_transition_is_valid(new_state)]; an invalid transition is only logged. *)
Definition ui_transition_is_valid (ui_state : option UI_STATES) (new_state : UI_STATES) : bool :=
  match ui_state, new_state with
  | None, UI_BEGIN
  | Some UI_BEGIN, CONNECTED
  | Some FUNDS_DEPLETED, CONNECTED
  | _, MULTIPLE_BITMESH_TABS_OPEN
  | Some FUNDS_DEPLETED, FUNDS_DEPLETED
  | Some CONNECTED, CONNECTED
  | Some CONNECTED, FUNDS_DEPLETED => true
  | _, _ => false
  end.

(** [set_ui_state(new_state)] *)
Definition set_ui_state (new_state : UI_STATES) : M unit :=
  js_modify (fun s => s <| ui_state := Some new_state |>);;
  match new_state with
  | UI_BEGIN =>
      update_display;;
      set_html "#repayment_prompt" [Str ""];;
      hide "#disconnect_button";; hide "#reconnect_button";; show "#starting_status";; hide "#online_status";;
      hide "#disconnected_status";; hide "#mult_tabs_status";; hide "#multiple_tabs_gif";; show "#qr_div"
  | CONNECTED =>
      set_html "#repayment_prompt" [Str ""];;
      show "#disconnect_button";; hide "#reconnect_button";; hide "#starting_status";; show "#online_status";;
      hide "#disconnected_status";; hide "#mult_tabs_status";; hide "#multiple_tabs_gif";; show "#qr_div"
  | FUNDS_DEPLETED =>
      set_html "#repayment_prompt" [Str "You have run out of funds. If you would like to continue internetting, please pay more money"];;
      hide "#disconnect_button";; hide "#reconnect_button";; hide "#starting_status";; hide "#online_status";;
      show "#disconnected_status";; hide "#mult_tabs_status";; hide "#multiple_tabs_gif";; show "#qr_div"
  | MULTIPLE_BITMESH_TABS_OPEN =>
      set_html "#repayment_prompt" [Str ""];;
      hide "#disconnect_button";; hide "#reconnect_button";; hide "#starting_status";; hide "#online_status";;
      hide "#disconnected_status";; show "#mult_tabs_status";; show "#multiple_tabs_gif";; hide "#qr_div"
  end.

(** *** Message handlers *)

Definition send_version : M unit :=
  send_message (CLIENT_VERSION 1 2 None);;
  set_channel_state SENT_VERSION.

Definition start_conversation : M unit := send_version.

Definition exit_with_error_code (error_code : ErrorCode) : M unit :=
  send_message (ERROR error_code);;
  js_modify (fun s => s <| attempt_reopen_channel := true |>);;
  hide "#disconnect_button";;
  hide "#reconnect_button";;
  set_channel_state SENT_ERROR.

Definition receive_version (version : option (Z * Z)) : M unit :=
  v ← need version;
  if negb (fst v =? 1) || negb (snd v =? 2) then exit_with_error_code NO_ACCEPTABLE_VERSION
  else set_channel_state RECEIVED_VERSION.

Definition receive_price (price_msg : option (Z * list Z)) : M unit :=
  p ← need price_msg;
  js_modify (fun s => s <| price_per_second := num_of_Z (fst p) |>);;
  s ← js_get;
  if num_lt (price_per_second s) (num_of_Z 0) then exit_with_error_code OTHER
  else
    key ← js_lift (Hex.hexWrite (get_string_from_buffer (snd p)));
    js_lift (guard_or (BitcoreError "PublicKey") (PublicKey_isValid key));;
    js_modify (fun s => s <| server_key := Some key |>);;
    let address := Consumer.key_address key network_name in
    js_modify (fun s => s <| server_address := Some address |>);;
    create_uri address;;
    set_channel_state RECEIVED_PRICE.

(** [payment_update_timer = setInterval(update_payment, 100)] *)
Definition start_timer : M unit :=
  s ← js_get;
  emit (SetInterval (next_timer s));;
  js_modify (fun s => s <| intervals ::= (fun l => l ++ [next_timer s]) |> <| payment_update_timer := Some (next_timer s) |>
                        <| next_timer ::= S |>).

(** [receive_payment_ack]: the amounts are 64-bit integer objects, so adding them concatenates. *)
Definition receive_payment_ack (payment_ack : option (option Z * option Z)) : M unit :=
  a ← need payment_ack;
  js_modify (fun s => s <| time_purchased ::= parseInt |>);;
  js_modify (fun s => s <| time_purchased ::= (fun v => plus v (fst a)) |>);;
  js_modify (fun s => s <| total_paid ::= (fun v => plus v (snd a)) |>);;
  js_modify (fun s => s <| last_payment_update_time := now_seconds s |>);;
  start_timer;;
  js_modify (fun s => s <| received_ack := true |>);;
  update_display;;
  set_ui_state CONNECTED.

Definition receive_close : M unit :=
  set_ui_state FUNDS_DEPLETED;;
  set_channel_state RECEIVED_CLOSE;;
  cancel_payments.

Definition receive_error : M unit :=
  js_modify (fun s => s <| attempt_reopen_channel := true |>);;
  set_channel_state RECEIVED_ERROR;;
  cancel_payments.

(** *** The websocket's event handlers *)

Definition dispatch (msg : server_message) : M unit :=
  match msg with
  | SERVER_VERSION v => receive_version v
  | PRICE p => receive_price p
  | PAYMENT_ACK a => receive_payment_ack a
  | SERVER_CLOSE => receive_close
  | SERVER_ERROR true => receive_error
  | SERVER_ERROR false => js_throw TypeError
  | OTHER_MESSAGE => mret tt
  | MALFORMED => js_throw (ErrorMessage "decode")
  end.

(** [onmessage]: errors are caught and logged. *)
Definition onmessage (msg : server_message) : M unit := js_catch (dispatch msg) (fun _ => mret tt).

Definition onopen : M unit :=
  js_modify (fun s => s <| websocket_open := true |>);;
  start_conversation.

Definition onclose (code : Z) : M unit :=
  if code =? POLICY_VIOLATION then
    js_modify (fun s => s <| multiple_tabs_open := true |>);;
    set_ui_state MULTIPLE_BITMESH_TABS_OPEN
  else
    js_modify (fun s => s <| websocket_open := false |>);;
    s ← js_get;
    emit (SetTimeout (num_mul (num_of_Z 1000) (Math_pow2 (num_connection_retries s))));;
    js_modify (fun s => s <| timeouts ::= S |>);;
    js_modify (fun s => s <| num_connection_retries ::= Z.succ |>);;
    set_channel_state WEBSOCKET_CLOSED.

(** The handler of [jQuery(document).ready] *)
Definition ready : M unit := set_ui_state UI_BEGIN;; set_channel_state BEGIN.

(** *** Events *)

Inductive event :=
  | Ready
  | SocketOpen (n : nat)
  | SocketMessage (n : nat) (m : server_message)
  | SocketClose (n : nat) (code : Z)
  | Timeout
  | Interval (id : nat)
  | Ticker (price : number).

Definition set_socket (n : nat) (r : ready_state) : M unit := js_modify (fun s => s <| sockets ::= <[n := r]> |>).

Definition handler (e : event) : M unit :=
  match e with
  | Ready => ready
  | SocketOpen n => set_socket n OPEN;; onopen
  | SocketMessage n m => onmessage m
  | SocketClose n code => set_socket n CLOSED;; onclose code
  | Timeout => js_modify (fun s => s <| timeouts ::= pred |>);; start_websockets
  | Interval id => update_payment
  | Ticker price => js_modify (fun s => s <| USD_price := Some price |>);; update_display
  end.

Definition enabled (e : event) (s : t) : bool :=
  match e with
  | Ready => bool_decide (channel_state s = None)
  | SocketOpen n => bool_decide (sockets s !! n = Some CONNECTING)
  | SocketMessage n m => bool_decide (sockets s !! n = Some OPEN)
  | SocketClose n code => bool_decide (sockets s !! n = Some CONNECTING \/ sockets s !! n = Some OPEN)
  | Timeout => (0 <? timeouts s)%nat
  | Interval id => bool_decide (id ∈ intervals s)
  | Ticker _ => true
  end.

(** An event at time [now]; an error that escapes the handler ends it. *)
Definition run (now : Z) (e : event) (s : t) : t := snd (handler e (s <| now_ms := now |>)).

Inductive step : t -> t -> Prop :=
  | step_event now e s : enabled e s = true -> step s (run now e s).

Definition reachable (s : t) : Prop := exists now, rtc step (initial now) s.

End WithLibraries.
End Mobile.
