(* ===== verification/MobileSpec.v ===== *)
(** * bitmesh_mobile.js: what holds of the mobile page

    The page follows its table of edges, counts its reconnections, and speaks the start of the
    protocol; its sums of 64-bit integers are concatenations, and its timers pile up. *)
From S2P Require Import Prelude JsNumber JsValue Encoding Script Base58 Transaction Channel WebClient Mobile.
From Stdlib Require Import Ascii String.
Local Open Scope Z_scope.
Local Open Scope js_scope.

Module MobileLemmas.
Import Mobile.
Section WithLibraries.
Context `{Crypto} `{Ecdsa}.

(** *** The observation: states, clocks, timers and reconnections *)

Record view := mkView {
  v_state : option CHANNEL_STATES;
  v_spent : number;
  v_total : number;
  v_timer : option nat;
  v_intervals : list nat;
  v_next : nat;
  v_retries : Z;
  v_trace : list effect;
}.
Definition observe (s : Mobile.t) : view :=
  mkView (channel_state s) (time_spent s) (total_time_spent s) (payment_update_timer s) (intervals s) (next_timer s)
    (num_connection_retries s) (trace s).

Definition edge (a b : option CHANNEL_STATES) : Prop := exists n, b = Some n /\ channel_transition_is_valid a n = true.

(** The delays of the reconnections, in order *)
Definition delays (l : list effect) : list number := omap (fun e => match e with SetTimeout ms => Some ms | _ => None end) l.
#[global] Arguments delays : simpl never.
Definition backoff (retries : Z) : number := num_mul (num_of_Z 1000) (Math_pow2 retries).

(** The time spent is the total time spent; the timers are made once and the one the page knows
    runs; every reconnection ever scheduled was counted, and doubled the delay of the next. *)
Definition consistent (v : view) : Prop :=
  v_spent v = v_total v
  /\ NoDup (v_intervals v) /\ Forall (fun i => i < v_next v)%nat (v_intervals v)
  /\ (forall id, v_timer v = Some id -> id ∈ v_intervals v)
  /\ 0 <= v_retries v /\ delays (v_trace v) = (fun k => backoff k) <$> seqZ 0 (v_retries v).

Definition evolves (v w : view) : Prop := rtc edge (v_state v) (v_state w) /\ (consistent v -> consistent w).

#[local] Instance evolves_preorder : PreOrder evolves.
Proof.
  split.
  - intros v. split; [done|done].
  - intros u v w [Hs Hc] [Hs' Hc']. split; [by etrans|auto].
Qed.

Abbreviation fine := (keeps observe evolves).

Create HintDb fine.
Ltac fine_auto := repeat first
  [ match goal with |- keeps _ _ (mbind _ _) => keeps_step end | solve [auto with fine] | keeps_step ].

Lemma delays_app l k : delays (l ++ k) = delays l ++ delays k.
Proof. apply omap_app. Qed.

(** An effect that is no reconnection *)
Lemma kept_emit e : delays [e] = [] -> fine (emit e).
Proof.
  intros He. apply keeps_modify. intros s. split; [done|]. intros (Hs & Hn & Hf & Ht & Hr & Hd). split_and!; try done.
  cbn in *. by rewrite delays_app, Hd, He, app_nil_r.
Qed.
#[local] Hint Extern 1 (fine (emit _)) => (apply kept_emit; reflexivity) : fine.
Lemma kept_set_html sel x : fine (set_html sel x).
Proof. unfold set_html. fine_auto. Qed.
Lemma kept_show sel : fine (show sel).
Proof. unfold show. fine_auto. Qed.
Lemma kept_hide sel : fine (hide sel).
Proof. unfold hide. fine_auto. Qed.
Lemma kept_need {A} (o : option A) : fine (need o).
Proof. unfold need. fine_auto. Qed.
#[local] Hint Resolve kept_set_html kept_show kept_hide kept_need : fine.

Lemma kept_send_message m : fine (send_message m).
Proof. unfold send_message. fine_auto. Qed.
Lemma kept_start_websockets : fine start_websockets.
Proof. unfold start_websockets. fine_auto. Qed.
Lemma kept_create_uri a : fine (create_uri a).
Proof. unfold create_uri. fine_auto. Qed.
Lemma kept_update_display : fine update_display.
Proof. unfold update_display. cbv zeta. fine_auto. Qed.
#[local] Hint Resolve kept_send_message kept_start_websockets kept_create_uri kept_update_display : fine.
Lemma kept_set_ui_state u : fine (set_ui_state u).
Proof. unfold set_ui_state. fine_auto. Qed.
#[local] Hint Resolve kept_set_ui_state : fine.

Lemma kept_set_channel_state n : fine (set_channel_state n).
Proof.
  assert (fine (match n with BEGIN => get_bitcoin_price;; start_websockets | _ => mret tt end)) as Ha
    by (unfold get_bitcoin_price; fine_auto).
  intros s. unfold set_channel_state. rewrite (js_bind_ok js_get _ _ _ _ eq_refl).
  destruct (channel_transition_is_valid (channel_state s) n) eqn:Hv; cbn [negb]; [|reflexivity].
  rewrite (js_bind_ok (js_modify _) _ s tt _ eq_refl). etransitivity; [|apply Ha].
  split; [|done]. apply rtc_once. by exists n.
Qed.
#[local] Hint Resolve kept_set_channel_state : fine.

(** Stopping the timer removes it from those running. *)
Lemma kept_cancel_payments : fine cancel_payments.
Proof.
  intros s. unfold cancel_payments. js_look. destruct (payment_update_timer s) as [id|] eqn:Ht; [|reflexivity].
  split; [done|]. intros (Hs & Hn & Hf & Htm & Hr & Hd). cbn in *. split_and!; try done; cbn.
  - by apply NoDup_filter.
  - rewrite Forall_forall in *. intros i [_ Hi]%list_elem_of_filter. by apply Hf.
  - change (delays (trace s ++ [ClearInterval id]) = (fun k => backoff k) <$> seqZ 0 (num_connection_retries s)).
    by rewrite delays_app, Hd, app_nil_r.
Qed.
#[local] Hint Resolve kept_cancel_payments : fine.

Lemma kept_send_version : fine send_version.
Proof. unfold send_version. fine_auto. Qed.
Lemma kept_exit_with_error_code c : fine (exit_with_error_code c).
Proof. unfold exit_with_error_code. fine_auto. Qed.
#[local] Hint Resolve kept_send_version kept_exit_with_error_code : fine.
Lemma kept_receive_version v : fine (receive_version v).
Proof. unfold receive_version. fine_auto. Qed.
Lemma kept_receive_price p : fine (receive_price p).
Proof. unfold receive_price. cbv zeta. fine_auto. Qed.

(** A new timer *)
Lemma kept_start_timer : fine start_timer.
Proof.
  unfold start_timer. fine_auto. apply keeps_modify. intros s'. split; [done|]. intros (Hs & Hn & Hf & Ht & Hr & Hd). cbn in *. split_and!; try done; cbn.
  - apply NoDup_app. split; [done|]. split; [|apply NoDup_singleton]. intros i Hi ->%list_elem_of_singleton.
    rewrite Forall_forall in Hf. specialize (Hf _ Hi). cbn in Hf. lia.
  - apply Forall_app. split; [eapply Forall_impl; [exact Hf|]; cbn; lia|apply Forall_singleton; lia].
  - intros id [= <-]. apply elem_of_app. right. by apply list_elem_of_singleton.
Qed.

#[local] Hint Resolve kept_start_timer kept_receive_version kept_receive_price : fine.

Lemma kept_receive_payment_ack a : fine (receive_payment_ack a).
Proof. unfold receive_payment_ack. fine_auto. Qed.
Lemma kept_receive_close : fine receive_close.
Proof. unfold receive_close. fine_auto. Qed.
Lemma kept_receive_error : fine receive_error.
Proof. unfold receive_error. fine_auto. Qed.
#[local] Hint Resolve kept_receive_payment_ack kept_receive_close kept_receive_error : fine.

Lemma kept_dispatch m : fine (dispatch m).
Proof. unfold dispatch. fine_auto. Qed.
#[local] Hint Resolve kept_dispatch : fine.
Lemma kept_onmessage m : fine (onmessage m).
Proof. unfold onmessage. fine_auto. Qed.

(** The time that passes is added to both clocks. *)
Lemma kept_update_payment : fine update_payment.
Proof.
  intros s. unfold update_payment. js_look. cbv zeta. set (d := num_sub _ _). js_set. set (s1 := s <| last_payment_update_time := _ |>). js_set. js_set.
  etransitivity; [|apply kept_update_display]. split; [done|]. intros (Hs & Hrest). split; [|exact Hrest].
  cbn in Hs. cbn. by rewrite Hs.
Qed.

(** A reconnection is scheduled and counted. *)
Lemma kept_onclose code : fine (onclose code).
Proof.
  unfold onclose. destruct (code =? POLICY_VIOLATION); [fine_auto|]. intros s. js_set. js_look. unfold emit. js_set. js_set. js_set.
  etransitivity; [|apply kept_set_channel_state]. split; [done|]. intros (Hs & Hn & Hf & Ht & Hr & Hd). split_and!; try done; [cbn in *; lia|].
  change (delays (trace s ++ [SetTimeout (backoff (num_connection_retries s))]) = (fun k => backoff k) <$> seqZ 0 (Z.succ (num_connection_retries s))).
  rewrite delays_app. change (delays (trace s) = (fun k => backoff k) <$> seqZ 0 (num_connection_retries s)) in Hd. rewrite Hd.
  change (0 <= num_connection_retries s) in Hr. rewrite <-Z.add_1_r, seqZ_app, fmap_app by lia. reflexivity.
Qed.
#[local] Hint Resolve kept_onmessage kept_onclose kept_update_payment : fine.

Lemma kept_handler e : fine (handler e).
Proof. unfold handler, ready, set_socket, onopen, start_conversation. fine_auto. Qed.

Lemma mobile_evolves now e s : evolves (observe s) (observe (run now e s)).
Proof.
  assert (observe s = observe (s <| now_ms := now |>)) as -> by reflexivity. apply kept_handler.
Qed.

Lemma mobile_consistent s : reachable s -> consistent (observe s).
Proof.
  intros (now & Hs). assert (consistent (observe (initial now))) as Hi by (split_and!; done || constructor). revert Hs Hi.
  generalize (initial now). intros s0. induction 1 as [s1|s1 s2 s3 Hstep _ IH]; intros Hi; [done|]. apply IH.
  destruct Hstep as [now' e s1 _]. by apply (mobile_evolves now' e s1).
Qed.
End WithLibraries.
End MobileLemmas.

(** ** Lemmas: payments and timers *)
Module PaymentAckLemmas.
Import Mobile MobileLemmas.

(** What the digits of a list of amounts, one after the other, are worth *)
Definition joined (zs : list Z) : Z :=
  fold_left (fun acc z => 10 ^ Z.of_nat (String.length (decimal z)) * acc + z) zs 0.
Definition sum (zs : list Z) : Z := fold_right Z.add 0 zs.

Lemma joined_step acc z : 0 <= acc -> 0 <= z -> 10 * acc + z <= 10 ^ Z.of_nat (String.length (decimal z)) * acc + z.
Proof.
  intros Ha Hz. destruct (decimal_length z Hz) as (Hl & _). set (len := Z.of_nat _) in *.
  assert (10 ^ 1 <= 10 ^ len) by (apply Z.pow_le_mono_r; lia). change (10 ^ 1) with 10 in *. nia.
Qed.

Lemma joined_from zs : Forall (fun z => 0 <= z) zs -> forall acc, 0 <= acc ->
  acc + sum zs <= fold_left (fun acc z => 10 ^ Z.of_nat (String.length (decimal z)) * acc + z) zs acc
  /\ (zs <> [] -> 10 * acc + sum zs <= fold_left (fun acc z => 10 ^ Z.of_nat (String.length (decimal z)) * acc + z) zs acc).
Proof.
  induction 1 as [|z zs Hz Hzs IH]; intros acc Ha; cbn [fold_left].
  { change (sum []) with 0. split; [lia|done]. }
  change (sum (z :: zs)) with (z + sum zs). pose proof (joined_step acc z Ha Hz) as Hs.
  destruct (IH (10 ^ Z.of_nat (String.length (decimal z)) * acc + z)) as [IH1 _]; [lia|]. split; [|intros _]; lia.
Qed.

(** The text that adding the amounts to zero gives *)
Lemma plus_all zs : Forall (fun z => 0 <= z) zs -> forall s acc, s <> EmptyString -> read_digits 0 s = Some acc ->
  exists s', fold_left plus (Some <$> zs) (JStr s) = JStr s' /\ s' <> EmptyString
    /\ read_digits 0 s' = Some (fold_left (fun acc z => 10 ^ Z.of_nat (String.length (decimal z)) * acc + z) zs acc).
Proof.
  induction 1 as [|z zs Hz _ IH]; intros s acc Hs Hr; cbn [fmap list_fmap fold_left]; [by exists s|].
  cbn [plus to_string]. apply IH.
  - by destruct s.
  - unfold decimal_signed. rewrite (proj2 (Z.ltb_ge z 0)) by lia. rewrite read_digits_app, Hr. by apply read_decimal.
Qed.

Lemma plus_all_zero zs : Forall (fun z => 0 <= z) zs -> zs <> [] ->
  to_number (fold_left plus (Some <$> zs) (JInt 0)) = num_of_Z (joined zs).
Proof.
  intros Hzs Hne. destruct Hzs as [|z zs Hz Hzs]; [done|]. cbn [fmap list_fmap fold_left plus to_string].
  unfold decimal_signed. rewrite (proj2 (Z.ltb_ge z 0)) by lia.
  destruct (plus_all zs Hzs (number_to_string 0 ++ decimal z) z) as (s' & -> & Hne' & Hr).
  - done.
  - rewrite read_digits_app. change (read_digits 0 (number_to_string 0)) with (Some 0). cbv iota. rewrite read_decimal by done. f_equal. lia.
  - unfold joined. cbn [fold_left to_number]. rewrite Z.mul_0_r, Z.add_0_l. unfold string_number. destruct s'; [done|]. by rewrite Hr.
Qed.

(** *** Keys as hexadecimal text *)

Lemma key_text b : get_string_from_buffer b = Hex.hexSlice b.
Proof. induction b as [|x b IH]; [done|]. cbn [get_string_from_buffer Hex.hexSlice]. by rewrite IH. Qed.

Section WithLibraries.
Context `{Crypto} `{Ecdsa}.

(** A run: events with the times they happen at *)
Definition run_all (evs : list (Z * event)) (s : Mobile.t) : Mobile.t := fold_left (fun s e => run (fst e) (snd e) s) evs s.

(** The acknowledgements among the events *)
Definition ack_of (e : event) : option (option Z * option Z) :=
  match e with SocketMessage _ (PAYMENT_ACK a) => a | _ => None end.

(** Going through a handler, with what is known of the functions it calls *)
Ltac paid_step :=
  match goal with
  | |- keeps _ _ (mbind _ _) => keeps_step
  | H : keeps _ _ ?m |- keeps _ _ ?m => exact H
  | H : forall x, keeps _ _ (?f x) |- keeps _ _ (?f _) => apply H
  | |- _ => keeps_step
  end.

(** Only an acknowledgement changes what was paid. *)
Lemma handler_paid e s : total_paid (snd (handler e s)) = match ack_of e with Some a => plus (total_paid s) (snd a) | None => total_paid s end.
Proof.
  assert (keeps total_paid eq update_display) as Hd by (unfold update_display, set_html; cbv zeta; repeat keeps_step).
  assert (forall u, keeps total_paid eq (set_ui_state u)) as Hu
    by (intros u; unfold set_ui_state, set_html, hide, show; repeat paid_step).
  assert (forall n, keeps total_paid eq (set_channel_state n)) as Hc
    by (intros n; unfold set_channel_state, get_bitcoin_price, start_websockets, emit; repeat keeps_step).
  assert (forall m, keeps total_paid eq (send_message m)) as Hm by (intros m; unfold send_message, need, emit; repeat keeps_step).
  assert (keeps total_paid eq cancel_payments) as Hcp by (unfold cancel_payments, emit; repeat keeps_step).
  assert (forall c, keeps total_paid eq (exit_with_error_code c)) as He
    by (intros c; unfold exit_with_error_code, hide; repeat paid_step).
  assert (forall a, keeps total_paid eq (create_uri a)) as Huri by (intros a; unfold create_uri, set_html, emit; repeat keeps_step).
  assert (ack_of e = None -> keeps total_paid eq (handler e)) as Hother.
  { intros Hack. destruct e as [|n|n m|n code| |id|price]; cbn [handler].
    1,2,4,5,6,7: unfold ready, set_socket, onopen, start_conversation, send_version, onclose, start_websockets, update_payment, emit; cbv zeta;
      repeat paid_step.
    unfold onmessage. apply keeps_catch; [typeclasses eauto| |intros ?; apply keeps_ret; typeclasses eauto]. destruct m as [v|p|a| |b| |]; cbn [dispatch].
    all: try (unfold receive_version, receive_price, receive_close, receive_error, need; cbv zeta;
      repeat paid_step).
    cbn in Hack. rewrite Hack. unfold receive_payment_ack, need. intros s'. reflexivity. }
  destruct (ack_of e) as [a|] eqn:Hack; [|symmetry; by apply Hother].
  destruct e as [|n|n m|n code| |id|price]; cbn in Hack; try done. destruct m as [v|p|a'| |b| |]; try done. subst a'.
  cbn [handler]. unfold onmessage, js_catch. cbn [dispatch]. unfold receive_payment_ack, need.
  rewrite (js_bind_ok (mret a) _ s a s eq_refl). js_set. js_set. js_set. js_set.
  set (s1 := upd _ _). assert (total_paid s1 = plus (total_paid s) (snd a)) as <- by reflexivity. clearbody s1.
  assert (keeps total_paid eq (start_timer;; js_modify (fun s => s <| received_ack := true |>);; update_display;; set_ui_state CONNECTED)) as Ht.
  { unfold start_timer, emit. repeat paid_step. }
  specialize (Ht s1). destruct ((start_timer;; _) s1) as [[r|err] s2]; cbn in *; by symmetry.
Qed.
End WithLibraries.
End PaymentAckLemmas.

(** ** Theorems *)
Section MobileTheorems.
Import Mobile MobileLemmas PaymentAckLemmas.
Context `{Crypto} `{Ecdsa}.

(** The amounts acknowledged in a run *)
Definition spent_amounts (evs : list (Z * event)) : list (option Z) := omap (fun e => snd <$> ack_of (snd e)) evs.

Lemma run_paid evs : forall s, total_paid (run_all evs s) = fold_left plus (spent_amounts evs) (total_paid s).
Proof.
  induction evs as [|[now e] evs IH]; intros s; [done|]. change (run_all ((now, e) :: evs) s) with (run_all evs (run now e s)).
  rewrite IH. unfold run. rewrite handler_paid. change (total_paid (s <| now_ms := now |>)) with (total_paid s).
  unfold spent_amounts. cbn [omap list_omap snd]. by destruct (ack_of e).
Qed.

(** C35: whatever happens on the page, the total paid after the acknowledgements of amounts [zs] is their
    decimal digits one after the other, not their sum: it is right for one payment, and from the
    second on it exceeds the sum by nine times the first payment or more. *)
Theorem payments_concatenated now evs zs :
  spent_amounts evs = Some <$> zs -> Forall (fun z => 0 <= z) zs -> zs <> [] ->
  let paid := to_number (total_paid (run_all evs (initial now))) in
  paid = num_of_Z (joined zs) /\ (forall z, zs = [z] -> paid = num_of_Z z)
  /\ (forall a b rest, zs = a :: b :: rest -> sum zs + 9 * a <= joined zs).
Proof.
  intros Hevs Hzs Hne paid. unfold paid. rewrite run_paid, Hevs. change (total_paid (initial now)) with (JInt 0).
  rewrite (plus_all_zero zs Hzs Hne). split; [done|]. split.
  - intros z ->. unfold joined. cbn [fold_left]. f_equal. lia.
  - intros a b rest ->. apply Forall_cons in Hzs as [Ha Hzs]. unfold joined. cbn [fold_left].
    rewrite Z.mul_0_r, Z.add_0_l. destruct (joined_from (b :: rest) Hzs a Ha) as [_ Hj]. specialize (Hj ltac:(done)).
    cbn [fold_left] in Hj. change (sum (a :: b :: rest)) with (a + sum (b :: rest)). lia.
Qed.

(** C36: in every reachable state of the mobile page both clocks agree, no timer is made twice, the one the
    page knows is running, and the n-th reconnection was scheduled [1000 * 2^n] milliseconds ahead:
    nothing ever resets the count of retries, however often the connection came back. *)
Theorem mobile_reachable s : reachable s ->
  time_spent s = total_time_spent s /\ NoDup (intervals s)
  /\ (forall id, payment_update_timer s = Some id -> id ∈ intervals s)
  /\ delays (trace s) = (fun k => num_mul (num_of_Z 1000) (Math_pow2 k)) <$> seqZ 0 (num_connection_retries s).
Proof. intros (Hs & Hn & _ & Ht & _ & Hd)%mobile_consistent. by split_and!. Qed.

(** whatever event occurs, the mobile page's channel state moves only along the edges of its
    [channel_transition_is_valid]. *)
Theorem mobile_refines_edges now e s : rtc edge (channel_state s) (channel_state (run now e s)).
Proof. destruct (mobile_evolves now e s) as [He _]. exact He. Qed.

(** What an acknowledgement leaves *)
Lemma ack_ok a s : exists s', onmessage (PAYMENT_ACK (Some a)) s = (Ok tt, s')
  /\ intervals s' = intervals s ++ [next_timer s] /\ payment_update_timer s' = Some (next_timer s) /\ next_timer s' = S (next_timer s)
  /\ ui_state s' = Some CONNECTED /\ channel_state s' = channel_state s.
Proof.
  unfold onmessage, js_catch. cbn [dispatch]. unfold receive_payment_ack, need. rewrite (js_bind_ok (mret a) _ s a s eq_refl).
  js_set. js_set. js_set. js_set. set (s1 := upd _ _).
  assert (intervals s1 = intervals s /\ next_timer s1 = next_timer s /\ channel_state s1 = channel_state s) as (<- & <- & <-) by done. clearbody s1.
  unfold start_timer. rewrite (js_bind_ok _ _ s1 tt (s1 <| trace ::= (fun l => l ++ [SetInterval (next_timer s1)]) |>
    <| intervals ::= (fun l => l ++ [next_timer s1]) |> <| payment_update_timer := Some (next_timer s1) |> <| next_timer ::= S |>) eq_refl).
  eexists. split; [reflexivity|]. by repeat split.
Qed.

Lemma acks_ok (acks : list (Z * (option Z * option Z))) : forall n s, let evs : list (Z * event) := (fun p => (fst p, SocketMessage n (PAYMENT_ACK (Some (snd p))))) <$> acks in
  intervals (run_all evs s) = intervals s ++ seq (next_timer s) (List.length acks)
  /\ next_timer (run_all evs s) = (next_timer s + List.length acks)%nat
  /\ (acks <> [] -> payment_update_timer (run_all evs s) = Some (next_timer s + List.length acks - 1)%nat).
Proof.
  induction acks as [|[now a] acks IH]; intros n s evs.
  { unfold evs, run_all. cbn. rewrite app_nil_r, Nat.add_0_r. done. }
  change (run_all evs s) with (run_all ((fun p => (fst p, SocketMessage n (PAYMENT_ACK (Some (snd p))))) <$> acks)
    (run now (SocketMessage n (PAYMENT_ACK (Some a))) s)).
  destruct (ack_ok a (s <| now_ms := now |>)) as (s' & Hs' & Hi & Ht & Hn & _).
  assert (run now (SocketMessage n (PAYMENT_ACK (Some a))) s = s') as -> by (unfold run; cbn [handler]; by rewrite Hs').
  destruct (IH n s') as (Hi' & Hn' & Ht'). change (intervals (s <| now_ms := now |>)) with (intervals s) in Hi.
  change (next_timer (s <| now_ms := now |>)) with (next_timer s) in Hi, Ht, Hn.
  rewrite Hi', Hn', Hi, Hn. cbn [List.length seq]. split; [by rewrite <-app_assoc|]. split; [lia|]. intros _.
  destruct acks as [|p acks]; [unfold run_all; cbn; rewrite Ht; f_equal; lia|]. rewrite Ht' by done. rewrite Hn. cbn [List.length]. f_equal. lia.
Qed.

(** every acknowledgement starts a timer and a close stops the last one only: after [n] payments and
    a close from the router, the other [n - 1] timers run on, and each time one of them fires the
    page counts the time that passed as spent. *)
Theorem timers_pile_up s n (acks : list (Z * (option Z * option Z))) now : reachable s -> acks <> [] ->
  let evs : list (Z * event) := (fun p => (fst p, SocketMessage n (PAYMENT_ACK (Some (snd p))))) <$> acks in
  let s' := run now (SocketMessage n SERVER_CLOSE) (run_all evs s) in
  channel_state s' = Some RECEIVED_CLOSE /\ ui_state s' = Some FUNDS_DEPLETED /\ payment_update_timer s' = None
  /\ intervals s' = intervals s ++ seq (next_timer s) (List.length acks - 1)
  /\ forall id later, id ∈ intervals s' -> enabled (Interval id) s' = true
     /\ time_spent (run later (Interval id) s')
        = num_add (time_spent s') (num_sub (num_div (num_of_Z later) (num_of_Z 1000)) (last_payment_update_time s')).
Proof.
  intros Hs Hne evs s'. destruct (mobile_consistent s Hs) as (_ & _ & Hf & _).
  change (Forall (fun i => i < next_timer s)%nat (intervals s)) in Hf.
  destruct (acks_ok acks n s) as (Hi & _ & Ht). fold evs in Hi, Ht. specialize (Ht Hne). unfold s'. generalize (run_all evs s) Hi Ht. clear s'.
  intros s1 Hi1 Ht1. set (s2 := s1 <| now_ms := now |>).
  assert (exists s', onmessage SERVER_CLOSE s2 = (Ok tt, s') /\ channel_state s' = Some RECEIVED_CLOSE /\ ui_state s' = Some FUNDS_DEPLETED
    /\ payment_update_timer s' = None /\ intervals s' = filter (fun i => i <> (next_timer s + List.length acks - 1)%nat) (intervals s1)) as (s' & Hs' & Hc & Hu & Hp & Hint).
  { unfold onmessage, js_catch. cbn [dispatch]. unfold receive_close. set (s3 := snd (set_ui_state FUNDS_DEPLETED s2)).
    assert (set_ui_state FUNDS_DEPLETED s2 = (Ok tt, s3)) as He by reflexivity. rewrite (js_bind_ok _ _ _ _ _ He).
    assert (set_channel_state RECEIVED_CLOSE s3 = (Ok tt, s3 <| channel_state := Some RECEIVED_CLOSE |>)) as Hsc.
    { unfold set_channel_state. js_look. assert (channel_transition_is_valid (channel_state s3) RECEIVED_CLOSE = true) as ->.
      { by destruct (channel_state s3) as [[]|]. } reflexivity. }
    rewrite (js_bind_ok _ _ _ _ _ Hsc). unfold cancel_payments. js_look.
    change (payment_update_timer (s3 <| channel_state := Some RECEIVED_CLOSE |>)) with (payment_update_timer s1). rewrite Ht1.
    eexists. split; [reflexivity|]. by repeat split. }
  assert (run now (SocketMessage n SERVER_CLOSE) s1 = s') as -> by (unfold run; cbn [handler]; fold s2; by rewrite Hs').
  split; [done|]. split; [done|]. split; [done|]. split.
  - rewrite Hint, Hi1, filter_app. f_equal.
    + apply list_filter_all. rewrite Forall_forall in Hf. intros i Hin. specialize (Hf i Hin). cbn in Hf.
      assert (1 <= List.length acks)%nat by (destruct acks; [done|cbn; lia]). lia.
    + destruct acks as [|p acks]; [done|]. cbn [List.length]. rewrite seq_S, filter_app, filter_cons_False, filter_nil, app_nil_r by (cbn; lia).
      replace (S (List.length acks) - 1)%nat with (List.length acks) by lia. apply list_filter_all. intros i Hin%elem_of_seq. lia.
  - intros id later Hid. split; [by apply bool_decide_eq_true|]. reflexivity.
Qed.

Lemma run_all_snoc evs p s : run_all (evs ++ [p]) s = run (fst p) (snd p) (run_all evs s).
Proof. apply fold_left_app. Qed.

Lemma run_message now n m s : run now (SocketMessage n m) s = snd (onmessage m (s <| now_ms := now |>)).
Proof. done. Qed.

(** The page before the price *)
Lemma handshake_ok now t1 t2 :
  let s := run_all [(now, Ready); (t1, SocketOpen 0); (t2, SocketMessage 0 (SERVER_VERSION (Some (1, 2))))] (initial now) in
  channel_state s = Some RECEIVED_VERSION /\ trace s = [GetTicker; OpenSocket; Send (CLIENT_VERSION 1 2 None)].
Proof. split; vm_compute; reflexivity. Qed.

(** What a price leaves *)
Lemma price_ok price key s : PublicKey_isValid key = true -> bytes_ok key -> 0 <= price < 2 ^ 53 -> channel_state s = Some RECEIVED_VERSION ->
  let a := Consumer.key_address key network_name in
  exists s', onmessage (PRICE (Some (price, key))) s = (Ok tt, s') /\ channel_state s' = Some RECEIVED_PRICE /\ server_key s' = Some key
    /\ server_address s' = Some a /\ html s' !! "#uri_string" = Some [Addr a] /\ price_per_second s' = num_of_Z price
    /\ trace s' = trace s ++ [QrCode a; Popover a].
Proof.
  intros Hkey Hok Hprice Hc a. unfold onmessage, js_catch. cbn [dispatch]. unfold receive_price, need.
  rewrite (js_bind_ok (mret (price, key)) _ s (price, key) s eq_refl). js_set. js_look.
  set (s1 := s <| price_per_second := _ |>). change (price_per_second s1) with (num_of_Z price). rewrite num_lt_safe by (unfold safe; lia).
  rewrite (proj2 (Z.ltb_ge price 0)) by lia. cbn [snd]. rewrite key_text, Hex.hex_roundtrip by done. rewrite (js_lift_ok _ _ _ _ eq_refl). cbv zeta. fold a. rewrite Hkey, js_guard_ok. js_set. js_set.
  set (s2 := upd _ _). set (s3 := snd (create_uri a s2)). assert (create_uri a s2 = (Ok tt, s3)) as Hu by reflexivity.
  rewrite (js_bind_ok _ _ _ _ _ Hu). unfold set_channel_state. js_look. change (channel_state s3) with (channel_state s). rewrite Hc.
  eexists. split; [reflexivity|]. do 3 (split; [done|]). split; [|split; [done|]].
  - change (<["#qr_wrapper":=[Str "<a id=qr_link href="; Uri a; Str "></a>"]]> (<["#uri_string":=[Addr a]]> (html s)) !! "#uri_string" = Some [Addr a]).
    by rewrite lookup_insert_ne, lookup_insert_eq by done.
  - change ((trace s ++ [QrCode a]) ++ [Popover a] = trace s ++ [QrCode a; Popover a]). by rewrite <-app_assoc.
Qed.

Lemma price_run now n price key s : PublicKey_isValid key = true -> bytes_ok key -> 0 <= price < 2 ^ 53 -> channel_state s = Some RECEIVED_VERSION ->
  let a := Consumer.key_address key network_name in
  let s' := run now (SocketMessage n (PRICE (Some (price, key)))) s in
  channel_state s' = Some RECEIVED_PRICE /\ server_key s' = Some key
    /\ server_address s' = Some a /\ html s' !! "#uri_string" = Some [Addr a] /\ price_per_second s' = num_of_Z price
    /\ trace s' = trace s ++ [QrCode a; Popover a].
Proof.
  intros Hkey Hok Hprice Hc a s'. unfold s'. rewrite run_message. set (s4 := s <| now_ms := now |>).
  destruct (price_ok price key s4 Hkey Hok Hprice Hc) as (s5 & -> & Hrest). exact Hrest.
Qed.

(** the opening of the mobile page: loaded, connected, and told a version and a price by the router,
    it has announced its own version, shows the address of the router's key to pay to, and waits
    for payments. *)
Theorem mobile_opens now t1 t2 t3 price key :
  PublicKey_isValid key = true -> bytes_ok key -> 0 <= price < 2 ^ 53 ->
  let a := Consumer.key_address key network_name in
  let s := run_all [(now, Ready); (t1, SocketOpen 0); (t2, SocketMessage 0 (SERVER_VERSION (Some (1, 2))));
    (t3, SocketMessage 0 (PRICE (Some (price, key))))] (initial now) in
  channel_state s = Some RECEIVED_PRICE /\ server_key s = Some key /\ server_address s = Some a
  /\ html s !! "#uri_string" = Some [Addr a] /\ price_per_second s = num_of_Z price
  /\ trace s = [GetTicker; OpenSocket; Send (CLIENT_VERSION 1 2 None); QrCode a; Popover a].
Proof.
  intros Hkey Hok Hprice a s. destruct (handshake_ok now t1 t2) as (Hc & Htr). unfold s.
  rewrite (run_all_snoc [_; _; _] (_, _) (initial now) : run_all [_; _; _; _] _ = _).
  destruct (price_run t3 0 price key _ Hkey Hok Hprice Hc) as (H1' & H2' & H3' & H4' & H5' & H6').
  do 5 (split; [assumption|]). rewrite Htr in H6'. exact H6'.
Qed.
End MobileTheorems.

(** ** Witnesses *)
Section MobileWitnesses.
Import Mobile MobileLemmas PaymentAckLemmas.
#[local] Existing Instance demo_crypto.

(** Two payments of a hundred satoshis count as [100100]. *)
Definition two_acks : list (Z * event) :=
  [(0, Ready); (0, SocketOpen 0); (1000, SocketMessage 0 (PAYMENT_ACK (Some (Some 100, Some 100))));
   (2000, Interval 1); (3000, SocketMessage 0 (PAYMENT_ACK (Some (Some 100, Some 100))))].

Lemma payments_concatenated_witness : to_number (total_paid (run_all two_acks (initial 0))) = num_of_Z 100100 /\ sum [100; 100] = 200.
Proof.
  destruct (payments_concatenated 0 two_acks [100; 100]) as (Hp & _).
  - reflexivity.
  - apply (bool_decide_unpack _). vm_compute. exact I.
  - discriminate.
  - split; [rewrite Hp|]; vm_compute; reflexivity.
Defined.

Definition closed_page : Mobile.t := run 5 (SocketClose 0 1006) (run 0 Ready (initial 0)).

Lemma closed_page_reachable : reachable closed_page.
Proof.
  exists 0. apply (rtc_l _ _ (run 0 Ready (initial 0))); [exact (step_event 0 Ready (initial 0) eq_refl)|]. apply rtc_once.
  assert (enabled (SocketClose 0 1006) (run 0 Ready (initial 0)) = true) as He by (vm_compute; reflexivity).
  exact (step_event 5 (SocketClose 0 1006) _ He).
Qed.

Lemma mobile_reachable_witness : delays (trace closed_page) = [num_of_Z 1000] /\ time_spent closed_page = total_time_spent closed_page.
Proof.
  destruct (mobile_reachable closed_page closed_page_reachable) as (Ht & _ & _ & Hd).
  split; [rewrite Hd; vm_compute; reflexivity|exact Ht].
Defined.

Lemma timers_pile_up_witness :
  let s' := run 9000 (SocketMessage 0 SERVER_CLOSE)
    (run_all [(1000, SocketMessage 0 (PAYMENT_ACK (Some (None, Some 5)))); (2000, SocketMessage 0 (PAYMENT_ACK (Some (None, Some 5))))] closed_page) in
  intervals s' = intervals closed_page ++ seq (next_timer closed_page) 1 /\ channel_state s' = Some RECEIVED_CLOSE.
Proof.
  destruct (timers_pile_up closed_page 0 [(1000, (None, Some 5)); (2000, (None, Some 5))] 9000 closed_page_reachable) as (Hc & _ & _ & Hi & _).
  - discriminate.
  - split; [exact Hi|exact Hc].
Defined.

Lemma mobile_opens_witness : server_address (run_all [(0, Ready); (1, SocketOpen 0); (2, SocketMessage 0 (SERVER_VERSION (Some (1, 2))));
    (3, SocketMessage 0 (PRICE (Some (7, 2 :: repeat 9 32))))] (initial 0)) = Some (Consumer.key_address (2 :: repeat 9 32) testnet).
Proof.
  destruct (mobile_opens 0 1 2 3 7 (2 :: repeat 9 32)) as (_ & _ & Ha & _).
  - reflexivity.
  - apply (bool_decide_unpack _). vm_compute. exact I.
  - lia.
  - exact Ha.
Defined.
End MobileWitnesses.
