(* ===== verification/Dashboard.v ===== *)
(** * The pages of the router software

    Models the two pages the router serves to its owner.  [Client] is
    [src/Sources/JavaClient/resources/network/bitmesh/WebServer/Client/js/bitmesh.js], the page of a
    client: it finds the gateway, asks for its price, shows the address to fund and the balance,
    connects, disconnects and sends money, by requests whose answers come in any order.  [Server] is
    [.../WebServer/Server/js/bitmesh.js], the settings page of a router.

    The variables of the page, the parts of the document it reads back, the requests that wait for
    an answer and a trace of what leaves the page are one record; an event is an answer, a click or a
    message.  Console output, scrolling and the drawing of the QR code are left out. *)
From S2P Require Import Prelude JsNumber JsValue Encoding Script Base58 Keys.
From Stdlib Require Import Ascii String.
Local Open Scope Z_scope.
Local Open Scope js_scope.

(** ** The client's page *)
Module ClientPage.

(** The requests of the page *)
Inductive request :=
  | GetGateway
  | GetCost (url : string)
  | GetAddress
  | PostConnect (price_scalar : jsval)
  | PostDisconnect
  | PostSend (to_address : string).

(** Their answers: failed, or the data decoded *)
Inductive response :=
  | Failed
  | GatewayIs (gateway : string)
  | CostIs (price_scalar : jsval) (meter_unit : string)
  | AddressIs (address : string) (balance : jsval)
  | Done
  | SendResult (status reason : string).

(** The messages of the websocket, decoded *)
Inductive message :=
  | KEEP_ALIVE
  | ADDRESS_UPDATE (address : string)
  | BALANCE_UPDATE (balance : jsval)
  | PAYMENT_UPDATE (amount : jsval)
  | CHANNEL_CLOSED
  | CHANNEL_OPENED
  | OTHER_MESSAGE.

Inductive effect :=
  | Ajax (r : request)
  | OpenSocket (url : string)
  | WsSend (text : string)
  | QrCode (address : Address) (amount : option number).

Record t := mk {
  gateway : option string;
  cost : option jsval;
  (** the document: the classes of [#connect], the texts, what is shown, the log *)
  connect_classes : gset string;
  connect_disabled : bool;
  html : gmap string string;
  shown : gmap string bool;
  updates : list string;
  (** the browser *)
  clock : Z * Z * Z;
  pending : gmap nat request;
  next_request : nat;
  trace : list effect;
}.
#[global] Instance eta_client_page : Eta t := fun s =>
  mk (gateway s) (cost s) (connect_classes s) (connect_disabled s) (html s) (shown s) (updates s) (clock s) (pending s)
     (next_request s) (trace s).

Abbreviation M := (js t).

(** The document as served *)
Definition initial : t :=
  mk None None {["btn"; "btn-primary"; "btn-success"]} false {["#connect_button_text" := " Connect"%string]} ∅ [] (0, 0, 0) ∅ 0 [].

Section WithCrypto.
Context `{Crypto}.

(** *** The browser *)

Definition emit (e : effect) : M unit := js_modify (fun s => s <| trace ::= (fun l => l ++ [e]) |>).
Definition set_html (sel text : string) : M unit := js_modify (fun s => s <| html ::= <[sel := text]> |>).
Definition empty (sel : string) : M unit := set_html sel "".
Definition show (sel : string) : M unit := js_modify (fun s => s <| shown ::= <[sel := true]> |>).
Definition hide (sel : string) : M unit := js_modify (fun s => s <| shown ::= <[sel := false]> |>).
Definition addClass (c : string) : M unit := js_modify (fun s => s <| connect_classes ::= (fun cs => {[c]} ∪ cs) |>).
Definition removeClass (c : string) : M unit := js_modify (fun s => s <| connect_classes ::= (fun cs => cs ∖ {[c]}) |>).
Definition ajax (r : request) : M unit :=
  emit (Ajax r);;
  js_modify (fun s => s <| pending ::= <[next_request s := r]> |>);;
  js_modify (fun s => s <| next_request ::= S |>).

(** *** The log *)

Definition addZero (i : Z) : string := if i <? 10 then ("0" ++ decimal i)%string else decimal i.
Definition construct_date (c : Z * Z * Z) : string :=
  let '(h, m, sec) := c in (addZero h ++ ":" ++ addZero m ++ ":" ++ addZero sec)%string.
Definition event_update (update_str : string) : M unit :=
  s ← js_get;
  let date := construct_date (clock s) in
  let update := ("<p>" ++ date ++ ") " ++ update_str ++ "</p>")%string in
  js_modify (fun s => s <| updates ::= (fun l => l ++ [update]) |>).

(** *** The page's functions *)

Definition test : bool := true.
Definition client_port : string := if test then "8081" else "8080".
Definition gateway_port : string := "8080".

Definition hide_elements : M unit :=
  hide "#to_address_dropdown";; hide "#send_status";; hide "#refresh_address_input".

Definition update_balance (balance : jsval) : M unit :=
  set_html "#balance" ("Balance: " ++ to_string balance ++ " satoshi.")%string.

(** [uri.toString()] has an amount unless it is zero or not a number. *)
Definition uri_amount (amount : number) : option number :=
  if num_eq amount (num_of_Z 0) || negb (num_eq amount amount) then None else Some amount.

(** [create_qrcode]: [new URI] throws on an address that is none. *)
Definition create_qrcode (address : string) : M unit :=
  js_lift (guard_or TypeError (AddressText.isValid (AddressText.DString address) None None));;
  a ← js_lift (AddressText.new (AddressText.DString address) None None);
  s ← js_get;
  let amount := num_mul (num_of_Z 101) (match cost s with Some c => to_number c | None => num_nan end) in
  emit (QrCode a (uri_amount amount));;
  set_html "#address" address.

Definition create_uri : M unit := ajax GetAddress.
Definition create_uri_success (address : string) (balance : jsval) : M unit :=
  create_qrcode address;;
  update_balance balance.

Definition get_price : M unit :=
  event_update "Checking gateway for BitMesh";;
  s ← js_get;
  let g := match gateway s with Some g => g | None => "undefined"%string end in
  ajax (GetCost ("http://" ++ g ++ ":" ++ gateway_port ++ "/cost")%string).
Definition get_price_success (price_scalar : jsval) (meter_unit : string) : M unit :=
  event_update "Gateway is a BitMesh node.";;
  set_html "#price" (to_string price_scalar ++ " satoshi ")%string;;
  js_modify (fun s => s <| cost := Some price_scalar |>);;
  (if bool_decide (meter_unit = "time_unit"%string) then set_html "#unit" "second." else mret tt);;
  event_update ("Price is " ++ to_string price_scalar ++ " satoshi.")%string.
Definition get_price_error : M unit :=
  event_update "Gateway not a BitMesh node.";;
  removeClass "btn-success";;
  addClass "btn-danger";;
  js_modify (fun s => s <| connect_disabled := true |>).

Definition get_gateway : M unit := ajax GetGateway.
(** The answer, and then what [done] adds *)
Definition get_gateway_success (g : string) : M unit :=
  js_modify (fun s => s <| gateway := Some (if test then "127.0.0.1"%string else g) |>);;
  s ← js_get;
  event_update ("Found gateway: " ++ default "" (gateway s))%string;;
  get_price.
Definition get_gateway_error : M unit :=
  js_modify (fun s => s <| gateway := Some (if test then "127.0.0.1"%string else "10.0.0.1"%string) |>);;
  s ← js_get;
  event_update ("Could not find gateway, using default: " ++ default "" (gateway s))%string.

(** The handler of [$(document).ready] *)
Definition ready : M unit :=
  hide_elements;;
  event_update "Initiating BitMesh...";;
  get_gateway;;
  create_uri;;
  emit (OpenSocket ("ws://127.0.0.1:" ++ client_port)%string).

(** *** Clicks *)

Definition slider_moved (val : string) : M unit := set_html "#price_per_unit_display" val.

Definition refresh_clicked : M unit :=
  hide "#refresh_address_input";;
  hide "#send_status";;
  empty "#send_status";;
  show "#send_input_field".

Definition send_clicked (to_address : string) : M unit :=
  hide "#send_input_field";;
  set_html "#send_status" "Transaction Pending...";;
  show "#send_status";;
  ajax (PostSend to_address).
Definition send_success (status reason : string) : M unit :=
  empty "#send_status";;
  (if bool_decide (status = "ok"%string) then set_html "#send_status" ("<small><b>Tx: </b>" ++ reason ++ "</small>")%string
   else set_html "#send_status" reason);;
  show "#refresh_address_input".

Definition connect_clicked : M unit :=
  s ← js_get;
  let price_scalar := parseInt (JStr (default "" (html s !! "#price"))) in
  if bool_decide ("btn-success"%string ∈ connect_classes s) then ajax (PostConnect price_scalar)
  else ajax PostDisconnect.
Definition connect_success : M unit :=
  removeClass "btn-success";;
  addClass "btn-warning";;
  empty "#connect_button_text";;
  set_html "#connect_button_text" " Disconnect".
Definition disconnect_success : M unit :=
  removeClass "btn-warning";;
  addClass "btn-success";;
  empty "#connect_button_text";;
  set_html "#connect_button_text" " Connect".

(** [slideToggle] *)
Definition send_drop_clicked : M unit :=
  js_modify (fun s => s <| shown ::= (fun m => <["#to_address_dropdown" := negb (default true (m !! "#to_address_dropdown"))]> m) |>).

(** *** The websocket *)

Definition onmessage (m : message) : M unit :=
  match m with
  | KEEP_ALIVE => emit (WsSend "KEEP_ALIVE")
  | ADDRESS_UPDATE address => create_qrcode address;; event_update ("New address update " ++ address)%string
  | BALANCE_UPDATE balance =>
      update_balance balance;; event_update ("Balance update, now: " ++ to_string balance ++ " satoshi.")%string
  | PAYMENT_UPDATE amount => event_update ("Just payed " ++ to_string amount ++ "satoshi.")%string
  | CHANNEL_CLOSED | CHANNEL_OPENED | OTHER_MESSAGE => mret tt
  end.

(** The handler names its argument [message] and reads [evt]. *)
Definition onerror : M unit := js_throw (ErrorMessage "evt is not defined").

(** *** Events *)

(** What a request does with its answer *)
Definition answered (r : request) (a : response) : M unit :=
  match r, a with
  | GetGateway, GatewayIs g => get_gateway_success g
  | GetGateway, _ => get_gateway_error
  | GetCost _, CostIs p u => get_price_success p u
  | GetCost _, _ => get_price_error
  | GetAddress, AddressIs address balance => create_uri_success address balance
  | GetAddress, _ => mret tt
  | PostConnect _, Failed => mret tt
  | PostConnect _, _ => connect_success
  | PostDisconnect, Failed => mret tt
  | PostDisconnect, _ => disconnect_success
  | PostSend _, SendResult status reason => send_success status reason
  | PostSend _, _ => mret tt
  end.

Inductive event :=
  | Answer (id : nat) (a : response)
  | ConnectClick
  | SendClick (to_address : string)
  | RefreshClick
  | DropClick
  | SliderMoved (val : string)
  | SocketMessage (m : message)
  | SocketError.

Definition handler (e : event) : M unit :=
  match e with
  | Answer id a =>
      s ← js_get;
      match pending s !! id with
      | Some r => js_modify (fun s => s <| pending ::= delete id |>);; answered r a
      | None => mret tt
      end
  | ConnectClick => connect_clicked
  | SendClick a => send_clicked a
  | RefreshClick => refresh_clicked
  | DropClick => send_drop_clicked
  | SliderMoved v => slider_moved v
  | SocketMessage m => onmessage m
  | SocketError => onerror
  end.

(** An event at a time of day; an error that escapes the handler ends it. *)
Definition run (s : t) (e : (Z * Z * Z) * event) : t := snd (handler (snd e) (s <| clock := fst e |>)).

(** The page once it is ready, and a run of events on it *)
Definition loaded (c : Z * Z * Z) : t := snd (ready (initial <| clock := c |>)).
Definition run_all (es : list ((Z * Z * Z) * event)) (s : t) : t := fold_left run es s.
Definition reachable (s : t) : Prop := exists c es, s = run_all es (loaded c).

End WithCrypto.
End ClientPage.

(** ** The router's settings page *)
Module ServerPage.

Inductive page := setup | data | about | contact.
#[export] Instance page_eq_dec : EqDecision page.
Proof. solve_decision. Defined.
Definition pages : list page := [setup; data; about; contact].

Record t := mk { visible : page -> bool; price_input : string; slider : option jsval }.
#[global] Instance eta_server_page : Eta t := fun s => mk (visible s) (price_input s) (slider s).

Definition set_visible (p : page) (b : bool) (s : t) : t := s <| visible ::= (fun v q => if decide (q = p) then b else v q) |>.

Definition setPageState (p : page) (s : t) : t :=
  set_visible p true (set_visible contact false (set_visible about false (set_visible data false (set_visible setup false s)))).

(** [substring(1)] *)
Definition substring1 (v : string) : string := match v with EmptyString => EmptyString | String _ v => v end.

Definition slide (value : Z) (s : t) : t := s <| price_input := (number_to_string value ++ " BTC")%string |>.
Definition price_changed (value : string) (s : t) : t :=
  s <| price_input := value |> <| slider := Some (parseInt (JStr (substring1 value))) |>.

Inductive event := Slide (value : Z) | PriceChanged (value : string) | MenuClick (p : page).

Definition run (s : t) (e : event) : t :=
  match e with Slide v => slide v s | PriceChanged v => price_changed v s | MenuClick p => setPageState p s end.

(** The page once it is ready *)
Definition loaded : t := setPageState setup (mk (fun _ => true) "0 BTC" None).

End ServerPage.
