(* ===== verification/DashboardSpec.v ===== *)
(** * What the router's pages guarantee

    Theorems about [Dashboard.v], over every sequence of answers, clicks and messages: the
    bookkeeping of the client's page, what it does when the gateway is not found, that the price it
    pays is the price it shows, and the settings page. *)
From S2P Require Import Prelude JsNumber JsValue Encoding Script Base58 Keys KeysSpec Dashboard.
From Stdlib Require Import Ascii String.
Local Open Scope Z_scope.
Local Open Scope js_scope.

(** ** The client's page *)

Module ClientPageLemmas.
Import ClientPage.
Section WithCrypto.
Context `{Crypto}.

(** The requests for a price *)
Definition is_ask (e : effect) : bool := match e with Ajax (GetCost _) => true | _ => false end.
Definition asks (l : list effect) : nat := List.length (List.filter is_ask l).

#[local] Arguments asks : simpl never.

Lemma asks_app l k : asks (l ++ k) = (asks l + asks k)%nat.
Proof. unfold asks. by rewrite List.filter_app, length_app. Qed.

(** What the bookkeeping is about; most of the page does not touch it. *)
Record core_t := Core {
  c_gateway : option string; c_cost : option jsval; c_classes : gset string; c_price : option string; c_text : option string;
  c_pending : gmap nat request; c_next : nat; c_asks : nat; c_disabled : bool;
}.
Definition core (s : ClientPage.t) : core_t :=
  Core (gateway s) (cost s) (connect_classes s) (html s !! "#price") (html s !! "#connect_button_text") (pending s) (next_request s)
       (asks (trace s)) (connect_disabled s).

Lemma core_set_html sel text : sel <> "#price" -> sel <> "#connect_button_text" -> keeps core eq (set_html sel text).
Proof.
  intros H1 H2 s. unfold core, set_html. cbn. by rewrite !lookup_insert_ne by done.
Qed.

Lemma core_emit e : is_ask e = false -> keeps core eq (emit e).
Proof. intros He s. unfold core, emit. cbn. rewrite asks_app. assert (asks [e] = O) as -> by (unfold asks; cbn; by rewrite He). by rewrite Nat.add_0_r. Qed.

Ltac core_auto := repeat first [apply core_set_html; done | apply core_emit; reflexivity | keeps_step].

Lemma core_event_update u : keeps core eq (event_update u).
Proof. unfold event_update. cbv zeta. core_auto. Qed.

Lemma core_create_qrcode a : keeps core eq (create_qrcode a).
Proof. unfold create_qrcode. cbv zeta. core_auto. Qed.

Lemma core_update_balance b : keeps core eq (update_balance b).
Proof. unfold update_balance. core_auto. Qed.

Lemma core_create_uri_success a b : keeps core eq (create_uri_success a b).
Proof. unfold create_uri_success. apply keeps_bind; [typeclasses eauto|apply core_create_qrcode|intros _; apply core_update_balance]. Qed.

Lemma core_onmessage m : keeps core eq (onmessage m).
Proof.
  destruct m; unfold onmessage; core_auto; first [apply core_create_qrcode|apply core_event_update|apply core_update_balance].
Qed.

Lemma core_send_success st r : keeps core eq (send_success st r).
Proof. unfold send_success, empty, show. core_auto. Qed.

Lemma core_refresh : keeps core eq refresh_clicked.
Proof. unfold refresh_clicked, empty, show, hide. core_auto. Qed.

Lemma core_slider v : keeps core eq (slider_moved v).
Proof. unfold slider_moved. core_auto. Qed.

Lemma core_drop : keeps core eq send_drop_clicked.
Proof. unfold send_drop_clicked. core_auto. Qed.

(** What the button is: green and " Connect", or orange and " Disconnect", or, after the price was asked for
    in vain, neither of the two colours, red, and still " Connect". *)
Inductive button (classes : gset string) (text : option string) : Prop :=
  | connects : "btn-success"%string ∈ classes -> "btn-warning"%string ∉ classes -> text = Some " Connect"%string -> button classes text
  | disconnects : "btn-success"%string ∉ classes -> "btn-warning"%string ∈ classes -> text = Some " Disconnect"%string -> button classes text
  | failed : "btn-success"%string ∉ classes -> "btn-warning"%string ∉ classes -> "btn-danger"%string ∈ classes ->
      text = Some " Connect"%string -> button classes text.

(** The bookkeeping of the page *)
Record bookkeeping (c : core_t) : Prop := {
  (** the price in the document is the price that is known *)
  bk_price : c_price c = (fun p => to_string p ++ " satoshi ")%string <$> c_cost c;
  (** a price is known, or asked for, only once the gateway is *)
  bk_gateway : c_cost c <> None \/ (exists id u, c_pending c !! id = Some (GetCost u)) -> c_gateway c = Some "127.0.0.1"%string;
  (** the price is asked for at most once *)
  bk_asks : (match c_pending c !! 0%nat with Some GetGateway => S (c_asks c) | _ => c_asks c end <= 1)%nat;
  (** the gateway is asked for once, by the first request; requests have numbers of their own *)
  bk_first : forall id, c_pending c !! id = Some GetGateway -> id = 0%nat;
  bk_fresh : forall id r, c_pending c !! id = Some r -> (id < c_next c)%nat;
  bk_two : (2 <= c_next c)%nat;
  (** the button is in one of three states; it is marked disabled when it is red *)
  bk_button : button (c_classes c) (c_text c);
  bk_disabled : c_disabled c = bool_decide ("btn-danger"%string ∈ c_classes c);
}.

Lemma kept_core {A} (m : M A) s : keeps core eq m -> bookkeeping (core s) -> bookkeeping (core (snd (m s))).
Proof. intros Hm. by rewrite <-(Hm s). Qed.

(** Posting a request *)
Lemma bk_post r s : match r with GetGateway | GetCost _ => False | _ => True end -> bookkeeping (core s) -> bookkeeping (core (snd (ajax r s))).
Proof.
  intros Hr [H1 H2 H3 H4 H5 H6 H7 H8].
  assert (core (snd (ajax r s)) = Core (gateway s) (cost s) (connect_classes s) (html s !! "#price") (html s !! "#connect_button_text")
    (<[next_request s := r]> (pending s)) (S (next_request s)) (asks (trace s)) (connect_disabled s)) as Hc.
  { unfold core, ajax, emit. js_run. cbn. rewrite asks_app. assert (asks [Ajax r] = O) as -> by (by destruct r). by rewrite Nat.add_0_r. }
  rewrite Hc. constructor; cbn in *; try assumption.
  - intros [?|(id & u & [[? ->]|[? Hl]]%lookup_insert_Some)]; [by apply H2; left|done|apply H2; right; by exists id, u].
  - rewrite lookup_insert_ne by lia. assumption.
  - intros id [[? ->]|[? Hl]]%lookup_insert_Some; [done|by apply H4].
  - intros id r' [[<- ?]|[? Hl%H5]]%lookup_insert_Some; lia.
  - lia.
Qed.

(** Taking an answer *)
Lemma bk_taken id s : bookkeeping (core s) -> bookkeeping (core (s <| pending ::= delete id |>)).
Proof.
  intros [H1 H2 H3 H4 H5 H6 H7 H8].
  constructor; cbn in *; try assumption.
  - intros [?|(id' & u & [? Hl]%lookup_delete_Some)]; [by apply H2; left|apply H2; right; by exists id', u].
  - destruct (decide (id = O)) as [->|]; [rewrite lookup_delete_eq; destruct (pending s !! 0%nat) as [[]|]; lia|]. by rewrite lookup_delete_ne.
  - intros id' [? Hl]%lookup_delete_Some. by apply H4.
  - intros id' r [? Hl]%lookup_delete_Some. by eapply H5.
Qed.

(** The gateway's answer *)
Lemma bk_gateway_success g s : bookkeeping (core s) -> asks (trace s) = O -> pending s !! 0%nat = None ->
  bookkeeping (core (snd (get_gateway_success g s))).
Proof.
  intros [H1 H2 H3 H4 H5 H6 H7 H8] Ha Hp.
  assert (exists url, core (snd (get_gateway_success g s)) = Core (Some "127.0.0.1"%string) (cost s) (connect_classes s) (html s !! "#price") (html s !! "#connect_button_text")
    (<[next_request s := GetCost url]> (pending s)) (S (next_request s)) 1 (connect_disabled s)) as [url Hc].
  { exists ("http://" ++ "127.0.0.1" ++ ":" ++ gateway_port ++ "/cost")%string.
    set (url := ("http://" ++ "127.0.0.1" ++ ":" ++ gateway_port ++ "/cost")%string).
    transitivity (Core (Some "127.0.0.1"%string) (cost s) (connect_classes s) (html s !! "#price") (html s !! "#connect_button_text")
      (<[next_request s := GetCost url]> (pending s)) (S (next_request s)) (asks (trace s ++ [Ajax (GetCost url)])) (connect_disabled s)); [reflexivity|].
    rewrite asks_app, Ha. reflexivity. }
  rewrite Hc. constructor; cbn in *; try assumption.
  - done.
  - rewrite lookup_insert_ne, Hp by lia. lia.
  - intros id [[? ?]|[? Hl]]%lookup_insert_Some; [done|by apply H4].
  - intros id r' [[<- ?]|[? Hl%H5]]%lookup_insert_Some; lia.
  - lia.
Qed.

Lemma bk_gateway_error s : bookkeeping (core s) -> bookkeeping (core (snd (get_gateway_error s))).
Proof.
  intros [H1 H2 H3 H4 H5 H6 H7 H8].
  assert (core (snd (get_gateway_error s)) = Core (Some "127.0.0.1"%string) (cost s) (connect_classes s) (html s !! "#price") (html s !! "#connect_button_text")
    (pending s) (next_request s) (asks (trace s)) (connect_disabled s)) as Hc by reflexivity.
  rewrite Hc. constructor; cbn in *; try assumption. done.
Qed.

(** The price's answer *)
Lemma bk_price_success p u s : bookkeeping (core s) -> gateway s = Some "127.0.0.1"%string -> bookkeeping (core (snd (get_price_success p u s))).
Proof.
  intros [H1 H2 H3 H4 H5 H6 H7 H8] Hg.
  assert (core (snd (get_price_success p u s)) = Core (gateway s) (Some p) (connect_classes s) (Some (to_string p ++ " satoshi ")%string)
    (html s !! "#connect_button_text") (pending s) (next_request s) (asks (trace s)) (connect_disabled s)) as Hc.
  { unfold get_price_success. destruct (bool_decide (u = "time_unit"%string)); unfold core; f_equal.
    all: first [reflexivity|idtac].
    - change (<["#unit" := "second."%string]> (<["#price" := (to_string p ++ " satoshi ")%string]> (html s)) !! "#price" = Some (to_string p ++ " satoshi ")%string).
      by rewrite lookup_insert_ne, lookup_insert_eq by done.
    - change (<["#unit" := "second."%string]> (<["#price" := (to_string p ++ " satoshi ")%string]> (html s)) !! "#connect_button_text" = html s !! "#connect_button_text").
      by rewrite !lookup_insert_ne by done.
    - change (<["#price" := (to_string p ++ " satoshi ")%string]> (html s) !! "#price" = Some (to_string p ++ " satoshi ")%string).
      by rewrite lookup_insert_eq.
    - change (<["#price" := (to_string p ++ " satoshi ")%string]> (html s) !! "#connect_button_text" = html s !! "#connect_button_text").
      by rewrite lookup_insert_ne by done. }
  rewrite Hc. constructor; cbn in *; try assumption; done.
Qed.

Lemma bk_price_error s : bookkeeping (core s) -> bookkeeping (core (snd (get_price_error s))).
Proof.
  intros [H1 H2 H3 H4 H5 H6 H7 H8].
  assert (core (snd (get_price_error s)) = Core (gateway s) (cost s) ({["btn-danger"%string]} ∪ connect_classes s ∖ {["btn-success"%string]}) (html s !! "#price")
    (html s !! "#connect_button_text") (pending s) (next_request s) (asks (trace s)) true) as Hc by reflexivity.
  rewrite Hc. constructor; cbn in *; try assumption.
  - destruct H7 as [? ? Ht|? ? Ht|? ? ? Ht]; [apply failed|apply disconnects|apply failed]; cbn in *; set_solver.
  - symmetry. apply bool_decide_eq_true. set_solver.
Qed.

(** The answers to the button's requests *)
Lemma bk_connect_success s : bookkeeping (core s) -> bookkeeping (core (snd (connect_success s))).
Proof.
  intros [H1 H2 H3 H4 H5 H6 H7 H8].
  assert (core (snd (connect_success s)) = Core (gateway s) (cost s) ({["btn-warning"%string]} ∪ connect_classes s ∖ {["btn-success"%string]}) (html s !! "#price")
    (Some " Disconnect"%string) (pending s) (next_request s) (asks (trace s)) (connect_disabled s)) as Hc.
  { unfold core. f_equal; try reflexivity.
    - change (<["#connect_button_text" := " Disconnect"%string]> (<["#connect_button_text" := ""%string]> (html s)) !! "#price" = html s !! "#price").
      by rewrite !lookup_insert_ne by done.
    - change (<["#connect_button_text" := " Disconnect"%string]> (<["#connect_button_text" := ""%string]> (html s)) !! "#connect_button_text" = Some " Disconnect"%string).
      by rewrite lookup_insert_eq. }
  rewrite Hc. constructor; cbn in *; try assumption; [apply disconnects; cbn; set_solver|]. rewrite H8. apply bool_decide_ext. set_solver.
Qed.

Lemma bk_disconnect_success s : bookkeeping (core s) -> bookkeeping (core (snd (disconnect_success s))).
Proof.
  intros [H1 H2 H3 H4 H5 H6 H7 H8].
  assert (core (snd (disconnect_success s)) = Core (gateway s) (cost s) ({["btn-success"%string]} ∪ connect_classes s ∖ {["btn-warning"%string]}) (html s !! "#price")
    (Some " Connect"%string) (pending s) (next_request s) (asks (trace s)) (connect_disabled s)) as Hc.
  { unfold core. f_equal; try reflexivity.
    - change (<["#connect_button_text" := " Connect"%string]> (<["#connect_button_text" := ""%string]> (html s)) !! "#price" = html s !! "#price").
      by rewrite !lookup_insert_ne by done.
    - change (<["#connect_button_text" := " Connect"%string]> (<["#connect_button_text" := ""%string]> (html s)) !! "#connect_button_text" = Some " Connect"%string).
      by rewrite lookup_insert_eq. }
  rewrite Hc. constructor; cbn in *; try assumption; [apply connects; cbn; set_solver|]. rewrite H8. apply bool_decide_ext. set_solver.
Qed.

Lemma bk_answered id r a s : pending s !! id = Some r -> bookkeeping (core s) ->
  bookkeeping (core (snd (answered r a (s <| pending ::= delete id |>)))).
Proof.
  intros Hr Hs. set (s1 := s <| pending ::= delete id |>). assert (bookkeeping (core s1)) as H1 by (by apply bk_taken).
  destruct r as [|url| | | |]; cbn [answered].
  - pose proof (bk_first _ Hs _ Hr) as ->. pose proof (bk_asks _ Hs) as Ha. cbn [core c_pending c_asks] in Ha. rewrite Hr in Ha.
    destruct a; [by apply bk_gateway_error| |by apply bk_gateway_error..].
    apply bk_gateway_success; [done|change (trace s1) with (trace s); lia|apply lookup_delete_eq].
  - assert (gateway s1 = Some "127.0.0.1"%string) as Hg by (apply (bk_gateway _ Hs); right; by exists id, url).
    destruct a; [by apply bk_price_error|by apply bk_price_error| |by apply bk_price_error..]. by apply bk_price_success.
  - destruct a; [done|done|done| |done|done]. apply kept_core; [apply core_create_uri_success|done].
  - destruct a; [done|by apply bk_connect_success..].
  - destruct a; [done|by apply bk_disconnect_success..].
  - destruct a; [done|done|done|done|done|]. apply kept_core; [apply core_send_success|done].
Qed.

Lemma bk_run s e : bookkeeping (core s) -> bookkeeping (core (run s e)).
Proof.
  intros Hs. destruct e as [c e]. unfold run. cbn [fst snd]. set (s1 := s <| clock := c |>).
  assert (bookkeeping (core s1)) as H1 by exact Hs. clearbody s1. clear s Hs. destruct e as [id a| |to_address| | |v|m|]; cbn [handler].
  - js_look. destruct (pending s1 !! id) as [r|] eqn:Hr; [|done]. js_set. by apply bk_answered.
  - unfold connect_clicked. js_look. cbv zeta. case_bool_decide; by apply bk_post.
  - unfold send_clicked. set (s2 := snd (hide "#send_input_field" s1)).
    set (s3 := snd (set_html "#send_status" "Transaction Pending..." s2)). set (s4 := snd (show "#send_status" s3)).
    change (bookkeeping (core (snd (ajax (PostSend to_address) s4)))). apply bk_post; [done|].
    apply (kept_core (show "#send_status")); [unfold show; core_auto|]. apply (kept_core (set_html _ _)); [core_auto|].
    apply (kept_core (hide "#send_input_field")); [unfold hide; core_auto|done].
  - apply kept_core; [apply core_refresh|done].
  - apply kept_core; [apply core_drop|done].
  - apply kept_core; [apply core_slider|done].
  - apply kept_core; [apply core_onmessage|done].
  - done.
Qed.

Lemma bk_loaded c : bookkeeping (core (loaded c)).
Proof.
  assert (core (loaded c) = Core None None {["btn"; "btn-primary"; "btn-success"]} None (Some " Connect"%string)
    {[1%nat := GetAddress; 0%nat := GetGateway]} 2 0 false) as -> by reflexivity.
  constructor; cbn.
  - done.
  - intros [?|(id & u & [[? ?]|[? [? ?]%lookup_singleton_Some]]%lookup_insert_Some)]; done.
  - apply Nat.leb_le. by vm_compute.
  - intros id [[? ?]|[? [? ?]%lookup_singleton_Some]]%lookup_insert_Some; by subst.
  - intros id r [[? ?]|[? [? ?]%lookup_singleton_Some]]%lookup_insert_Some; subst; lia.
  - lia.
  - apply connects; [apply (bool_decide_unpack _); by vm_compute..|done].
  - by vm_compute.
Qed.
End WithCrypto.
End ClientPageLemmas.

Section ClientPageTheorems.
Import ClientPage ClientPageLemmas.
Context `{Crypto}.

Lemma reachable_bookkeeping_client s : reachable s -> bookkeeping (core s).
Proof.
  intros (c & es & ->). unfold run_all. pose proof (bk_loaded c) as Hs. revert Hs. generalize (loaded c). clear c.
  induction es as [|e es IH]; intros s Hs; [done|]. cbn [fold_left]. apply IH. by apply bk_run.
Qed.

(** C40: in every reachable state of the client's page, whatever the order of the answers: the price
    in the document is the price that is known; a price is known or asked for only once the gateway
    is known; the gateway is asked for once and the price at most once; answers find their requests
    by fresh numbers; and the button is in exactly one of three states: green with the text " Connect",
    orange with " Disconnect", or, once the price could not be had, red with the text " Connect" (and red
    means marked as disabled).  A click connects in the first state and disconnects in the two others. *)
Theorem dashboard_reachable s : reachable s ->
  bookkeeping (core s)
  /\ forall now, trace (run s (now, ConnectClick)) = trace s ++ [Ajax (
       if bool_decide ("btn-success"%string ∈ connect_classes s) then PostConnect (parseInt (JStr (default "" (html s !! "#price")))) else PostDisconnect)].
Proof.
  intros Hs. split; [by apply reachable_bookkeeping_client|]. intros now. unfold run. cbn [fst snd handler]. unfold connect_clicked. js_look. cbv zeta.
  change (connect_classes (s <| clock := now |>)) with (connect_classes s). by case_bool_decide.
Qed.

(** after the price could not be had, a button that says " Connect" posts a disconnection: the state is
    read from the green class, which is gone, and the anchor is clicked whatever its disabled attribute. *)
Theorem failed_button_disconnects s now : reachable s -> "btn-danger"%string ∈ connect_classes s -> "btn-warning"%string ∉ connect_classes s ->
  "btn-success"%string ∉ connect_classes s ->
  html s !! "#connect_button_text" = Some " Connect"%string /\ trace (run s (now, ConnectClick)) = trace s ++ [Ajax PostDisconnect].
Proof.
  intros Hs Hd Hw Hg. pose proof (bk_button _ (reachable_bookkeeping_client s Hs)) as Hb. split; [by destruct Hb as [? ? Ht|? ? Ht|? ? ? Ht]|].
  unfold run. cbn [fst snd handler]. unfold connect_clicked. js_look. cbv zeta.
  change (connect_classes (s <| clock := now |>)) with (connect_classes s). by rewrite bool_decide_false.
Qed.
End ClientPageTheorems.

(** *** Without a gateway *)

Module QuietLemmas.
Import ClientPage.
Section WithCrypto.
Context `{Crypto}.

(** An effect that needs no price *)
Definition priceless (e : effect) : Prop :=
  match e with
  | Ajax (GetCost _) => False
  | Ajax (PostConnect p) => p = JNaN
  | QrCode _ (Some _) => False
  | _ => True
  end.

(** The price is not known, not asked for and not needed. *)
Definition quiet (s : ClientPage.t) : Prop :=
  cost s = None /\ html s !! "#price" = None /\ (forall id u, pending s !! id <> Some (GetCost u)) /\ Forall priceless (trace s).

Definition stays (s s' : ClientPage.t) : Prop := quiet s -> quiet s'.
#[local] Instance stays_preorder : PreOrder stays.
Proof. split; [intros s Hs; exact Hs|]. intros a b c Hab Hbc Ha. by apply Hbc, Hab. Qed.
Abbreviation silent m := (keeps (fun s : ClientPage.t => s) stays m).

Lemma silent_unseen f : (forall s, (cost (f s), html (f s), pending (f s), trace (f s)) = (cost s, html s, pending s, trace s)) -> silent (js_modify f).
Proof. intros Hf. apply keeps_modify. intros s Hq. injection (Hf s) as E1 E2 E3 E4. unfold quiet. rewrite E1, E2, E3, E4. exact Hq. Qed.

Lemma silent_set_html sel text : sel <> "#price" -> silent (set_html sel text).
Proof. intros Hs. apply keeps_modify. intros s (Hc & Hp & Hr & Ht). split_and!; try done. cbn. by rewrite lookup_insert_ne. Qed.

Lemma silent_emit e : priceless e -> silent (emit e).
Proof. intros He. apply keeps_modify. intros s (Hc & Hp & Hr & Ht). split_and!; try done. cbn. apply Forall_app. by split; [|apply Forall_singleton]. Qed.

Ltac silent_auto :=
  repeat match goal with
  | |- keeps _ _ (mbind _ _) => keeps_step
  | |- keeps _ _ (js_modify _) => apply silent_unseen; reflexivity
  | |- keeps _ _ (set_html _ _) => apply silent_set_html; done
  | |- keeps _ _ (emit _) => apply silent_emit; exact I
  | |- _ => keeps_step
  end.

Lemma silent_event_update u : silent (event_update u).
Proof. unfold event_update. cbv zeta. silent_auto. Qed.

Lemma silent_ajax r : match r with GetCost _ => False | PostConnect p => p = JNaN | _ => True end -> silent (ajax r).
Proof.
  intros Hr. unfold ajax. apply keeps_bind; [typeclasses eauto|apply silent_emit; by destruct r|intros _].
  apply keeps_bind; [typeclasses eauto| |intros _; apply silent_unseen; reflexivity].
  apply keeps_modify. intros s (Hc & Hp & Hpe & Ht). split_and!; try done. cbn. intros id u [[? ->]|[? Hl]]%lookup_insert_Some; [done|by eapply Hpe].
Qed.

Lemma silent_create_qrcode a : silent (create_qrcode a).
Proof.
  intros s Hq. unfold create_qrcode.
  destruct (guard_or TypeError _) as [[]|e] eqn:Hg; [|exact Hq]. rewrite (js_bind_ok (js_lift (Ok tt)) _ s tt s eq_refl).
  destruct (AddressText.new _ _ _) as [a'|e] eqn:Ha; [|exact Hq]. rewrite (js_bind_ok (js_lift (Ok a')) _ s a' s eq_refl). js_look. cbv zeta.
  destruct Hq as (Hc & Hq). rewrite Hc. apply (keeps_bind (fun s => s) stays (emit _)); [| |done].
  - by apply silent_emit.
  - intros _. by apply silent_set_html.
Qed.

Lemma silent_update_balance b : silent (update_balance b).
Proof. unfold update_balance. silent_auto. Qed.

Lemma silent_connect_clicked : silent connect_clicked.
Proof.
  intros s Hq. unfold connect_clicked. js_look. cbv zeta. destruct Hq as (Hc & Hp & Hq). rewrite Hp. cbn [default].
  case_bool_decide; apply silent_ajax; done.
Qed.

(** What a request does without the gateway's answer *)
Lemma silent_answered r a : (forall g, a <> GatewayIs g) -> (forall u, r <> GetCost u) -> silent (answered r a).
Proof.
  intros Ha Hr. destruct r as [|u| |p| |ad]; [|by destruct (Hr u)| | | |].
  - destruct a as [|g| | | |]; [|by destruct (Ha g)|..]; cbn [answered]; unfold get_gateway_error;
      silent_auto; apply silent_event_update.
  - destruct a; cbn [answered]; silent_auto. unfold create_uri_success.
    apply keeps_bind; [typeclasses eauto|apply silent_create_qrcode|intros _; apply silent_update_balance].
  - destruct a; cbn [answered]; unfold connect_success, empty, addClass, removeClass; silent_auto.
  - destruct a; cbn [answered]; unfold disconnect_success, empty, addClass, removeClass; silent_auto.
  - destruct a; cbn [answered]; unfold send_success, empty, show; silent_auto.
Qed.

Lemma quiet_run s e : (forall id g, snd e <> Answer id (GatewayIs g)) -> quiet s -> quiet (run s e).
Proof.
  intros He Hq. destruct e as [c e]. unfold run. cbn [fst snd] in *. set (s1 := s <| clock := c |>).
  assert (quiet s1) as H1 by exact Hq. clearbody s1. clear s Hq. destruct e as [id a| |to_address| | |v|m|]; cbn [handler].
  - js_look. destruct (pending s1 !! id) as [r|] eqn:Hr; [|done]. js_set. apply silent_answered.
    + intros g ->. by apply (He id g).
    + intros u ->. destruct H1 as (_ & _ & Hp & _). by apply (Hp id u).
    + destruct H1 as (Hc & Hpr & Hp & Ht). split_and!; try done. cbn. intros id' u [? Hl]%lookup_delete_Some. by apply (Hp id' u).
  - by apply silent_connect_clicked.
  - apply (keeps_bind (fun s => s) stays (hide "#send_input_field")); [unfold hide; silent_auto|intros _|done]. unfold show.
    silent_auto. by apply silent_ajax.
  - assert (silent refresh_clicked) as Hk by (unfold refresh_clicked, hide, empty, show; silent_auto). by apply Hk.
  - assert (silent send_drop_clicked) as Hk by (unfold send_drop_clicked; silent_auto). by apply Hk.
  - assert (silent (slider_moved v)) as Hk by (unfold slider_moved; silent_auto). by apply Hk.
  - assert (silent (onmessage m)) as Hk.
    { destruct m; unfold onmessage; silent_auto; first [apply silent_create_qrcode|apply silent_event_update|apply silent_update_balance]. }
    by apply Hk.
  - done.
Qed.

Lemma quiet_loaded c : quiet (loaded c).
Proof.
  split_and!; [reflexivity|reflexivity| |].
  - change (pending (loaded c)) with ({[1%nat := GetAddress; 0%nat := GetGateway]} : gmap nat request).
    intros id u [[? ?]|[? [? ?]%lookup_singleton_Some]]%lookup_insert_Some; done.
  - change (trace (loaded c)) with [Ajax GetGateway; Ajax GetAddress; OpenSocket "ws://127.0.0.1:8081"]. by repeat constructor.
Qed.
End WithCrypto.
End QuietLemmas.

Section WithoutGateway.
Import ClientPage QuietLemmas.
Context `{Crypto}.

(** as long as the request for the gateway is not answered with one, whatever else happens and
    although the page has a default gateway to fall back to, the price is never asked for: it stays
    unknown, every connection is asked for with no number as its price and every QR code lacks its
    amount. *)
Theorem price_never_asked c es : (forall now id g, (now, Answer id (GatewayIs g)) ∉ es) ->
  let s := run_all es (loaded c) in cost s = None /\ Forall priceless (trace s).
Proof.
  intros Hes s. assert (quiet s) as (Hc & _ & _ & Ht); [|done]. subst s. pose proof (quiet_loaded c) as Hq. revert Hq. generalize (loaded c). clear c.
  induction es as [|[now e] es IH]; intros s Hq; [done|]. cbn [run_all fold_left]. apply IH.
  - intros now' id g Hin. apply (Hes now' id g). by right.
  - apply quiet_run; [|done]. intros id g He. cbn in He. subst e. apply (Hes now id g). by left.
Qed.
End WithoutGateway.

(** *** The price *)

(** A number printed before other text is read back. *)
Lemma read_digits_then s t z acc : read_digits acc s = Some z -> digit_prefix t = None -> read_prefix acc (s ++ t) = z.
Proof.
  revert acc. induction s as [|c s IH]; intros acc; cbn [read_digits].
  - intros [= <-] Ht. destruct t as [|c t]; [done|]. cbn [digit_prefix] in Ht. change (read_prefix acc (String c t) = acc). cbn [read_prefix].
    by destruct (digit_value c).
  - intros Hr Ht. change (read_prefix acc (String c (s ++ t)) = z). cbn [read_prefix]. destruct (digit_value c) as [d|]; [by apply IH|done].
Qed.

Lemma parseInt_decimal z t : 0 <= z < 10 ^ 15 -> digit_prefix t = None -> parseInt (JStr (number_to_string z ++ t)) = JInt z.
Proof.
  intros Hz Ht. rewrite number_to_string_safe by done. pose proof (read_decimal z 0 ltac:(lia)) as Hr. rewrite Z.mul_0_r, Z.add_0_l in Hr.
  pose proof (decimal_nonempty z ltac:(lia)) as Hne. destruct (decimal z) as [|c r] eqn:E; [done|].
  change (parseInt (JStr (String c (r ++ t))) = JInt z). unfold parseInt. cbn [to_string].
  assert (exists d, digit_value c = Some d) as [d Hd] by (cbn [read_digits] in Hr; destruct (digit_value c); [by eexists|done]).
  assert (Ascii.eqb c "-" = false /\ Ascii.eqb c "+" = false) as [H1 H2] by (split; apply Ascii.eqb_neq; intros ->; discriminate).
  rewrite H1, H2. unfold digit_prefix. rewrite Hd.
  change (String c (r ++ t)) with (String c r ++ t)%string. rewrite (read_digits_then _ t z 0 Hr Ht).
  apply num_trunc_large. unfold safe. lia.
Qed.

Section Price.
Import ClientPage ClientPageLemmas.
Context `{CryptoLaws}.

(** the price the page connects with is the price the gateway told, read back from the text it
    is shown as; and an address that comes after the price is shown with the amount of 101 seconds. *)
Theorem price_paid s z now a : reachable s -> cost s = Some (JInt z) -> 0 < z < 10 ^ 13 -> address_wf a ->
  (("btn-success"%string ∈ connect_classes s) ->
     trace (run s (now, ConnectClick)) = trace s ++ [Ajax (PostConnect (JInt z))])
  /\ trace (run s (now, SocketMessage (ADDRESS_UPDATE (AddressText.toString a)))) = trace s ++ [QrCode a (Some (num_of_Z (101 * z)))].
Proof.
  intros Hs Hc Hz Ha. pose proof (bk_price _ (reachable_bookkeeping_client s Hs)) as Hp. cbn [core c_price c_cost] in Hp. rewrite Hc in Hp. cbn [fmap option_fmap option_map] in Hp.
  split.
  - intros Hb. unfold run. cbn [snd fst handler]. unfold connect_clicked. js_look. cbv zeta.
    change (html (s <| clock := now |>)) with (html s). change (connect_classes (s <| clock := now |>)) with (connect_classes s).
    rewrite Hp, bool_decide_true by done. change (default "" (Some (to_string (JInt z) ++ " satoshi ")%string)) with (number_to_string z ++ " satoshi ")%string.
    rewrite parseInt_decimal by (done || lia). reflexivity.
  - unfold run. cbn [snd fst handler onmessage]. set (s1 := s <| clock := now |>).
    assert (create_qrcode (AddressText.toString a) s1
            = (Ok tt, s1 <| trace ::= (fun l => l ++ [QrCode a (Some (num_of_Z (101 * z)))]) |> <| html ::= <["#address" := AddressText.toString a]> |>)) as Hq.
    { unfold create_qrcode, AddressText.isValid. rewrite (new_text a Ha). cbn [is_ok guard_or].
      rewrite (js_lift_ok _ _ _ _ eq_refl), (js_lift_ok _ _ _ _ eq_refl). js_look. cbv zeta. change (cost s1) with (cost s). rewrite Hc. cbn [to_number].
      rewrite num_mul_safe by (unfold safe; lia). unfold uri_amount. rewrite !num_eq_safe by (unfold safe; lia).
      rewrite (proj2 (Z.eqb_neq _ 0)), Z.eqb_refl by lia. reflexivity. }
    rewrite (js_bind_ok _ _ _ _ _ Hq). reflexivity.
Qed.
End Price.

(** ** The settings page *)

Section SettingsPage.
Import ServerPage.

(** A typed number without its first digit *)
Lemma read_digits_from s acc z : read_digits acc s = Some z ->
  exists y, read_digits 0 s = Some y /\ z = acc * 10 ^ Z.of_nat (String.length s) + y /\ 0 <= y < 10 ^ Z.of_nat (String.length s).
Proof.
  revert acc z. assert (forall s a b, (forall x, read_digits a s = Some x -> read_digits b s = Some (x + (b - a) * 10 ^ Z.of_nat (String.length s)))) as Hshift.
  { clear. induction s as [|c s IH]; intros a b x; cbn [read_digits String.length]; [intros [= <-]; f_equal; change (10 ^ Z.of_nat 0) with 1; lia|].
    destruct (digit_value c) as [d|]; [|done]. intros Hx. rewrite (IH _ (10 * b + d) _ Hx), Nat2Z.inj_succ, Z.pow_succ_r by lia. f_equal. lia. }
  induction s as [|c s IH]; intros acc z Hr.
  - injection Hr as <-. exists 0. cbn [read_digits String.length]. change (10 ^ Z.of_nat 0) with 1. split; [done|]. lia.
  - pose proof (Hshift _ _ 0 _ Hr) as H0. eexists. split; [exact H0|]. split; [lia|]. cbn [read_digits] in H0.
    destruct (digit_value c) as [d|] eqn:Hd; [|done]. destruct (IH _ _ H0) as (y & _ & -> & Hy).
    assert (0 <= d < 10) as Hd10.
    { unfold digit_value in Hd. destruct ((48 <=? Z.of_N (N_of_ascii c)) && (Z.of_N (N_of_ascii c) <=? 57)) eqn:Hb; [|done]. injection Hd as <-.
      apply andb_true_iff in Hb as [H1%Z.leb_le H2%Z.leb_le]. lia. }
    cbn [String.length]. rewrite Nat2Z.inj_succ, Z.pow_succ_r by lia. nia.
Qed.

(** whatever is clicked and typed, exactly one of the four pages is shown; but a price that is
    typed in loses its first digit before it reaches the slider. *)
Theorem settings_page es :
  let s := fold_left ServerPage.run es ServerPage.loaded in
  (exists p, forall q, visible s q = bool_decide (q = p))
  /\ forall z, 10 <= z < 10 ^ 15 ->
       slider (ServerPage.run s (PriceChanged (decimal z))) = Some (JInt (z mod 10 ^ (Z.of_nat (String.length (decimal z)) - 1))).
Proof.
  intros s. split.
  - subst s. assert (forall s p, exists p', forall q, visible (setPageState p s) q = bool_decide (q = p')) as Hset.
    { intros s p. exists p. intros q. by destruct p, q. }
    assert (exists p, forall q, visible ServerPage.loaded q = bool_decide (q = p)) as H by apply Hset.
    revert H. generalize ServerPage.loaded. induction es as [|e es IH]; intros s H; [done|]. cbn [fold_left]. apply IH.
    destruct e as [v|v|p]; [exact H|exact H|apply Hset].
  - intros z Hz. clearbody s. cbn [ServerPage.run price_changed slider upd]. change (Some (parseInt (JStr (substring1 (decimal z)))) = Some (JInt (z mod 10 ^ (Z.of_nat (String.length (decimal z)) - 1)))).
    f_equal. pose proof (read_decimal z 0 ltac:(lia)) as Hr. rewrite Z.mul_0_r, Z.add_0_l in Hr.
    destruct (decimal z) as [|c r] eqn:E; [by destruct (decimal_nonempty z ltac:(lia))|].
    cbn [read_digits] in Hr. destruct (digit_value c) as [d|]; [|done]. destruct (read_digits_from _ _ _ Hr) as (y & Hy & Hzy & Hyb).
    cbn [substring1 String.length]. rewrite Nat2Z.inj_succ. replace (Z.succ _ - 1) with (Z.of_nat (String.length r)) by lia.
    rewrite (parseInt_digits r y); [|intros ->|done].
    + rewrite Hzy, Z.add_comm, Z.mod_add, Z.mod_small by lia. apply num_trunc_large. unfold safe.
      assert (0 <= d) by nia. nia.
    + destruct (decimal_length z ltac:(lia)) as (_ & Hl & _). rewrite E in Hl. cbn in Hl. lia.
Qed.
End SettingsPage.

(** ** Witnesses *)
Section DashboardWitnesses.
Import ClientPage ClientPageLemmas QuietLemmas.
#[local] Existing Instance demo_crypto.
#[local] Existing Instance demo_laws.

Definition priced : ClientPage.t :=
  run_all [((9, 0, 5), Answer 0 (GatewayIs "10.0.0.1")); ((9, 0, 6), Answer 2 (CostIs (JInt 7) "time_unit"))] (loaded (9, 0, 0)).

Lemma priced_reachable : reachable priced.
Proof. eexists _, _. reflexivity. Qed.

(** After the price could not be had *)
Definition unpriced : ClientPage.t :=
  run_all [((9, 0, 5), Answer 0 (GatewayIs "10.0.0.1")); ((9, 0, 6), Answer 2 Failed)] (loaded (9, 0, 0)).

Lemma dashboard_reachable_witness : html priced !! "#price" = Some "7 satoshi "%string /\ bookkeeping (core priced) /\ bookkeeping (core unpriced).
Proof.
  split; [vm_compute; reflexivity|]. split; [apply dashboard_reachable, priced_reachable|apply dashboard_reachable]. eexists _, _. reflexivity.
Defined.

Lemma failed_button_disconnects_witness : html unpriced !! "#connect_button_text" = Some " Connect"%string
  /\ trace (run unpriced ((9, 0, 7), ConnectClick)) = trace unpriced ++ [Ajax PostDisconnect].
Proof.
  apply failed_button_disconnects; [eexists _, _; reflexivity|..]; apply (bool_decide_unpack _); by vm_compute.
Defined.

Lemma price_paid_witness :
  trace (run priced ((9, 0, 7), ConnectClick)) = trace priced ++ [Ajax (PostConnect (JInt 7))].
Proof.
  apply (price_paid priced 7 (9, 0, 7) demo_address priced_reachable); [vm_compute; reflexivity|done|apply demo_address_wf|].
  apply (bool_decide_unpack _). vm_compute. reflexivity.
Defined.

Lemma price_never_asked_witness :
  let s := run_all [((9, 0, 5), Answer 0 Failed); ((9, 0, 6), ConnectClick)] (loaded (9, 0, 0)) in
  gateway s = Some "127.0.0.1"%string /\ cost s = None /\ last (trace s) = Some (Ajax (PostConnect JNaN)).
Proof.
  cbv zeta. split; [vm_compute; reflexivity|]. split; [|vm_compute; reflexivity].
  apply (price_never_asked (9, 0, 0) [((9, 0, 5), Answer 0 Failed); ((9, 0, 6), ConnectClick)]).
  intros now id g [Hin|[Hin|Hin%not_elem_of_nil]%elem_of_cons]%elem_of_cons; by simplify_eq.
Defined.

Lemma settings_page_witness : ServerPage.slider (ServerPage.run ServerPage.loaded (ServerPage.PriceChanged "1000")) = Some (JInt 0).
Proof. destruct (settings_page []) as [_ Hs]. apply (Hs 1000). lia. Defined.
End DashboardWitnesses.
