(* ===== verification/Blocks.v ===== *)
(** * Blocks

    Models module 2 ([Block]), module 3 ([BlockHeader]) and module 5 ([MerkleBlock]) of
    [src/Sources/WebClient/js/bitcore.js]: their wire forms, the identifier and proof of work of a
    header, the merkle tree of a block and the partial merkle tree of a filtered block.

    A hash in a buffer is its bytes; a hash the code keeps as text (the cached identifier, the hashes
    of a filtered block) is a string.  The plain objects of [toObject] are records; the text of JSON
    is left out. *)
From S2P Require Import Prelude JsNumber Encoding Script Base58 Transaction.
Local Open Scope Z_scope.
Local Open Scope js_scope.

(** ** Headers *)
Module BlockHeader.

Definition START_OF_HEADER : Z := 8.
Definition MAX_TIME_OFFSET : Z := 2 * 60 * 60.

Record t := mk {
  version : Z;
  prevHash : list Z;
  merkleRoot : list Z;
  time : Z;
  bits : Z;
  nonce : Z;
  (** the cache behind the getter [id] *)
  _id : option string;
}.
#[global] Instance eta_t : Eta t := fun h =>
  mk (version h) (prevHash h) (merkleRoot h) (time h) (bits h) (nonce h) (_id h).
#[global] Instance t_eq_dec : EqDecision t.
Proof. solve_decision. Defined.

(** [toObject], and the argument of [fromJSON] *)
Record object := mkObject {
  o_version : Z; o_prevHash : string; o_merkleRoot : string; o_time : Z; o_bits : Z; o_nonce : Z;
}.

(** [_fromJSON] on an object, in a fresh header *)
Definition fromJSON (data : object) : result t :=
  prevHash ← Hex.hexWrite (o_prevHash data);
  merkleRoot ← Hex.hexWrite (o_merkleRoot data);
  Ok (mk (o_version data) prevHash merkleRoot (o_time data) (o_bits data) (o_nonce data) None).

Definition fromBufferReader : js BufferReader.t t :=
  version ← BufferReader.readUInt32LE;
  prevHash ← BufferReader.read 32;
  merkleRoot ← BufferReader.read 32;
  time ← BufferReader.readUInt32LE;
  bits ← BufferReader.readUInt32LE;
  nonce ← BufferReader.readUInt32LE;
  mret (mk version prevHash merkleRoot time bits nonce None).

Definition fromBuffer (buf : list Z) : result t := fst (fromBufferReader (BufferReader.new buf)).

Definition fromString (str : string) : result t := buf ← Hex.hexWrite str; fromBuffer buf.

Definition fromRawBlock (data : list Z) : result t :=
  fst (fromBufferReader ((BufferReader.new data) <| BufferReader.pos := START_OF_HEADER |>)).

Definition toObject (h : t) : object :=
  mkObject (version h) (Hex.hexSlice (prevHash h)) (Hex.hexSlice (merkleRoot h)) (time h) (bits h) (nonce h).

Definition toBufferWriter (h : t) (bw : BufferWriter.t) : result BufferWriter.t :=
  bw ← BufferWriter.writeUInt32LE (version h) bw;
  let bw := BufferWriter.write (prevHash h) bw in
  let bw := BufferWriter.write (merkleRoot h) bw in
  bw ← BufferWriter.writeUInt32LE (time h) bw;
  bw ← BufferWriter.writeUInt32LE (bits h) bw;
  BufferWriter.writeUInt32LE (nonce h) bw.

Definition toBuffer (h : t) : result (list Z) := bw ← toBufferWriter h BufferWriter.new; Ok (BufferWriter.concat bw).

Definition toString (h : t) : result string := buf ← toBuffer h; Ok (Hex.hexSlice buf).

(** The loop [while (mov-- > 0) target = target.mul(new BN(2))] *)
Fixpoint doubled (mov : nat) (target : Z) : Z :=
  match mov with O => target | S mov => doubled mov (target * 2) end.

Definition getTargetDifficulty (h : t) : Z :=
  let target := Z.land (wrap32 (bits h)) 0xffffff in
  let mov := 8 * (Z.shiftr (uwrap32 (bits h)) 24 - 3) in
  doubled (Z.to_nat mov) target.

Definition validTimestamp (now_ms : Z) (h : t) : bool :=
  let currentTime := Math_round (num_div (num_of_Z now_ms) (num_of_Z 1000)) in
  negb (num_lt (num_add currentTime (num_of_Z MAX_TIME_OFFSET)) (num_of_Z (time h))).

(** [new BN(string, 'hex')] on digits *)
Definition BN_fromHex (s : string) : Z :=
  fold_left (fun acc c => 16 * acc + default 0 (Hex.digit_value c)) (String.list_ascii_of_string s) 0.

Section WithCrypto.
Context `{Crypto}.

Definition _getHash (h : t) : result (list Z) := buf ← toBuffer h; Ok (sha256sha256 buf).

(** The getter [id], which fills the cache *)
Definition id : js t string :=
  h ← js_get;
  match _id h with
  | Some s => mret s
  | None =>
      hash ← js_lift (_getHash h);
      let s := Hex.hexSlice (rev hash) in
      js_modify (fun h => h <| _id := Some s |>);;
      mret s
  end.

Definition validProofOfWork : js t bool :=
  s ← id;
  h ← js_get;
  let pow := BN_fromHex s in
  let target := getTargetDifficulty h in
  mret (negb (pow >? target)).

End WithCrypto.
End BlockHeader.

(** ** Blocks *)
Module Block.

Definition START_OF_BLOCK : Z := 8.
Definition NULL_HASH : list Z := repeat 0 32.

Record t := mk {
  header : BlockHeader.t;
  transactions : list Transaction.t;
  _id : option string;
}.
#[global] Instance eta_t : Eta t := fun b => mk (header b) (transactions b) (_id b).

Definition fromBufferReader : js BufferReader.t t :=
  r ← js_get;
  js_lift (guard_or InvalidState (negb (BufferReader.finished r)));;
  header ← BlockHeader.fromBufferReader;
  n ← BufferReader.readVarintNum;
  transactions ← Transaction.read_times (S (length (BufferReader.buf r))) n Transaction.fromBufferReader;
  mret (mk header transactions None).

Definition fromBuffer (buf : list Z) : result t := fst (fromBufferReader (BufferReader.new buf)).

Definition fromString (str : string) : result t := buf ← Hex.hexWrite str; fromBuffer buf.

Definition fromRawBlock (data : list Z) : result t :=
  fst (fromBufferReader ((BufferReader.new data) <| BufferReader.pos := START_OF_BLOCK |>)).

Definition toBufferWriter (b : t) (bw : BufferWriter.t) : result BufferWriter.t :=
  buf ← BlockHeader.toBuffer (header b);
  bw ← BufferWriter.writeVarintNum (zlen (transactions b)) (BufferWriter.write buf bw);
  Transaction.each_write Transaction.toBufferWriter (transactions b) bw.

Definition toBuffer (b : t) : result (list Z) := bw ← toBufferWriter b BufferWriter.new; Ok (BufferWriter.concat bw).

Definition toString (b : t) : result string := buf ← toBuffer b; Ok (Hex.hexSlice buf).

Section WithCrypto.
Context `{Crypto}.

Definition getTransactionHashes (b : t) : result (list (list Z)) :=
  if bool_decide (length (transactions b) = O) then Ok [NULL_HASH]
  else Sighash.map_result Signing.getHash (transactions b).

(** [tree[i]]; [Buffer.concat] throws on [undefined]. *)
Definition node_at (tree : list (list Z)) (i : nat) : result (list Z) :=
  match tree !! i with Some h => Ok h | None => Throw TypeError end.

(** The inner loop: the hashes of the pairs of the level at [j], from [i] on.  Every turn adds two to
    [i], so [size] turns are enough. *)
Fixpoint push_level (fuel : nat) (j size i : nat) (tree : list (list Z)) : result (list (list Z)) :=
  match fuel with
  | O => Ok tree
  | S fuel =>
      if bool_decide (i < size)%nat then
        let i2 := Nat.min (i + 1) (size - 1) in
        l ← node_at tree (j + i);
        r ← node_at tree (j + i2);
        push_level fuel j size (i + 2) (tree ++ [sha256sha256 (l ++ r)])
      else Ok tree
  end.

(** The outer loop; [size] shrinks at every turn, so [size] turns are enough. *)
Fixpoint push_levels (fuel : nat) (j size : nat) (tree : list (list Z)) : result (list (list Z)) :=
  match fuel with
  | O => Ok tree
  | S fuel =>
      if bool_decide (1 < size)%nat then
        tree ← push_level size j size 0 tree;
        push_levels fuel (j + size) ((size + 1) / 2)%nat tree
      else Ok tree
  end.

Definition getMerkleTree (b : t) : result (list (list Z)) :=
  tree ← getTransactionHashes b;
  let size := length (transactions b) in
  push_levels size 0 size tree.

Definition getMerkleRoot (b : t) : result (list Z) :=
  tree ← getMerkleTree b;
  node_at tree (length tree - 1).

Definition validMerkleRoot (b : t) : result bool :=
  root ← getMerkleRoot b;
  let h := BlockHeader.BN_fromHex (Hex.hexSlice (BlockHeader.merkleRoot (header b))) in
  let c := BlockHeader.BN_fromHex (Hex.hexSlice root) in
  Ok (h =? c).

Definition _getHash (b : t) : result (list Z) := BlockHeader._getHash (header b).

(** The getter [id], which fills its cache and the header's *)
Definition id : js t string := fun b =>
  match _id b with
  | Some s => (Ok s, b)
  | None =>
      match BlockHeader.id (header b) with
      | (Ok s, h) => (Ok s, b <| header := h |> <| _id := Some s |>)
      | (Throw e, h) => (Throw e, b <| header := h |>)
      end
  end.

End WithCrypto.
End Block.

(** ** Filtered blocks *)
Module MerkleBlock.

Record t := mk {
  header : BlockHeader.t;
  numTransactions : Z;
  hashes : list string;
  flags : list Z;
  _flagBitsUsed : Z;
  _hashesUsed : Z;
}.
#[global] Instance eta_t : Eta t := fun m =>
  mk (header m) (numTransactions m) (hashes m) (flags m) (_flagBitsUsed m) (_hashesUsed m).
#[global] Instance t_eq_dec : EqDecision t.
Proof. solve_decision. Defined.

(** The constructor on an object with a [BlockHeader] *)
Definition new (h : BlockHeader.t) (n : Z) (hashes : list string) (flags : list Z) : t := mk h n hashes flags 0 0.

(** [for (i = 0; i < n; i++) push(read())]; unlike a transaction, a hash is read beyond the end too. *)
Fixpoint read_each {A} (n : nat) (m : js BufferReader.t A) : js BufferReader.t (list A) :=
  match n with
  | O => mret []
  | S n => x ← m; l ← read_each n m; mret (x :: l)
  end.

Definition fromBufferReader : js BufferReader.t t :=
  r ← js_get;
  js_lift (guard_or InvalidState (negb (BufferReader.finished r)));;
  header ← BlockHeader.fromBufferReader;
  numTransactions ← BufferReader.readUInt32LE;
  numHashes ← BufferReader.readVarintNum;
  hashes ← read_each (Z.to_nat numHashes) (buf ← BufferReader.read 32; mret (Hex.hexSlice buf));
  numFlags ← BufferReader.readVarintNum;
  flags ← read_each (Z.to_nat numFlags) BufferReader.readUInt8;
  mret (new header numTransactions hashes flags).

Definition fromBuffer (buf : list Z) : result t := fst (fromBufferReader (BufferReader.new buf)).

Definition toBufferWriter (m : t) (bw : BufferWriter.t) : result BufferWriter.t :=
  buf ← BlockHeader.toBuffer (header m);
  bw ← BufferWriter.writeUInt32LE (numTransactions m) (BufferWriter.write buf bw);
  bw ← BufferWriter.writeVarintNum (zlen (hashes m)) bw;
  bw ← Transaction.each_write (fun hash bw => buf ← Hex.hexWrite hash; Ok (BufferWriter.write buf bw)) (hashes m) bw;
  bw ← BufferWriter.writeVarintNum (zlen (flags m)) bw;
  Transaction.each_write BufferWriter.writeUInt8 (flags m) bw.

Definition toBuffer (m : t) : result (list Z) := bw ← toBufferWriter m BufferWriter.new; Ok (BufferWriter.concat bw).

(** [toObject], and the argument of [fromJSON] *)
Record object := mkObject {
  o_header : BlockHeader.object; o_numTransactions : Z; o_hashes : list string; o_flags : list Z;
}.

Definition toObject (m : t) : object :=
  mkObject (BlockHeader.toObject (header m)) (numTransactions m) (hashes m) (flags m).

Definition fromJSON (data : object) : result t :=
  h ← BlockHeader.fromJSON (o_header data);
  Ok (new h (o_numTransactions data) (o_hashes data) (o_flags data)).

(** The constructor: a buffer, or an object whose header is a [BlockHeader] or its plain form *)
Inductive argument :=
  | FromBuffer (buf : list Z)
  | FromObject (header : BlockHeader.t + BlockHeader.object) (numTransactions : Z) (hashes : list string) (flags : list Z).

Definition construct (arg : argument) : result t :=
  match arg with
  | FromBuffer buf => fromBuffer buf
  | FromObject (inl h) n hs fs => Ok (new h n hs fs)
  | FromObject (inr data) n hs fs => h ← BlockHeader.fromJSON data; Ok (new h n hs fs)
  end.

(** *** The partial merkle tree *)

Definition _calcTreeWidth (m : t) (height : Z) : Z :=
  let one := wrap32 (Z.shiftl 1 (Z.land height 31)) in
  Z.shiftr (wrap32 (numTransactions m + one - 1)) (Z.land height 31).

(** The loop [while (width(height) > 1) height++]; 32 turns are enough (see [tree_height_total]). *)
Fixpoint tree_height (fuel : nat) (m : t) (height : nat) : nat :=
  match fuel with
  | O => height
  | S fuel => if _calcTreeWidth m (Z.of_nat height) >? 1 then tree_height fuel m (S height) else height
  end.

Definition _calcTreeHeight (m : t) : nat := tree_height 32 m 0.

(** What a traversal writes to *)
Record opts := mkOpts { txs : list string; flagBitsUsed : Z; hashesUsed : Z }.
#[global] Instance eta_opts : Eta opts := fun o => mkOpts (txs o) (flagBitsUsed o) (hashesUsed o).

(** [(this.flags[used >> 3] >>> (used & 7)) & 1]; beyond the end [undefined >>> k] is 0. *)
Definition flag_bit (m : t) (used : Z) : bool :=
  Z.testbit (Z.shiftr (uwrap32 (nth (Z.to_nat (Z.shiftr used 3)) (flags m) 0)) (Z.land used 7)) 0.

(** [Buffer.concat([left, right])], which throws on [null] *)
Definition concat2 (left right : option (list Z)) : result (list Z) :=
  match left, right with Some l, Some r => Ok (l ++ r) | _, _ => Throw TypeError end.

Section WithCrypto.
Context `{Crypto}.

Fixpoint _traverseMerkleTree (m : t) (depth : nat) (pos : Z) : js opts (option (list Z)) :=
  o ← js_get;
  if flagBitsUsed o >? zlen (flags m) * 8 then mret None
  else
    let isParentOfMatch := flag_bit m (flagBitsUsed o) in
    js_modify (fun o => o <| flagBitsUsed ::= Z.succ |>);;
    let leaf : js opts (option (list Z)) :=
      if hashesUsed o >=? zlen (hashes m) then mret None
      else
        let hash := nth (Z.to_nat (hashesUsed o)) (hashes m) String.EmptyString in
        js_modify (fun o => o <| hashesUsed ::= Z.succ |>);;
        (if bool_decide (depth = O) && isParentOfMatch
         then js_modify (fun o => o <| txs ::= (fun l => l ++ [hash]) |>) else mret tt);;
        buf ← js_lift (Hex.hexWrite hash);
        mret (Some buf) in
    match depth with
    | O => leaf
    | S d =>
        if negb isParentOfMatch then leaf
        else
          left ← _traverseMerkleTree m d (pos * 2);
          right ← (if pos * 2 + 1 <? _calcTreeWidth m (Z.of_nat d) then _traverseMerkleTree m d (pos * 2 + 1)
                   else mret left);
          buf ← js_lift (concat2 left right);
          mret (Some (sha256sha256 buf))
    end.

Definition validMerkleTree (m : t) : result bool :=
  if zlen (hashes m) >? numTransactions m then Ok false
  else if zlen (flags m) * 8 <? zlen (hashes m) then Ok false
  else
    let height := _calcTreeHeight m in
    match _traverseMerkleTree m height 0 (mkOpts [] 0 0) with
    | (Throw e, _) => Throw e
    | (Ok root, o) =>
        if negb (hashesUsed o =? zlen (hashes m)) then Ok false
        else match root with
             | None => Throw TypeError
             | Some root => Ok (bool_decide (root = BlockHeader.merkleRoot (header m)))
             end
    end.

(** [hasTransaction], given a hash in hexadecimal or a transaction *)
Definition hasTransaction (m : t) (tx : string + Transaction.t) : result bool :=
  hash ← (match tx with
          | inl hash => Ok hash
          | inr x => id ← Signing.id_ x; buf ← Hex.hexWrite (Hex.hexSlice id); Ok (Hex.hexSlice (rev buf))
          end);
  match _traverseMerkleTree m (_calcTreeHeight m) 0 (mkOpts [] 0 0) with
  | (Throw e, _) => Throw e
  | (Ok _, o) => Ok (bool_decide (hash ∈ txs o))
  end.

End WithCrypto.
End MerkleBlock.
