(* ===== verification/Merkle.v ===== *)
(** * Merkle trees

    The reference for the trees of [Blocks.v]: a level of the tree is the level below hashed in pairs
    ([up]), the root is what is left when one hash is left.  Shows that the loops of
    [Block.getMerkleTree] compute it, level by level, and when two lists have the same root. *)
From S2P Require Import Prelude JsNumber Encoding Script Base58 Transaction Blocks.
Local Open Scope Z_scope.
Local Open Scope js_scope.

(** ** The reference *)
Module Tree.

Section WithCrypto.
Context `{Crypto}.

(** The level above: a hash without a partner is hashed with itself. *)
Fixpoint up (l : list (list Z)) : list (list Z) :=
  match l with
  | a :: l =>
      match l with
      | b :: l => sha256sha256 (a ++ b) :: up l
      | [] => [sha256sha256 (a ++ a)]
      end
  | [] => []
  end.

(** The strings hashed from a level to the next, and on the way [h] levels up *)
Fixpoint pairs (l : list (list Z)) : list (list Z) :=
  match l with
  | a :: l => match l with b :: l => (a ++ b) :: pairs l | [] => [a ++ a] end
  | [] => []
  end.
Fixpoint tree_strings (h : nat) (l : list (list Z)) : list (list Z) :=
  match h with
  | O => []
  | S h => pairs l ++ tree_strings h (up l)
  end.

Definition level (d : nat) (l : list (list Z)) : list (list Z) := Nat.iter d up l.

(** All levels from [l] on, one after the other; every level but the last is shorter than the one
    below, so as many turns as hashes are enough. *)
Fixpoint tower (fuel : nat) (l : list (list Z)) : list (list Z) :=
  match fuel with
  | O => l
  | S fuel => if bool_decide (1 < length l)%nat then l ++ tower fuel (up l) else l
  end.

Fixpoint root_of (fuel : nat) (l : list (list Z)) : list Z :=
  match fuel with
  | O => default [] (head l)
  | S fuel => if bool_decide (1 < length l)%nat then root_of fuel (up l) else default [] (head l)
  end.

Definition merkle_root (l : list (list Z)) : list Z := root_of (length l) l.

(** Induction on a list two elements at a time *)
Lemma pairs_ind (P : list (list Z) -> Prop) :
  P [] -> (forall a, P [a]) -> (forall a b l, P l -> P (a :: b :: l)) -> forall l, P l.
Proof.
  intros H0 H1 H2 l. enough (P l /\ forall a, P (a :: l)) by tauto.
  induction l as [|b l [IH1 IH2]]; [auto|]. split; [done|]. intros a. by apply H2.
Qed.

Lemma length_up l : length (up l) = ((length l + 1) / 2)%nat.
Proof.
  induction l as [|a|a b l IH] using pairs_ind; [done..|]. cbn [up length]. rewrite IH.
  replace (S (S (length l)) + 1)%nat with (1 * 2 + (length l + 1))%nat by lia. rewrite Nat.div_add_l by done. lia.
Qed.

Lemma length_up_lt l : (1 < length l)%nat -> (1 <= length (up l) < length l)%nat.
Proof. intros Hl. rewrite length_up. pose proof (Nat.div_mod_eq (length l + 1) 2). pose proof (Nat.mod_upper_bound (length l + 1) 2). lia. Qed.

(** The hash at [i] of the level above, as the loop addresses it *)
Lemma up_lookup l i a : l !! (2 * i)%nat = Some a ->
  up l !! i = Some (sha256sha256 (a ++ default a (l !! (2 * i + 1)%nat))).
Proof.
  revert i. induction l as [|b|b c l IH] using pairs_ind; intros i Hi.
  - done.
  - destruct i as [|i]; [|replace (2 * S i)%nat with (S (S (2 * i))) in Hi by lia; done]. cbn in Hi. by simplify_eq.
  - destruct i as [|i]; [cbn in Hi; by simplify_eq|]. replace (2 * S i)%nat with (S (S (2 * i))) in * by lia.
    replace (S (S (2 * i)) + 1)%nat with (S (S (2 * i + 1))) by lia. cbn [up lookup list_lookup] in *. by apply IH.
Qed.

Lemma pairs_lookup l i a : l !! (2 * i)%nat = Some a ->
  pairs l !! i = Some (a ++ default a (l !! (2 * i + 1)%nat)).
Proof.
  revert i. induction l as [|b|b c l IH] using pairs_ind; intros i Hi.
  - done.
  - destruct i as [|i]; [|replace (2 * S i)%nat with (S (S (2 * i))) in Hi by lia; done]. cbn in Hi. by simplify_eq.
  - destruct i as [|i]; [cbn in Hi; by simplify_eq|]. replace (2 * S i)%nat with (S (S (2 * i))) in * by lia.
    replace (S (S (2 * i)) + 1)%nat with (S (S (2 * i + 1))) by lia. cbn [pairs lookup list_lookup] in *. by apply IH.
Qed.

Lemma pairs_tree h : forall d l u, (d < h)%nat -> u ∈ pairs (level d l) -> u ∈ tree_strings h l.
Proof.
  induction h as [|h IH]; intros d l u Hd Hu; [lia|]. cbn [tree_strings]. apply elem_of_app. destruct d as [|d]; [by left|].
  right. apply (IH d); [lia|]. unfold level in *. by rewrite Nat.iter_succ_r in Hu.
Qed.

Lemma level_S d l : level (S d) l = up (level d l).
Proof. done. Qed.

Lemma level_up d l : level d (up l) = up (level d l).
Proof. induction d as [|d IH]; [done|]. by rewrite !level_S, IH. Qed.

(** Enough turns give the same root. *)
Lemma root_of_fuel k k' l : (length l <= S k)%nat -> (length l <= S k')%nat -> root_of k l = root_of k' l.
Proof.
  revert k' l. induction k as [|k IH]; intros k' l Hk Hk'.
  - destruct k' as [|k']; [done|]. cbn. by rewrite bool_decide_false by lia.
  - cbn. case_bool_decide as Hl; [|destruct k'; [done|]; cbn; by rewrite bool_decide_false by lia].
    destruct k' as [|k']; [lia|]. cbn. rewrite bool_decide_true by done. apply length_up_lt in Hl. apply IH; lia.
Qed.

Lemma merkle_root_one h : merkle_root [h] = h.
Proof. done. Qed.

Lemma merkle_root_up l : (1 < length l)%nat -> merkle_root l = merkle_root (up l).
Proof.
  intros Hl. unfold merkle_root. destruct (length l) as [|k] eqn:Hk; [lia|]. cbn. rewrite bool_decide_true by lia.
  pose proof (length_up_lt l). apply root_of_fuel; lia.
Qed.

(** Climbing does not change the root, as long as there are two hashes to pair. *)
Lemma merkle_root_level d l : (forall e, (e < d)%nat -> (1 < length (level e l))%nat) -> merkle_root l = merkle_root (level d l).
Proof.
  induction d as [|d IH]; intros He; [done|]. rewrite level_S, <-merkle_root_up by (apply He; lia). apply IH. auto.
Qed.

Lemma tower_last k l : (length l <= S k)%nat -> l <> [] -> list.last (tower k l) = Some (root_of k l).
Proof.
  revert l. induction k as [|k IH]; intros l Hk Hl.
  - destruct l as [|h [|]]; [done..|]. cbn in Hk. lia.
  - cbn. case_bool_decide as H1; [|destruct l as [|h [|]]; [done..|cbn in H1; lia]].
    pose proof (length_up_lt l H1). assert (up l <> []) as Hu by (intros Hu; rewrite Hu in *; cbn in *; lia).
    rewrite last_app, IH by (done || lia). done.
Qed.

End WithCrypto.
End Tree.

(** ** The tree of a block *)
Module BlockTree.
Import Tree.

Section WithCrypto.
Context `{Crypto}.

Lemma node_at_app (l k : list (list Z)) x i : i = length l -> Block.node_at (l ++ x :: k) i = Ok x.
Proof. intros ->. unfold Block.node_at. by rewrite lookup_app_r, Nat.sub_diag by lia. Qed.

(** The inner loop appends the pairs of what is left of the level. *)
Lemma push_level_spec pre b : forall fuel a dn, (length b <= 2 * fuel)%nat ->
  Block.push_level fuel (length pre) (length a + length b) (length a) (pre ++ a ++ b ++ dn) = Ok (pre ++ a ++ b ++ dn ++ up b).
Proof.
  induction b as [|x|x y b IH] using pairs_ind; intros fuel a dn Hf.
  - cbn [length app up]. rewrite Nat.add_0_r, app_nil_r. destruct fuel; cbn; [done|]. by rewrite bool_decide_false by lia.
  - destruct fuel as [|fuel]; [cbn in Hf; lia|]. cbn [Block.push_level length]. rewrite bool_decide_true by lia.
    rewrite Nat.min_r by lia. rewrite !(app_assoc pre a). cbn [app].
    rewrite !node_at_app by (rewrite length_app; lia). cbn [mbind result_bind].
    destruct fuel; cbn; [|rewrite bool_decide_false by lia]; by rewrite <-!app_assoc.
  - destruct fuel as [|fuel]; [cbn in Hf; lia|]. cbn [Block.push_level length]. rewrite bool_decide_true by lia.
    rewrite Nat.min_l by lia. rewrite (app_assoc pre a). cbn [app].
    rewrite (node_at_app (pre ++ a) _ _ (length pre + length a)) by (by rewrite length_app). cbn [mbind result_bind].
    change ((pre ++ a) ++ x :: y :: b ++ dn) with ((pre ++ a) ++ [x] ++ y :: b ++ dn).
    rewrite (app_assoc (pre ++ a) [x]), node_at_app by (rewrite !length_app; cbn; lia). cbn [mbind result_bind].
    specialize (IH fuel (a ++ [x; y]) (dn ++ [sha256sha256 (x ++ y)])). cbn in Hf.
    rewrite length_app in IH. cbn [length] in IH. rewrite <-!app_assoc in IH |- *. cbn [app up] in IH |- *.
    rewrite <-IH by lia. rewrite <-!app_assoc. f_equal. lia.
Qed.

(** The outer loop appends the levels above. *)
Lemma push_levels_spec fuel : forall pre l, Block.push_levels fuel (length pre) (length l) (pre ++ l) = Ok (pre ++ tower fuel l).
Proof.
  induction fuel as [|fuel IH]; intros pre l; [done|]. cbn [Block.push_levels tower]. case_bool_decide; [|done].
  pose proof (push_level_spec pre l (length l) [] []) as Hl. cbn [app length Nat.add] in Hl. rewrite !app_nil_r in Hl.
  rewrite Hl by lia. cbn [mbind result_bind]. specialize (IH (pre ++ l) (up l)). rewrite length_app, length_up, <-!app_assoc in IH.
  rewrite IH. done.
Qed.

(** The tree of a block is the tower of its hashes, the root its merkle root. *)
Lemma getMerkleTree_eq b hs : Block.getTransactionHashes b = Ok hs ->
  Block.getMerkleTree b = Ok (tower (length (Block.transactions b)) hs).
Proof.
  intros Hh. unfold Block.getMerkleTree. rewrite Hh. cbn [mbind result_bind]. unfold Block.getTransactionHashes in Hh.
  case_bool_decide as Hn; [by rewrite Hn; simplify_eq|].
  assert (length hs = length (Block.transactions b)) as <-; [|apply (push_levels_spec _ [])].
  clear Hn. revert hs Hh. generalize (Block.transactions b) as xs. induction xs as [|x xs IH]; intros hs Hh; cbn in Hh; [by simplify_eq|].
  destruct (Signing.getHash x); [|done]. cbn in Hh. destruct (Sighash.map_result Signing.getHash xs) as [hs'|]; [|done].
  cbn in Hh. simplify_eq. cbn. f_equal. by apply IH.
Qed.
End WithCrypto.
End BlockTree.
