(* ===== verification/MerkleProof.v ===== *)
(** * Partial merkle trees

    A filtered block proves that some transactions are in a block: flag bits and hashes, from which
    [_traverseMerkleTree] of [Blocks.v] computes the root.  This file has the reference of what a node
    sends ([build], as BIP 37 describes it) and the lemmas behind the theorems of [BlocksSpec.v]: what
    the traversal finds in what is built, what it can find in anything else, and what it does when
    hashes are missing. *)
From S2P Require Import Prelude JsNumber Encoding Script Base58 Transaction Blocks Merkle.
Local Open Scope Z_scope.
Local Open Scope js_scope.

(** ** The size of the tree *)
Module TreeSize.
Import MerkleBlock Tree.

Section WithCrypto.
Context `{Crypto}.

(** The length of a level: [n / 2^d], rounded up *)
Lemma zlen_level d l : zlen (level d l) = (zlen l + 2 ^ Z.of_nat d - 1) / 2 ^ Z.of_nat d.
Proof.
  induction d as [|d IH].
  - change (2 ^ Z.of_nat 0) with 1. rewrite Z.div_1_r. cbn. lia.
  - unfold zlen in *. rewrite level_S, length_up, Nat2Z.inj_div, Nat2Z.inj_add, IH. change (Z.of_nat 1) with 1. change (Z.of_nat 2) with 2.
    assert (0 < 2 ^ Z.of_nat d) as Hp by (apply Z.pow_pos_nonneg; lia).
    replace ((Z.of_nat (length l) + 2 ^ Z.of_nat d - 1) / 2 ^ Z.of_nat d + 1)
      with ((Z.of_nat (length l) + 2 ^ Z.of_nat d - 1 + 1 * 2 ^ Z.of_nat d) / 2 ^ Z.of_nat d) by (rewrite Z.div_add; lia).
    rewrite Z.div_div by lia. rewrite Nat2Z.inj_succ, Z.pow_succ_r, (Z.mul_comm (2 ^ Z.of_nat d)) by lia. f_equal. lia.
Qed.

(** A position of a level stands above at least one leaf. *)
Lemma level_pos d l pos : (pos < length (level d l))%nat <-> (pos * 2 ^ d < length l)%nat.
Proof.
  pose proof (zlen_level d l) as Hz. unfold zlen in Hz.
  assert (Z.of_nat (2 ^ d) = 2 ^ Z.of_nat d) as Hw by (by rewrite Nat2Z.inj_pow).
  assert (0 < 2 ^ Z.of_nat d) as Hp by (apply Z.pow_pos_nonneg; lia). rewrite <-Hw in *.
  revert Hz Hp. generalize (2 ^ d)%nat as w. clear Hw. intros w Hz Hp. split; intros Hlt.
  - pose proof (Z.mul_div_le (Z.of_nat (length l) + Z.of_nat w - 1) (Z.of_nat w) Hp). nia.
  - assert (Z.of_nat pos + 1 <= (Z.of_nat (length l) + Z.of_nat w - 1) / Z.of_nat w) by (apply Z.div_le_lower_bound; nia). lia.
Qed.

(** The width the code computes *)
Lemma calcTreeWidth_eq m l d : numTransactions m = zlen l -> zlen l <= 2 ^ 30 -> (d <= 30)%nat ->
  _calcTreeWidth m (Z.of_nat d) = zlen (level d l).
Proof.
  intros Hn Hl Hd. unfold _calcTreeWidth. pose proof (zlen_nonneg l).
  assert (Z.land (Z.of_nat d) 31 = Z.of_nat d) as ->.
  { change 31 with (Z.ones 5). rewrite Z.land_ones, Z.mod_small by lia. lia. }
  assert (1 <= 2 ^ Z.of_nat d <= 2 ^ 30) as Hp by (split; [apply (Z.pow_le_mono_r 2 0)|apply Z.pow_le_mono_r]; lia).
  rewrite Z.shiftl_1_l, (wrap32_small (2 ^ _)) by lia. rewrite wrap32_small by lia.
  by rewrite Z.shiftr_div_pow2, zlen_level, Hn by lia.
Qed.

(** The loop that finds the height stops at the first level of one hash. *)
Lemma tree_height_spec m e : forall fuel h, (h <= e < h + fuel)%nat -> _calcTreeWidth m (Z.of_nat e) <= 1 ->
  let d := tree_height fuel m h in
  (h <= d <= e)%nat /\ _calcTreeWidth m (Z.of_nat d) <= 1 /\ forall k, (h <= k < d)%nat -> 1 < _calcTreeWidth m (Z.of_nat k).
Proof.
  induction fuel as [|fuel IH]; intros h Hh He; [lia|]. cbn [tree_height].
  destruct (Z.gtb_spec (_calcTreeWidth m (Z.of_nat h)) 1) as [Hw|Hw]; [|repeat split; lia].
  assert (h <> e) by (intros ->; lia). destruct (IH (S h)) as (H1 & H2 & H3); [lia|done|]. repeat split; [lia..|done|].
  intros k Hk. destruct (decide (k = h)) as [->|]; [lia|]. apply H3. lia.
Qed.

(** Whatever the number of transactions, level thirty has one hash, by overflow if not by size. *)
Lemma width_30 m : 0 <= numTransactions m < 2 ^ 32 -> _calcTreeWidth m 30 <= 1 \/ _calcTreeWidth m 0 <= 1.
Proof.
  intros Hn. unfold _calcTreeWidth. change (Z.land 30 31) with 30. change (Z.land 0 31) with 0. change (wrap32 (Z.shiftl 1 30)) with (2 ^ 30).
  change (wrap32 (Z.shiftl 1 0)) with 1. rewrite !Z.shiftr_div_pow2 by lia. unfold wrap32. set (n := numTransactions m) in *. zlia.
Qed.

Lemma height_total m : 0 <= numTransactions m < 2 ^ 32 ->
  let d := _calcTreeHeight m in
  (d <= 30)%nat /\ _calcTreeWidth m (Z.of_nat d) <= 1 /\ forall k, (k < d)%nat -> 1 < _calcTreeWidth m (Z.of_nat k).
Proof.
  intros Hn. unfold _calcTreeHeight. destruct (width_30 m Hn) as [Hw|Hw].
  - destruct (tree_height_spec m 30 32 0) as (H1 & H2 & H3); [lia|done|]. repeat split; [lia|done|]. intros k Hk. apply H3. lia.
  - destruct (tree_height_spec m 0 32 0) as (H1 & H2 & H3); [lia|done|]. repeat split; [lia|done|]. intros k Hk. apply H3. lia.
Qed.

(** At the height the code computes, the reference has its root. *)
Lemma height_root m l : numTransactions m = zlen l -> 1 <= zlen l <= 2 ^ 30 ->
  (_calcTreeHeight m <= 30)%nat /\ level (_calcTreeHeight m) l = [merkle_root l].
Proof.
  intros Hn Hl. destruct (height_total m) as (H1 & H2 & H3); [lia|]. split; [done|]. set (d := _calcTreeHeight m) in *.
  rewrite (calcTreeWidth_eq m l) in H2 by (done || lia).
  assert (merkle_root l = merkle_root (level d l)) as ->.
  { apply merkle_root_level. intros e He. specialize (H3 e He). rewrite (calcTreeWidth_eq m l) in H3 by (done || lia). unfold zlen in H3. lia. }
  assert (0 < length (level d l))%nat as Hlen by (apply level_pos; unfold zlen in Hl; lia).
  destruct (level d l) as [|h [|]]; [cbn in Hlen; lia|done|]. unfold zlen in H2. cbn in H2. lia.
Qed.
End WithCrypto.
End TreeSize.

(** ** The reference proof *)
Module Partial.
Import MerkleBlock Tree TreeSize.

(** Flag bits in bytes, least significant bit first *)
Definition byte_of (bs : list bool) : Z := fold_right (fun b acc => Z.b2z b + 2 * acc) 0 bs.
Fixpoint pack (fuel : nat) (bs : list bool) : list Z :=
  match fuel, bs with
  | S fuel, _ :: _ => byte_of (take 8 bs) :: pack fuel (drop 8 bs)
  | _, _ => []
  end.

Section WithTree.
Context `{CryptoLaws}.
Variable l : list (list Z).
Variable ms : list bool.

Definition node (d pos : nat) : list Z := default [] (level d l !! pos).

(** Is a transaction below the node one to prove? *)
Fixpoint matched (d pos : nat) : bool :=
  match d with
  | O => nth pos ms false
  | S d => matched d (2 * pos) || matched d (2 * pos + 1)
  end.

(** The flag bits and hashes of a node: a node above no match, and a leaf, is sent; another one is
    replaced by what is below it. *)
Fixpoint build (d pos : nat) : list bool * list (list Z) :=
  match d with
  | O => ([matched O pos], [node O pos])
  | S e =>
      if matched d pos then
        let left := build e (2 * pos) in
        let right := if bool_decide (2 * pos + 1 < length (level e l))%nat then build e (2 * pos + 1) else ([], []) in
        (true :: left.1 ++ right.1, left.2 ++ right.2)
      else ([false], [node d pos])
  end.

(** The transactions a traversal of this proof reports *)
Fixpoint found (d pos : nat) : list (list Z) :=
  match d with
  | O => if matched O pos then [node O pos] else []
  | S e =>
      if matched d pos then
        found e (2 * pos) ++ (if bool_decide (2 * pos + 1 < length (level e l))%nat then found e (2 * pos + 1) else [])
      else []
  end.

Lemma node_S d pos : (2 * pos < length (level d l))%nat ->
  node (S d) pos = sha256sha256 (node d (2 * pos) ++
    (if bool_decide (2 * pos + 1 < length (level d l))%nat then node d (2 * pos + 1) else node d (2 * pos))).
Proof.
  intros Hp. unfold node. rewrite level_S. destruct (lookup_lt_is_Some_2 _ _ Hp) as (a & Ha).
  rewrite (up_lookup _ _ _ Ha), Ha. cbn [default option_fmap]. case_bool_decide as Hr.
  - by destruct (lookup_lt_is_Some_2 _ _ Hr) as (b & ->).
  - rewrite (proj2 (lookup_ge_None _ (2 * pos + 1)%nat)) by lia. done.
Qed.

Lemma node_level d pos : (pos < length (level d l))%nat -> node d pos ∈ level d l.
Proof.
  intros Hp. unfold node. destruct (lookup_lt_is_Some_2 _ _ Hp) as (a & Ha). rewrite Ha. by eapply list_elem_of_lookup_2.
Qed.

(** Hashes are 32 bytes at every level. *)
Definition hash_ok (h : list Z) : Prop := bytes_ok h /\ zlen h = 32.

Lemma up_ok k : Forall hash_ok (up k).
Proof.
  assert (forall b, hash_ok (sha256sha256 b)) as Hs by (split; [apply hash256_ok|apply hash256_length]).
  induction k as [|a|a b k IH] using pairs_ind; cbn [up]; [constructor|repeat constructor; apply Hs|constructor; [apply Hs|done]].
Qed.

Lemma level_ok d : Forall hash_ok l -> Forall hash_ok (level d l).
Proof. intros Hl. destruct d; [done|apply up_ok]. Qed.

Lemma node_ok d pos : Forall hash_ok l -> (pos < length (level d l))%nat -> hash_ok (node d pos).
Proof. intros Hl Hp. eapply Forall_forall; [by apply (level_ok d)|]. by apply node_level. Qed.

(** A child position is inside its level when its parent is. *)
Lemma left_pos d pos : (pos < length (level (S d) l))%nat -> (2 * pos < length (level d l))%nat.
Proof. rewrite level_S, length_up. intros Hp. pose proof (Nat.div_mod_eq (length (level d l) + 1) 2). lia. Qed.

(** A proof has no more hashes than flag bits, and than leaves below the node. *)
Lemma build_bits d pos : (length (build d pos).2 <= length (build d pos).1)%nat.
Proof.
  revert pos. induction d as [|d IH]; intros pos; [done|]. cbn [build]. case_match; [|done].
  cbn [fst snd length]. rewrite !length_app. pose proof (IH (2 * pos)%nat). pose proof (IH (2 * pos + 1)%nat).
  case_bool_decide; cbn [fst snd length]; lia.
Qed.

Definition leaves {A} (d pos : nat) (k : list A) : list A := take (2 ^ d) (drop (pos * 2 ^ d) k).

Lemma leaves_S {A} d pos (k : list A) : leaves (S d) pos k = leaves d (2 * pos) k ++ leaves d (2 * pos + 1) k.
Proof.
  unfold leaves. replace (2 ^ S d)%nat with (2 ^ d + 2 ^ d)%nat by (cbn; lia). rewrite <-take_take_drop, drop_drop. f_equal; [do 2 f_equal; lia|].
  do 2 f_equal. lia.
Qed.

Lemma leaves_nonempty d pos : (pos < length (level d l))%nat -> (1 <= length (leaves d pos l))%nat.
Proof.
  intros Hp%level_pos. unfold leaves. rewrite length_take, length_drop. assert (2 ^ d <> 0)%nat by (apply Nat.pow_nonzero; done). lia.
Qed.

Lemma leaves_outside {A} d pos (k : list A) : ~ (pos < length (level d l))%nat -> (length k <= length l)%nat -> leaves d pos k = [].
Proof. intros Hp Hk. rewrite level_pos in Hp. unfold leaves. rewrite drop_ge by lia. apply take_nil. Qed.

Lemma build_hashes d pos : (pos < length (level d l))%nat -> (length (build d pos).2 <= length (leaves d pos l))%nat.
Proof.
  revert pos. induction d as [|d IH]; intros pos Hp; [by apply leaves_nonempty in Hp|].
  cbn [build]. case_match; [|by apply leaves_nonempty in Hp]. cbn [fst snd]. rewrite leaves_S, !length_app.
  pose proof (IH _ (left_pos _ _ Hp)). case_bool_decide as Hr; [pose proof (IH _ Hr)|cbn [fst snd length]]; lia.
Qed.

(** *** The transactions a proof is built for *)

Definition picked (k : list (list Z * bool)) : list (list Z) := fst <$> filter (fun p => p.2 = true) k.

Lemma picked_app k k' : picked (k ++ k') = picked k ++ picked k'.
Proof. unfold picked. by rewrite filter_app, fmap_app. Qed.

Lemma leaf_pair pos : (pos < length l)%nat -> length ms = length l -> leaves 0 pos (zip l ms) = [(node 0 pos, matched 0 pos)].
Proof.
  intros Hp Hms. destruct (lookup_lt_is_Some_2 l pos Hp) as (x & Hx). destruct (lookup_lt_is_Some_2 ms pos) as (b & Hb); [lia|].
  unfold leaves. change (2 ^ 0)%nat with 1%nat. rewrite Nat.mul_1_r. unfold node. cbn [level Nat.iter nat_rect matched]. rewrite Hx. rewrite (nth_lookup_Some _ _ _ _ Hb).
  erewrite drop_S; [by cbn; rewrite take_0|]. by apply lookup_zip_Some.
Qed.

Lemma unmatched d : forall pos, length ms = length l -> matched d pos = false -> picked (leaves d pos (zip l ms)) = [].
Proof.
  induction d as [|d IH]; intros pos Hms Hm.
  - destruct (decide (pos < length (level 0 l))%nat) as [Hp|Hp].
    + by rewrite leaf_pair, Hm by done.
    + rewrite leaves_outside; [done|done|]. rewrite length_zip. lia.
  - cbn [matched] in Hm. apply orb_false_iff in Hm as [H1 H2]. by rewrite leaves_S, picked_app, !IH.
Qed.

Lemma found_picked d : forall pos, length ms = length l -> (pos < length (level d l))%nat ->
  found d pos = picked (leaves d pos (zip l ms)).
Proof.
  induction d as [|d IH]; intros pos Hms Hp.
  - rewrite leaf_pair by done. cbn [found]. by destruct (matched 0 pos).
  - cbn [found]. destruct (matched (S d) pos) eqn:Hm; [|by rewrite unmatched]. rewrite leaves_S, picked_app, IH by (by try apply left_pos).
    f_equal. case_bool_decide as Hr; [by apply IH|]. rewrite leaves_outside; [done|done|]. rewrite length_zip. lia.
Qed.

(** *** Reading the flag bits back *)

Lemma byte_of_range bs : (length bs <= 8)%nat -> 0 <= byte_of bs < 256.
Proof.
  intros Hl. assert (0 <= byte_of bs < 2 ^ Z.of_nat (length bs)) as Hb.
  { clear Hl. induction bs as [|b bs IH]; [done|]. cbn [byte_of fold_right length]. fold (byte_of bs).
    rewrite Nat2Z.inj_succ, Z.pow_succ_r by lia. destruct b; cbn [Z.b2z]; lia. }
  assert (2 ^ Z.of_nat (length bs) <= 2 ^ 8) by (apply Z.pow_le_mono_r; lia). lia.
Qed.

Lemma byte_of_bit bs : forall i b, bs !! i = Some b -> Z.testbit (byte_of bs) (Z.of_nat i) = b.
Proof.
  induction bs as [|c bs IH]; intros i b Hi; [done|]. cbn [byte_of fold_right]. fold (byte_of bs).
  destruct i as [|i]; cbn in Hi; simplify_eq.
  - rewrite Z.add_comm. apply Z.testbit_0_r.
  - rewrite Nat2Z.inj_succ, Z.add_comm, Z.testbit_succ_r by lia. by apply IH.
Qed.

Lemma pack_lookup fuel : forall bs k, (length bs <= fuel)%nat -> (8 * k < length bs)%nat ->
  pack fuel bs !! k = Some (byte_of (take 8 (drop (8 * k) bs))).
Proof.
  induction fuel as [|fuel IH]; intros bs k Hf Hk; [lia|]. destruct bs as [|b bs]; [cbn in Hk; lia|]. cbn [pack].
  destruct k as [|k]; [done|]. cbn [lookup list_lookup]. rewrite IH by (rewrite length_drop; cbn [length] in *; lia).
  rewrite drop_drop. do 4 f_equal. lia.
Qed.

Lemma length_pack fuel : forall bs, (length bs <= fuel)%nat -> (length bs <= 8 * length (pack fuel bs))%nat.
Proof.
  induction fuel as [|fuel IH]; intros bs Hf; [destruct bs; cbn in *; lia|]. destruct bs as [|b bs]; [cbn; lia|]. cbn [pack length].
  specialize (IH (drop 8 (b :: bs))). rewrite length_drop in IH. cbn [length] in IH, Hf |- *. lia.
Qed.

Lemma pack_bit m bs i b : flags m = pack (length bs) bs -> bs !! i = Some b -> flag_bit m (Z.of_nat i) = b.
Proof.
  intros Hf Hi. unfold flag_bit. pose proof (lookup_lt_Some _ _ _ Hi) as Hlt. rewrite Hf.
  rewrite (Z.shiftr_div_pow2 _ 3) by lia. change (2 ^ 3) with (Z.of_nat 8). rewrite <-Nat2Z.inj_div, Nat2Z.id.
  pose proof (Nat.div_mod_eq i 8) as Hdm. pose proof (Nat.mod_upper_bound i 8) as Hmod.
  rewrite (nth_lookup_Some _ _ _ _ (pack_lookup (length bs) bs (i / 8) (le_n _) ltac:(lia))).
  assert (Z.land (Z.of_nat i) 7 = Z.of_nat (i mod 8)) as ->.
  { change 7 with (Z.ones 3). rewrite Z.land_ones by lia. change (2 ^ 3) with (Z.of_nat 8). by rewrite <-Nat2Z.inj_mod. }
  pose proof (byte_of_range (take 8 (drop (8 * (i / 8)) bs)) ltac:(rewrite length_take; lia)).
  unfold uwrap32. rewrite Z.mod_small, Z.shiftr_spec, Z.add_0_l by lia. apply byte_of_bit.
  rewrite lookup_take_lt, lookup_drop by lia. by rewrite <-Hdm.
Qed.

(** *** What the traversal finds in a proof *)

(** The bits [bs] are the flag bits from [k] on; the hashes [hs] the hashes from [k] on, as far as
    there are any. *)
Definition bits_at (m : t) (k : Z) (bs : list bool) : Prop :=
  0 <= k /\ k + zlen bs <= 8 * zlen (flags m) /\ forall i b, bs !! i = Some b -> flag_bit m (k + Z.of_nat i) = b.
Definition hashes_at (m : t) (k : Z) (hs : list (list Z)) : Prop :=
  0 <= k <= zlen (hashes m)
  /\ forall i h s, hs !! i = Some h -> hashes m !! (Z.to_nat k + i)%nat = Some s -> s = Hex.hexSlice h.

Lemma bits_at_app m k bs bs' : bits_at m k (bs ++ bs') -> bits_at m k bs /\ bits_at m (k + zlen bs) bs'.
Proof.
  intros (Hk & Hn & Hb). rewrite zlen_app in Hn. pose proof (zlen_nonneg bs). pose proof (zlen_nonneg bs').
  repeat split; [lia..| |lia|lia|].
  - intros i b Hi. apply Hb. by apply lookup_app_l_Some.
  - intros i b Hi. replace (k + zlen bs + Z.of_nat i) with (k + Z.of_nat (length bs + i)) by (unfold zlen; lia).
    apply Hb. rewrite lookup_app_r by lia. by replace (length bs + i - length bs)%nat with i by lia.
Qed.

Lemma hashes_at_app m k hs hs' : hashes_at m k (hs ++ hs') ->
  hashes_at m k hs /\ (k + zlen hs <= zlen (hashes m) -> hashes_at m (k + zlen hs) hs').
Proof.
  intros (Hk & Hh). pose proof (zlen_nonneg hs). split.
  - split; [lia|]. intros i h s Hi. apply Hh. by apply lookup_app_l_Some.
  - intros Hle. split; [lia|]. intros i h s Hi Hs. apply (Hh (length hs + i)%nat).
    + rewrite lookup_app_r by lia. by replace (length hs + i - length hs)%nat with i by lia.
    + rewrite <-Hs. f_equal. unfold zlen in *. lia.
Qed.

(** A step of the traversal, at a node whose flag bit is [b] *)
Definition leaf_step (m : t) (d : nat) (b : bool) : js opts (option (list Z)) :=
  o ← js_get;
  if hashesUsed o >=? zlen (hashes m) then mret None
  else
    let hash := nth (Z.to_nat (hashesUsed o)) (hashes m) String.EmptyString in
    js_modify (fun o => o <| hashesUsed ::= Z.succ |>);;
    (if bool_decide (d = O) && b then js_modify (fun o => o <| txs ::= (fun l => l ++ [hash]) |>) else mret tt);;
    buf ← js_lift (Hex.hexWrite hash);
    mret (Some buf).

Definition next_bit (o : opts) : opts := o <| flagBitsUsed ::= Z.succ |>.

Lemma traverse_leaf m d pos b o : flagBitsUsed o <= 8 * zlen (flags m) -> flag_bit m (flagBitsUsed o) = b ->
  d = O \/ b = false -> _traverseMerkleTree m d pos o = leaf_step m d b (next_bit o).
Proof.
  intros Hk Hb Hd. destruct d as [|d]; cbn [_traverseMerkleTree]; js_look;
    (destruct (Z.gtb_spec (flagBitsUsed o) (zlen (flags m) * 8)); [lia|]); cbv zeta; js_set; rewrite Hb; [done|].
  destruct Hd as [?| ->]; [done|]. done.
Qed.

Lemma traverse_inner m d pos o : flagBitsUsed o <= 8 * zlen (flags m) -> flag_bit m (flagBitsUsed o) = true ->
  _traverseMerkleTree m (S d) pos o =
    (left ← _traverseMerkleTree m d (pos * 2);
     right ← (if pos * 2 + 1 <? _calcTreeWidth m (Z.of_nat d) then _traverseMerkleTree m d (pos * 2 + 1) else mret left);
     buf ← js_lift (concat2 left right);
     mret (Some (sha256sha256 buf))) (next_bit o).
Proof.
  intros Hk Hb. cbn [_traverseMerkleTree]. js_look.
  destruct (Z.gtb_spec (flagBitsUsed o) (zlen (flags m) * 8)); [lia|]. cbv zeta. js_set. rewrite Hb. done.
Qed.

(** What a leaf step does when there is a hash, and when there is none *)
Lemma leaf_step_some m d b o s : 0 <= hashesUsed o -> hashes m !! Z.to_nat (hashesUsed o) = Some s ->
  leaf_step m d b o = (buf ← Hex.hexWrite s; Ok (Some buf),
    o <| hashesUsed ::= Z.succ |> <| txs ::= (fun l => l ++ if bool_decide (d = O) && b then [s] else []) |>).
Proof.
  intros Ho Hs. unfold leaf_step. js_look. pose proof (lookup_lt_Some _ _ _ Hs) as Hlt. rewrite Z.geb_leb.
  destruct (Z.leb_spec (zlen (hashes m)) (hashesUsed o)); [unfold zlen in *; lia|]. cbv zeta.
  rewrite (nth_lookup_Some _ _ _ _ Hs). js_set. destruct o as [tx f h]. destruct (bool_decide (d = O) && b).
  - js_set. by destruct (Hex.hexWrite s).
  - etransitivity; [exact (js_bind_ok (mret tt : js opts unit) _ _ tt _ eq_refl)|]. unfold upd. cbn. rewrite app_nil_r. by destruct (Hex.hexWrite s).
Qed.

Lemma leaf_step_none m d b o : zlen (hashes m) <= hashesUsed o -> leaf_step m d b o = (Ok None, o).
Proof.
  intros Ho. unfold leaf_step. js_look. rewrite Z.geb_leb. by destruct (Z.leb_spec (zlen (hashes m)) (hashesUsed o)); [|lia].
Qed.

(** The shape of a proof follows the flag bit of its node. *)
Definition is_leaf (d pos : nat) : Prop := d = O \/ matched d pos = false.

Lemma build_leaf d pos : is_leaf d pos -> build d pos = ([matched d pos], [node d pos]).
Proof. intros [->|Hm]; [done|]. destruct d; [done|]. cbn [build]. by rewrite Hm. Qed.

Lemma found_leaf d pos : is_leaf d pos -> found d pos = if bool_decide (d = O) && matched d pos then [node d pos] else [].
Proof. intros [->|Hm]; [done|]. destruct d; [done|]. cbn [found]. by rewrite Hm. Qed.

Lemma head_bit m k b bs : bits_at m k (b :: bs) -> k <= 8 * zlen (flags m) /\ flag_bit m k = b /\ bits_at m (Z.succ k) bs.
Proof.
  intros Hb. pose proof Hb as (H1 & H2 & H3). pose proof (zlen_nonneg bs). rewrite zlen_cons in H2.
  split; [lia|]. split; [rewrite <-(Z.add_0_r k); by apply (H3 O)|]. by apply (bits_at_app m k [b] bs).
Qed.

Section Traversal.
Variable m : t.
Hypothesis Hn : numTransactions m = zlen l.
Hypothesis Hl : 1 <= zlen l <= 2 ^ 30.
Hypothesis Hok : Forall hash_ok l.

Lemma width_right d pos : (d <= 30)%nat ->
  (Z.of_nat pos * 2 + 1 <? _calcTreeWidth m (Z.of_nat d)) = bool_decide (2 * pos + 1 < length (level d l))%nat.
Proof.
  intros Hd. rewrite (calcTreeWidth_eq m l) by (done || lia). unfold zlen. case_bool_decide; [apply Z.ltb_lt|apply Z.ltb_ge]; lia.
Qed.

(** The traversal of a complete proof *)
Lemma traverse_build d : forall pos o, (d <= 30)%nat -> (pos < length (level d l))%nat ->
  bits_at m (flagBitsUsed o) (build d pos).1 -> hashes_at m (hashesUsed o) (build d pos).2 ->
  hashesUsed o + zlen (build d pos).2 <= zlen (hashes m) ->
  _traverseMerkleTree m d (Z.of_nat pos) o = (Ok (Some (node d pos)),
    mkOpts (txs o ++ (Hex.hexSlice <$> found d pos)) (flagBitsUsed o + zlen (build d pos).1) (hashesUsed o + zlen (build d pos).2)).
Proof.
  assert (forall d pos o, (pos < length (level d l))%nat -> is_leaf d pos ->
    bits_at m (flagBitsUsed o) (build d pos).1 -> hashes_at m (hashesUsed o) (build d pos).2 ->
    hashesUsed o + zlen (build d pos).2 <= zlen (hashes m) ->
    _traverseMerkleTree m d (Z.of_nat pos) o = (Ok (Some (node d pos)),
      mkOpts (txs o ++ (Hex.hexSlice <$> found d pos)) (flagBitsUsed o + zlen (build d pos).1) (hashesUsed o + zlen (build d pos).2))) as Hleaf.
  { clear d. intros d pos o Hpos Hd. rewrite (build_leaf _ _ Hd), (found_leaf _ _ Hd). cbn [fst snd].
    intros (Hk & Hbit & _)%head_bit (Hh0 & Hh) Hlen. change (zlen [node d pos]) with 1 in *. change (zlen [matched d pos]) with 1.
    rewrite (traverse_leaf _ _ _ _ _ Hk Hbit Hd).
    destruct (lookup_lt_is_Some_2 (hashes m) (Z.to_nat (hashesUsed o))) as (s & Hs); [unfold zlen in *; lia|].
    rewrite (leaf_step_some _ _ _ _ s) by (done || cbn; lia). specialize (Hh O _ s eq_refl). rewrite Nat.add_0_r in Hh. rewrite (Hh Hs).
    destruct (node_ok d pos Hok Hpos) as [Hb _]. rewrite Hex.hex_roundtrip by done. destruct o as [tx f h]. cbn.
    do 2 f_equal. by destruct (bool_decide (d = O) && matched d pos). }
  induction d as [|d IH]; intros pos o Hd Hpos Hbits Hhash Hlen; [apply Hleaf; by try left|].
  destruct (matched (S d) pos) eqn:Hm; [|apply Hleaf; by try right].
  cbn [build found] in *. rewrite Hm in *. cbn [fst snd] in *. apply head_bit in Hbits as (Hk & Hbit & Hbits).
  rewrite (traverse_inner _ _ _ _ Hk Hbit). apply bits_at_app in Hbits as [Hb1 Hb2]. apply hashes_at_app in Hhash as [Hh1 Hh2].
  rewrite zlen_app in Hlen. pose proof (left_pos d pos Hpos) as Hleft.
  replace (Z.of_nat pos * 2) with (Z.of_nat (2 * pos)) by lia.
  pose proof (zlen_nonneg (if bool_decide (2 * pos + 1 < length (level d l))%nat then build d (2 * pos + 1) else ([], [])).2).
  rewrite (js_bind_ok _ _ _ _ _ (IH (2 * pos)%nat (next_bit o) ltac:(lia) Hleft Hb1 Hh1 ltac:(change (hashesUsed (next_bit o)) with (hashesUsed o); lia))).
  replace (Z.of_nat (2 * pos)) with (Z.of_nat pos * 2) by lia. rewrite width_right by lia. rewrite node_S by done.
  case_bool_decide as Hr; cbn [fst snd] in *.
  - replace (Z.of_nat pos * 2 + 1) with (Z.of_nat (2 * pos + 1)) by lia. specialize (Hh2 ltac:(lia)).
    set (o1 := mkOpts _ _ _).
    rewrite (js_bind_ok _ _ _ _ _ (IH (2 * pos + 1)%nat o1 ltac:(lia) Hr Hb2 Hh2 ltac:(unfold o1; cbn [hashesUsed]; change (hashesUsed (next_bit o)) with (hashesUsed o); lia))). subst o1. destruct o as [tx f h]. cbn [js_lift concat2]. rewrite (js_lift_ok _ _ _ _ eq_refl).
    cbn. unfold mret, js_ret. rewrite fmap_app, zlen_cons, !zlen_app, <-app_assoc. do 2 f_equal; lia.
  - rewrite (js_bind_ok (mret _) _ _ _ _ eq_refl). cbn [concat2]. rewrite (js_lift_ok _ _ _ _ eq_refl). destruct o as [tx f h].
    cbn. unfold mret, js_ret. rewrite !app_nil_r, zlen_cons. do 2 f_equal; change (zlen (@nil (list Z))) with 0; lia.
Qed.

(** *** What it does when hashes are missing *)

Lemma hashes_at_end hs : hashes_at m (zlen (hashes m)) hs.
Proof.
  pose proof (zlen_nonneg (hashes m)). split; [lia|]. intros i h s _ Hs%lookup_lt_Some. unfold zlen in Hs. lia.
Qed.

Lemma build_nonempty d pos : (1 <= length (build d pos).2)%nat.
Proof.
  revert pos. induction d as [|d IH]; intros pos; [done|]. cbn [build]. case_match; [|done]. cbn [fst snd]. rewrite length_app.
  specialize (IH (2 * pos)%nat). lia.
Qed.

(** A leaf without a hash is [null]; the node above it throws. *)
Lemma traverse_short d : forall pos o, (d <= 30)%nat -> (pos < length (level d l))%nat ->
  bits_at m (flagBitsUsed o) (build d pos).1 -> hashes_at m (hashesUsed o) (build d pos).2 ->
  zlen (hashes m) < hashesUsed o + zlen (build d pos).2 ->
  (is_leaf d pos /\ hashesUsed o = zlen (hashes m) /\ _traverseMerkleTree m d (Z.of_nat pos) o = (Ok None, next_bit o))
  \/ exists o', _traverseMerkleTree m d (Z.of_nat pos) o = (Throw TypeError, o').
Proof.
  assert (forall d pos o, is_leaf d pos -> bits_at m (flagBitsUsed o) (build d pos).1 -> hashes_at m (hashesUsed o) (build d pos).2 ->
    zlen (hashes m) < hashesUsed o + zlen (build d pos).2 ->
    is_leaf d pos /\ hashesUsed o = zlen (hashes m) /\ _traverseMerkleTree m d (Z.of_nat pos) o = (Ok None, next_bit o)) as Hleaf.
  { clear d. intros d pos o Hd. rewrite (build_leaf _ _ Hd). cbn [fst snd]. intros (Hk & Hbit & _)%head_bit (Hh0 & _) Hlen.
    change (zlen [node d pos]) with 1 in Hlen. assert (hashesUsed o = zlen (hashes m)) as Heq by lia.
    split_and!; [done..|]. rewrite (traverse_leaf _ _ _ _ _ Hk Hbit Hd). apply leaf_step_none. cbn. lia. }
  induction d as [|d IH]; intros pos o Hd Hpos Hbits Hhash Hlen; [left; apply Hleaf; by try left|].
  destruct (matched (S d) pos) eqn:Hm; [right|left; apply Hleaf; by try right].
  cbn [build] in *. rewrite Hm in *. cbn [fst snd] in *. apply head_bit in Hbits as (Hk & Hbit & Hbits).
  rewrite (traverse_inner _ _ _ _ Hk Hbit). apply bits_at_app in Hbits as [Hb1 Hb2]. apply hashes_at_app in Hhash as [Hh1 Hh2].
  rewrite zlen_app in Hlen. pose proof (left_pos d pos Hpos) as Hleft.
  replace (Z.of_nat pos * 2) with (Z.of_nat (2 * pos)) by lia.
  set (o0 := next_bit o) in *. change (hashesUsed o) with (hashesUsed o0) in *. change (Z.succ (flagBitsUsed o)) with (flagBitsUsed o0) in *.
  destruct (Z.le_gt_cases (hashesUsed o0 + zlen (build d (2 * pos)).2) (zlen (hashes m))) as [Hfull|Hshort].
  - specialize (Hh2 Hfull). rewrite (js_bind_ok _ _ _ _ _ (traverse_build d (2 * pos)%nat o0 ltac:(lia) Hleft Hb1 Hh1 Hfull)).
    replace (Z.of_nat (2 * pos)) with (Z.of_nat pos * 2) by lia. rewrite width_right by lia.
    case_bool_decide as Hr; cbn [fst snd] in *; [|change (zlen []) with 0 in Hlen; lia].
    replace (Z.of_nat pos * 2 + 1) with (Z.of_nat (2 * pos + 1)) by lia. set (o1 := mkOpts _ _ _).
    destruct (IH (2 * pos + 1)%nat o1 ltac:(lia) Hr Hb2 Hh2 ltac:(unfold o1; cbn [hashesUsed]; lia)) as [(_ & _ & He)|(o2 & He)].
    + rewrite (js_bind_ok _ _ _ _ _ He). by eexists.
    + rewrite (js_bind_throw _ _ _ _ _ He). by eexists.
  - destruct (IH (2 * pos)%nat o0 ltac:(lia) Hleft Hb1 Hh1 ltac:(lia)) as [(Hlf & Hend & He)|(o2 & He)];
      [|rewrite (js_bind_throw _ _ _ _ _ He); by eexists].
    rewrite (js_bind_ok _ _ _ _ _ He). replace (Z.of_nat (2 * pos)) with (Z.of_nat pos * 2) by lia. rewrite width_right by lia.
    case_bool_decide as Hr; cbn [fst snd] in *; [|by eexists].
    replace (Z.of_nat pos * 2 + 1) with (Z.of_nat (2 * pos + 1)) by lia.
    rewrite (build_leaf _ _ Hlf) in Hb2. cbn [fst] in Hb2. pose proof (build_nonempty d (2 * pos + 1)) as Hne.
    destruct (IH (2 * pos + 1)%nat (next_bit o0) ltac:(lia) Hr) as [(_ & _ & He')|(o2 & He')].
    + exact Hb2.
    + change (hashesUsed (next_bit o0)) with (hashesUsed o0). rewrite Hend. apply hashes_at_end.
    + change (hashesUsed (next_bit o0)) with (hashesUsed o0). unfold zlen in *. lia.
    + rewrite (js_bind_ok _ _ _ _ _ He'). by eexists.
    + rewrite (js_bind_throw _ _ _ _ _ He'). by eexists.
Qed.

(** *** What it can find in anything else *)

(** The strings the traversal hashes: one for each inner node below which it looks *)
Fixpoint hashed_strings (d : nat) (pos : Z) (o : opts) : list (list Z) :=
  match d with
  | O => []
  | S e =>
      if (flagBitsUsed o <=? 8 * zlen (flags m)) && flag_bit m (flagBitsUsed o) then
        match _traverseMerkleTree m e (pos * 2) (next_bit o) with
        | (Ok (Some a), o1) =>
            hashed_strings e (pos * 2) (next_bit o) ++
            if pos * 2 + 1 <? _calcTreeWidth m (Z.of_nat e) then
              match _traverseMerkleTree m e (pos * 2 + 1) o1 with
              | (Ok (Some b), _) => hashed_strings e (pos * 2 + 1) o1 ++ [a ++ b]
              | _ => []
              end
            else [a ++ a]
        | _ => []
        end
      else []
  end.

(** No string of the one list has the digest of a different string of the other. *)
Definition no_collision (us vs : list (list Z)) : Prop :=
  Forall (fun u => Forall (fun v => sha256sha256 u = sha256sha256 v -> u = v) vs) us.

Lemma no_collision_in us vs u v : no_collision us vs -> u ∈ us -> v ∈ vs -> sha256sha256 u = sha256sha256 v -> u = v.
Proof. intros Hc Hu Hv. unfold no_collision in Hc. rewrite Forall_forall in Hc. specialize (Hc u Hu). rewrite Forall_forall in Hc. by apply Hc. Qed.

Lemma no_collision_mono us us' vs : us' ⊆ us -> no_collision us vs -> no_collision us' vs.
Proof. unfold no_collision. rewrite !Forall_forall. auto. Qed.

Definition in_tree (s : string) : Prop := exists x, x ∈ l /\ Hex.hexWrite s = Ok x.

(** A traversal only appends to the transactions found, and returns 32 bytes. *)
Lemma leaf_step_inv d b o r o' : 0 <= hashesUsed o -> leaf_step m d b o = (Ok (Some r), o') -> exists s,
  hashes m !! Z.to_nat (hashesUsed o) = Some s /\ Hex.hexWrite s = Ok r
  /\ o' = o <| hashesUsed ::= Z.succ |> <| txs ::= (fun l => l ++ if bool_decide (d = O) && b then [s] else []) |>.
Proof.
  intros Ho He. destruct (hashes m !! Z.to_nat (hashesUsed o)) as [s|] eqn:Hs.
  - rewrite (leaf_step_some _ _ _ _ _ Ho Hs) in He. exists s. destruct (Hex.hexWrite s); by simplify_eq/=.
  - rewrite leaf_step_none in He by (apply lookup_ge_None in Hs; unfold zlen; lia). done.
Qed.

(** What a successful traversal went through *)
Lemma traverse_inv d pos o r o' : 0 <= hashesUsed o -> _traverseMerkleTree m d pos o = (Ok (Some r), o') ->
  (exists b, (d = O \/ b = false) /\ leaf_step m d b (next_bit o) = (Ok (Some r), o'))
  \/ exists e a b o1, d = S e /\ (flagBitsUsed o <=? 8 * zlen (flags m)) && flag_bit m (flagBitsUsed o) = true
       /\ _traverseMerkleTree m e (pos * 2) (next_bit o) = (Ok (Some a), o1)
       /\ (if pos * 2 + 1 <? _calcTreeWidth m (Z.of_nat e) then _traverseMerkleTree m e (pos * 2 + 1) o1 else (Ok (Some a), o1)) = (Ok (Some b), o')
       /\ r = sha256sha256 (a ++ b).
Proof.
  intros Ho He. assert (flagBitsUsed o <= 8 * zlen (flags m)) as Hk.
  { destruct (Z.le_gt_cases (flagBitsUsed o) (8 * zlen (flags m))) as [?|Hgt]; [done|]. exfalso. revert He.
    destruct d; cbn [_traverseMerkleTree]; js_look; destruct (Z.gtb_spec (flagBitsUsed o) (zlen (flags m) * 8)); (done || lia). }
  destruct (flag_bit m (flagBitsUsed o)) eqn:Hb; [destruct d as [|d]|].
  - left. exists true. split; [by left|]. by rewrite <-(traverse_leaf m 0 pos true o Hk Hb (or_introl eq_refl)).
  - right. rewrite (traverse_inner _ _ _ _ Hk Hb) in He. unfold mbind at 1, js_bind at 1 in He.
    destruct (_traverseMerkleTree m d (pos * 2) (next_bit o)) as [[a|] o1] eqn:Ha; [|done].
    unfold mbind at 1, js_bind at 1 in He.
    destruct (pos * 2 + 1 <? _calcTreeWidth m (Z.of_nat d)) eqn:Hw.
    + destruct (_traverseMerkleTree m d (pos * 2 + 1) o1) as [[b|] o2] eqn:Hright; [|done].
      destruct a as [a|], b as [b|]; try done.
      change ((Ok (Some (sha256sha256 (a ++ b))), o2) = (Ok (Some r), o')) in He. simplify_eq. exists d, a, b, o1. by rewrite Hw, (proj2 (Z.leb_le _ _) Hk).
    + destruct a as [a|]; [|done]. change ((Ok (Some (sha256sha256 (a ++ a))), o1) = (Ok (Some r), o')) in He. simplify_eq. exists d, a, a, o'. by rewrite Hw, (proj2 (Z.leb_le _ _) Hk).
  - left. exists false. split; [by right|]. by rewrite <-(traverse_leaf m d pos false o Hk Hb (or_intror eq_refl)).
Qed.

Lemma hexWrite_length : forall s b, Hex.hexWrite s = Ok b -> (2 * length b)%nat = String.length s.
Proof.
  fix IH 1. intros [|c1 [|c2 s]] b Hb; cbn in Hb; [by simplify_eq|done|].
  destruct (Hex.parse_pair c1 c2); [|done]. destruct (Hex.hexWrite s) as [b'|] eqn:Hs; [|done]. cbn in Hb. simplify_eq. cbn [length String.length].
  rewrite <-(IH s b' Hs). lia.
Qed.

(** The texts of hashes have 64 digits. *)
Hypothesis Htext : Forall (fun s => String.length s = 64%nat) (hashes m).

Lemma traverse_grows d : forall pos o r o', 0 <= hashesUsed o -> _traverseMerkleTree m d pos o = (Ok (Some r), o') ->
  length r = 32%nat /\ hashesUsed o < hashesUsed o'.
Proof.
  induction d as [|d IH]; intros pos o r o' Ho He; (destruct (traverse_inv _ _ _ _ _ Ho He) as [(b & _ & Hs)|(e & a & b & o1 & Hd & _ & Ha & Hb & ->)];
    [apply leaf_step_inv in Hs as (s & Hs & Hr & ->); [|done]; split; [|destruct o; cbn; lia];
     apply hexWrite_length in Hr; pose proof (proj1 (Forall_lookup _ _) Htext _ _ Hs) as Hlen; cbn beta in Hlen; lia|]); [done|].
  simplify_eq. split; [pose proof (hash256_length (a ++ b)) as Hz; unfold zlen in Hz; lia|].
  apply IH in Ha as [_ Ha]; [|done]. change (hashesUsed (next_bit o)) with (hashesUsed o) in Ha.
  destruct (_ <? _); [|by simplify_eq]. apply IH in Hb as [_ Hb]; lia.
Qed.

Lemma app_32 (a b c e : list Z) : length a = 32%nat -> length c = 32%nat -> a ++ b = c ++ e -> a = c /\ b = e.
Proof. intros Ha Hc He. apply app_inj_1 in He; [done|lia]. Qed.

(** The string of a node of the tree is among those of the tree. *)
Lemma node_string h d pos : (d < h)%nat -> (2 * pos < length (level d l))%nat ->
  node d (2 * pos) ++ (if bool_decide (2 * pos + 1 < length (level d l))%nat then node d (2 * pos + 1) else node d (2 * pos))
  ∈ tree_strings h l.
Proof.
  intros Hd Hp. apply (pairs_tree h d); [done|]. apply (list_elem_of_lookup_2 _ pos).
  destruct (lookup_lt_is_Some_2 _ _ Hp) as (a & Ha). rewrite (pairs_lookup _ _ _ Ha). unfold node. rewrite Ha. cbn [default].
  case_bool_decide as Hr; [by destruct (lookup_lt_is_Some_2 _ _ Hr) as (b & ->)|]. by rewrite (proj2 (lookup_ge_None _ (2 * pos + 1)%nat)) by lia.
Qed.

(** A traversal that arrives at a node of the tree found transactions of the tree only, unless a string
    it hashes collides with one of the tree. *)
Lemma traverse_sound h d : forall pos o r o', (d <= 30)%nat -> (d <= h)%nat -> (pos < length (level d l))%nat -> 0 <= hashesUsed o ->
  no_collision (hashed_strings d (Z.of_nat pos) o) (tree_strings h l) ->
  _traverseMerkleTree m d (Z.of_nat pos) o = (Ok (Some r), o') -> r = node d pos ->
  exists new, txs o' = txs o ++ new /\ Forall in_tree new.
Proof.
  induction d as [|d IH]; intros pos o r o' Hd Hdh Hpos Ho Hc He Hr.
  - destruct (traverse_inv _ _ _ _ _ Ho He) as [(b & _ & Hs)|(e & a & b & o1 & ? & _)]; [|done].
    apply leaf_step_inv in Hs as (s & Hs & Hw & ->); [|done]. eexists. split; [by destruct o|].
    destruct b; [|constructor]. cbn. constructor; [|constructor]. exists r. split; [|done]. rewrite Hr. by apply (node_level 0).
  - destruct (traverse_inv _ _ _ _ _ Ho He) as [(b & [?| ->] & Hs)|(e & a & b & o1 & Hde & Hbit & Ha & Hb & Hrr)]; [done| |].
    { apply leaf_step_inv in Hs as (s & Hs & Hw & ->); [|done]. exists []. split; [by destruct o|constructor]. }
    injection Hde as <-. cbn [hashed_strings] in Hc. rewrite Hbit, Ha in Hc.
    pose proof (left_pos _ _ Hpos) as Hleft. rewrite width_right in Hb, Hc by lia. rewrite Hrr, node_S in Hr by done.
    assert (length (node d (2 * pos)) = 32%nat) as Hl32 by (pose proof (proj2 (node_ok _ _ Hok Hleft)) as Hz; unfold zlen in Hz; lia).
    destruct (traverse_grows _ _ (next_bit o) _ _ Ho Ha) as [Ha32 Hgrow]. change (hashesUsed (next_bit o)) with (hashesUsed o) in Hgrow.
    eapply no_collision_in in Hr; [|exact Hc| |by apply (node_string h)].
    2:{ apply elem_of_app. right. case_bool_decide; [rewrite Hb; apply elem_of_app; right|simplify_eq]; by apply list_elem_of_singleton. }
    apply app_32 in Hr as [-> Hbr]; [|done..]. replace (Z.of_nat pos * 2) with (Z.of_nat (2 * pos)) in * by lia.
    edestruct (IH (2 * pos)%nat (next_bit o)) as (n1 & H1 & Hf1); [lia..|done|done| |exact Ha|done|].
    { eapply no_collision_mono; [|exact Hc]. set_solver. }
    case_bool_decide as Hright; [|simplify_eq; by exists n1].
    rewrite Hb in Hc. replace (Z.of_nat (2 * pos) + 1) with (Z.of_nat (2 * pos + 1)) in Hb, Hc by lia. subst b.
    edestruct (IH (2 * pos + 1)%nat o1) as (n2 & H2 & Hf2); [lia..|done|lia| |exact Hb|done|].
    { eapply no_collision_mono; [|exact Hc]. set_solver. }
    exists (n1 ++ n2). rewrite H2, H1, app_assoc. split; [done|by apply Forall_app].
Qed.

End Traversal.
End WithTree.
End Partial.
