(* ===== verification/BlocksSpec.v ===== *)
(** * Blocks: the theorems

    What [Blocks.v] guarantees: wire forms are read back; the root of a block is the merkle root of
    its transactions' hashes; a filtered block built for a set of transactions is accepted and reports
    exactly these; whatever is accepted reports transactions of the block only, when none of the
    strings it hashes collides with one of the block's tree;
    and what the code does with missing hashes, huge counts, duplicated transactions and stale
    identifiers. *)
From S2P Require Import Prelude JsNumber Encoding Script Base58 Keys Transaction Blocks Merkle MerkleProof.
Local Open Scope Z_scope.
Local Open Scope js_scope.

(** ** Wire forms *)
Module BlockFormat.
Import Codec WireFormat Partial.

Lemma writes_then b f w : writes f w -> writes (fun bw => f (BufferWriter.write b bw)) (b ++ w).
Proof. intros Hf. exact (writes_bind (fun bw => Ok (BufferWriter.write b bw)) f b w (writes_write b) Hf). Qed.

Definition wf_header (h : BlockHeader.t) : Prop :=
  u32 (BlockHeader.version h) /\ hash_ok (BlockHeader.prevHash h) /\ hash_ok (BlockHeader.merkleRoot h)
  /\ u32 (BlockHeader.time h) /\ u32 (BlockHeader.bits h) /\ u32 (BlockHeader.nonce h).

Definition header_bytes (h : BlockHeader.t) : list Z :=
  le4 (BlockHeader.version h) ++ BlockHeader.prevHash h ++ BlockHeader.merkleRoot h
  ++ le4 (BlockHeader.time h) ++ le4 (BlockHeader.bits h) ++ le4 (BlockHeader.nonce h).

(** A header as it is read: without a cached identifier *)
Definition fresh_header (h : BlockHeader.t) : BlockHeader.t := h <| BlockHeader._id := None |>.

Lemma header_codec h : wf_header h ->
  writes (BlockHeader.toBufferWriter h) (header_bytes h) /\ reads BlockHeader.fromBufferReader (header_bytes h) (fresh_header h).
Proof.
  intros (Hv & [_ Hp] & [_ Hm] & Ht & Hb & Hn). split.
  - apply writes_bind; [by apply writes_u32|].
    pose (rest := fun bw => bw ← BufferWriter.writeUInt32LE (BlockHeader.time h) bw;
      bw ← BufferWriter.writeUInt32LE (BlockHeader.bits h) bw; BufferWriter.writeUInt32LE (BlockHeader.nonce h) bw).
    apply (writes_then (BlockHeader.prevHash h) (fun bw => rest (BufferWriter.write (BlockHeader.merkleRoot h) bw))).
    apply (writes_then (BlockHeader.merkleRoot h) rest). apply writes_bind; [by apply writes_u32|]. apply writes_bind; by apply writes_u32.
  - unfold header_bytes. apply reads_bind with (v := BlockHeader.version h); [by apply reads_u32|].
    apply reads_bind with (v := BlockHeader.prevHash h); [by apply reads_read|].
    apply reads_bind with (v := BlockHeader.merkleRoot h); [by apply reads_read|].
    apply reads_bind with (v := BlockHeader.time h); [by apply reads_u32|].
    apply reads_bind with (v := BlockHeader.bits h); [by apply reads_u32|]. rewrite <-(app_nil_r (le4 (BlockHeader.nonce h))).
    apply reads_bind with (v := BlockHeader.nonce h); [by apply reads_u32|apply reads_ret].
Qed.

Lemma header_toBuffer h : wf_header h -> BlockHeader.toBuffer h = Ok (header_bytes h).
Proof. intros Hh. by apply (writes_concat (BlockHeader.toBufferWriter h)), header_codec. Qed.

Lemma zlen_header_bytes h : wf_header h -> zlen (header_bytes h) = 80.
Proof. intros (_ & [_ Hp] & [_ Hm] & _). unfold header_bytes. by rewrite !zlen_app, Hp, Hm, !zlen_le4. Qed.

Definition wf_block (b : Block.t) : Prop :=
  wf_header (Block.header b) /\ Forall wf_tx (Block.transactions b) /\ zlen (Block.transactions b) < 2 ^ 30.

Definition block_bytes (b : Block.t) : list Z :=
  header_bytes (Block.header b) ++ varint_bytes (zlen (Block.transactions b)) ++ (Block.transactions b ≫= tx_bytes).

(** What is left of a block once serialized and parsed *)
Definition fresh_block (b : Block.t) : Block.t :=
  Block.mk (fresh_header (Block.header b)) (strip <$> Block.transactions b) None.

Lemma block_writes b : wf_block b -> writes (Block.toBufferWriter b) (block_bytes b).
Proof.
  intros (Hh & Ht & Hn). pose proof (zlen_nonneg (Block.transactions b)). unfold Block.toBufferWriter, block_bytes. rewrite header_toBuffer by done. cbn [mbind result_bind].
  apply (writes_then _ (fun bw => bw ← BufferWriter.writeVarintNum (zlen (Block.transactions b)) bw;
    Transaction.each_write Transaction.toBufferWriter (Block.transactions b) bw)).
  apply writes_bind; [apply writes_varint; lia|].
  apply (each_codec Transaction.toBufferWriter Transaction.fromBufferReader strip tx_bytes). eapply Forall_impl; [done|].
  intros x Hx. split; [by apply tx_writes|by apply tx_reads].
Qed.

Lemma block_reads b : wf_block b -> reads Block.fromBufferReader (block_bytes b) (fresh_block b).
Proof.
  intros (Hh & Ht & Hn) r k Hat. pose proof (zlen_nonneg (Block.transactions b)).
  destruct (each_codec Transaction.toBufferWriter Transaction.fromBufferReader strip tx_bytes (Block.transactions b)) as [_ Hr].
  { eapply Forall_impl; [done|]. intros x Hx. split; [by apply tx_writes|by apply tx_reads]. }
  pose proof (each_length tx_bytes (Block.transactions b) (fun x => proj1 (tx_bytes_length x))) as Hsize.
  pose proof (ReaderLemmas.at_len _ _ Hat) as Hlen. unfold block_bytes in Hlen. rewrite !zlen_app, zlen_header_bytes, zlen_varint_bytes in Hlen by done.
  pose proof (zlen_nonneg k). pose proof (varint_size_bound (zlen (Block.transactions b))). assert (0 <= BufferReader.pos r) as Hp by apply Hat.
  unfold Block.fromBufferReader. js_look.
  rewrite (not_finished r _ Hat) by (unfold block_bytes; rewrite !zlen_app, zlen_header_bytes, zlen_varint_bytes by done; lia).
  rewrite (js_lift_ok _ _ _ tt eq_refl). cbv beta zeta.
  match goal with |- ?m r = _ => enough (reads m (block_bytes b) (fresh_block b)) as Hm by exact (Hm r k Hat) end. unfold block_bytes.
  apply reads_bind with (v := fresh_header (Block.header b)); [by apply header_codec|].
  apply reads_bind with (v := zlen (Block.transactions b)); [apply reads_varint; lia|].
  rewrite <-(app_nil_r (mbind tx_bytes _)). apply reads_bind with (v := strip <$> Block.transactions b); [|apply reads_ret].
  apply Hr. unfold zlen in *. lia.
Qed.

(** *** Filtered blocks *)

(** The hashes [hs] are those of the block, in text. *)
Definition wf_filtered (m : MerkleBlock.t) (hs : list (list Z)) : Prop :=
  wf_header (MerkleBlock.header m) /\ u32 (MerkleBlock.numTransactions m)
  /\ MerkleBlock.hashes m = Hex.hexSlice <$> hs /\ Forall hash_ok hs /\ zlen hs < 2 ^ 30
  /\ bytes_ok (MerkleBlock.flags m) /\ zlen (MerkleBlock.flags m) < 2 ^ 30.

Definition filtered_bytes (m : MerkleBlock.t) (hs : list (list Z)) : list Z :=
  header_bytes (MerkleBlock.header m) ++ le4 (MerkleBlock.numTransactions m) ++ varint_bytes (zlen hs) ++ (hs ≫= (fun h => h))
  ++ varint_bytes (zlen (MerkleBlock.flags m)) ++ MerkleBlock.flags m.

Definition fresh_filtered (m : MerkleBlock.t) : MerkleBlock.t :=
  MerkleBlock.new (fresh_header (MerkleBlock.header m)) (MerkleBlock.numTransactions m) (MerkleBlock.hashes m) (MerkleBlock.flags m).

Lemma writes_hashes hs : Forall hash_ok hs ->
  writes (Transaction.each_write (fun hash bw => buf ← Hex.hexWrite hash; Ok (BufferWriter.write buf bw)) (Hex.hexSlice <$> hs)) (hs ≫= (fun h => h)).
Proof.
  induction 1 as [|h hs [Hh _] _ IH]; [apply writes_ret|]. apply (writes_bind (fun bw => buf ← Hex.hexWrite _; Ok (BufferWriter.write buf bw))); [|done].
  rewrite Hex.hex_roundtrip by done. apply writes_write.
Qed.

Lemma writes_flags fs : bytes_ok fs -> writes (Transaction.each_write BufferWriter.writeUInt8 fs) fs.
Proof.
  induction 1 as [|f fs Hf _ IH]; [apply writes_ret|]. apply (writes_bind _ _ [f]); [|done]. by apply writes_result, writeUInt8_ok.
Qed.

Lemma reads_each {A B} (m : js BufferReader.t B) (bytes_of : A -> list Z) (g : A -> B) (l : list A) :
  Forall (fun x => reads m (bytes_of x) (g x)) l -> reads (MerkleBlock.read_each (length l) m) (l ≫= bytes_of) (g <$> l).
Proof.
  induction 1 as [|x l Hx _ IH]; [apply reads_ret|]. cbn [length MerkleBlock.read_each mbind list_bind fmap list_fmap].
  apply reads_bind with (v := g x); [done|]. rewrite <-(app_nil_r (mbind bytes_of l)). apply reads_bind with (v := g <$> l); [done|apply reads_ret].
Qed.

Lemma reads_hashes hs : Forall hash_ok hs ->
  reads (MerkleBlock.read_each (Z.to_nat (zlen hs)) (buf ← BufferReader.read 32; mret (Hex.hexSlice buf))) (hs ≫= (fun h => h)) (Hex.hexSlice <$> hs).
Proof.
  intros Hhs. unfold zlen. rewrite Nat2Z.id. apply reads_each. eapply Forall_impl; [exact Hhs|]. intros h [_ Hh].
  rewrite <-(app_nil_r h) at 1. apply reads_bind with (v := h); [by apply reads_read|apply reads_ret].
Qed.

Lemma reads_u8 b : reads BufferReader.readUInt8 [b] b.
Proof. intros r l Hat. by rewrite (ReaderLemmas.readUInt8_at r b l Hat). Qed.

Lemma reads_flags fs : reads (MerkleBlock.read_each (Z.to_nat (zlen fs)) BufferReader.readUInt8) fs fs.
Proof.
  unfold zlen. rewrite Nat2Z.id. pose proof (reads_each BufferReader.readUInt8 (fun b => [b]) (fun b => b) fs) as Hr.
  rewrite list_fmap_id in Hr. replace (fs ≫= (fun b => [b])) with fs in Hr.
  - apply Hr, Forall_forall. intros b _. apply reads_u8.
  - clear. induction fs as [|f fs IH]; [done|]. change ((f :: fs) ≫= (fun b => [b])) with (f :: (fs ≫= (fun b => [b]))). by rewrite <-IH.
Qed.

Lemma filtered_writes m hs : wf_filtered m hs -> writes (MerkleBlock.toBufferWriter m) (filtered_bytes m hs).
Proof.
  intros (Hh & Hn & Hhs & Hok & Hl & Hf & Hfl). pose proof (zlen_nonneg hs). pose proof (zlen_nonneg (MerkleBlock.flags m)).
  unfold MerkleBlock.toBufferWriter, filtered_bytes. rewrite header_toBuffer, Hhs, SighashLemmas.zlen_fmap by done. cbn [mbind result_bind].
  apply (writes_then _ (fun bw => bw ← BufferWriter.writeUInt32LE (MerkleBlock.numTransactions m) bw; _)).
  apply writes_bind; [by apply writes_u32|]. apply writes_bind; [apply writes_varint; lia|].
  apply writes_bind; [by apply writes_hashes|]. apply writes_bind; [apply writes_varint; lia|by apply writes_flags].
Qed.

Lemma filtered_reads m hs : wf_filtered m hs -> reads MerkleBlock.fromBufferReader (filtered_bytes m hs) (fresh_filtered m).
Proof.
  intros (Hh & Hn & Hhs & Hok & Hl & Hf & Hfl) r k Hat. pose proof (zlen_nonneg hs). pose proof (zlen_nonneg (MerkleBlock.flags m)).
  unfold MerkleBlock.fromBufferReader. js_look.
  rewrite (not_finished r _ Hat).
  2:{ unfold filtered_bytes. rewrite !zlen_app, zlen_header_bytes, zlen_le4, !zlen_varint_bytes by done. pose proof (varint_size_bound (zlen hs)).
      pose proof (varint_size_bound (zlen (MerkleBlock.flags m))). pose proof (zlen_nonneg k). pose proof (zlen_nonneg (hs ≫= (fun h => h))). lia. }
  rewrite (js_lift_ok _ _ _ tt eq_refl). cbv beta zeta.
  match goal with |- ?x r = _ => enough (reads x (filtered_bytes m hs) (fresh_filtered m)) as Hm by exact (Hm r k Hat) end. unfold filtered_bytes.
  apply reads_bind with (v := fresh_header (MerkleBlock.header m)); [by apply header_codec|].
  apply reads_bind with (v := MerkleBlock.numTransactions m); [by apply reads_u32|].
  apply reads_bind with (v := zlen hs); [apply reads_varint; lia|].
  apply reads_bind with (v := Hex.hexSlice <$> hs); [by apply reads_hashes|].
  apply reads_bind with (v := zlen (MerkleBlock.flags m)); [apply reads_varint; lia|]. rewrite <-(app_nil_r (MerkleBlock.flags m)) at 2.
  apply reads_bind with (v := MerkleBlock.flags m); [by apply reads_flags|]. unfold fresh_filtered. rewrite Hhs. apply reads_ret.
Qed.
End BlockFormat.

(** ** Lemmas on headers and hashes *)
Module BlockLemmas.
Import Codec WireFormat Partial BlockFormat Tree TreeSize BlockTree.

(** Bytes of one length are determined by their value. *)
Lemma le_value_inj a : forall b, bytes_ok a -> bytes_ok b -> length a = length b -> le_value a = le_value b -> a = b.
Proof.
  induction a as [|x a IH]; intros [|y b] Ha Hb Hl Hv; [done..|]. apply Forall_cons in Ha as [Hx Ha]. apply Forall_cons in Hb as [Hy Hb].
  cbn [le_value] in Hv. unfold byte_ok in *. assert (x = y /\ le_value a = le_value b) as [-> He] by lia. f_equal. by apply IH; [..|cbn in Hl; lia|].
Qed.

Lemma le_value_bound a : bytes_ok a -> 0 <= le_value a < 256 ^ zlen a.
Proof.
  induction 1 as [|x a Hx _ IH]; [done|]. rewrite zlen_cons, Z.pow_add_r by (pose proof (zlen_nonneg a); lia). cbn [le_value]. unfold byte_ok in Hx. lia.
Qed.

Lemma fromBuffer_inj32 a b : hash_ok a -> hash_ok b -> BN.fromBuffer a = BN.fromBuffer b -> a = b.
Proof.
  intros [Ha La] [Hb Lb] He. rewrite !fromBuffer_le_value in He. rewrite <-(rev_involutive a), <-(rev_involutive b). f_equal.
  apply le_value_inj; [by apply Forall_rev..| |done]. unfold zlen in *. rewrite !length_rev. lia.
Qed.

Lemma le4_le_value w : bytes_ok w -> zlen w = 4 -> le4 (le_value w) = w.
Proof.
  intros Hw Hl. pose proof (le_value_bound w Hw) as Hb. rewrite Hl in Hb. apply le_value_inj; [apply le4_ok|done| |].
  - unfold zlen in Hl. cbn. lia.
  - rewrite le4_value, Z.mod_small by lia. done.
Qed.

(** The text of a hash, read as a number *)
Lemma BN_fromHex_hexSlice b : bytes_ok b -> BlockHeader.BN_fromHex (Hex.hexSlice b) = BN.fromBuffer b.
Proof.
  intros Hb. unfold BlockHeader.BN_fromHex, BN.fromBuffer.
  enough (forall acc, fold_left (fun acc c => 16 * acc + default 0 (Hex.digit_value c)) (String.list_ascii_of_string (Hex.hexSlice b)) acc
                      = fold_left (fun acc x => acc * 256 + x) b acc) as He by apply He.
  induction Hb as [|x b Hx _ IH]; intros acc; [done|].
  rewrite Hex.hexSlice_cons by done. cbn [String.list_ascii_of_string fold_left]. unfold byte_ok in Hx.
  rewrite !Hex.digit_digit_value by zlia. cbn [from_option]. unfold id. rewrite IH. f_equal. zlia.
Qed.

Lemma hexSlice_inj a b : bytes_ok a -> bytes_ok b -> Hex.hexSlice a = Hex.hexSlice b -> a = b.
Proof. intros Ha Hb He. apply Hex.hex_roundtrip in Ha, Hb. rewrite He in Ha. congruence. Qed.

(** *** Reading a header from too few bytes *)

Lemma u32_cases r : 0 <= BufferReader.pos r ->
  (BufferReader.readUInt32LE r = (Throw RangeError, r))
  \/ exists v, BufferReader.readUInt32LE r = (Ok v, ReaderLemmas.adv r 4) /\ BufferReader.pos r + 4 <= zlen (BufferReader.buf r).
Proof.
  intros Hp. destruct (Z.lt_ge_cases (zlen (BufferReader.buf r)) (BufferReader.pos r + 4)) as [Hlt|Hge].
  - left. unfold BufferReader.readUInt32LE, BufferReader.read_fixed. js_look. unfold Buf.readUInt32LE, Buf.checkOffset.
    destruct (Z.ltb_spec (BufferReader.pos r) 0); [lia|]. destruct (Z.gtb_spec (BufferReader.pos r + 4) (zlen (BufferReader.buf r))); [done|lia].
  - right. eexists. split; [|done]. apply ReaderLemmas.read_fixed_at. unfold Buf.readUInt32LE, Buf.checkOffset.
    destruct (Z.ltb_spec (BufferReader.pos r) 0); [lia|]. destruct (Z.gtb_spec (BufferReader.pos r + 4) (zlen (BufferReader.buf r))); [lia|done].
Qed.

Lemma read_any n r : exists b, BufferReader.read n r = (Ok b, ReaderLemmas.adv r n).
Proof. unfold BufferReader.read, BufferReader.skip. js_look. eexists. reflexivity. Qed.

Ltac read_word :=
  let E := fresh "E" in let Hr := fresh "Hr" in
  match goal with |- context [mbind _ BufferReader.readUInt32LE ?r] => destruct (u32_cases r) as [E|(? & E & Hr)] end;
    [cbn; lia|by rewrite (js_bind_throw _ _ _ _ _ E)|rewrite (js_bind_ok _ _ _ _ _ E); clear E].
Ltac read_hash :=
  let E := fresh "E" in
  match goal with |- context [mbind _ (BufferReader.read 32) ?r] => destruct (read_any 32 r) as (? & E) end;
    rewrite (js_bind_ok _ _ _ _ _ E); clear E.

Lemma header_short b : zlen b < 80 -> BlockHeader.fromBuffer b = Throw RangeError.
Proof.
  intros Hb. unfold BlockHeader.fromBuffer, BlockHeader.fromBufferReader. pose proof (zlen_nonneg b).
  read_word. read_hash. read_hash. read_word. read_word. read_word. cbn in *. lia.
Qed.

(** The header in front of enough bytes *)
Definition header_at (b : list Z) : BlockHeader.t :=
  let word i := le_value (ztake 4 (zdrop i b)) in
  BlockHeader.mk (word 0) (ztake 32 (zdrop 4 b)) (ztake 32 (zdrop 36 b)) (word 68) (word 72) (word 76) None.

Lemma piece_ok n i b : bytes_ok b -> 0 <= n -> 0 <= i -> n + i <= zlen b -> bytes_ok (ztake n (zdrop i b)) /\ zlen (ztake n (zdrop i b)) = n.
Proof.
  intros Hb Hn Hi Hl. split.
  - rewrite ztake_take, zdrop_drop. by apply Forall_take, Forall_drop.
  - rewrite zlen_ztake, zlen_zdrop by lia. lia.
Qed.

Lemma header_at_bytes b : bytes_ok b -> 80 <= zlen b -> wf_header (header_at b) /\ b = header_bytes (header_at b) ++ zdrop 80 b.
Proof.
  intros Hb Hl. assert (forall i, 0 <= i <= 76 -> u32 (le_value (ztake 4 (zdrop i b))) /\ le4 (le_value (ztake 4 (zdrop i b))) = ztake 4 (zdrop i b)) as Hw.
  { intros i Hi. destruct (piece_ok 4 i b Hb) as [H1 H2]; [lia..|]. pose proof (le_value_bound _ H1) as Hv. rewrite H2 in Hv.
    split; [exact Hv|by apply le4_le_value]. }
  split.
  - split_and!; try (apply Hw; lia); apply piece_ok; (done || lia).
  - unfold header_bytes, header_at.
    cbn [BlockHeader.version BlockHeader.prevHash BlockHeader.merkleRoot BlockHeader.time BlockHeader.bits BlockHeader.nonce].
    assert (forall i, 0 <= i <= 76 -> le4 (le_value (ztake 4 (zdrop i b))) = ztake 4 (zdrop i b)) as Hw4 by (intros; by apply Hw).
    rewrite !Hw4 by lia.
    assert (forall i n, 0 <= i -> 0 <= n -> zdrop i b = ztake n (zdrop i b) ++ zdrop (i + n) b) as Hcut.
    { intros i n Hi Hn. rewrite <-zdrop_zdrop by lia. by rewrite ztake_zdrop. }
    rewrite <-!app_assoc. etransitivity; [symmetry; apply zdrop_0|].
    etransitivity; [apply (Hcut 0 4); lia|]. f_equal. etransitivity; [apply (Hcut 4 32); lia|]. f_equal.
    etransitivity; [apply (Hcut 36 32); lia|]. f_equal. etransitivity; [apply (Hcut 68 4); lia|]. f_equal.
    etransitivity; [apply (Hcut 72 4); lia|]. f_equal. apply (Hcut 76 4); lia.
Qed.
End BlockLemmas.

(** ** Theorems *)

Section WireTheorems.
Import Codec WireFormat Partial BlockFormat BlockLemmas.

(** C27: a serialized block is read back: its header and the wire fields of its transactions, and the
    same for a filtered block with its count, hashes and flags. *)
Theorem block_roundtrip b m hs :
  (wf_block b -> zlen (block_bytes b) < 2 ^ 31 ->
     exists buf, Block.toBuffer b = Ok buf /\ Block.fromBuffer buf = Ok (fresh_block b))
  /\ (wf_filtered m hs -> zlen (filtered_bytes m hs) < 2 ^ 31 ->
     exists buf, MerkleBlock.toBuffer m = Ok buf /\ MerkleBlock.fromBuffer buf = Ok (fresh_filtered m)).
Proof.
  split; intros Hwf Hlen.
  - exists (block_bytes b). split; [by apply (writes_concat (Block.toBufferWriter b)), block_writes|].
    by apply reads_fresh, Hlen; apply block_reads.
  - exists (filtered_bytes m hs). split; [by apply (writes_concat (MerkleBlock.toBufferWriter m)), filtered_writes|].
    by apply reads_fresh, Hlen; apply filtered_reads.
Qed.

(** a header is read from any 80 bytes, which it is written as again, whatever follows them; from
    fewer bytes reading throws. *)
Theorem header_exact b : bytes_ok b -> zlen b < 2 ^ 31 ->
  match BlockHeader.fromBuffer b with
  | Ok h => 80 <= zlen b /\ BlockHeader.toBuffer h = Ok (ztake 80 b)
  | Throw e => zlen b < 80 /\ e = RangeError
  end.
Proof.
  intros Hb Hlen. destruct (Z.lt_ge_cases (zlen b) 80) as [Hlt|Hge]; [by rewrite header_short|].
  destruct (header_at_bytes b Hb Hge) as [Hwf Heq].
  assert (BlockHeader.fromBuffer b = Ok (header_at b)) as ->.
  { unfold BlockHeader.fromBuffer. rewrite Heq at 1. rewrite (proj2 (header_codec _ Hwf) _ (zdrop 80 b)); [done|].
    rewrite <-Heq. by apply ReaderLemmas.at_new. }
  split; [lia|]. rewrite header_toBuffer by done. f_equal. rewrite Heq at 2. rewrite <-(zlen_header_bytes _ Hwf). by rewrite ztake_app_exact.
Qed.
End WireTheorems.

(** *** The root of a block *)
Module BlockHashes.
Import WireFormat Partial BlockFormat BlockLemmas Tree BlockTree.

Section WithCrypto.
Context `{CryptoLaws}.

Definition tx_hash (x : Transaction.t) : list Z := sha256sha256 (tx_bytes x).

(** The leaves of the tree of a block *)
Definition block_hashes (b : Block.t) : list (list Z) :=
  match Block.transactions b with [] => [Block.NULL_HASH] | xs => tx_hash <$> xs end.

Lemma getHash_eq x : wf_tx x -> Signing.getHash x = Ok (tx_hash x).
Proof. intros Hx. unfold Signing.getHash. by rewrite toBuffer_bytes. Qed.

Lemma getTransactionHashes_eq b : Forall wf_tx (Block.transactions b) -> Block.getTransactionHashes b = Ok (block_hashes b).
Proof.
  intros Hb. unfold Block.getTransactionHashes, block_hashes. case_bool_decide as Hn; [by destruct (Block.transactions b)|].
  destruct (Block.transactions b) as [|x xs]; [done|]. clear Hn. change (tx_hash <$> x :: xs) with (tx_hash x :: (tx_hash <$> xs)).
  revert x Hb. induction xs as [|y xs IH]; intros x Hb; apply Forall_cons in Hb as [Hx Hb]; cbn [Sighash.map_result]; rewrite (getHash_eq x Hx).
  - done.
  - cbn [Sighash.map_result] in IH. rewrite (IH y Hb). done.
Qed.

Lemma tx_hash_ok x : hash_ok (tx_hash x).
Proof. split; [apply hash256_ok|apply hash256_length]. Qed.

Lemma block_hashes_ok b : Forall hash_ok (block_hashes b).
Proof.
  unfold block_hashes. destruct (Block.transactions b); [|apply Forall_fmap, Forall_true; apply tx_hash_ok].
  constructor; [|constructor]. split; [|done]. apply (bool_decide_unpack _). by vm_compute.
Qed.

Lemma length_block_hashes b : length (block_hashes b) = Nat.max 1 (length (Block.transactions b)).
Proof. unfold block_hashes. destruct (Block.transactions b); [done|]. by rewrite length_fmap. Qed.

Lemma root_ok l : l <> [] -> Forall hash_ok l -> hash_ok (merkle_root l).
Proof.
  unfold merkle_root. generalize (length l) at 1 as k. intros k. revert l. induction k as [|k IH]; intros l Hne Hl.
  - destruct Hl; [done|]. done.
  - cbn [root_of]. case_bool_decide as Hlen; [|by destruct Hl]. apply IH; [|apply up_ok].
    intros Hu. pose proof (length_up_lt l Hlen) as Hlt. rewrite Hu in Hlt. cbn in Hlt. lia.
Qed.

Lemma block_hashes_nonempty b : block_hashes b <> [].
Proof. unfold block_hashes. by destruct (Block.transactions b). Qed.

Lemma getMerkleRoot_eq b : Forall wf_tx (Block.transactions b) -> Block.getMerkleRoot b = Ok (merkle_root (block_hashes b)).
Proof.
  intros Hb. unfold Block.getMerkleRoot. rewrite (getMerkleTree_eq _ _ (getTransactionHashes_eq _ Hb)). cbn [mbind result_bind].
  pose proof (block_hashes_nonempty b) as Hne. pose proof (length_block_hashes b) as Hlen.
  unfold Block.node_at. replace (length (tower (length (Block.transactions b)) (block_hashes b)) - 1)%nat
    with (pred (length (tower (length (Block.transactions b)) (block_hashes b)))) by lia.
  rewrite <-last_lookup, tower_last by (done || lia). f_equal. apply root_of_fuel; lia.
Qed.

Lemma validMerkleRoot_eq b : Forall wf_tx (Block.transactions b) -> hash_ok (BlockHeader.merkleRoot (Block.header b)) ->
  Block.validMerkleRoot b = Ok (bool_decide (BlockHeader.merkleRoot (Block.header b) = merkle_root (block_hashes b))).
Proof.
  intros Hb Hr. unfold Block.validMerkleRoot. rewrite getMerkleRoot_eq by done. cbn [mbind result_bind]. cbv zeta.
  pose proof (root_ok _ (block_hashes_nonempty b) (block_hashes_ok b)) as Hm.
  rewrite !BN_fromHex_hexSlice by (apply Hr || apply Hm). f_equal. case_bool_decide as He.
  - rewrite He. apply Z.eqb_refl.
  - apply Z.eqb_neq. intros Hv. by apply He, fromBuffer_inj32.
Qed.

(** A last hash without a partner may be repeated. *)
Lemma up_repeat l h : Nat.odd (length l) = true -> list.last l = Some h -> up (l ++ [h]) = up l.
Proof.
  induction l as [|a|a b l IH] using pairs_ind; intros Ho Hl; [done|by cbn in *; simplify_eq|].
  cbn [app up]. rewrite IH; [done|done|]. destruct l; [done|]. done.
Qed.
End WithCrypto.
End BlockHashes.

Section RootTheorems.
Import WireFormat Partial BlockFormat BlockLemmas BlockHashes Tree BlockTree.
Context `{CryptoLaws}.

(** C26: the loops of [getMerkleTree] compute the levels of the merkle tree of the transactions' hashes
    one after the other, [getMerkleRoot] its root, and [validMerkleRoot] says whether the header has
    it; a block without transactions has the root 0. *)
Theorem merkle_root_correct b : wf_block b ->
  Block.getMerkleTree b = Ok (tower (length (Block.transactions b)) (block_hashes b))
  /\ Block.getMerkleRoot b = Ok (merkle_root (block_hashes b))
  /\ Block.validMerkleRoot b = Ok (bool_decide (BlockHeader.merkleRoot (Block.header b) = merkle_root (block_hashes b))).
Proof.
  intros (Hh & Ht & _). split; [by apply getMerkleTree_eq, getTransactionHashes_eq|]. split; [by apply getMerkleRoot_eq|].
  apply validMerkleRoot_eq; [done|apply Hh].
Qed.

(** the header does not commit to the number of transactions: when it is odd and more than one, the
    block in which the last transaction is repeated passes [validMerkleRoot] exactly when the block
    does. *)
Theorem repeated_transaction_unnoticed b x : wf_block b -> Nat.odd (length (Block.transactions b)) = true ->
  (1 < length (Block.transactions b))%nat -> list.last (Block.transactions b) = Some x ->
  Block.validMerkleRoot (b <| Block.transactions ::= (fun xs => xs ++ [x]) |>) = Block.validMerkleRoot b.
Proof.
  intros (Hh & Ht & _) Hodd Hlen Hx. assert (wf_tx x) as Hwx.
  { apply (proj1 (Forall_forall _ _) Ht), list_elem_of_lookup. eexists. by rewrite <-last_lookup. }
  assert (hash_ok (BlockHeader.merkleRoot (Block.header b))) as Hr by apply Hh.
  rewrite (validMerkleRoot_eq b) by done. rewrite validMerkleRoot_eq; [|apply Forall_app; split; [done|by constructor]|done].
  f_equal. change (Block.header (b <| Block.transactions ::= (fun xs => xs ++ [x]) |>)) with (Block.header b). assert (merkle_root (block_hashes (b <| Block.transactions ::= (fun xs => xs ++ [x]) |>)) = merkle_root (block_hashes b)) as ->; [|done].
  assert (block_hashes b = tx_hash <$> Block.transactions b) as He by (unfold block_hashes; by destruct (Block.transactions b)).
  assert (block_hashes (b <| Block.transactions ::= (fun xs => xs ++ [x]) |>) = block_hashes b ++ [tx_hash x]) as ->.
  { rewrite He. unfold block_hashes. cbn. destruct (Block.transactions b); [done|]. cbn. by rewrite fmap_app. }
  assert (length (block_hashes b) = length (Block.transactions b)) as Hl by (by rewrite He, length_fmap).
  rewrite merkle_root_up by (rewrite length_app; lia). rewrite (merkle_root_up (block_hashes b)) by lia. f_equal.
  apply up_repeat; [by rewrite Hl|]. by rewrite He, fmap_last, Hx.
Qed.
End RootTheorems.

(** *** Filtered blocks *)
Module Filtered.
Import MerkleBlock WireFormat Partial BlockFormat BlockLemmas BlockHashes Tree TreeSize.

Section WithCrypto.
Context `{CryptoLaws}.

(** The filtered block for the hashes of [l] that [ms] marks *)
Definition proof_of (l : list (list Z)) (ms : list bool) : list bool * list (list Z) := build l ms (Nat.log2_up (length l)) 0.

Definition filtered (h : BlockHeader.t) (l : list (list Z)) (ms : list bool) : t :=
  let p := proof_of l ms in new h (zlen l) (Hex.hexSlice <$> p.2) (pack (length p.1) p.1).

(** The height the code computes is the binary logarithm, rounded up. *)
Lemma height_log2 m (l : list (list Z)) : numTransactions m = zlen l -> 1 <= zlen l <= 2 ^ 30 -> _calcTreeHeight m = Nat.log2_up (length l).
Proof.
  intros Hn Hl. destruct (height_total m) as (H1 & H2 & H3); [lia|]. set (d := _calcTreeHeight m) in *.
  rewrite (calcTreeWidth_eq m l) in H2 by (done || lia). pose proof Hl as Hlen. unfold zlen in Hlen.
  assert (length (level d l) <= 1)%nat as Htop by (unfold zlen in H2; lia).
  assert (length l <= 2 ^ d)%nat as Hle by (pose proof (level_pos d l 1); lia).
  destruct (decide (d = O)) as [Hd|Hd].
  - rewrite Hd in Hle |- *. symmetry. apply Nat.log2_up_eqn0. exact Hle.
  - symmetry. apply Nat.log2_up_unique; [lia|]. split; [|done]. specialize (H3 (pred d) ltac:(lia)).
    rewrite (calcTreeWidth_eq m l) in H3 by (done || lia). unfold zlen in H3. pose proof (proj1 (level_pos (pred d) l 1) ltac:(lia)). lia.
Qed.

Lemma leaves_all {A} (k : list A) d : (length k <= 2 ^ d)%nat -> leaves d 0 k = k.
Proof. intros Hk. unfold leaves. rewrite Nat.mul_0_l, drop_0. by apply take_ge. Qed.

Section Built.
Variable h : BlockHeader.t.
Variable l : list (list Z).
Variable ms : list bool.
Hypothesis Hl : 1 <= zlen l <= 2 ^ 30.
Hypothesis Hok : Forall hash_ok l.
Hypothesis Hms : length ms = length l.
Let d := Nat.log2_up (length l).

Lemma log2_top : (d <= 30)%nat /\ level d l = [merkle_root l] /\ (length l <= 2 ^ d)%nat.
Proof.
  pose proof (height_root (new h (zlen l) [] []) l eq_refl Hl) as Hr. rewrite (height_log2 (new h (zlen l) [] []) l eq_refl Hl) in Hr.
  destruct Hr as [H1 H2]. split_and!; [done..|]. apply Nat.log2_up_le_pow2; unfold zlen in Hl; lia.
Qed.

Lemma root_pos : (0 < length (level d l))%nat.
Proof. destruct log2_top as (_ & -> & _). cbn. lia. Qed.

Lemma root_node : node l d 0 = merkle_root l.
Proof. unfold node. by destruct log2_top as (_ & -> & _). Qed.

Lemma found_root : found l ms d 0 = picked (zip l ms).
Proof.
  rewrite found_picked by (done || apply root_pos). f_equal. apply leaves_all. rewrite length_zip. destruct log2_top as (_ & _ & H1). lia.
Qed.

Lemma proof_hashes : (1 <= length (proof_of l ms).2 <= length l)%nat /\ (length (proof_of l ms).2 <= length (proof_of l ms).1)%nat.
Proof.
  unfold proof_of. fold d. split; [split; [apply build_nonempty|]|apply build_bits].
  pose proof (build_hashes l ms d 0 root_pos) as Hb. rewrite leaves_all in Hb by apply log2_top. done.
Qed.

Lemma bits_at_root m : flags m = flags (filtered h l ms) -> bits_at m 0 (build l ms d 0).1.
Proof.
  intros Hf. unfold filtered, proof_of in Hf. cbn in Hf. fold d in Hf. split; [done|]. split.
  - rewrite Hf. pose proof (length_pack (length (build l ms d 0).1) (build l ms d 0).1). unfold zlen. lia.
  - intros i b Hi. rewrite Z.add_0_l. eapply pack_bit; done.
Qed.

Lemma hashes_at_root m k : hashes m = take k (hashes (filtered h l ms)) -> hashes_at m 0 (build l ms d 0).2.
Proof.
  intros Hm. split; [pose proof (zlen_nonneg (hashes m)); lia|]. intros i x s Hx Hs. rewrite Hm in Hs. apply lookup_take_Some in Hs as [Hs _].
  change (hashes (filtered h l ms)) with (Hex.hexSlice <$> (build l ms d 0).2) in Hs. change (Z.to_nat 0 + i)%nat with i in Hs.
  rewrite list_lookup_fmap, Hx in Hs. by simplify_eq/=.
Qed.

(** The traversal of the whole proof *)
Lemma traverse_filtered : _traverseMerkleTree (filtered h l ms) (_calcTreeHeight (filtered h l ms)) 0 (mkOpts [] 0 0)
  = (Ok (Some (merkle_root l)), mkOpts (Hex.hexSlice <$> picked (zip l ms)) (zlen (proof_of l ms).1) (zlen (hashes (filtered h l ms)))).
Proof.
  rewrite (height_log2 (filtered h l ms) l eq_refl Hl). fold d. destruct log2_top as (Hd & _ & _).
  assert (zlen (hashes (filtered h l ms)) = zlen (build l ms d 0).2) as Hz.
  { unfold filtered, proof_of, zlen. cbn. by rewrite length_fmap. }
  pose proof (traverse_build l ms (filtered h l ms) eq_refl Hl Hok d 0 (mkOpts [] 0 0) Hd root_pos (bits_at_root _ eq_refl)
    (hashes_at_root _ _ (eq_sym (take_ge _ _ (le_n _)))) ltac:(cbn [hashesUsed]; lia)) as He.
  change (Z.of_nat 0) with 0 in He. rewrite He, root_node, found_root. cbn [txs flagBitsUsed hashesUsed app]. by rewrite !Z.add_0_l, Hz.
Qed.

Lemma filtered_checks : zlen (hashes (filtered h l ms)) <= zlen l /\ zlen (hashes (filtered h l ms)) <= zlen (flags (filtered h l ms)) * 8.
Proof.
  destruct proof_hashes as [H1 H2]. unfold filtered, zlen. cbn. rewrite length_fmap.
  pose proof (length_pack (length (proof_of l ms).1) (proof_of l ms).1). lia.
Qed.

Lemma filtered_valid : validMerkleTree (filtered h l ms) = Ok (bool_decide (merkle_root l = BlockHeader.merkleRoot h)).
Proof.
  destruct filtered_checks as [H1 H2]. unfold validMerkleTree. change (numTransactions (filtered h l ms)) with (zlen l).
  destruct (Z.gtb_spec (zlen (hashes (filtered h l ms))) (zlen l)); [lia|].
  destruct (Z.ltb_spec (zlen (flags (filtered h l ms)) * 8) (zlen (hashes (filtered h l ms)))); [lia|].
  cbv zeta. rewrite traverse_filtered. cbn [hashesUsed]. by rewrite Z.eqb_refl.
Qed.

Lemma picked_sub x : x ∈ picked (zip l ms) -> x ∈ l.
Proof.
  unfold picked. intros (p & -> & Hp)%list_elem_of_fmap. apply list_elem_of_filter in Hp as [_ Hp]. apply list_elem_of_lookup in Hp as (i & Hi).
  destruct p as [x b]. apply lookup_zip_Some in Hi as [Hi _]. by eapply list_elem_of_lookup_2.
Qed.

Lemma filtered_has x : hash_ok x ->
  hasTransaction (filtered h l ms) (inl (Hex.hexSlice x)) = Ok (bool_decide (x ∈ picked (zip l ms))).
Proof.
  intros [Hx _]. unfold hasTransaction. cbn [mbind result_bind]. rewrite traverse_filtered. cbn [txs]. f_equal. apply bool_decide_ext.
  rewrite list_elem_of_fmap. split; [|by exists x]. intros (y & He & Hy). apply hexSlice_inj in He; [by subst|done|].
  apply picked_sub in Hy. by eapply Forall_forall in Hok; [apply Hok|].
Qed.

(** With hashes missing at the end, above the leaf level *)
Lemma filtered_short k : (1 < length l)%nat -> picked (zip l ms) <> [] -> (k < length (hashes (filtered h l ms)))%nat ->
  validMerkleTree ((filtered h l ms) <| hashes ::= take k |>) = Throw TypeError.
Proof.
  intros H1 Hp Hk. set (m := (filtered h l ms) <| hashes ::= take k |>). destruct filtered_checks as [Hc1 Hc2]. destruct log2_top as (Hd & _ & Htop).
  assert (zlen (hashes m) = Z.of_nat k) as Hz by (unfold m, zlen; cbn [hashes upd]; rewrite length_take; unfold zlen in *; lia).
  assert (length (hashes (filtered h l ms)) = length (build l ms d 0).2) as Hb by (unfold filtered, proof_of; cbn; by rewrite length_fmap).
  unfold validMerkleTree. change (numTransactions m) with (zlen l). change (flags m) with (flags (filtered h l ms)).
  rewrite Hz. destruct (Z.gtb_spec (Z.of_nat k) (zlen l)); [unfold zlen in *; lia|].
  destruct (Z.ltb_spec (zlen (flags (filtered h l ms)) * 8) (Z.of_nat k)); [unfold zlen in *; lia|]. cbv zeta.
  rewrite (height_log2 m l eq_refl Hl). fold d.
  destruct (traverse_short l ms m eq_refl Hl Hok d 0 (mkOpts [] 0 0) Hd root_pos (bits_at_root m eq_refl) (hashes_at_root m k eq_refl)) as [([Hz0|Hm] & _)|(o' & He)].
  - cbn [hashesUsed]. rewrite Hz. unfold zlen. lia.
  - exfalso. rewrite Hz0 in Htop. cbn in Htop. lia.
  - exfalso. apply Hp. pose proof (unmatched l ms d 0 Hms Hm) as Hu. rewrite leaves_all in Hu by (rewrite length_zip; lia). done.
  - change (Z.of_nat 0) with 0 in He. by rewrite He.
Qed.
End Built.
End WithCrypto.
End Filtered.

Section FilteredTheorems.
Import MerkleBlock WireFormat Partial BlockFormat BlockLemmas BlockHashes Filtered Tree TreeSize.
Context `{CryptoLaws}.

(** What a valid block with transactions is to its filtered blocks *)
Lemma block_leaves b : wf_block b -> Block.transactions b <> [] -> Block.validMerkleRoot b = Ok true ->
  length (block_hashes b) = length (Block.transactions b) /\ 1 <= zlen (block_hashes b) <= 2 ^ 30
  /\ BlockHeader.merkleRoot (Block.header b) = merkle_root (block_hashes b).
Proof.
  intros (Hh & Ht & Hn) Hne Hv. rewrite validMerkleRoot_eq in Hv by (done || apply Hh). pose proof (length_block_hashes b) as Hl.
  assert (length (Block.transactions b) <> O) by (by destruct (Block.transactions b)). unfold zlen in *.
  split; [lia|]. split; [lia|]. injection Hv as Hv. by apply bool_decide_eq_true in Hv.
Qed.

(** C24: the filtered block built from a valid block for any choice of its transactions is valid, and
    has the transactions whose hashes were chosen and no others. *)
Theorem filtered_block_complete b ms : wf_block b -> Block.transactions b <> [] -> Block.validMerkleRoot b = Ok true ->
  length ms = length (Block.transactions b) ->
  let m := filtered (Block.header b) (block_hashes b) ms in
  validMerkleTree m = Ok true
  /\ forall x, wf_tx x -> hasTransaction m (inr x) = Ok (bool_decide (tx_hash x ∈ picked (zip (block_hashes b) ms))).
Proof.
  intros Hb Hne Hv Hms m. destruct (block_leaves b Hb Hne Hv) as (Hlen & Hl & Hroot). pose proof (block_hashes_ok b) as Hok. subst m. split.
  - rewrite filtered_valid by (done || congruence). by rewrite Hroot, bool_decide_true.
  - intros x Hx. rewrite <-(filtered_has (Block.header b)) by (done || congruence || apply tx_hash_ok). unfold hasTransaction at 1, Signing.id_. rewrite getHash_eq by done.
    cbn [mbind result_bind]. rewrite Hex.hex_roundtrip by (apply Forall_rev, tx_hash_ok). cbn [mbind result_bind]. by rewrite rev_involutive.
Qed.

(** C25: whatever hashes and flags a filtered block with the header and the number of transactions of a
    valid block has, if it is valid then every hash it has is that of a transaction of the block.  Nothing
    is assumed of the digest but that none of the strings hashed by the traversal of this filtered block
    collides with one of the strings hashed for the merkle root of the block. *)
Theorem filtered_block_sound b m s : wf_block b -> Block.transactions b <> [] -> Block.validMerkleRoot b = Ok true ->
  header m = Block.header b -> numTransactions m = zlen (Block.transactions b) ->
  Forall (fun s => String.length s = 64%nat) (hashes m) ->
  no_collision (hashed_strings m (_calcTreeHeight m) 0 (mkOpts [] 0 0)) (tree_strings (_calcTreeHeight m) (block_hashes b)) ->
  validMerkleTree m = Ok true -> hasTransaction m (inl s) = Ok true ->
  exists x, x ∈ Block.transactions b /\ Hex.hexWrite s = Ok (tx_hash x).
Proof.
  intros Hb Hne Hv Hhead Hn Htext Hcol Hvalid Hhas. destruct (block_leaves b Hb Hne Hv) as (Hlen & Hl & Hroot). pose proof (block_hashes_ok b) as Hok.
  assert (numTransactions m = zlen (block_hashes b)) as Hnum by (rewrite Hn; unfold zlen; lia).
  destruct (height_root m (block_hashes b) Hnum Hl) as [Hd Htop]. unfold validMerkleTree in Hvalid. unfold hasTransaction in Hhas.
  cbn [mbind result_bind] in Hhas. destruct (zlen (hashes m) >? numTransactions m); [done|]. destruct (zlen (flags m) * 8 <? zlen (hashes m)); [done|].
  cbv zeta in Hvalid. destruct (_traverseMerkleTree m (_calcTreeHeight m) 0 (mkOpts [] 0 0)) as [[[r|]|] o] eqn:He; [| |done].
  2:{ by destruct (negb _). }
  destruct (hashesUsed o =? zlen (hashes m)); [|done]. cbn [negb] in Hvalid. injection Hvalid as Hr%bool_decide_eq_true. injection Hhas as Hs%bool_decide_eq_true.
  destruct (traverse_sound (block_hashes b) m Hnum Hl Hok Htext (_calcTreeHeight m) (_calcTreeHeight m) 0 (mkOpts [] 0 0) r o) as (new & Htx & Hnew);
    [done..| |done|exact Hcol|exact He| |].
  - rewrite Htop. cbn. lia.
  - unfold node. rewrite Htop. cbn. by rewrite Hr, Hhead, Hroot.
  - cbn [txs app] in Htx. rewrite Htx in Hs. eapply Forall_forall in Hnew as (y & Hy & Hw); [|exact Hs].
    unfold block_hashes in Hy. destruct (Block.transactions b) as [|x0 xs] eqn:Hxs; [done|].
    apply list_elem_of_fmap in Hy as (x & -> & Hx). by exists x.
Qed.

(** a filtered block that proves something and whose last hashes are missing is not found invalid:
    [validMerkleTree] throws a [TypeError]. *)
Theorem missing_hashes_throw h l ms k : Forall hash_ok l -> 2 <= zlen l <= 2 ^ 30 -> length ms = length l -> picked (zip l ms) <> [] ->
  (k < length (hashes (filtered h l ms)))%nat ->
  validMerkleTree ((filtered h l ms) <| hashes ::= take k |>) = Throw TypeError.
Proof. intros Hok Hl Hms Hp Hk. apply filtered_short; try done; unfold zlen in *; lia. Qed.

(** the height of the tree is found for every 32-bit count, within thirty steps; up to 2^30
    transactions it is the binary logarithm rounded up, and from 2^31 on the conversion to a signed
    integer makes it 0. *)
Theorem tree_height_bounds m (l : list (list Z)) : 0 <= numTransactions m < 2 ^ 32 ->
  (_calcTreeHeight m <= 30)%nat
  /\ (numTransactions m = zlen l -> 1 <= zlen l <= 2 ^ 30 -> _calcTreeHeight m = Nat.log2_up (length l))
  /\ (2 ^ 31 <= numTransactions m -> _calcTreeHeight m = O).
Proof.
  intros Hn. split; [by apply height_total|]. split; [by apply height_log2|]. intros Hbig. unfold _calcTreeHeight. cbn [tree_height].
  assert (_calcTreeWidth m (Z.of_nat 0) <= 1) as Hw.
  { unfold _calcTreeWidth. change (Z.land (Z.of_nat 0) 31) with 0. change (wrap32 (Z.shiftl 1 0)) with 1. rewrite Z.shiftr_0_r.
    unfold wrap32. set (n := numTransactions m) in *. zlia. }
  destruct (Z.gtb_spec (_calcTreeWidth m (Z.of_nat 0)) 1); [lia|done].
Qed.
End FilteredTheorems.

(** *** Proof of work *)
Section WorkTheorems.
Import BlockHeader WireFormat Partial BlockFormat BlockLemmas.
Context `{CryptoLaws}.

Lemma doubled_eq k n : doubled k n = n * 2 ^ Z.of_nat k.
Proof.
  revert n. induction k as [|k IH]; intros n; [cbn; lia|]. cbn [doubled]. rewrite IH, Nat2Z.inj_succ, Z.pow_succ_r by lia. lia.
Qed.

Lemma target_eq h : u32 (bits h) -> getTargetDifficulty h = (bits h mod 2 ^ 24) * 2 ^ Z.max 0 (8 * (bits h / 2 ^ 24 - 3)).
Proof.
  intros Hb. unfold getTargetDifficulty. rewrite doubled_eq. unfold u32 in Hb. f_equal.
  - change 0xffffff with (Z.ones 24). rewrite Z.land_ones by lia. unfold wrap32. set (b := bits h) in *. zlia.
  - f_equal. unfold uwrap32. rewrite Z.mod_small, Z.shiftr_div_pow2 by lia. lia.
Qed.

(** C29: the work of a fresh header is valid exactly when the digest of its bytes, read as a
    little-endian number, is at most mantissa * 2^(8 * (exponent - 3)), the mantissa unchanged for
    exponents below 3; and the identifier is never computed again, so that a header whose nonce is
    changed afterwards keeps the verdict of the old nonce. *)
Theorem proof_of_work h n : wf_header h -> _id h = None ->
  fst (validProofOfWork h) = Ok (le_value (sha256sha256 (header_bytes h)) <=? (bits h mod 2 ^ 24) * 2 ^ Z.max 0 (8 * (bits h / 2 ^ 24 - 3)))
  /\ fst (id ((snd (id h)) <| nonce := n |>)) = fst (id h)
  /\ fst (validProofOfWork ((snd (validProofOfWork h)) <| nonce := n |>)) = fst (validProofOfWork h).
Proof.
  intros Hh Hid. set (s := Hex.hexSlice (rev (sha256sha256 (header_bytes h)))).
  assert (forall g, _id g = Some s -> id g = (Ok s, g)) as Hcached by (intros g Hg; unfold id; js_look; by rewrite Hg).
  assert (id h = (Ok s, h <| _id := Some s |>)) as Hfirst.
  { unfold id. js_look. rewrite Hid. unfold _getHash. rewrite header_toBuffer by done. cbn [mbind result_bind]. rewrite (js_lift_ok _ _ _ _ eq_refl). cbv zeta. by js_set. }
  assert (forall g g', id g = (Ok s, g') -> validProofOfWork g = (Ok (negb (BN_fromHex s >? getTargetDifficulty g')), g')) as Hwork.
  { intros g g' Hg. unfold validProofOfWork. rewrite (js_bind_ok _ _ _ _ _ Hg). by js_look. }
  split_and!.
  - rewrite (Hwork _ _ Hfirst). cbn [fst]. unfold s. rewrite BN_fromHex_hexSlice by (apply Forall_rev, hash256_ok).
    rewrite fromBuffer_le_value, rev_involutive. change (getTargetDifficulty (h <| _id := Some s |>)) with (getTargetDifficulty h).
    rewrite target_eq by apply Hh. f_equal. rewrite Z.gtb_ltb, Z.leb_antisym. done.
  - rewrite Hfirst. cbn [fst snd]. by rewrite Hcached.
  - rewrite (Hwork _ _ Hfirst). cbn [fst snd]. rewrite (Hwork _ _ (Hcached ((h <| _id := Some s |>) <| nonce := n |>) ltac:(done))). done.
Qed.
End WorkTheorems.

(** ** The theorems at work *)
Section BlockWitnesses.
Import WireFormat Partial BlockFormat BlockLemmas BlockHashes Filtered Tree TreeSize.
#[local] Existing Instance demo_crypto.
#[local] Existing Instance demo_laws.

(** A block of three transactions, with a header that fits it *)
Definition demo_txs : list Transaction.t := [demo_tx [1] [1]; demo_tx [2] [1]; demo_tx [3] [1; 2]].
Definition demo_header : BlockHeader.t :=
  BlockHeader.mk 2 (repeat 5 32) (merkle_root (tx_hash <$> demo_txs)) 1400000000 0x1d00ffff 7 None.
Definition demo_block : Block.t := Block.mk demo_header demo_txs None.

Lemma demo_header_wf : wf_header demo_header.
Proof.
  unfold wf_header. split_and!; try by vm_compute.
  - split; [apply repeat_ok; unfold byte_ok; lia|done].
  - apply root_ok; [done|]. apply Forall_fmap, Forall_true, tx_hash_ok.
Qed.

Lemma demo_tx_wf ids payees : Forall byte_ok ids -> zlen ids <= 100 -> zlen payees <= 100 -> wf_tx (demo_tx ids payees).
Proof. intros. by apply demo_hashable. Qed.

Lemma demo_block_wf : wf_block demo_block.
Proof.
  split; [apply demo_header_wf|]. split; [|done].
  repeat (apply Forall_cons; split; [apply demo_tx_wf; [repeat constructor; unfold byte_ok; lia|done|done]|]). apply Forall_nil. exact I.
Qed.

Lemma demo_block_valid : Block.validMerkleRoot demo_block = Ok true.
Proof.
  rewrite validMerkleRoot_eq by apply demo_block_wf. by rewrite bool_decide_true.
Qed.

(** The filtered block that proves the second transaction *)
Definition demo_marks : list bool := [false; true; false].
Definition demo_filtered : MerkleBlock.t := filtered demo_header (tx_hash <$> demo_txs) demo_marks.

Lemma block_roundtrip_witness :
  (exists buf, Block.toBuffer demo_block = Ok buf /\ Block.fromBuffer buf = Ok (fresh_block demo_block))
  /\ exists buf, MerkleBlock.toBuffer demo_filtered = Ok buf /\ MerkleBlock.fromBuffer buf = Ok (fresh_filtered demo_filtered).
Proof.
  pose proof (block_roundtrip demo_block demo_filtered (proof_of (tx_hash <$> demo_txs) demo_marks).2) as [Hb Hm]. split.
  - apply Hb; [apply demo_block_wf|by vm_compute].
  - apply Hm; [|by vm_compute]. unfold wf_filtered. split; [apply demo_header_wf|]. split; [by vm_compute|]. split; [done|].
    split; [apply (bool_decide_unpack _); by vm_compute|]. split; [by vm_compute|]. split; [apply (bool_decide_unpack _); by vm_compute|by vm_compute].
Defined.

Lemma header_exact_witness :
  match BlockHeader.fromBuffer (header_bytes demo_header ++ [1; 2; 3]) with
  | Ok h => BlockHeader.toBuffer h = Ok (ztake 80 (header_bytes demo_header ++ [1; 2; 3]))
  | Throw _ => False
  end.
Proof.
  pose proof (header_exact (header_bytes demo_header ++ [1; 2; 3])) as He. revert He.
  destruct (BlockHeader.fromBuffer (header_bytes demo_header ++ [1; 2; 3])) as [h|e]; intros He.
  - apply He; [apply (bool_decide_unpack _); by vm_compute|by vm_compute].
  - destruct He as [He _]; [apply (bool_decide_unpack _); by vm_compute|by vm_compute|]. revert He. apply Z.le_ngt. by vm_compute.
Defined.

Lemma merkle_root_correct_witness : Block.getMerkleRoot demo_block = Ok (merkle_root (block_hashes demo_block)).
Proof. apply (merkle_root_correct demo_block demo_block_wf). Defined.

Lemma repeated_transaction_unnoticed_witness :
  Block.validMerkleRoot (demo_block <| Block.transactions ::= (fun xs => xs ++ [demo_tx [3] [1; 2]]) |>) = Block.validMerkleRoot demo_block.
Proof. apply (repeated_transaction_unnoticed demo_block (demo_tx [3] [1; 2]) demo_block_wf); [done|cbn; lia|done]. Defined.

Lemma filtered_block_complete_witness : MerkleBlock.validMerkleTree demo_filtered = Ok true
  /\ MerkleBlock.hasTransaction demo_filtered (inr (demo_tx [2] [1])) = Ok true
  /\ MerkleBlock.hasTransaction demo_filtered (inr (demo_tx [3] [1; 2])) = Ok false.
Proof.
  destruct (filtered_block_complete demo_block demo_marks demo_block_wf) as [Hv Hh]; [done|apply demo_block_valid|done|].
  split; [exact Hv|]. split.
  - etransitivity; [apply (Hh (demo_tx [2] [1])); apply demo_tx_wf; [repeat constructor; unfold byte_ok; lia|done|done]|by vm_compute].
  - etransitivity; [apply (Hh (demo_tx [3] [1; 2])); apply demo_tx_wf; [repeat constructor; unfold byte_ok; lia|done|done]|by vm_compute].
Defined.

Lemma filtered_block_sound_witness :
  exists x, x ∈ demo_txs /\ Hex.hexWrite (Hex.hexSlice (tx_hash (demo_tx [2] [1]))) = Ok (tx_hash x).
Proof.
  apply (filtered_block_sound demo_block demo_filtered (Hex.hexSlice (tx_hash (demo_tx [2] [1]))) demo_block_wf); [done|apply demo_block_valid|done|done|..].
  - apply (bool_decide_unpack _). by vm_compute.
  - unfold Partial.no_collision. apply (bool_decide_unpack _). by vm_compute.
  - by vm_compute.
  - by vm_compute.
Defined.

Lemma missing_hashes_throw_witness :
  MerkleBlock.validMerkleTree (demo_filtered <| MerkleBlock.hashes ::= take 1 |>) = Throw TypeError.
Proof.
  apply (missing_hashes_throw demo_header (tx_hash <$> demo_txs) demo_marks 1).
  - apply Forall_fmap, Forall_true, tx_hash_ok.
  - by vm_compute.
  - done.
  - by vm_compute.
  - apply Nat.ltb_lt. by vm_compute.
Defined.

Lemma tree_height_bounds_witness : (MerkleBlock._calcTreeHeight demo_filtered <= 30)%nat
  /\ MerkleBlock._calcTreeHeight demo_filtered = Nat.log2_up (length (tx_hash <$> demo_txs))
  /\ MerkleBlock._calcTreeHeight (demo_filtered <| MerkleBlock.numTransactions := 2 ^ 31 |>) = O.
Proof.
  destruct (tree_height_bounds demo_filtered (tx_hash <$> demo_txs)) as (H1 & H2 & _); [by vm_compute|].
  split; [exact H1|]. split; [by apply H2; vm_compute|].
  apply (tree_height_bounds (demo_filtered <| MerkleBlock.numTransactions := 2 ^ 31 |>) []); by vm_compute.
Defined.

Lemma proof_of_work_witness :
  fst (BlockHeader.validProofOfWork ((snd (BlockHeader.validProofOfWork demo_header)) <| BlockHeader.nonce := 8 |>))
  = fst (BlockHeader.validProofOfWork demo_header).
Proof. apply (proof_of_work demo_header 8 demo_header_wf). reflexivity. Defined.

(** The number of transactions is not proved by the header: a filtered block of one transaction has the
    root itself for a transaction. *)
Example root_for_transaction :
  let m := MerkleBlock.new demo_header 1 [Hex.hexSlice (BlockHeader.merkleRoot demo_header)] [1] in
  MerkleBlock.validMerkleTree m = Ok true /\ MerkleBlock.hasTransaction m (inl (Hex.hexSlice (BlockHeader.merkleRoot demo_header))) = Ok true.
Proof. by vm_compute. Qed.
End BlockWitnesses.
