(* ===== verification/Parsing.v ===== *)
(** * What is read is well formed

    The readers of [Encoding.v], [Transaction.v] and [Blocks.v] on arbitrary bytes.  A buffer that ends
    early is cut silently by [read] and refused by the next read of a number, so a reader has facts
    that hold at once and facts that hold if it has not passed the end ([parses]); a reader that ends
    with a number has not ([ends]). *)
From S2P Require Import Prelude JsNumber Encoding Script Base58 Transaction Blocks Merkle MerkleProof BlocksSpec.
From Stdlib Require Import SpecFloat.
Local Open Scope Z_scope.
Local Open Scope js_scope.

(** ** Readers on arbitrary bytes *)
Module Readers.
Import BufferReader.

(** After [m] the buffer is the same and the position at least [k] further; [U] holds of the result,
    and [Q] if the position is not beyond the end. *)
Definition parses {A} (m : js t A) (k : Z) (U Q : A -> Prop) : Prop :=
  forall r v r', bytes_ok (buf r) -> zlen (buf r) < 2 ^ 30 -> 0 <= pos r -> m r = (Ok v, r') ->
    buf r' = buf r /\ pos r + k <= pos r' /\ U v /\ (pos r' <= zlen (buf r) -> Q v).

Definition ends {A} (m : js t A) : Prop := forall r v r', m r = (Ok v, r') -> pos r' <= zlen (buf r').

Lemma bind_inv {A B} (m : js t A) (f : A -> js t B) r w r' : (m ≫= f) r = (Ok w, r') ->
  exists v r1, m r = (Ok v, r1) /\ f v r1 = (Ok w, r').
Proof. unfold mbind, js_bind. destruct (m r) as [[v|e] r1] eqn:E; [|done]. eauto. Qed.

Lemma parses_weaken {A} (m : js t A) k k' (U U' Q Q' : A -> Prop) : parses m k U Q -> k' <= k ->
  (forall v, U v -> U' v) -> (forall v, U v -> Q v -> Q' v) -> parses m k' U' Q'.
Proof.
  intros Hm Hk HU HQ r v r' Hb Hl Hp He. destruct (Hm r v r' Hb Hl Hp He) as (H1 & H2 & H3 & H4). split_and!; [done|lia|auto|auto].
Qed.

Lemma parses_ret {A} (v : A) (U Q : A -> Prop) : U v -> Q v -> parses (mret v) 0 U Q.
Proof. intros HU HQ r w r' _ _ _ He. injection He as <- <-. split_and!; (done || lia). Qed.

Lemma parses_lift {A} (x : result A) : parses (js_lift x) 0 (fun v => x = Ok v) (fun _ => True).
Proof. intros r w r' _ _ _ He. unfold js_lift in He. injection He as -> <-. split_and!; (done || lia). Qed.

Lemma parses_get : parses js_get 0 (fun _ => True) (fun _ => True).
Proof. intros r w r' _ _ _ He. injection He as <- <-. split_and!; (done || lia). Qed.

Lemma parses_bind {A B} (m : js t A) (f : A -> js t B) k1 k2 (U1 Q1 : A -> Prop) (U2 Q2 : B -> Prop) :
  0 <= k1 -> 0 <= k2 -> parses m k1 U1 Q1 -> (forall v, U1 v -> parses (f v) k2 U2 (fun w => Q1 v -> Q2 w)) ->
  parses (m ≫= f) (k1 + k2) U2 Q2.
Proof.
  intros Hk1 Hk2 Hm Hf r w r' Hb Hl Hp He. apply bind_inv in He as (v & r1 & Hv & Hw).
  destruct (Hm r v r1 Hb Hl Hp Hv) as (E1 & P1 & HU1 & HQ1).
  destruct (Hf v HU1 r1 w r') as (E2 & P2 & HU2 & HQ2); [by rewrite E1..|lia|done|].
  rewrite E1 in *. split_and!; [done|lia|done|]. intros Hle. apply HQ2; [done|]. apply HQ1. lia.
Qed.

Lemma ends_bind {A B} (m : js t A) (f : A -> js t B) : (forall v, ends (f v)) -> ends (m ≫= f).
Proof. intros Hf r w r' He. apply bind_inv in He as (v & r1 & _ & Hw). by eapply Hf. Qed.

Lemma ends_map {A B} (m : js t A) (g : A -> B) : ends m -> ends (v ← m; mret (g v)).
Proof. intros Hm r w r' He. apply bind_inv in He as (v & r1 & Hv & Hw). injection Hw as _ <-. by eapply Hm. Qed.

(** A reader that has not passed the end when it returns: all its facts hold at once. *)
Lemma parses_ends {A} (m : js t A) k (U Q : A -> Prop) : ends m -> parses m k U Q -> parses m k Q Q.
Proof.
  intros He Hm r v r' Hb Hl Hp Hv. destruct (Hm r v r' Hb Hl Hp Hv) as (H1 & H2 & _ & H4). specialize (He r v r' Hv). rewrite H1 in He.
  split_and!; auto.
Qed.

(** *** Numbers *)

Lemma byte_at_ok b i : bytes_ok b -> byte_ok (byte_at b i).
Proof.
  intros Hb. unfold byte_at. destruct (nth_in_or_default (Z.to_nat i) b 0) as [Hin| ->]; [|unfold byte_ok; lia].
  eapply Forall_forall; [exact Hb|]. by apply list_elem_of_In.
Qed.

Lemma fixed_read f w r v r' : read_fixed f w r = (Ok v, r') -> f (buf r) (pos r) = Ok v /\ r' = ReaderLemmas.adv r w.
Proof. unfold read_fixed. js_look. destruct (f (buf r) (pos r)) eqn:E; [rewrite (js_lift_ok _ _ _ _ eq_refl)|done]. intros He. by injection He as <- <-. Qed.

Lemma offset_checked o e n (x v : Z) : (Buf.checkOffset o e n;; Ok x) = Ok v -> o + e <= n /\ x = v.
Proof.
  unfold Buf.checkOffset. destruct (o <? 0); [done|]. destruct (Z.gtb_spec (o + e) n); [done|]. cbn. intros He. injection He as ->. split; [lia|done].
Qed.

Lemma read_fixed_parses f w (P : Z -> Prop) : 0 <= w -> (forall b o v, bytes_ok b -> f b o = Ok v -> o + w <= zlen b /\ P v) ->
  parses (read_fixed f w) w P (fun _ => True) .
Proof.
  intros Hw Hf r v r' Hb Hl Hp He. apply fixed_read in He as [He ->]. destruct (Hf _ _ _ Hb He) as [H1 H2].
  split_and!; [done|cbn; lia|done|done].
Qed.

Lemma lor_shift a b k : 0 <= a < 2 ^ k -> 0 <= k -> 0 <= b -> Z.lor a (Z.shiftl b k) = a + b * 2 ^ k.
Proof. intros. by apply lor_disjoint. Qed.

Lemma u8_parses : parses readUInt8 1 byte_ok (fun _ => True).
Proof. apply read_fixed_parses; [lia|]. intros b o v Hb [Ho <-]%offset_checked. split; [done|by apply byte_at_ok]. Qed.

Lemma u16_parses : parses readUInt16LE 2 (fun v => 0 <= v) (fun _ => True).
Proof.
  apply read_fixed_parses; [lia|]. intros b o v Hb [Ho <-]%offset_checked. split; [done|].
  apply Z.lor_nonneg. split; [|apply Z.shiftl_nonneg]; apply byte_at_ok; done.
Qed.

Lemma u32_parses : parses readUInt32LE 4 WireFormat.u32 (fun _ => True).
Proof.
  apply read_fixed_parses; [lia|]. intros b o v Hb [Ho <-]%offset_checked. split; [done|].
  pose proof (byte_at_ok b o Hb) as H0. pose proof (byte_at_ok b (o + 1) Hb) as H1. pose proof (byte_at_ok b (o + 2) Hb) as H2. pose proof (byte_at_ok b (o + 3) Hb) as H3.
  unfold byte_ok, WireFormat.u32 in *. rewrite (lor_disjoint _ _ 8), (lor_disjoint _ _ 16) by lia. lia.
Qed.

Lemma u32_ends : ends readUInt32LE.
Proof. intros r v r' [He ->]%fixed_read. apply offset_checked in He as [Ho _]. cbn. lia. Qed.

(** A number made from a natural number is not negative. *)
Lemma round_aux_sign m e l : 0 <= num_trunc (binary_round_aux prec emax false m e l).
Proof.
  assert (forall p k, 0 <= trunc_mag p k) as Hm.
  { intros p k. unfold trunc_mag. case_match; [by apply Z.shiftl_nonneg|by apply Z.shiftr_nonneg]. }
  unfold binary_round_aux. destruct (shr_fexp prec emax m e l) as [mrs' e']. destruct (shr_fexp prec emax _ e' loc_Exact) as [mrs'' e''].
  destruct (shr_m mrs''); cbn; [done| |done]. destruct (e'' <=? _); cbn; [apply Hm|done].
Qed.

Lemma num_of_Z_nonneg z : 0 <= z -> 0 <= num_trunc (num_of_Z z).
Proof.
  intros Hz. unfold num_of_Z, binary_normalize. destruct z as [|p|p]; [done| |done]. unfold binary_round.
  destruct (shl_align p 0 _) as [mz ez]. apply round_aux_sign.
Qed.

Lemma slice_ok s e b : bytes_ok b -> bytes_ok (Buf.slice s e b).
Proof. intros Hb. unfold Buf.slice. cbv zeta. rewrite ztake_take, zdrop_drop. by apply Forall_take, Forall_drop. Qed.

Lemma slice_short s e b : zlen (Buf.slice s e b) <= zlen b.
Proof. unfold Buf.slice. cbv zeta. rewrite ztake_take, zdrop_drop. unfold zlen. rewrite length_take, length_drop. lia. Qed.

Lemma slice_exact s n b : zlen b < 2 ^ 30 -> 0 <= s -> 0 <= n -> n + s <= zlen b -> zlen (Buf.slice s (s + n) b) = n.
Proof.
  intros Hb Hs Hn Hl. unfold Buf.slice. cbv zeta. rewrite !wrap32_small by lia.
  rewrite !(proj2 (Z.ltb_ge _ 0)) by lia.
  destruct (Z.gtb_spec s (zlen b)); [lia|]. destruct (Z.gtb_spec (s + n) (zlen b)); [lia|]. rewrite (proj2 (Z.ltb_ge (s + n) s)) by lia.
  rewrite zlen_ztake, zlen_zdrop by lia. lia.
Qed.

Lemma read_parses n : 0 <= n -> parses (read n) n (fun v => bytes_ok v /\ zlen v < 2 ^ 30) (fun v => zlen v = n).
Proof.
  intros Hn r v r' Hb Hl Hp He. unfold read, skip in He. revert He. js_look. cbv zeta. js_set. intros He. injection He as <- <-.
  split_and!; [done|cbn; lia|by apply slice_ok|pose proof (slice_short (pos r) (pos r + n) (buf r)); lia|].
  intros Hle. cbn in Hle. apply slice_exact; lia.
Qed.

Lemma readReverse_parses n : 0 <= n -> parses (readReverse (Some n)) n (fun v => bytes_ok v /\ zlen v < 2 ^ 30) (fun v => zlen v = n).
Proof.
  intros Hn r v r' Hb Hl Hp He. unfold readReverse, skip in He. revert He. js_look. cbv zeta. js_set. intros He. injection He as <- <-.
  assert (forall l : list Z, zlen (rev l) = zlen l) as Hr by (intros l; unfold zlen; by rewrite length_rev).
  rewrite !Hr. split_and!; [done|cbn; lia|by apply Forall_rev, slice_ok|pose proof (slice_short (pos r) (pos r + n) (buf r)); lia|].
  intros Hle. cbn in Hle. apply slice_exact; lia.
Qed.

Lemma u64_parses : parses readUInt64LEBN 8 (fun v => 0 <= v) (fun v => 0 <= v < 2 ^ 64).
Proof.
  intros r v r' Hb Hl Hp He. unfold readUInt64LEBN, skip in He. revert He. js_look. cbv zeta. js_set. intros He. injection He as <- <-.
  rewrite fromBuffer_le_value, rev_involutive. pose proof (BlockLemmas.le_value_bound _ (slice_ok (pos r) (pos r + 8) _ Hb)) as Hv.
  split_and!; [done|cbn; lia|lia|]. intros Hle. cbn in Hle. rewrite slice_exact in Hv by lia. exact Hv.
Qed.

Lemma varint_parses : parses readVarintNum 1 (fun v => 0 <= v) (fun _ => True).
Proof.
  unfold readVarintNum. change 1 with (1 + 0). eapply parses_bind; [lia|lia|apply u8_parses|]. intros first Hf. cbn beta in *.
  destruct (first =? 0xFD); [eapply parses_weaken; [apply u16_parses|lia|auto..]|].
  destruct (first =? 0xFE); [eapply parses_weaken; [apply u32_parses|lia|unfold WireFormat.u32; lia|auto]|].
  destruct (first =? 0xFF); [|apply parses_ret; [unfold byte_ok in Hf; lia|auto]].
  apply (parses_weaken _ (8 + 0) 0 (fun v => 0 <= v) _ (fun _ => True)); [|lia|auto..]. eapply parses_bind; [lia|lia|apply u64_parses|]. intros bn Hbn. cbv zeta.
  destruct (num_le _ _).
  - apply parses_ret; [by apply num_of_Z_nonneg|done].
  - intros r v r' _ _ _ He. done.
Qed.

Lemma var_buffer_parses : parses readVarLengthBuffer 1 (fun v => bytes_ok v /\ zlen v < 2 ^ 30) (fun _ => True).
Proof.
  unfold readVarLengthBuffer. change 1 with (1 + 0). eapply parses_bind; [lia|lia|apply varint_parses|]. intros n Hn. cbn beta in *.
  apply (parses_weaken _ (n + (0 + 0)) 0 (fun v => bytes_ok v /\ zlen v < 2 ^ 30) _ (fun _ => True)); [|lia|auto..]. eapply parses_bind; [lia|lia|by apply read_parses|]. intros b Hb. cbn beta in *.
  eapply parses_bind; [lia|lia|apply parses_lift|]. intros [] _. by apply parses_ret.
Qed.

(** As many items as bytes at most *)
Lemma read_times_parses {A} (m : js t A) (Q : A -> Prop) fuel : ends m -> parses m 1 Q Q -> forall n,
  parses (Transaction.read_times fuel n m) 0 (fun l => Forall Q l /\ zlen l < 2 ^ 30) (fun _ => True).
Proof.
  intros He Hm. assert (forall n r l r', bytes_ok (buf r) -> zlen (buf r) < 2 ^ 30 -> 0 <= pos r ->
    Transaction.read_times fuel n m r = (Ok l, r') ->
    buf r' = buf r /\ pos r + zlen l <= pos r' /\ Forall Q l /\ (l = [] \/ pos r' <= zlen (buf r))) as Hall.
  { induction fuel as [|fuel IH]; intros n r l r' Hb Hl Hp Hr; cbn [Transaction.read_times] in Hr; destruct (n <=? 0).
    1,3: injection Hr as <- <-; split_and!; [done|change (zlen (@nil A)) with 0; lia|constructor|by left].
    - done.
    - apply bind_inv in Hr as (x & r1 & Hx & Hr). destruct (Hm r x r1 Hb Hl Hp Hx) as (E1 & P1 & HU & _). apply He in Hx.
      apply bind_inv in Hr as (l' & r2 & Hr & Hw). injection Hw as <- <-.
      destruct (IH (n - 1) r1 l' r2) as (E2 & P2 & HF & Hend); [by rewrite E1..|lia|done|]. rewrite E1 in *.
      rewrite zlen_cons. split_and!; [done|lia|by constructor|]. right. destruct Hend as [->|?]; [|done].
      destruct fuel; cbn [Transaction.read_times] in Hr; (destruct (n - 1 <=? 0); [by injection Hr as <-|]); [done|].
      apply bind_inv in Hr as (y & r3 & _ & Hr). apply bind_inv in Hr as (l2 & r4 & _ & Hr). done. }
  intros n r l r' Hb Hl Hp Hr. destruct (Hall n r l r' Hb Hl Hp Hr) as (H1 & H2 & H3 & H4). pose proof (zlen_nonneg l).
  split_and!; [done|lia|done| |done]. destruct H4 as [->|]; [done|lia].
Qed.
End Readers.

(** ** Transactions and blocks *)
Module ParseLemmas.
Import WireFormat Partial BlockFormat Readers.

(** Follow a reader field by field; what is left are the facts about its result. *)
Ltac parse_field H := eapply parses_bind; [lia|lia|H|]; intros ? ?; cbn beta in *.
Ltac parse_end := apply parses_ret; [exact I|intros; cbn beta in *].

Lemma output_parses : parses Output.fromBufferReader 1 (fun _ => True) wf_output.
Proof.
  unfold Output.fromBufferReader. apply (parses_weaken _ (8 + (1 + 0)) 1 (fun _ => True) _ wf_output); [|lia|auto..].
  parse_field ltac:(apply u64_parses). cbv zeta. parse_field ltac:(apply varint_parses). destruct (negb _).
  - apply (parses_weaken _ (v0 + 0) 0 (fun _ => True) _ (fun w => True -> 0 <= v < 2 ^ 64 -> wf_output w)); [|lia|auto..].
    parse_field ltac:(by apply read_parses). parse_end. by split.
  - parse_end. split; [done|]. cbn. split; [constructor|done].
Qed.

Lemma input_parses : parses Input.fromBufferReader 1 (fun _ => True) wf_input.
Proof.
  unfold Input.fromBufferReader. apply (parses_weaken _ (32 + (4 + (1 + (4 + 0)))) 1 (fun _ => True) _ wf_input); [|lia|auto..].
  parse_field ltac:(by apply readReverse_parses). parse_field ltac:(apply u32_parses).
  parse_field ltac:(apply var_buffer_parses). parse_field ltac:(apply u32_parses). parse_end. unfold wf_input. cbn. naive_solver.
Qed.

Lemma header_parses : parses BlockHeader.fromBufferReader 80 wf_header wf_header.
Proof.
  apply (parses_ends _ _ (fun _ => True)).
  - unfold BlockHeader.fromBufferReader. do 5 (apply ends_bind; intros ?). apply ends_map, u32_ends.
  - unfold BlockHeader.fromBufferReader. change 80 with (4 + (32 + (32 + (4 + (4 + (4 + 0)))))).
    parse_field ltac:(apply u32_parses). parse_field ltac:(by apply read_parses). parse_field ltac:(by apply read_parses).
    parse_field ltac:(apply u32_parses). parse_field ltac:(apply u32_parses). parse_field ltac:(apply u32_parses).
    parse_end. unfold wf_header, hash_ok. cbn. naive_solver.
Qed.

(** The loops of a transaction read items that need not end with a number: what holds of the items holds
    once the end is reached. *)
Lemma items_parses {A} (m : js BufferReader.t A) (Q : A -> Prop) fuel : parses m 1 (fun _ => True) Q -> forall n,
  parses (Transaction.read_times fuel n m) 0 (fun _ => True) (fun l => Forall Q l /\ zlen l < 2 ^ 30).
Proof.
  intros Hm. assert (forall n r l r', bytes_ok (BufferReader.buf r) -> zlen (BufferReader.buf r) < 2 ^ 30 -> 0 <= BufferReader.pos r ->
    Transaction.read_times fuel n m r = (Ok l, r') ->
    BufferReader.buf r' = BufferReader.buf r /\ BufferReader.pos r + zlen l <= BufferReader.pos r'
    /\ (BufferReader.pos r' <= zlen (BufferReader.buf r) -> Forall Q l)) as Hall.
  { induction fuel as [|fuel IH]; intros n r l r' Hb Hl Hp Hr; cbn [Transaction.read_times] in Hr; destruct (n <=? 0).
    1,3: injection Hr as <- <-; split_and!; [done|change (zlen (@nil A)) with 0; lia|constructor].
    - done.
    - apply bind_inv in Hr as (x & r1 & Hx & Hr). destruct (Hm r x r1 Hb Hl Hp Hx) as (E1 & P1 & _ & HQ).
      apply bind_inv in Hr as (l' & r2 & Hr & Hw). injection Hw as <- <-.
      destruct (IH (n - 1) r1 l' r2) as (E2 & P2 & HF); [by rewrite E1..|lia|done|]. rewrite E1 in *. rewrite zlen_cons. pose proof (zlen_nonneg l').
      split_and!; [done|lia|]. intros Hle. constructor; [apply HQ; lia|by apply HF]. }
  intros n r l r' Hb Hl Hp Hr. destruct (Hall n r l r' Hb Hl Hp Hr) as (H1 & H2 & H3). pose proof (zlen_nonneg l).
  split_and!; [done|lia|done|]. intros Hle. split; [by apply H3|lia].
Qed.

Lemma tx_parses : parses Transaction.fromBufferReader 1 wf_tx wf_tx.
Proof.
  apply (parses_ends _ _ (fun _ => True)).
  - unfold Transaction.fromBufferReader. do 7 (apply ends_bind; intros ?). apply ends_map, u32_ends.
  - unfold Transaction.fromBufferReader. apply (parses_weaken _ (0 + (0 + (4 + (1 + (0 + (1 + (0 + (4 + 0)))))))) 1 (fun _ => True) _ wf_tx); [|lia|auto..].
    parse_field ltac:(apply parses_get). parse_field ltac:(apply parses_lift). cbv zeta.
    parse_field ltac:(apply u32_parses). parse_field ltac:(apply varint_parses). parse_field ltac:(apply items_parses, input_parses).
    parse_field ltac:(apply varint_parses). parse_field ltac:(apply items_parses, output_parses). parse_field ltac:(apply u32_parses).
    parse_end. unfold wf_tx. cbn. naive_solver.
Qed.

Lemma tx_ends : ends Transaction.fromBufferReader.
Proof. unfold Transaction.fromBufferReader. do 7 (apply ends_bind; intros ?). apply ends_map, u32_ends. Qed.

Lemma block_parses : parses Block.fromBufferReader 81 wf_block (fun _ => True).
Proof.
  unfold Block.fromBufferReader. change 81 with (0 + (0 + (80 + (1 + (0 + 0))))).
  parse_field ltac:(apply parses_get). parse_field ltac:(apply parses_lift). parse_field ltac:(apply header_parses).
  parse_field ltac:(apply varint_parses). parse_field ltac:(apply read_times_parses; [apply tx_ends|apply tx_parses]).
  apply parses_ret; [|done]. unfold wf_block. cbn. naive_solver.
Qed.
End ParseLemmas.

Section ParseTheorems.
Import WireFormat Partial BlockFormat Readers ParseLemmas.

(** C28: whatever bytes a block is read from, and however they are cut or continued, if reading returns
    then the block is well formed: every number is in range, every hash has 32 bytes, every script and
    every list has at most as many bytes as the input, and the block can be written and read again. *)
Theorem parsed_block_wf buf b : bytes_ok buf -> zlen buf < 2 ^ 30 -> Block.fromBuffer buf = Ok b ->
  wf_block b /\ Block.toBuffer b = Ok (block_bytes b).
Proof.
  intros Hb Hl He. unfold Block.fromBuffer in He. destruct (Block.fromBufferReader (BufferReader.new buf)) as [r1 r'] eqn:E. cbn [fst] in He. subst r1.
  destruct (block_parses (BufferReader.new buf) b r' Hb Hl ltac:(done) E) as (_ & _ & Hwf & _). split; [done|].
  by apply (Codec.writes_concat (Block.toBufferWriter b)), block_writes.
Qed.

Lemma parsed_block_wf_witness :
  Block.fromBuffer (block_bytes demo_block ++ [9]) = Ok (fresh_block demo_block) /\ wf_block (fresh_block demo_block).
Proof.
  assert (Block.fromBuffer (block_bytes demo_block ++ [9]) = Ok (fresh_block demo_block)) as He by (by vm_compute).
  split; [exact He|]. apply (parsed_block_wf (block_bytes demo_block ++ [9])); [|by vm_compute|exact He].
  apply (bool_decide_unpack _). by vm_compute.
Defined.
End ParseTheorems.
